(* ===== verification/_CoqProject ===== *)
-Q . S2P
Prelude.v
GoStd.v
GoEncoding.v
GoSha256.v
Errors.v
GoJson.v
K8sTypes.v
ApiTypes.v
Effects.v
Cluster.v
Client.v
Deletion.v
Transformations.v
Startup.v
Lifecycle.v
RemoteLifecycle.v
OperatorUtils.v
StatusHelpers.v
Status.v
EventFilter.v
Helpers.v
Reconcile.v
Etcd.v
EnvBuilder.v
VolumeBuilder.v
Secrets.v
AgentObjects.v
SensorObjects.v
DaemonSet.v
K8sDeployment.v
EtcdRoundTrip.v
Behaves.v
Deferring.v
Controllers.v
ControllerProofs.v
Resources.v
RemoteStatus.v
RemoteVolumeBuilder.v
RemoteEnvBuilder.v
RemoteObjects.v
Hostname.v
RemoteDeployment.v
RemoteControllers.v
RemoteControllerProofs.v
Watches.v
Main.v
Obedient.v
Records.v
Store.v
Convergence.v
Life.v
RemoteConvergence.v
Coexistence.v
