(* ===== verification/Prelude.v ===== *)
(** * The Instana agent operator, modelled

    The operator (src/, Go) watches two custom resources, InstanaAgent and
    InstanaAgentRemote.  For each it makes the cluster hold the objects the
    resource asks for (daemon sets, deployments, secrets, config maps, rbac),
    removes those it does not ask for any more, reports the outcome in the
    status of the resource, and takes everything away when the resource is
    deleted.  This library translates that program and proves what it
    promises.

    ** How the program is modelled

    A Go function without effects is a Gallina function; one that may panic
    returns [or_panic]; one that talks to the cluster is a computation
    [M W X A] of Effects.v: it passes a world [W] along, may change the local
    state [X] (the status manager a reconciliation has created), appends each
    request and its answer to a trace, and returns, panics or runs out of
    fuel.  What is not in the repository is a class of operations, with its
    documented behaviour in a class of laws that only the theorems needing it
    assume: the API server, clock and processes ([K8sApi], [ClockLaws]), the
    classification of API errors ([ApiErrors]), finalizer helpers, conditions,
    semantic versions, the JSON of recorded dependents ([DependentsCodec]),
    YAML, the order of map iteration ([MapRange]), the environment,
    controller-runtime ([ControllerRuntime]), its cache ([ObjectCache]) and its
    manager ([ManagerRuntime]).  No theorem
    restricts what the API server answers unless it says so: any call may
    fail, and change the world in any way.  Cluster.v is an executable
    instance of all of them, on which the witnesses run.

    Integers are Z; the ones the code bounds are wrapped ([int32]) or shown to
    fit.  Strings are byte strings, as Go's.  A nil pointer, map or slice is
    [None] where the code can tell it from an empty one.  Go maps are [gmap]s.

    ** The files, from the bottom up

    - Foundations.  Prelude: notations, record update, lists, [Join] and
      [Split], byte order.  GoStd: pkg/optional, pkg/pointer, pkg/collections.
      GoEncoding, GoSha256: net/url, base64 and SHA-256 as the builders use
      them.  Errors: pkg/multierror, pkg/recovery, pkg/result, pkg/or_die,
      pkg/map_defaulter.  GoJson: pkg/json_or_die and pkg/hash, with
      crypto/md5.  K8sTypes: the Kubernetes types, with the fields the
      code mentions.  ApiTypes: api/v1, the custom resources and [Default].
      Effects and Cluster: see above.
    - Acting on the cluster.  Startup: the clean-up of an old operator in
      main.go, pkg/k8s/client/warnings.go.  Client: pkg/k8s/client, what a reported deletion
      means and that it ends; Deletion: when it is reported.  Transformations:
      pkg/k8s/object/transformations, labels and owner references, and the
      object builders.  Lifecycle and RemoteLifecycle: pkg/k8s/operator/lifecycle,
      the record of dependents.  OperatorUtils: pkg/k8s/operator/operator_utils; [ApplyAll]
      is proved against the interface [LifecycleContract] that Lifecycle
      promises and both life cycle managers implement, and refines the
      abstract run [apply_run], whose registration writes the record of the
      manager ([registering]) and whose clean-up deletes what is recorded and
      not made any more ([cleaning]); the remote agent's utilities are translated
      next to it and shown to be the same functions.
    - Status.  StatusHelpers, Status and RemoteStatus:
      pkg/k8s/operator/status.
    - Builders of objects (pkg/k8s/object/builders).  Helpers: names, ports,
      backends.  EnvBuilder, VolumeBuilder and their Remote counterparts: the
      symbolic variables and volumes.  Secrets, AgentObjects, DaemonSet: the
      agent.  SensorObjects, K8sDeployment: the k8sensor.  RemoteObjects,
      Hostname, RemoteDeployment: the remote agent.
    - Reconciliation (controllers).  EventFilter: what triggers one.
      Reconcile: reading, patching, finalizers, deletion, questions to the
      cluster.  Etcd: discovery of etcd and the context of the k8sensor's
      deployments; EtcdRoundTrip: discovery and deployment together.
      Deferring: the deferred status update and recovery.  Controllers and
      RemoteControllers: the two [Reconcile]s and the builders each applies.
      Behaves: the invariant of every step; Resources: what the builders make;
      ControllerProofs and RemoteControllerProofs: the whole reconciliations.
    - The process.  Watches: [Add] and [AddRemote], what triggers which
      reconciliation, and what the options of [getCacheOptions] let the
      operator see, for every controller-runtime and cache that keep their
      documentation.  Main: [main] of main.go as the sequence of its steps,
      each of which may fail or not return.
    - The whole.  Obedient: a cluster that does what it is asked, and what the
      steps of the operator achieve on it, for both life cycle managers
      ([ObeyingManager]); Records: what the record lists and which objects a
      step touches; Store: an executable cluster of this kind, with any number
      of custom resources; Convergence: one reconciliation of an InstanaAgent;
      Life: its reconciliations from creation to deletion; RemoteConvergence:
      the same for a remote agent; Coexistence: reconciliations of several
      custom resources on one cluster.

    Definitions keep the names of the source.  A method of the remote agent
    whose name the agent's has too is prefixed: [remote_] for most, [rd_] for
    the deployment builder ([ds_], [db_] for the builders of the daemon set
    and of the k8sensor's deployments).  A part of a long function that a
    proof needs on its own is a definition of its own, just before it.

    ** What the theorems show

    - A cluster that does what it is asked comes to hold every object an
      InstanaAgent asks for, and its deletion leaves nothing of it if the
      record of its dependents is there (Life).  The InstanaAgent has its
      k8sensor enabled: with a disabled one every reconciliation ends in an
      error ([UpdateAgentStatus_disabled_sensor]).  The same holds for a remote
      agent, whose completed deletion ends in an error all the same
      (RemoteConvergence).  InstanaAgents of different
      namespaces leave each other alone if their cluster-wide roles have
      different names, and an InstanaAgent and a remote agent of one name
      destroy each other's objects (Coexistence).
      "What it is asked" is spelled out by [obedient] and [cooperative]: it
      accepts requests about objects that say their name and kind, finds what
      it holds, and a read that fails says not found.
    - A reconciliation ends, lets no panic out, writes the status once at its
      end, and reports every error (ControllerProofs, RemoteControllerProofs,
      Status, RemoteStatus); its [applyResources] never panics on a defaulted
      resource and refines the abstract run (Resources).
    - Nothing is changed before everything passed a dry run, nothing is
      deleted before everything was applied, only recorded objects that are
      not asked for any more are deleted, and whatever fails no recorded
      object is forgotten but the ones the theorems name (OperatorUtils,
      Lifecycle).  The finalizer is dropped only after a clean-up that
      succeeded (Reconcile, RemoteControllers).
    - Deletions: success means requested, then looked up and gone (Client), and objects that go in time make
      it succeed (Deletion).
    - The objects: distinct identities, if the zones have distinct names and
      the service account is not named like the sensor's resources
      (Resources), selectors that select
      their own pods, volumes mounted once, distinct and sorted variables, no
      secret in the environment when secrets are mounted, exactly the secret
      entries that are mounted, sender files exactly for usable backends, host
      names that are labels (the builders' files); the remote agent's copies
      of the agent's code agree with it (RemoteObjects, RemoteLifecycle).
    - Etcd: only usable resources are copied before the monitoring is enabled
      (Etcd); what is written for discovered targets is read back
      (EtcdRoundTrip).
    - The manager is started only when every step of its preparation worked,
      after exactly the old operator's objects were deleted; [main] does not
      end while the manager runs (Main, Startup).
    - Events: exactly which updates pass the filters (EventFilter), and of
      which objects they trigger a reconciliation; reads through the cache
      find what the operator applies, and of the types restricted by label
      nothing else (Watches).

    Where the code does not do what it seems to mean, the theorem states what
    it does, with the condition that makes the difference
    ([deployment_selector_matches_iff], [getHostName_label_iff],
    [sensor_variables_twice], [deletion_without_record], [remote_deletion],
    [namesakes_destroy_each_other], ...).

    ** Fuel and bounds

    Only [verifyDeletion] recurses without a structural argument: it runs
    [verify_fuel] rounds, which [deleteAllInTimeLimit_runs] shows to be enough
    for its time limit, each round sleeping at least the wait time.  [retry]
    makes five attempts, as the code.  Everything else is structural, so that
    [Reconcile_returns] and [RemoteReconcile_reports] hold without any fuel.
    In Main the outcome [OutOfFuel] is that of a step that does not return.

    ** Not modelled

    The parsing of the command line, version and the registration of types
    (but for the group and kinds it uses, [registeredKind]) only set the process
    up; logging and events' sinks have no influence on
    the outcome (an event the operator records is in the trace); the mocks are
    generated.  What controller-runtime does with watches, filters and the
    cache is not code of the repository: its operations are parameters, and
    Watches assumes of them the laws [ControllerRuntimeLaws] and
    [ObjectCacheLaws], which an example satisfies.  Garbage collection by owner references
    is not modelled: the record of dependents and the copies for etcd, which
    only it removes, are named in [unrecorded].  Two reconciliations do not
    run at the same time for one resource (controller-runtime's queue), so
    the interleaving considered is that of the operator with everything else
    that changes the cluster: the world may change at every call.  A deep copy
    is the identity on values; where the source writes into a map of the
    custom resource it has read (pod labels), the files say why the order of
    readers makes that unobservable. *)
From stdpp Require Export base gmap strings list pretty sorting.
From Stdlib Require Export Ascii ZArith Lia.

#[global] Set Default Goal Selector "!".

(** ** Notations and hint databases *)

Declare Scope operator_scope.
Delimit Scope operator_scope with op.
#[global] Open Scope operator_scope.

(** Concatenation of Go strings. *)
Notation "a +++ b" := (String.append a b)
  (at level 60, right associativity) : operator_scope.

Create HintDb operator.
Create HintDb operator_rw.

(** ** Record update

    [set f g r] is the Go assignment [r.f = g(r.f)].  A record declares its
    eta expansion once ([Settable]); the setter of each field is derived. *)

Class Settable (R : Type) := eta : R → R.
#[global] Hint Mode Settable ! : typeclass_instances.

Class Setter {R T : Type} (getter : R → T) := set : (T → T) → R → R.
Arguments set {R T} getter {_} _ _.

Ltac derive_setter :=
  lazymatch goal with
  | |- @Setter ?R ?T ?getter =>
      let f := fresh "f" in
      let r := fresh "r" in
      unfold Setter; intros f r;
      let b := constr:(@eta R _ r) in
      let b := eval cbv beta delta [eta] in b in
      let b := lazymatch b with
               | ?inst r => let h := eval red in (inst r) in h
               | _ => b
               end in
      let b := eval pattern (getter r) in b in
      lazymatch b with ?F _ => exact (F (f (getter r))) end
  end.

#[global] Hint Extern 1 (Setter _) => derive_setter : typeclass_instances.

Notation "r <| f := v |>" := (set f (fun _ => v) r)
  (at level 1, left associativity, f at next level) : operator_scope.
Notation "r <| f ::= g |>" := (set f g r)
  (at level 1, left associativity, f at next level) : operator_scope.

Module SetterTest.
Record t := mk { a : nat; b : string }.
#[local] Instance eta_t : Settable t := fun r => mk (a r) (b r).
Example set_b : (mk 1 "x") <| b := "y" |> = mk 1 "y".
Proof. reflexivity. Qed.
End SetterTest.

(** ** Proof automation *)

(** Case analysis on the scrutinee of some match or conditional. *)
Ltac break_match_goal :=
  match goal with
  | |- context [match ?x with _ => _ end] => destruct x eqn:?
  end.
Ltac break_match_hyp :=
  match goal with
  | H : context [match ?x with _ => _ end] |- _ => destruct x eqn:?
  end.
Ltac crush := repeat (break_match_goal; simplify_eq/=; try done).

(** ** Lists *)

Lemma list_filter_all {A} (P : A → Prop) `{∀ x, Decision (P x)} (l : list A) :
  (∀ x, x ∈ l → P x) → filter P l = l.
Proof.
  induction l as [|x l IH]; intros Hl; [done|].
  rewrite filter_cons_True by (apply Hl; set_solver). f_equal. apply IH. set_solver.
Qed.

(** ** Strings of the Go standard library *)

(** [strconv.Itoa] and the [%d] verb. *)
Definition itoa (z : Z) : string := pretty z.

(** [strings.HasPrefix]. *)
Definition HasPrefix (s prefix : string) : bool := String.prefix prefix s.

(** [strings.Contains]. *)
Fixpoint Contains (s sub : string) : bool :=
  String.prefix sub s ||
  match s with
  | EmptyString => false
  | String _ s' => Contains s' sub
  end.

(** [strings.Join]. *)
Fixpoint Join (l : list string) (sep : string) : string :=
  match l with
  | [] => ""
  | [x] => x
  | x :: l' => x +++ sep +++ Join l' sep
  end.

(** [strings.Repeat]. *)
Definition Repeat (s : string) (n : nat) : string :=
  Join (replicate n s) "".

(** [strings.Split] with a separator of one byte: always at least one part. *)
Fixpoint Split (s : string) (sep : ascii) : list string :=
  match s with
  | EmptyString => [""]
  | String c s' =>
      if Ascii.eqb c sep then "" :: Split s' sep
      else match Split s' sep with
           | [] => [String c ""]
           | p :: ps => String c p :: ps
           end
  end.

Fixpoint string_in (c : ascii) (s : string) : bool :=
  match s with
  | EmptyString => false
  | String d s' => Ascii.eqb d c || string_in c s'
  end.

Lemma string_app_cons c s t : (String c s) +++ t = String c (s +++ t).
Proof. reflexivity. Qed.

Lemma string_app_nil_r s : s +++ "" = s.
Proof. induction s as [|c s IH]; [done|]. by rewrite string_app_cons, IH. Qed.

Lemma string_app_assoc a b c : (a +++ b) +++ c = a +++ b +++ c.
Proof. induction a as [|x a IH]; [done|]. by rewrite !string_app_cons, IH. Qed.

Lemma string_length_app a b :
  String.length (a +++ b) = (String.length a + String.length b)%nat.
Proof. induction a as [|x a IH]; [done|]. rewrite string_app_cons; simpl. by rewrite IH. Qed.

Lemma string_app_inj_l a b c : a +++ b = a +++ c → b = c.
Proof. induction a as [|x a IH]; [done|]. rewrite !string_app_cons. naive_solver. Qed.
Lemma string_app_inj_r a b c : a +++ c = b +++ c → a = b.
Proof.
  revert b. induction a as [|x a IH]; intros [|y b] E; [done|..].
  - apply (f_equal String.length) in E. rewrite !string_length_app in E. simpl in E. lia.
  - apply (f_equal String.length) in E. rewrite !string_length_app in E. simpl in E. lia.
  - simpl in E. injection E as -> E. f_equal. by apply IH.
Qed.

Lemma HasPrefix_app a b : HasPrefix (a +++ b) a = true.
Proof.
  unfold HasPrefix. induction a as [|x a IH]; [by destruct b|].
  rewrite string_app_cons. simpl. by destruct (ascii_dec x x).
Qed.

Lemma HasPrefix_spec s p : HasPrefix s p = true ↔ ∃ t, s = p +++ t.
Proof.
  split; [|by intros [t ->]; apply HasPrefix_app].
  unfold HasPrefix. revert s. induction p as [|c p IH]; intros s; [by exists s|].
  destruct s as [|d s]; [done|]. simpl. destruct (ascii_dec c d) as [->|]; [|done].
  intros [t ->]%IH. by exists t.
Qed.
Lemma strings_Contains_spec s sub : Contains s sub = true ↔ ∃ a b, s = a +++ sub +++ b.
Proof.
  assert (Hs : Contains s sub = HasPrefix s sub || match s with "" => false | String _ s' => Contains s' sub end)
    by by destruct s.
  revert Hs. induction s as [|c s IH]; intros Hs; rewrite Hs, orb_true_iff, HasPrefix_spec.
  - split; [intros [[t E]|]; [|done]; by exists "", t|]. intros ([|c a] & b & E); [left; by exists b|discriminate E].
  - rewrite IH by by destruct s. split.
    + intros [[t E]|(a & b & ->)]; [by exists "", t|by exists (String c a), b].
    + intros ([|c' a] & b & E); [left; by exists b|]. injection E as _ E.
      right. by exists a, b.
Qed.

Lemma Split_no_sep s sep : string_in sep s = false → Split s sep = [s].
Proof.
  induction s as [|c s IH]; [done|]. simpl.
  intros [Hc Hs]%orb_false_elim. by rewrite Hc, (IH Hs).
Qed.

Lemma Split_app_sep s t sep :
  string_in sep s = false →
  Split (s +++ String sep t) sep = s :: Split t sep.
Proof.
  induction s as [|c s IH]; simpl.
  - by rewrite Ascii.eqb_refl.
  - intros [Hc Hs]%orb_false_elim. by rewrite Hc, (IH Hs).
Qed.

(** Splitting what was joined gives the parts back. *)
Lemma Split_Join l sep :
  l ≠ [] → Forall (fun s => string_in sep s = false) l →
  Split (Join l (String sep "")) sep = l.
Proof.
  induction l as [|x l IH]; [done|]. intros _ Hl. inv Hl.
  destruct l as [|y l].
  - by apply Split_no_sep.
  - change (Join (x :: y :: l) (String sep ""))
      with (x +++ String sep (Join (y :: l) (String sep ""))).
    rewrite Split_app_sep by done. by rewrite IH.
Qed.

(** *** The byte order on strings and [sort.Strings] *)

Definition str_le (a b : string) : Prop := String.leb a b = true.

#[global] Instance str_le_dec : RelDecision str_le :=
  fun a b => decide (String.leb a b = true).

Lemma ascii_compare_Lt_trans a b c :
  Ascii.compare a b = Lt → Ascii.compare b c = Lt → Ascii.compare a c = Lt.
Proof.
  unfold Ascii.compare. rewrite !N.compare_lt_iff. lia.
Qed.

Lemma ascii_compare_Eq a b : Ascii.compare a b = Eq → a = b.
Proof.
  unfold Ascii.compare. rewrite N.compare_eq_iff. intros H.
  rewrite <- (ascii_N_embedding a), <- (ascii_N_embedding b). by rewrite H.
Qed.

Lemma ascii_compare_refl a : Ascii.compare a a = Eq.
Proof. unfold Ascii.compare. apply N.compare_refl. Qed.

#[local] Arguments Ascii.compare : simpl never.

Lemma str_le_cases a b :
  str_le a b ↔
  match a, b with
  | EmptyString, _ => True
  | String _ _, EmptyString => False
  | String c a', String d b' =>
      Ascii.compare c d = Lt ∨ (c = d ∧ str_le a' b')
  end.
Proof.
  unfold str_le, String.leb. destruct a as [|c a], b as [|d b]; simpl; try done.
  destruct (Ascii.compare c d) eqn:E.
  - apply ascii_compare_Eq in E as ->. split; [by right|].
    by intros [H|[_ H]].
  - naive_solver.
  - split; [done|]. intros [?|[-> _]]; [done|]. by rewrite -> ascii_compare_refl in E.
Qed.

#[global] Instance str_le_trans : Transitive str_le.
Proof.
  intros a. induction a as [|x a IH]; intros b c; rewrite !str_le_cases; [done|].
  destruct b as [|y b]; [done|]. destruct c as [|z c]; [by destruct 2|].
  intros [?|[-> ?]] [?|[-> ?]]; eauto using ascii_compare_Lt_trans.
Qed.

#[global] Instance str_le_total : Total str_le.
Proof. intros a b. unfold str_le. destruct (String.leb_total a b); auto. Qed.

#[global] Instance str_le_antisymm : AntiSymm (=) str_le.
Proof. intros a b. apply String.leb_antisym. Qed.

(** [sort.Strings]. *)
Definition sort_strings (l : list string) : list string := merge_sort str_le l.

Lemma sort_strings_perm l : sort_strings l ≡ₚ l.
Proof. apply merge_sort_Permutation. Qed.

Lemma sort_strings_sorted l : StronglySorted str_le (sort_strings l).
Proof. apply StronglySorted_merge_sort; apply _. Qed.

Lemma sort_strings_canonical l k : l ≡ₚ k → sort_strings l = sort_strings k.
Proof.
  intros H. apply (StronglySorted_unique str_le); auto using sort_strings_sorted.
  by rewrite !sort_strings_perm.
Qed.

Lemma sort_strings_idemp l : sort_strings (sort_strings l) = sort_strings l.
Proof. apply sort_strings_canonical, sort_strings_perm. Qed.

Lemma sort_strings_id l : StronglySorted str_le l → sort_strings l = l.
Proof.
  intros H. apply (StronglySorted_unique str_le); auto using sort_strings_sorted.
  apply sort_strings_perm.
Qed.

#[export] Hint Resolve sort_strings_perm sort_strings_sorted : operator.

(** ** Machine integers *)

(** Conversion to a signed integer of [w] bits: what remains of a wider value. *)
Definition wrap (w : Z) (z : Z) : Z :=
  let m := (z mod 2 ^ w)%Z in
  if (m <? 2 ^ (w - 1))%Z then m else (m - 2 ^ w)%Z.
Definition int32 (z : Z) : Z := wrap 32 z.
Definition in_int32 (z : Z) : Prop := (- 2 ^ 31 ≤ z < 2 ^ 31)%Z.

Lemma int32_id z : in_int32 z → int32 z = z.
Proof.
  unfold in_int32, int32, wrap. intros [Hlo Hhi].
  destruct (Z_lt_ge_dec z 0) as [Hn|Hn].
  - rewrite <- (Z.mod_unique z (2 ^ 32) (-1) (z + 2 ^ 32)) by lia.
    destruct (Z.ltb_spec (z + 2 ^ 32) (2 ^ (32 - 1))); lia.
  - rewrite Z.mod_small by lia. destruct (Z.ltb_spec z (2 ^ (32 - 1))); lia.
Qed.

Lemma int32_range z : in_int32 (int32 z).
Proof.
  unfold in_int32, int32, wrap.
  pose proof (Z.mod_pos_bound z (2 ^ 32) ltac:(lia)).
  destruct (Z.ltb_spec (z mod 2 ^ 32) (2 ^ (32 - 1))); lia.
Qed.
