(* ===== verification/GoStd.v ===== *)
(** * The operator's utility packages

    pkg/optional, pkg/pointer and pkg/collections: the generic values every
    other component is written with, over Go's zero values and nil-able maps
    and slices ([option]). *)
From S2P Require Import Prelude.

(** ** Zero values

    [reflect.Value.IsZero]: maps, slices and pointers are zero when nil. *)
Class GoZero (A : Type) := { zero : A; IsZero : A → bool }.
Class GoZeroLaws (A : Type) `{GoZero A} := {
  IsZero_spec : ∀ x : A, IsZero x = true ↔ x = zero
}.

#[export] Instance string_zero : GoZero string :=
  {| zero := ""; IsZero s := String.eqb s "" |}.
#[export] Instance Z_zero : GoZero Z := {| zero := 0%Z; IsZero z := Z.eqb z 0 |}.
#[export] Instance bool_zero : GoZero bool := {| zero := false; IsZero := negb |}.
(** Pointers, maps, slices and interfaces: [None] is nil. *)
#[export] Instance option_zero {A} : GoZero (option A) :=
  {| zero := None; IsZero o := match o with None => true | Some _ => false end |}.

#[export] Instance string_zero_laws : GoZeroLaws string.
Proof. split. intros s. apply String.eqb_eq. Qed.
#[export] Instance Z_zero_laws : GoZeroLaws Z.
Proof. split. intros z. apply Z.eqb_eq. Qed.
#[export] Instance bool_zero_laws : GoZeroLaws bool.
Proof. split. by intros []. Qed.
#[export] Instance option_zero_laws {A} : GoZeroLaws (option A).
Proof. split. by intros []. Qed.

(** ** pkg/optional *)
Module Optional.
Record optional (T : Type) := Of { val : T }.
Arguments Of {T} _.
Arguments val {T} _.

Section Optional.
Context {T : Type} `{GoZero T}.

Definition Empty : optional T := Of zero.
Definition IsNotPresent (o : optional T) : bool := IsZero (val o).
Definition IsPresent (o : optional T) : bool := negb (IsNotPresent o).
Definition Get (o : optional T) : T := val o.
Definition GetOrElse (o : optional T) (f : unit → T) : T :=
  if IsNotPresent o then f () else val o.
Definition GetOrDefault (o : optional T) (v : T) : T :=
  GetOrElse o (fun _ => v).
(** [do] acts on the state of the caller. *)
Definition IfPresent {S} (o : optional T) (do : T → S → S) (s : S) : S :=
  if IsPresent o then do (Get o) s else s.
Definition AllNonEmpty (l : list (optional T)) : list T :=
  Get <$> List.filter (fun o => negb (IsNotPresent o)) l.
(** [*val = Of( *val).GetOrDefault(def)], the new value of [*val]. *)
Definition ValueOrDefault (v def : T) : T := GetOrDefault (Of v) def.
End Optional.

Definition Map {T U} `{GoZero T, GoZero U} (o : optional T) (f : T → U) : optional U :=
  if IsNotPresent o then Empty else Of (f (Get o)).

Section Facts.
Context {T : Type} `{GoZeroLaws T}.

Lemma GetOrDefault_zero (d : T) : GetOrDefault (Of zero) d = d.
Proof.
  unfold GetOrDefault, GetOrElse, IsNotPresent; simpl.
  by rewrite (proj2 (IsZero_spec zero)).
Qed.

Lemma GetOrDefault_nonzero (v d : T) : v ≠ zero → GetOrDefault (Of v) d = v.
Proof.
  intros Hv. unfold GetOrDefault, GetOrElse, IsNotPresent; simpl.
  destruct (IsZero v) eqn:E; [|done]. by apply IsZero_spec in E.
Qed.

Lemma ValueOrDefault_idemp (v d : T) :
  ValueOrDefault (ValueOrDefault v d) d = ValueOrDefault v d.
Proof.
  unfold ValueOrDefault. destruct (IsZero v) eqn:E.
  - apply IsZero_spec in E as ->. rewrite GetOrDefault_zero.
    unfold GetOrDefault, GetOrElse. by destruct (IsNotPresent _).
  - rewrite (GetOrDefault_nonzero v); [|intros ->; by rewrite (proj2 (IsZero_spec zero)) in E].
    apply GetOrDefault_nonzero. intros ->. by rewrite (proj2 (IsZero_spec zero)) in E.
Qed.

Lemma ValueOrDefault_nonzero (v d : T) : d ≠ zero → ValueOrDefault v d ≠ zero.
Proof.
  intros Hd. unfold ValueOrDefault. destruct (IsZero v) eqn:E.
  - apply IsZero_spec in E as ->. by rewrite GetOrDefault_zero.
  - rewrite GetOrDefault_nonzero; intros ->; by rewrite (proj2 (IsZero_spec zero)) in E.
Qed.
End Facts.
End Optional.
Export Optional (ValueOrDefault).

(** ** pkg/pointer *)
Module Pointer.
Definition To {T} (x : T) : option T := Some x.
Definition DerefOrElse {T} (p : option T) (do : unit → T) : T :=
  match p with None => do () | Some x => x end.
Definition DerefOrDefault {T} (p : option T) (def : T) : T :=
  DerefOrElse p (fun _ => def).
Definition DerefOrEmpty {T} `{GoZero T} (p : option T) : T :=
  DerefOrElse p (fun _ => zero).
End Pointer.

(** ** pkg/collections/list *)
Module GoList.
Section GoList.
Context {T S : Type}.

Fixpoint Filter (l : list T) (shouldBeIncluded : T → bool) : list T :=
  match l with
  | [] => []
  | v :: l' => if shouldBeIncluded v then v :: Filter l' shouldBeIncluded
               else Filter l' shouldBeIncluded
  end.
Fixpoint MapTo (l : list T) (mapItemTo : T → S) : list S :=
  match l with [] => [] | v :: l' => mapItemTo v :: MapTo l' mapItemTo end.
Fixpoint All (l : list T) (condition : T → bool) : bool :=
  match l with
  | [] => true
  | x :: l' => if negb (condition x) then false else All l' condition
  end.
Fixpoint Any (l : list T) (condition : T → bool) : bool :=
  match l with [] => false | x :: l' => condition x || Any l' condition end.
End GoList.

Section Contains.
Context {T : Type} `{EqDecision T}.

(** The element checkers: [reflect.DeepEqual] and comparison of comparable
    values are equality of the modelled values. *)
Fixpoint Contains (l : list T) (expected : T) : bool :=
  match l with
  | [] => false
  | x :: l' => bool_decide (expected = x) || Contains l' expected
  end.
Definition Diff (old new : list T) : list T :=
  Filter old (fun item => negb (Contains new item)).

Lemma Contains_spec (l : list T) (x : T) : Contains l x = true ↔ x ∈ l.
Proof.
  induction l as [|y l IH]; simpl; [set_solver|].
  rewrite orb_true_iff, bool_decide_eq_true, IH, elem_of_cons. done.
Qed.
End Contains.

Lemma Filter_spec {T} (l : list T) f x : x ∈ Filter l f ↔ x ∈ l ∧ f x = true.
Proof.
  induction l as [|y l IH]; simpl; [set_solver|].
  destruct (f y) eqn:E; rewrite ?elem_of_cons, IH; intuition congruence.
Qed.
Lemma Filter_sublist {T} (l : list T) f : Filter l f `sublist_of` l.
Proof. induction l as [|y l IH]; simpl; [done|]. destruct (f y); by constructor. Qed.
Lemma MapTo_fmap {T S} (l : list T) (f : T → S) : MapTo l f = f <$> l.
Proof. induction l as [|y l IH]; simpl; [done|]. by rewrite IH. Qed.
Lemma All_spec {T} (l : list T) f : All l f = true ↔ Forall (fun x => f x = true) l.
Proof.
  induction l as [|y l IH]; simpl; [done|].
  rewrite Forall_cons, <- IH. by destruct (f y); intuition.
Qed.
Lemma Diff_spec {T} `{EqDecision T} (old new : list T) x :
  x ∈ Diff old new ↔ x ∈ old ∧ x ∉ new.
Proof.
  unfold Diff. rewrite Filter_spec, negb_true_iff, <- not_true_iff_false, Contains_spec.
  done.
Qed.
End GoList.
#[export] Hint Rewrite @GoList.Filter_spec @GoList.Diff_spec @GoList.MapTo_fmap
  @GoList.Contains_spec : operator_rw.
