(* ===== verification/GoSha256.v ===== *)
(** * crypto/sha256

    SHA-256 of a byte string as 64 hexadecimal digits, which the k8sensor's
    pods are annotated with: padding, message schedule and compression on
    32-bit words (FIPS 180-4). *)
From S2P Require Import Prelude.

Module Sha256.

Definition word (n : N) : N := N.land n 4294967295.
Definition wadd (a b : N) : N := word (a + b).
Definition rotr (n x : N) : N := N.lor (N.shiftr x n) (word (N.shiftl x (32 - n))).
Definition wnot (x : N) : N := N.lxor x 4294967295.
Definition xor3 (a b c : N) : N := N.lxor a (N.lxor b c).

(** The first 32 bits of the fractional parts of the cube roots of the first
    64 primes. *)
Definition round_constants : list N :=
  [1116352408; 1899447441; 3049323471; 3921009573; 961987163; 1508970993;
   2453635748; 2870763221; 3624381080; 310598401; 607225278; 1426881987;
   1925078388; 2162078206; 2614888103; 3248222580; 3835390401; 4022224774;
   264347078; 604807628; 770255983; 1249150122; 1555081692; 1996064986;
   2554220882; 2821834349; 2952996808; 3210313671; 3336571891; 3584528711;
   113926993; 338241895; 666307205; 773529912; 1294757372; 1396182291;
   1695183700; 1986661051; 2177026350; 2456956037; 2730485921; 2820302411;
   3259730800; 3345764771; 3516065817; 3600352804; 4094571909; 275423344;
   430227734; 506948616; 659060556; 883997877; 958139571; 1322822218;
   1537002063; 1747873779; 1955562222; 2024104815; 2227730452; 2361852424;
   2428436474; 2756734187; 3204031479; 3329325298]%N.
(** The first 32 bits of the fractional parts of the square roots of the first
    eight primes. *)
Definition initial_state : list N :=
  [1779033703; 3144134277; 1013904242; 2773480762; 1359893119; 2600822924;
   528734635; 1541459225]%N.

(** ** Padding *)
Fixpoint big_endian (bytes : nat) (n : N) : list N :=
  match bytes with
  | O => []
  | S k => big_endian k (N.shiftr n 8) ++ [N.land n 255]
  end.
Definition padding (length : nat) : list N :=
  let zeros := ((119 - length mod 64) mod 64)%nat in
  128%N :: repeat 0%N zeros ++ big_endian 8 (8 * N.of_nat length)%N.
Definition string_bytes (s : string) : list N :=
  Ascii.N_of_ascii <$> String.list_ascii_of_string s.

Fixpoint words (l : list N) : list N :=
  match l with
  | a :: b :: c :: d :: l =>
      N.lor (N.shiftl a 24) (N.lor (N.shiftl b 16) (N.lor (N.shiftl c 8) d)) :: words l
  | _ => []
  end.
Fixpoint blocks (fuel : nat) (l : list N) : list (list N) :=
  match fuel, l with
  | S fuel, _ :: _ => take 16 l :: blocks fuel (drop 16 l)
  | _, _ => []
  end.

(** ** Schedule and compression *)
Definition sigma0 (x : N) : N := xor3 (rotr 7 x) (rotr 18 x) (N.shiftr x 3).
Definition sigma1 (x : N) : N := xor3 (rotr 17 x) (rotr 19 x) (N.shiftr x 10).
Definition Sigma0 (x : N) : N := xor3 (rotr 2 x) (rotr 13 x) (rotr 22 x).
Definition Sigma1 (x : N) : N := xor3 (rotr 6 x) (rotr 11 x) (rotr 25 x).

(** The words so far, the last one first. *)
Definition schedule_step (rev_w : list N) : list N :=
  let at_ i := nth i rev_w 0%N in
  wadd (wadd (sigma1 (at_ 1)) (at_ 6)) (wadd (sigma0 (at_ 14)) (at_ 15)) :: rev_w.
Definition schedule (block : list N) : list N :=
  rev (Nat.iter 48 schedule_step (rev block)).

Definition round (s : list N) (kw : N * N) : list N :=
  match s with
  | [a; b; c; d; e; f; g; h] =>
      let ch := N.lxor (N.land e f) (N.land (wnot e) g) in
      let maj := xor3 (N.land a b) (N.land a c) (N.land b c) in
      let t1 := wadd (wadd h (Sigma1 e)) (wadd ch (wadd (fst kw) (snd kw))) in
      let t2 := wadd (Sigma0 a) maj in
      [wadd t1 t2; a; b; c; wadd d t1; e; f; g]
  | _ => s
  end.
Definition compress (s : list N) (block : list N) : list N :=
  zip_with wadd s (foldl round s (combine round_constants (schedule block))).

(** ** The digest, in hexadecimal ([%x]) *)
Definition lower_hex (n : N) : ascii :=
  match String.get (N.to_nat n) "0123456789abcdef" with Some c => c | None => "000"%char end.
Definition hex_word (n : N) : list ascii :=
  (fun i => lower_hex (N.land (N.shiftr n (4 * i)) 15)) <$> [7; 6; 5; 4; 3; 2; 1; 0]%N.
Definition sha256_hex (s : string) : string :=
  let bytes := string_bytes s in
  let message := words (bytes ++ padding (length bytes)) in
  let digest := foldl compress initial_state (blocks (length message) message) in
  String.string_of_list_ascii (digest ≫= hex_word).

Example sha256_abc :
  sha256_hex "abc" = "ba7816bf8f01cfea414140de5dae2223b00361a396177a9cb410ff61f20015ad".
Proof. vm_compute. reflexivity. Qed.
End Sha256.
