(* ===== verification/Errors.v ===== *)
(** * Errors, results and panics

    pkg/multierror, pkg/result, pkg/recovery, pkg/or_die, pkg/map_defaulter.
    A Go [error] is a tree: a leaf made by some other package, or a wrapper
    whose [Unwrap] yields the wrapped errors.  [option error] is the nilable
    [error]; [None] is nil. *)
From S2P Require Import Prelude GoStd.

(** ** Errors *)
Inductive error : Type :=
  | LeafError (reason msg : string)           (** made outside, or without %w *)
  | WrapErrors (msg : string) (errs : list error)  (** fmt.Errorf with %w verbs *)
  | MultiError (err : error)                  (** multierror.multiError *)
  | CaughtPanic (err : error).                (** recovery.caughtPanic *)

(** [fmt.Errorf] without [%w], [errors.New]. *)
Definition Errorf (msg : string) : error := LeafError "" msg.

(** [err.Error()]; the wrapper structs embed the error they wrap. *)
Fixpoint ErrorMsg (e : error) : string :=
  match e with
  | LeafError _ m => m
  | WrapErrors m _ => m
  | MultiError e => ErrorMsg e
  | CaughtPanic e => ErrorMsg e
  end.

(** The traversal of [errors.As]: does [p] hold of some error of the tree? *)
Fixpoint ErrorsAs (p : error → bool) (e : error) : bool :=
  p e ||
  match e with
  | LeafError _ _ => false
  | WrapErrors _ es => existsb (ErrorsAs p) es
  | MultiError e => ErrorsAs p e
  | CaughtPanic e => ErrorsAs p e
  end.

Definition AsMultiError (e : option error) : bool :=
  match e with
  | None => false
  | Some e => ErrorsAs (fun e => match e with MultiError _ => true | _ => false end) e
  end.
Definition AsCaughtPanic (e : option error) : bool :=
  match e with
  | None => false
  | Some e => ErrorsAs (fun e => match e with CaughtPanic _ => true | _ => false end) e
  end.

(** ** k8s.io/apimachinery/pkg/api/errors

    Classification of the API server's errors: code outside the repository.
    The laws are its documentation: a nil or unclassified error is neither,
    the two reasons exclude each other, and wrapping is looked through. *)
Class ApiErrors := {
  IsNotFound : option error → bool;
  IsConflict : option error → bool
}.
Class ApiErrorsLaws `{ApiErrors} := {
  IsNotFound_nil : IsNotFound None = false;
  IsConflict_nil : IsConflict None = false;
  IsNotFound_Conflict e : IsNotFound e = true → IsConflict e = false;
  IsConflict_MultiError e : IsConflict (Some (MultiError e)) = IsConflict (Some e)
}.
(** controller-runtime's [client.IgnoreNotFound]. *)
Definition IgnoreNotFound `{ApiErrors} (e : option error) : option error :=
  if IsNotFound e then None else e.

(** ** pkg/multierror *)
Module MultiErrorBuilder.
Definition t := list (option error).
Definition New (errs : list (option error)) : t := errs.
Definition Add (errs : list (option error)) (b : t) : t := b ++ errs.
Definition AddSingle (err : option error) (b : t) : t := Add [err] b.
Definition AllNonNil (b : t) : list error := omap id b.
Definition Build (b : t) : option error :=
  match AllNonNil b with
  | [] => None
  | [e] => Some (MultiError e)
  | errs =>
      Some (MultiError (WrapErrors
        ("Multiple Errors:
" +++ Join ((fun e => ErrorMsg e +++ "
") <$> errs) "") errs))
  end.

Lemma AllNonNil_elem b e : e ∈ AllNonNil b ↔ Some e ∈ b.
Proof.
  unfold AllNonNil. rewrite list_elem_of_omap. split.
  - intros ([x|] & ? & ?); by simplify_eq/=.
  - intros ?. by exists (Some e).
Qed.

Lemma Build_None b : Build b = None ↔ Forall (fun e => e = None) b.
Proof.
  unfold Build, AllNonNil. split.
  - destruct (omap id b) as [|e [|e' l]] eqn:E; [|done..]. intros _.
    rewrite Forall_forall. intros [x|] Hx; [|done].
    assert (x ∈ omap id b) as Hb by (apply list_elem_of_omap; by exists (Some x)).
    rewrite E in Hb. set_solver.
  - intros Hb. assert (omap id b = []) as ->; [|done].
    induction Hb as [|x b -> _ IH]; done.
Qed.

Lemma Build_AddSingle b e :
  Build (AddSingle e b) = None ↔ Build b = None ∧ e = None.
Proof.
  rewrite !Build_None. unfold AddSingle, Add. rewrite Forall_app, Forall_singleton. done.
Qed.

(** A built error carries every error that was added. *)
Lemma Build_contains b e :
  Some e ∈ b → ∃ r, Build b = Some (MultiError r) ∧
    (r = e ∨ ∃ m l, r = WrapErrors m l ∧ e ∈ l).
Proof.
  intros He%AllNonNil_elem. unfold Build.
  destruct (AllNonNil b) as [|x [|y l]]; [set_solver| |].
  - exists x. split; [done|]. left. set_solver.
  - eexists. split; [done|]. right. eauto.
Qed.

Lemma Build_AsMultiError b : Build b ≠ None → AsMultiError (Build b) = true.
Proof. unfold Build. by destruct (AllNonNil b) as [|x [|y l]]. Qed.
End MultiErrorBuilder.
#[export] Hint Rewrite MultiErrorBuilder.Build_AddSingle MultiErrorBuilder.Build_None
  : operator_rw.

(** ** pkg/recovery

    The value of [recover()]: nil, an error or something else, and the stack
    the run time prints. *)
Inductive panic_value :=
  | PanicError (e : error)
  | PanicValue (v : string).
Definition Catch (stack : string) (p : option panic_value) (err : option error)
    : option error :=
  match p with
  | None => err
  | Some p =>
      let wrapped :=
        match p with
        | PanicError e =>
            WrapErrors ("caught panic: " +++ ErrorMsg e +++ "
" +++ stack) [e]
        | PanicValue v => Errorf ("caught panic: " +++ v +++ "
" +++ stack)
        end in
      match MultiErrorBuilder.Build
              (MultiErrorBuilder.AddSingle (Some wrapped) (MultiErrorBuilder.New [err])) with
      | Some e => Some (CaughtPanic e)
      | None => None
      end
  end.

Lemma Catch_panic stack p err :
  ∃ e, Catch stack (Some p) err = Some (CaughtPanic e).
Proof.
  unfold Catch. destruct (MultiErrorBuilder.Build _) eqn:E; [eauto|].
  apply MultiErrorBuilder.Build_AddSingle in E as [_ ?]. by destruct p.
Qed.

(** ** pkg/or_die

    A computation of the source that may panic. *)
Inductive or_panic (A : Type) := Value (a : A) | Panics (p : panic_value).
Arguments Value {A} _.
Arguments Panics {A} _.
#[export] Instance or_panic_ret : MRet or_panic := fun A a => Value a.
#[export] Instance or_panic_bind : MBind or_panic := fun A B k m =>
  match m with Value a => k a | Panics p => Panics p end.
#[export] Instance or_panic_fmap : FMap or_panic := fun A B f m =>
  match m with Value a => Value (f a) | Panics p => Panics p end.
Definition ResultOrDie {T} (res : T) (err : option error) : or_panic T :=
  match err with None => Value res | Some e => Panics (PanicError e) end.

(** ** pkg/result *)
Module Result.
Record t (T : Type) := Of { res : T; err : option error }.
Arguments Of {T} _ _.
Arguments res {T} _.
Arguments err {T} _.

Section Result.
Context {T : Type}.
Definition IsSuccess (r : t T) : bool :=
  match err r with None => true | Some _ => false end.
Definition IsFailure (r : t T) : bool := negb (IsSuccess r).
Definition OfSuccess (x : T) : t T := Of x None.
Definition OfFailure `{GoZero T} (e : option error) : t T := Of zero e.
Definition ToOptional `{GoZero T} (r : t T) : Optional.optional T :=
  if IsSuccess r then Optional.Of (res r) else Optional.Empty.
(** The callbacks act on the state of the caller. *)
Definition OnSuccess {S} (r : t T) (do : T → S → S) (s : S) : S :=
  if IsSuccess r then do (res r) s else s.
Definition OnFailure {S} (r : t T) (do : option error → S → S) (s : S) : S :=
  if IsFailure r then do (err r) s else s.
Definition Recover (r : t T) (do : option error → T * option error) : t T :=
  if IsFailure r then let '(x, e) := do (err r) in Of x e else r.
(** A callback that may panic, and the panic turned into the error of the
    result by a deferred recovery: both named results still hold their zero
    values then. *)
Definition OfInline (do : or_panic (T * option error)) : or_panic (t T) :=
  (fun '(x, e) => Of x e) <$> do.
Definition catching `{GoZero T} (stack : string) (do : or_panic (T * option error)) :
    or_panic (T * option error) :=
  Value (match do with
         | Value r => r
         | Panics p => (zero, Catch stack (Some p) None)
         end).
Definition OfInlineCatchingPanic `{GoZero T} (stack : string)
    (do : or_panic (T * option error)) : or_panic (t T) := OfInline (catching stack do).
Definition RecoverCatching `{GoZero T} (stack : string) (r : t T)
    (do : option error → or_panic (T * option error)) : or_panic (t T) :=
  if IsFailure r then OfInlineCatchingPanic stack (do (err r)) else Value r.
End Result.
Definition Map {I O} `{GoZero O} (r : t I) (mapper : I → t O) : t O :=
  if IsSuccess r then mapper (res r) else OfFailure (err r).

Lemma Build_OnFailure {T} (r : t T) b :
  MultiErrorBuilder.Build (OnFailure r MultiErrorBuilder.AddSingle b) = None ↔
  MultiErrorBuilder.Build b = None ∧ err r = None.
Proof.
  unfold OnFailure, IsFailure, IsSuccess. destruct (err r); simpl; [|tauto].
  apply MultiErrorBuilder.Build_AddSingle.
Qed.
(** A recovery that catches never panics, and it fails when its callback does. *)
Lemma RecoverCatching_spec {T} `{GoZero T} stack (r : t T) do :
  ∃ r', RecoverCatching stack r do = Value r' ∧
    (err r' = None ↔ err r = None ∨ ∃ x, do (err r) = Value (x, None)).
Proof.
  unfold RecoverCatching, OfInlineCatchingPanic, OfInline, catching, IsFailure, IsSuccess.
  destruct (err r) as [e|] eqn:E; cbn [negb]; [|exists r; rewrite E; tauto].
  destruct (do (Some e)) as [[x e']|p].
  - eexists. split; [reflexivity|]. simpl. split; [intros ->; eauto|]. by intros [|[y [= _ ->]]].
  - destruct (Catch_panic stack p None) as [c ->]. eexists. split; [reflexivity|]. naive_solver.
Qed.
Lemma IsFailure_err {T} (r : t T) : IsFailure r = true ↔ err r ≠ None.
Proof. unfold IsFailure, IsSuccess. destruct (err r); naive_solver. Qed.
End Result.

(** ** pkg/map_defaulter

    The defaulter replaces a nil map by an empty one, then fills in zero or
    missing entries. *)
Module MapDefaulter.
Definition New {V} (m : option (gmap string V)) : gmap string V := default ∅ m.
Definition SetIfEmpty {V} `{GoZero V} (key : string) (def : V)
    (m : gmap string V) : gmap string V :=
  <[key := Optional.GetOrDefault (Optional.Of (default zero (m !! key))) def]> m.

Lemma SetIfEmpty_other {V} `{GoZero V} k k' (d : V) m :
  k ≠ k' → SetIfEmpty k d m !! k' = m !! k'.
Proof. intros. unfold SetIfEmpty. by rewrite lookup_insert_ne. Qed.

Lemma SetIfEmpty_same {V} `{GoZeroLaws V} k (d : V) m :
  SetIfEmpty k d m !! k = Some (match m !! k with
                                | Some v => if IsZero v then d else v
                                | None => d end).
Proof.
  unfold SetIfEmpty. rewrite lookup_insert_eq. destruct (m !! k) as [v|]; simpl.
  - unfold Optional.GetOrDefault, Optional.GetOrElse, Optional.IsNotPresent.
    simpl. by destruct (IsZero v).
  - by rewrite Optional.GetOrDefault_zero.
Qed.
End MapDefaulter.
