(* ===== verification/GoJson.v ===== *)
(** * JSON and hashes: pkg/json_or_die and pkg/hash

    Values are turned into JSON and back, or the operator panics; a hash is the
    MD5 digest of the JSON in base64.  What encoding/json does with a value
    depends on its type: a class, with the round trip its documentation gives.
    crypto/md5 (RFC 1321) is executable. *)
From S2P Require Import Prelude GoStd GoEncoding GoSha256 Errors.

(** ** crypto/md5 *)
Module Md5.
Import Sha256.

(** The integer part of 2^32 |sin i|, for i from 1 to 64. *)
Definition sines : list N :=
  [3614090360; 3905402710; 606105819; 3250441966; 4118548399; 1200080426;
   2821735955; 4249261313; 1770035416; 2336552879; 4294925233; 2304563134;
   1804603682; 4254626195; 2792965006; 1236535329; 4129170786; 3225465664;
   643717713; 3921069994; 3593408605; 38016083; 3634488961; 3889429448;
   568446438; 3275163606; 4107603335; 1163531501; 2850285829; 4243563512;
   1735328473; 2368359562; 4294588738; 2272392833; 1839030562; 4259657740;
   2763975236; 1272893353; 4139469664; 3200236656; 681279174; 3936430074;
   3572445317; 76029189; 3654602809; 3873151461; 530742520; 3299628645;
   4096336452; 1126891415; 2878612391; 4237533241; 1700485571; 2399980690;
   4293915773; 2240044497; 1873313359; 4264355552; 2734768916; 1309151649;
   4149444226; 3174756917; 718787259; 3951481745]%N.
Definition shifts : list N :=
  concat (repeat [7; 12; 17; 22]%N 4 ++ repeat [5; 9; 14; 20]%N 4 ++
          repeat [4; 11; 16; 23]%N 4 ++ repeat [6; 10; 15; 21]%N 4).
Definition initial_digest : N * N * N * N := (1732584193, 4023233417, 2562383102, 271733878)%N.

(** The bytes of a number, the lowest first. *)
Fixpoint little_endian (bytes : nat) (n : N) : list N :=
  match bytes with
  | O => []
  | S k => N.land n 255 :: little_endian k (N.shiftr n 8)
  end.
Definition md5_padding (length : nat) : list N :=
  128%N :: repeat 0%N ((119 - length mod 64) mod 64) ++ little_endian 8 (8 * N.of_nat length)%N.
Fixpoint le_words (l : list N) : list N :=
  match l with
  | a :: b :: c :: d :: l =>
      N.lor a (N.lor (N.shiftl b 8) (N.lor (N.shiftl c 16) (N.shiftl d 24))) :: le_words l
  | _ => []
  end.
Definition rotl (n x : N) : N := N.lor (word (N.shiftl x n)) (N.shiftr x (32 - n)).

(** The function and the index of the word of step [i]. *)
Definition mix (i : nat) (b c d : N) : N * nat :=
  match (i / 16)%nat with
  | 0 => (N.lor (N.land b c) (N.land (wnot b) d), i)
  | 1 => (N.lor (N.land d b) (N.land (wnot d) c), (5 * i + 1) mod 16)
  | 2 => (xor3 b c d, (3 * i + 5) mod 16)
  | _ => (N.lxor c (N.lor b (wnot d)), (7 * i) mod 16)
  end%nat.
Definition md5_step (block : list N) (s : N * N * N * N) (i : nat) : N * N * N * N :=
  let '(a, b, c, d) := s in
  let '(f, g) := mix i b c d in
  let f := wadd (wadd f a) (wadd (nth i sines 0%N) (nth g block 0%N)) in
  (d, wadd b (rotl (nth i shifts 0%N) f), b, c).
Definition md5_block (s : N * N * N * N) (block : list N) : N * N * N * N :=
  let '(a, b, c, d) := s in
  let '(a', b', c', d') := foldl (md5_step block) s (seq 0 64) in
  (wadd a a', wadd b b', wadd c c', wadd d d').

(** [md5.Sum]: sixteen bytes. *)
Definition Sum (s : string) : string :=
  let bytes := string_bytes s in
  let message := le_words (bytes ++ md5_padding (length bytes)) in
  let '(a, b, c, d) := foldl md5_block initial_digest (blocks (length message) message) in
  String.string_of_list_ascii
    (Ascii.ascii_of_N <$> ([a; b; c; d] ≫= little_endian 4)).

Lemma length_of_bytes l : String.length (String.string_of_list_ascii l) = length l.
Proof. induction l as [|c l IH]; [done|]. simpl. by rewrite IH. Qed.
Lemma length_bytes s : length (String.list_ascii_of_string s) = String.length s.
Proof. induction s as [|c s IH]; [done|]. simpl. by rewrite IH. Qed.
Lemma little_endian_length k n : length (little_endian k n) = k.
Proof. revert n. induction k as [|k IH]; intros n; simpl; [done|]. by rewrite IH. Qed.
Lemma Sum_length s : String.length (Sum s) = 16%nat.
Proof.
  unfold Sum. destruct (foldl md5_block _ _) as [[[a b] c] d].
  rewrite length_of_bytes, length_fmap.
  cbn [mbind list_bind]. by rewrite !length_app, !little_endian_length.
Qed.
End Md5.

Definition hexadecimal (s : string) : string :=
  String.string_of_list_ascii (String.list_ascii_of_string s ≫= fun c =>
    let n := Ascii.N_of_ascii c in [Sha256.lower_hex (n / 16); Sha256.lower_hex (n mod 16)])%N.
Example md5_empty : hexadecimal (Md5.Sum "") = "d41d8cd98f00b204e9800998ecf8427e".
Proof. vm_compute. reflexivity. Qed.
Example md5_alphabet :
  hexadecimal (Md5.Sum "abcdefghijklmnopqrstuvwxyzabcdefghijklmnopqrstuvwxyzabcdefghijklmnopqrstuvwxyz")
  = "15061fc3840896c5299a5b8cc1cf5b5f".
Proof. vm_compute. reflexivity. Qed.

(** ** encoding/json *)

(** [json.Marshal], and [json.Unmarshal] into a value. *)
Class Json (T : Type) := {
  json_Marshal : T → string * option error;
  json_Unmarshal : string → T → T * option error }.
(** What was marshalled is read back into an empty value. *)
Class JsonLaws (T : Type) `{Json T} (empty : T) : Prop := {
  json_roundtrip obj : snd (json_Marshal obj) = None →
    json_Unmarshal (fst (json_Marshal obj)) empty = (obj, None) }.

(** ** pkg/json_or_die *)
Section JsonOrDie.
Context {T : Type} `{Json T}.

Record jsonOrDie := { newEmptyObject : T }.

Definition MarshalOrDie (j : jsonOrDie) (obj : T) : or_panic string :=
  let '(raw, err) := json_Marshal obj in ResultOrDie raw err.
Definition UnMarshalOrDie (j : jsonOrDie) (raw : string) : or_panic T :=
  let '(obj, err) := json_Unmarshal raw (newEmptyObject j) in
  _ ← ResultOrDie "" err; mret obj.
End JsonOrDie.
Arguments jsonOrDie T : clear implicits.

(** The pointer to a zero value, the empty map, the empty slice. *)
Definition NewJsonOrDie {T} `{GoZero T} : jsonOrDie (option T) := {| newEmptyObject := Some zero |}.
Definition NewJsonOrDieMap {K V} `{Countable K} : jsonOrDie (option (gmap K V)) :=
  {| newEmptyObject := Some ∅ |}.
Definition NewJsonOrDieArray {T} : jsonOrDie (option (list T)) := {| newEmptyObject := Some [] |}.

(** ** pkg/hash *)
Definition HashJsonOrDie {T} `{Json T} (obj : T) : or_panic string :=
  let '(raw, err) := json_Marshal obj in
  jsonStr ← ResultOrDie raw err;
  mret (base64_encode (Md5.Sum jsonStr)).

(** ** Facts *)
Lemma base64_bytes_16 l : length l = 16%nat → length (base64_bytes l) = 24%nat.
Proof. intros Hl. do 17 (destruct l as [|? l]; try discriminate Hl). reflexivity. Qed.
Lemma base64_encode_length_16 s : String.length s = 16%nat → String.length (base64_encode s) = 24%nat.
Proof.
  intros Hs. unfold base64_encode.
  rewrite Md5.length_of_bytes. apply base64_bytes_16. by rewrite Md5.length_bytes.
Qed.

(** ** Properties *)

(** [MarshalOrDie] and [UnMarshalOrDie] panic exactly when encoding/json
    reports an error, with that error, and otherwise undo each other. *)
Theorem json_or_die_roundtrip {T} `{Json T} (j : jsonOrDie T) `{!JsonLaws T (newEmptyObject j)} obj :
  match snd (json_Marshal obj) with
  | Some err => MarshalOrDie j obj = Panics (PanicError err)
  | None => ∃ raw, MarshalOrDie j obj = Value raw ∧ UnMarshalOrDie j raw = Value obj
  end.
Proof.
  pose proof (json_roundtrip obj) as Hr. unfold MarshalOrDie, UnMarshalOrDie.
  destruct (json_Marshal obj) as [raw [err|]]; simpl in *; [done|].
  exists raw. by rewrite (Hr eq_refl).
Qed.

(** A hash is always 24 characters, equal for values with the same JSON;
    a value without JSON makes it panic with the error. *)
Theorem HashJsonOrDie_length {T} `{Json T} (obj : T) :
  match json_Marshal obj with
  | (_, Some err) => HashJsonOrDie obj = Panics (PanicError err)
  | (raw, None) => ∃ hash, HashJsonOrDie obj = Value hash ∧ String.length hash = 24%nat ∧
      ∀ obj', json_Marshal obj' = (raw, None) → HashJsonOrDie obj' = Value hash
  end.
Proof.
  unfold HashJsonOrDie. destruct (json_Marshal obj) as [raw [err|]]; [done|].
  eexists. split; [reflexivity|]. split; [apply base64_encode_length_16, Md5.Sum_length|].
  by intros obj' ->.
Qed.

(** A pointer to a boolean. *)
Definition bool_text (b : option bool) : string :=
  match b with Some true => "true" | Some false => "false" | None => "null" end.
#[export] Instance bool_json : Json (option bool) := {|
  json_Marshal b := (bool_text b, None);
  json_Unmarshal raw b :=
    match List.find (fun b => String.eqb (bool_text b) raw) [Some true; Some false; None] with
    | Some b => (b, None)
    | None => (b, Some (Errorf "invalid character"))
    end |}.
#[export] Instance bool_zero : GoZero bool := {| zero := false; IsZero := negb |}.
#[export] Instance bool_json_laws : JsonLaws (option bool) (newEmptyObject NewJsonOrDie).
Proof. split. by intros [[]|] _. Qed.
Lemma json_or_die_roundtrip_witness :
  ∃ raw, MarshalOrDie NewJsonOrDie (Some true) = Value raw ∧
         UnMarshalOrDie NewJsonOrDie raw = Value (Some true).
Proof. exact (json_or_die_roundtrip NewJsonOrDie (Some true)). Defined.
