(* ===== verification/K8sTypes.v ===== *)
(** * Kubernetes API values

    The types of k8s.io/api and k8s.io/apimachinery the operator reads and
    writes, with the fields its code mentions.  A value the operator only
    passes along (an affinity, a toleration) is kept as its JSON value; a
    nil-able map or slice whose nilness the code can observe is an [option]. *)
From S2P Require Import Prelude GoStd.

Inductive json :=
  | JNull | JBool (b : bool) | JInt (z : Z) | JString (s : string)
  | JList (l : list json) | JObject (l : list (string * json)).

(** A struct passed along as JSON is zero when no field is set. *)
#[export] Instance json_zero : GoZero json :=
  {| zero := JObject []; IsZero j := match j with JObject [] => true | _ => false end |}.

Notation bytes := string (only parsing).
Notation smap := (gmap string string) (only parsing).

(** ** metav1 *)
Record GroupVersionKind := GVK { gvk_Group : string; gvk_Version : string; gvk_Kind : string }.
Record ObjectKey := Key { key_Namespace : string; key_Name : string }.

#[export] Instance GVK_eq_dec : EqDecision GroupVersionKind.
Proof. solve_decision. Defined.
#[export] Instance ObjectKey_eq_dec : EqDecision ObjectKey.
Proof. solve_decision. Defined.
#[export] Instance ObjectKey_countable : Countable ObjectKey.
Proof.
  refine (inj_countable' (fun k => (key_Namespace k, key_Name k))
            (fun p => Key p.1 p.2) _); by intros [].
Defined.

Definition zero_key : ObjectKey := Key "" "".

Record OwnerReference := {
  or_APIVersion : string; or_Kind : string; or_Name : string; or_UID : string;
  or_Controller : option bool; or_BlockOwnerDeletion : option bool }.
#[export] Instance OwnerReference_eq_dec : EqDecision OwnerReference.
Proof. solve_decision. Defined.

(** An entry of metadata.managedFields; the time is a point on the API
    server's clock, [None] a nil [*metav1.Time]. *)
Record ManagedFieldsEntry := {
  mfe_Manager : string; mfe_Operation : string; mfe_APIVersion : string;
  mfe_Time : option Z; mfe_FieldsType : string; mfe_FieldsV1 : string;
  mfe_Subresource : string }.
#[export] Instance ManagedFieldsEntry_eq_dec : EqDecision ManagedFieldsEntry.
Proof. solve_decision. Defined.

Record ObjectMeta := {
  om_Name : string; om_Namespace : string; om_UID : string;
  om_ResourceVersion : string; om_Generation : Z;
  om_Labels : option smap; om_Annotations : option smap;
  om_OwnerReferences : list OwnerReference;
  om_ManagedFields : list ManagedFieldsEntry;
  om_Finalizers : list string;
  om_DeletionTimestamp : option Z }.
#[export] Instance eta_ObjectMeta : Settable ObjectMeta := fun m =>
  Build_ObjectMeta (om_Name m) (om_Namespace m) (om_UID m) (om_ResourceVersion m)
    (om_Generation m) (om_Labels m) (om_Annotations m) (om_OwnerReferences m)
    (om_ManagedFields m) (om_Finalizers m) (om_DeletionTimestamp m).
(** The metadata of a freshly built object. *)
Definition NewObjectMeta (name namespace : string) : ObjectMeta :=
  {| om_Name := name; om_Namespace := namespace; om_UID := "";
     om_ResourceVersion := ""; om_Generation := 0; om_Labels := None;
     om_Annotations := None; om_OwnerReferences := []; om_ManagedFields := [];
     om_Finalizers := []; om_DeletionTimestamp := None |}.
Definition zero_meta : ObjectMeta := NewObjectMeta "" "".

Record Condition := {
  cond_Type : string; cond_Status : string; cond_ObservedGeneration : Z;
  cond_LastTransitionTime : Z; cond_Reason : string; cond_Message : string }.
#[export] Instance eta_Condition : Settable Condition := fun c =>
  Build_Condition (cond_Type c) (cond_Status c) (cond_ObservedGeneration c)
    (cond_LastTransitionTime c) (cond_Reason c) (cond_Message c).
Definition ConditionTrue := "True".
Definition ConditionFalse := "False".
Definition ConditionUnknown := "Unknown".

(** ** corev1: pods *)
Record LocalObjectReference := { lor_Name : string }.
Record KeySelector := { ks_Name : string; ks_Key : string; ks_Optional : option bool }.
Record EnvVarSource := {
  evs_FieldRef : option string;              (** fieldPath *)
  evs_ResourceFieldRef : option json;
  evs_ConfigMapKeyRef : option KeySelector;
  evs_SecretKeyRef : option KeySelector }.
Record EnvVar := { ev_Name : string; ev_Value : string; ev_ValueFrom : option EnvVarSource }.
Definition env_value (name value : string) : EnvVar :=
  {| ev_Name := name; ev_Value := value; ev_ValueFrom := None |}.

Record KeyToPath := { ktp_Key : string; ktp_Path : string }.
Inductive VolumeSource :=
  | HostPathSource (path : string) (type : option string)
  | SecretSource (secretName : string) (items : list KeyToPath) (defaultMode : option Z)
      (optional : option bool)
  | ConfigMapSource (name : string) (items : list KeyToPath) (defaultMode : option Z)
  | ClaimSource (claimName : string)
  | OtherSource (source : json).
Record Volume := { vol_Name : string; vol_Source : VolumeSource }.
Record VolumeMount := {
  vm_Name : string; vm_ReadOnly : bool; vm_MountPath : string;
  vm_MountPropagation : option string; vm_SubPath : string }.
Definition Mount (name path : string) (propagation : option string) (ro : bool) : VolumeMount :=
  {| vm_Name := name; vm_ReadOnly := ro; vm_MountPath := path;
     vm_MountPropagation := propagation; vm_SubPath := "" |}.

Inductive IntOrString := IntVal (z : Z) | StrVal (s : string).
Record ContainerPort := { cp_Name : string; cp_ContainerPort : Z; cp_Protocol : string }.
Record ServicePort := {
  sp_Name : string; sp_Protocol : string; sp_Port : Z; sp_TargetPort : IntOrString }.
Record HTTPGetAction := { hga_Host : string; hga_Path : string; hga_Port : IntOrString }.
Record Probe := {
  probe_HTTPGet : option HTTPGetAction; probe_OtherHandler : json;
  probe_InitialDelaySeconds : Z; probe_TimeoutSeconds : Z;
  probe_PeriodSeconds : Z; probe_SuccessThreshold : Z; probe_FailureThreshold : Z }.
(** Quantities are kept in the text they are parsed from. *)
Record ResourceRequirements := {
  rr_Limits : option smap; rr_Requests : option smap; rr_Claims : list string }.

Record Container := {
  ct_Name : string; ct_Image : string; ct_ImagePullPolicy : string;
  ct_Command : list string; ct_Args : list string;
  ct_Env : list EnvVar; ct_VolumeMounts : list VolumeMount;
  ct_Resources : ResourceRequirements; ct_Ports : list ContainerPort;
  ct_Privileged : option bool; ct_LivenessProbe : option Probe }.
Record PodSpec := {
  ps_Volumes : list Volume; ps_ServiceAccountName : string;
  ps_NodeSelector : option smap; ps_HostNetwork : bool; ps_HostPID : bool;
  ps_PriorityClassName : string; ps_DNSPolicy : string;
  ps_ImagePullSecrets : option (list LocalObjectReference);
  ps_Containers : list Container; ps_FSGroup : option Z;
  ps_Hostname : string; ps_Tolerations : list json; ps_Affinity : json }.
Record PodTemplateSpec := {
  pt_Labels : smap; pt_Annotations : option smap; pt_Spec : PodSpec }.

(** ** Workloads, services, rbac, policy, discovery *)
Record DaemonSetUpdateStrategy := {
  us_Type : string; us_RollingUpdate : option (option IntOrString) }.
Record DaemonSetStatus := {
  dss_NumberMisscheduled : Z; dss_DesiredNumberScheduled : Z;
  dss_NumberAvailable : Z; dss_UpdatedNumberScheduled : Z;
  dss_CurrentNumberScheduled : Z; dss_NumberReady : Z; dss_NumberUnavailable : Z;
  dss_ObservedGeneration : Z; dss_CollisionCount : option Z; dss_Conditions : list json }.
Record DaemonSet := {
  ds_Meta : ObjectMeta; ds_MinReadySeconds : Z; ds_Selector : smap;
  ds_Template : PodTemplateSpec; ds_UpdateStrategy : DaemonSetUpdateStrategy;
  ds_Status : DaemonSetStatus }.
Record DeploymentCondition := {
  dc_Type : string; dc_Status : string; dc_Reason : string; dc_Message : string }.
Record DeploymentStatus := {
  dps_ObservedGeneration : Z; dps_Conditions : list DeploymentCondition }.
Record Deployment := {
  dp_Meta : ObjectMeta; dp_Replicas : option Z; dp_MinReadySeconds : Z;
  dp_Selector : smap; dp_Template : PodTemplateSpec; dp_StrategyType : string;
  dp_Status : DeploymentStatus }.
Record ConfigMap := { cm_Meta : ObjectMeta; cm_Kind : string; cm_Data : option smap }.
Record Secret := {
  sec_Meta : ObjectMeta; sec_Type : string; sec_Data : option (gmap string bytes) }.
Record Service := {
  svc_Meta : ObjectMeta; svc_ClusterIP : string; svc_Selector : option smap;
  svc_Ports : list ServicePort; svc_InternalTrafficPolicy : option string }.
Record ServiceAccount := { sa_Meta : ObjectMeta }.
Record PolicyRule := {
  pr_NonResourceURLs : list string; pr_APIGroups : list string;
  pr_Resources : list string; pr_ResourceNames : list string; pr_Verbs : list string }.
Record RoleRef := { rr_APIGroup : string; rr_Kind : string; rr_Name : string }.
Record Subject := { sub_Kind : string; sub_Name : string; sub_Namespace : string }.
(** Role and ClusterRole, and their bindings, differ in kind and scope. *)
Record Role := { role_Meta : ObjectMeta; role_Rules : list PolicyRule }.
Record RoleBinding := {
  rb_Meta : ObjectMeta; rb_RoleRef : RoleRef; rb_Subjects : list Subject }.
Record PodDisruptionBudget := {
  pdb_Meta : ObjectMeta; pdb_Selector : smap; pdb_MinAvailable : option IntOrString }.
Record EndpointPort := { ep_Name : option string; ep_Port : option Z }.
Record Endpoint := { en_Addresses : list string; en_Ready : option bool }.
Record EndpointSlice := { es_Ports : list EndpointPort; es_Endpoints : list Endpoint }.
Record EndpointSubset := { sub_Addresses : list string; sub_Ports : list (string * Z) }.
Record Endpoints := { eps_Subsets : list EndpointSubset }.
Record Namespace := { ns_Meta : ObjectMeta }.
(** unstructured.Unstructured as the operator builds it: kind, name, namespace. *)
Record Unstructured := {
  un_GVK : GroupVersionKind; un_Name : string; un_Namespace : string }.
#[export] Instance Unstructured_eq_dec : EqDecision Unstructured.
Proof. solve_decision. Defined.
#[export] Instance Unstructured_countable : Countable Unstructured.
Proof.
  refine (inj_countable'
    (fun u => (gvk_Group (un_GVK u), gvk_Version (un_GVK u), gvk_Kind (un_GVK u),
               un_Name u, un_Namespace u))
    (fun '(g, v, k, n, ns) => Build_Unstructured (GVK g v k) n ns) _).
  by intros [[]].
Defined.

(** ** Zero values of the objects that are read *)
Definition zero_resources : ResourceRequirements :=
  {| rr_Limits := None; rr_Requests := None; rr_Claims := [] |}.
Definition zero_PodTemplate : PodTemplateSpec :=
  {| pt_Labels := ∅; pt_Annotations := None;
     pt_Spec := {| ps_Volumes := []; ps_ServiceAccountName := ""; ps_NodeSelector := None;
       ps_HostNetwork := false; ps_HostPID := false; ps_PriorityClassName := "";
       ps_DNSPolicy := ""; ps_ImagePullSecrets := None; ps_Containers := [];
       ps_FSGroup := None; ps_Hostname := ""; ps_Tolerations := []; ps_Affinity := zero |} |}.
Definition zero_DaemonSetStatus : DaemonSetStatus :=
  {| dss_NumberMisscheduled := 0; dss_DesiredNumberScheduled := 0; dss_NumberAvailable := 0;
     dss_UpdatedNumberScheduled := 0; dss_CurrentNumberScheduled := 0; dss_NumberReady := 0;
     dss_NumberUnavailable := 0; dss_ObservedGeneration := 0; dss_CollisionCount := None;
     dss_Conditions := [] |}.
Definition zero_DaemonSet : DaemonSet :=
  {| ds_Meta := NewObjectMeta "" ""; ds_MinReadySeconds := 0; ds_Selector := ∅;
     ds_Template := zero_PodTemplate;
     ds_UpdateStrategy := {| us_Type := ""; us_RollingUpdate := None |};
     ds_Status := zero_DaemonSetStatus |}.
Definition zero_Deployment : Deployment :=
  {| dp_Meta := NewObjectMeta "" ""; dp_Replicas := None; dp_MinReadySeconds := 0;
     dp_Selector := ∅; dp_Template := zero_PodTemplate; dp_StrategyType := "";
     dp_Status := {| dps_ObservedGeneration := 0; dps_Conditions := [] |} |}.
Definition zero_ConfigMap : ConfigMap :=
  {| cm_Meta := zero_meta; cm_Kind := ""; cm_Data := None |}.
Definition zero_Secret : Secret := {| sec_Meta := zero_meta; sec_Type := ""; sec_Data := None |}.
#[export] Instance DaemonSetStatus_zero : GoZero DaemonSetStatus :=
  {| zero := zero_DaemonSetStatus;
     IsZero s :=
       Z.eqb (dss_NumberMisscheduled s) 0 && Z.eqb (dss_DesiredNumberScheduled s) 0 &&
       Z.eqb (dss_NumberAvailable s) 0 && Z.eqb (dss_UpdatedNumberScheduled s) 0 &&
       Z.eqb (dss_CurrentNumberScheduled s) 0 && Z.eqb (dss_NumberReady s) 0 &&
       Z.eqb (dss_NumberUnavailable s) 0 && Z.eqb (dss_ObservedGeneration s) 0 &&
       match dss_CollisionCount s with None => true | Some _ => false end &&
       match dss_Conditions s with [] => true | _ => false end |}.
#[export] Instance DaemonSetStatus_zero_laws : GoZeroLaws DaemonSetStatus.
Proof.
  split. intros [m d a u c r n g cc cs]. simpl. rewrite !andb_true_iff, !Z.eqb_eq. split.
  - destruct cc, cs; naive_solver.
  - by intros [= -> -> -> -> -> -> -> -> -> ->].
Qed.
