(* ===== verification/ApiTypes.v ===== *)
(** * The custom resources: api/v1

    InstanaAgent and InstanaAgentRemote with their specs (inline_types.go,
    instanaagent_types.go, remoteagent_types.go) and [Default].  A pointer is
    an [option]; a slice or map whose nilness is observable is an [option]. *)
From S2P Require Import Prelude GoStd Errors K8sTypes.

(** ** inline_types.go *)
Definition APM := "APM".
Definition INFRASTRUCTURE := "INFRASTRUCTURE".
Definition AWS := "AWS".
Definition KUBERNETES := "KUBERNETES".

Record TlsSpec := { tls_SecretName : string; tls_Certificate : bytes; tls_Key : bytes }.
Record ImageSpec := {
  im_Name : string; im_Digest : string; im_Tag : string; im_PullPolicy : string }.
#[export] Instance eta_ImageSpec : Settable ImageSpec := fun i =>
  Build_ImageSpec (im_Name i) (im_Digest i) (im_Tag i) (im_PullPolicy i).
Record BackendSpec := { be_EndpointHost : string; be_EndpointPort : string; be_Key : string }.

(** [ImageSpec.Image]: the digest wins over the tag. *)
Definition Image (i : ImageSpec) : string :=
  if negb (String.eqb (im_Digest i) "") then im_Name i +++ "@" +++ im_Digest i
  else if negb (String.eqb (im_Tag i) "") then im_Name i +++ ":" +++ im_Tag i
  else im_Name i.

(** [ResourceRequirements.GetOrDefault]. *)
Definition ResourceRequirements_GetOrDefault (r : ResourceRequirements) : ResourceRequirements :=
  {| rr_Requests :=
       Some (MapDefaulter.SetIfEmpty "cpu" "0.5"
              (MapDefaulter.SetIfEmpty "memory" "768Mi"
                (MapDefaulter.New (rr_Requests r))));
     rr_Limits :=
       Some (MapDefaulter.SetIfEmpty "cpu" "1.5"
              (MapDefaulter.SetIfEmpty "memory" "768Mi"
                (MapDefaulter.New (rr_Limits r))));
     rr_Claims := rr_Claims r |}.

Record AgentPodSpec := {
  pod_Annotations : option smap; pod_Labels : option smap;
  pod_Tolerations : list json; pod_Affinity : json; pod_PriorityClassName : string;
  pod_Resources : ResourceRequirements; pod_NodeSelector : option smap;
  pod_Volumes : list Volume; pod_VolumeMounts : list VolumeMount;
  pod_Env : list EnvVar; pod_LivenessProbe : option Probe }.

Record BaseAgentSpec := {
  ag_Mode : string; ag_Key : string; ag_DownloadKey : string; ag_KeysSecret : string;
  ag_ListenAddress : string; ag_EndpointHost : string; ag_EndpointPort : string;
  ag_MinReadySeconds : Z; ag_AdditionalBackends : list BackendSpec;
  ag_Tls : TlsSpec; ag_Image : ImageSpec;
  ag_PullSecrets : option (list LocalObjectReference);
  ag_UpdateStrategy : DaemonSetUpdateStrategy; ag_Pod : AgentPodSpec;
  ag_ProxyHost : string; ag_ProxyPort : string; ag_ProxyProtocol : string;
  ag_ProxyUser : string; ag_ProxyPassword : string; ag_ProxyUseDNS : bool;
  ag_Env : option smap; ag_ConfigurationYaml : string;
  ag_RedactKubernetesSecrets : string; ag_HostRepository : string;
  ag_ServiceMeshEnabled : bool;
  ag_MvnRepoUrl : string; ag_MvnRepoFeaturesPath : string; ag_MvnRepoSharedPath : string;
  ag_MirrorReleaseRepoUrl : string; ag_MirrorReleaseRepoUsername : string;
  ag_MirrorReleaseRepoPassword : string;
  ag_MirrorSharedRepoUrl : string; ag_MirrorSharedRepoUsername : string;
  ag_MirrorSharedRepoPassword : string }.
#[export] Instance eta_BaseAgentSpec : Settable BaseAgentSpec := fun a =>
  Build_BaseAgentSpec (ag_Mode a) (ag_Key a) (ag_DownloadKey a) (ag_KeysSecret a)
    (ag_ListenAddress a) (ag_EndpointHost a) (ag_EndpointPort a) (ag_MinReadySeconds a)
    (ag_AdditionalBackends a) (ag_Tls a) (ag_Image a) (ag_PullSecrets a)
    (ag_UpdateStrategy a) (ag_Pod a) (ag_ProxyHost a) (ag_ProxyPort a)
    (ag_ProxyProtocol a) (ag_ProxyUser a) (ag_ProxyPassword a) (ag_ProxyUseDNS a)
    (ag_Env a) (ag_ConfigurationYaml a) (ag_RedactKubernetesSecrets a)
    (ag_HostRepository a) (ag_ServiceMeshEnabled a) (ag_MvnRepoUrl a)
    (ag_MvnRepoFeaturesPath a) (ag_MvnRepoSharedPath a) (ag_MirrorReleaseRepoUrl a)
    (ag_MirrorReleaseRepoUsername a) (ag_MirrorReleaseRepoPassword a)
    (ag_MirrorSharedRepoUrl a) (ag_MirrorSharedRepoUsername a)
    (ag_MirrorSharedRepoPassword a).

Record ServiceAccountSpec := {
  sas_Create : option bool; sas_Name : string; sas_Annotations : option smap }.
#[export] Instance eta_ServiceAccountSpec : Settable ServiceAccountSpec := fun s =>
  Build_ServiceAccountSpec (sas_Create s) (sas_Name s) (sas_Annotations s).
Record CASpec := { ca_MountPath : string; ca_SecretName : string; ca_Filename : string }.
#[export] Instance eta_CASpec : Settable CASpec := fun c =>
  Build_CASpec (ca_MountPath c) (ca_SecretName c) (ca_Filename c).
Record ETCDSpec := {
  etcd_Insecure : option bool; etcd_CA : CASpec; etcd_Targets : list string }.
#[export] Instance eta_ETCDSpec : Settable ETCDSpec := fun e =>
  Build_ETCDSpec (etcd_Insecure e) (etcd_CA e) (etcd_Targets e).
Record RestClientSpec := { rc_HostAllowlist : list string; rc_CA : CASpec }.
Record KubernetesPodSpec := {
  kp_Resources : ResourceRequirements; kp_NodeSelector : option smap;
  kp_PriorityClassName : string; kp_Tolerations : list json; kp_Affinity : json }.
Record KubernetesDeploymentSpec := {
  kd_Enabled : option bool; kd_MinReadySeconds : Z; kd_Replicas : Z;
  kd_Pod : KubernetesPodSpec }.
#[export] Instance eta_KubernetesDeploymentSpec : Settable KubernetesDeploymentSpec := fun k =>
  Build_KubernetesDeploymentSpec (kd_Enabled k) (kd_MinReadySeconds k) (kd_Replicas k)
    (kd_Pod k).
Record K8sSpec := {
  ks_DeploymentSpec : KubernetesDeploymentSpec; ks_ImageSpec : ImageSpec;
  ks_PodDisruptionBudget : option bool; ks_ETCD : ETCDSpec;
  ks_RestClient : RestClientSpec; ks_PollRate : string;
  ks_CrdMonitoring : option bool }.
#[export] Instance eta_K8sSpec : Settable K8sSpec := fun k =>
  Build_K8sSpec (ks_DeploymentSpec k) (ks_ImageSpec k) (ks_PodDisruptionBudget k)
    (ks_ETCD k) (ks_RestClient k) (ks_PollRate k) (ks_CrdMonitoring k).
Record OpenTelemetryPortConfig := { otp_Enabled : option bool; otp_Port : option Z }.
#[export] Instance eta_OpenTelemetryPortConfig : Settable OpenTelemetryPortConfig := fun o =>
  Build_OpenTelemetryPortConfig (otp_Enabled o) (otp_Port o).
Record OpenTelemetry := {
  ot_Enabled : option bool; ot_GRPC : OpenTelemetryPortConfig;
  ot_HTTP : OpenTelemetryPortConfig }.
#[export] Instance eta_OpenTelemetry : Settable OpenTelemetry := fun o =>
  Build_OpenTelemetry (ot_Enabled o) (ot_GRPC o) (ot_HTTP o).
Record Zone := {
  zone_Name : string; zone_Tolerations : list json; zone_Affinity : json;
  zone_Mode : string }.

(** ** instanaagent_types.go *)
Record InstanaAgentSpec := {
  spec_UseSecretMounts : option bool; spec_Agent : BaseAgentSpec;
  spec_Cluster : string; spec_Zone : string; spec_OpenShift : option bool;
  spec_RbacCreate : option bool; spec_ServiceCreate : option bool;
  spec_OpenTelemetry : OpenTelemetry; spec_PrometheusRemoteWrite : option bool;
  spec_ServiceAccount : ServiceAccountSpec; spec_K8sSensor : K8sSpec;
  spec_PinnedChartVersion : string; spec_Zones : list Zone;
  spec_ServiceMeshEnabled : bool }.
#[export] Instance eta_InstanaAgentSpec : Settable InstanaAgentSpec := fun s =>
  Build_InstanaAgentSpec (spec_UseSecretMounts s) (spec_Agent s) (spec_Cluster s)
    (spec_Zone s) (spec_OpenShift s) (spec_RbacCreate s) (spec_ServiceCreate s)
    (spec_OpenTelemetry s) (spec_PrometheusRemoteWrite s) (spec_ServiceAccount s)
    (spec_K8sSensor s) (spec_PinnedChartVersion s) (spec_Zones s)
    (spec_ServiceMeshEnabled s).

Record ResourceInfo := { ri_Name : string; ri_UID : string }.
Definition zero_ResourceInfo := {| ri_Name := ""; ri_UID := "" |}.
#[export] Instance ResourceInfo_zero : GoZero ResourceInfo :=
  {| zero := zero_ResourceInfo;
     IsZero r := String.eqb (ri_Name r) "" && String.eqb (ri_UID r) "" |}.

Inductive AgentOperatorState :=
  | OperatorStateUnset | OperatorStateRunning | OperatorStateUpdating | OperatorStateFailed.

(** A parsed semantic version, opaque to the operator but for equality. *)
Definition SemanticVersion := string.

Record InstanaAgentStatus := {
  st_ConfigSecret : ResourceInfo; st_NamespacesConfigMap : ResourceInfo;
  st_Status : AgentOperatorState; st_Reason : string; st_LastUpdate : Z;
  st_OldVersionsUpdated : bool; st_DaemonSet : ResourceInfo;
  st_Conditions : option (list Condition); st_ObservedGeneration : option Z;
  st_OperatorVersion : option SemanticVersion }.
#[export] Instance eta_InstanaAgentStatus : Settable InstanaAgentStatus := fun s =>
  Build_InstanaAgentStatus (st_ConfigSecret s) (st_NamespacesConfigMap s) (st_Status s)
    (st_Reason s) (st_LastUpdate s) (st_OldVersionsUpdated s) (st_DaemonSet s)
    (st_Conditions s) (st_ObservedGeneration s) (st_OperatorVersion s).

Record InstanaAgent := {
  agent_APIVersion : string; agent_Kind : string; agent_Meta : ObjectMeta;
  agent_Spec : InstanaAgentSpec; agent_Status : InstanaAgentStatus }.
#[export] Instance eta_InstanaAgent : Settable InstanaAgent := fun a =>
  Build_InstanaAgent (agent_APIVersion a) (agent_Kind a) (agent_Meta a) (agent_Spec a)
    (agent_Status a).

Definition agent_Name (a : InstanaAgent) : string := om_Name (agent_Meta a).
Definition agent_Namespace (a : InstanaAgent) : string := om_Namespace (agent_Meta a).
Definition agent_Generation (a : InstanaAgent) : Z := om_Generation (agent_Meta a).

(** ** [InstanaAgent.Default]

    The assignments of the Go function in its order, one per block of
    fields; the later ones read what the earlier ones wrote. *)
Definition default_BaseAgentSpec (a : BaseAgentSpec) : BaseAgentSpec :=
  a <| ag_EndpointHost ::= fun v => ValueOrDefault v "ingress-red-saas.instana.io" |>
    <| ag_EndpointPort ::= fun v => ValueOrDefault v "443" |>
    <| ag_Image ::= fun i =>
         i <| im_Name ::= fun v => ValueOrDefault v "icr.io/instana/agent" |>
           <| im_Tag ::= fun v => ValueOrDefault v "latest" |>
           <| im_PullPolicy ::= fun v => ValueOrDefault v "Always" |> |>.

Definition default_UpdateStrategy (u : DaemonSetUpdateStrategy) : DaemonSetUpdateStrategy :=
  {| us_Type := ValueOrDefault (us_Type u) "RollingUpdate";
     us_RollingUpdate :=
       match ValueOrDefault (us_RollingUpdate u) (Some None) with
       | Some maxUnavailable => Some (ValueOrDefault maxUnavailable (Some (IntVal 1)))
       | None => None
       end |}.

Definition default_K8sSpec (k : K8sSpec) : K8sSpec :=
  k <| ks_ImageSpec ::= fun i =>
         i <| im_Name ::= fun v => ValueOrDefault v "icr.io/instana/k8sensor" |>
           <| im_Tag ::= fun v => ValueOrDefault v "latest" |>
           <| im_PullPolicy ::= fun v => ValueOrDefault v "Always" |> |>
    <| ks_DeploymentSpec ::= fun d => d <| kd_Replicas ::= fun v => ValueOrDefault v 3%Z |> |>
    <| ks_ETCD ::= fun e =>
         e <| etcd_Insecure ::= fun v => ValueOrDefault v (Some false) |>
           <| etcd_CA ::= fun c =>
                c <| ca_MountPath ::= fun v =>
                       ValueOrDefault v "/var/run/secrets/kubernetes.io/serviceaccount" |> |> |>
    <| ks_PollRate ::= fun v => ValueOrDefault v "10s" |>.

Definition default_OpenTelemetry (o : OpenTelemetry) : OpenTelemetry :=
  let enabled := ValueOrDefault (ot_Enabled o) (Some true) in
  o <| ot_Enabled := enabled |>
    <| ot_GRPC ::= fun g => g <| otp_Enabled ::= fun v => ValueOrDefault v enabled |> |>
    <| ot_HTTP ::= fun g => g <| otp_Enabled ::= fun v => ValueOrDefault v enabled |> |>.

Definition default_InstanaAgentSpec (s : InstanaAgentSpec) : InstanaAgentSpec :=
  s <| spec_Agent ::= default_BaseAgentSpec |>
    <| spec_Agent ::= fun a => a <| ag_UpdateStrategy ::= default_UpdateStrategy |> |>
    <| spec_RbacCreate ::= fun v => ValueOrDefault v (Some true) |>
    <| spec_ServiceCreate ::= fun v => ValueOrDefault v (Some true) |>
    <| spec_ServiceAccount ::= fun sa =>
         sa <| sas_Create ::= fun v => ValueOrDefault v (Some true) |> |>
    <| spec_K8sSensor ::= default_K8sSpec |>
    <| spec_OpenTelemetry ::= default_OpenTelemetry |>
    <| spec_UseSecretMounts ::= fun v => ValueOrDefault v (Some true) |>.

Definition Default (a : InstanaAgent) : InstanaAgent :=
  a <| agent_Spec ::= default_InstanaAgentSpec |>.

(** ** remoteagent_types.go *)
Record InstanaAgentRemoteSpec := {
  rspec_UseSecretMounts : option bool; rspec_Agent : BaseAgentSpec; rspec_Zone : string;
  rspec_RbacCreate : option bool; rspec_ServiceAccount : ServiceAccountSpec;
  rspec_Hostname : option string }.
#[export] Instance eta_InstanaAgentRemoteSpec : Settable InstanaAgentRemoteSpec := fun s =>
  Build_InstanaAgentRemoteSpec (rspec_UseSecretMounts s) (rspec_Agent s) (rspec_Zone s)
    (rspec_RbacCreate s) (rspec_ServiceAccount s) (rspec_Hostname s).
Record InstanaAgentRemoteStatus := {
  rst_ConfigSecret : ResourceInfo; rst_Conditions : option (list Condition);
  rst_ObservedGeneration : option Z; rst_OperatorVersion : option SemanticVersion;
  rst_Deployment : ResourceInfo }.
#[export] Instance eta_InstanaAgentRemoteStatus : Settable InstanaAgentRemoteStatus := fun s =>
  Build_InstanaAgentRemoteStatus (rst_ConfigSecret s) (rst_Conditions s) (rst_ObservedGeneration s)
    (rst_OperatorVersion s) (rst_Deployment s).
Record InstanaAgentRemote := {
  remote_APIVersion : string; remote_Kind : string; remote_Meta : ObjectMeta;
  remote_Spec : InstanaAgentRemoteSpec; remote_Status : InstanaAgentRemoteStatus }.
#[export] Instance eta_InstanaAgentRemote : Settable InstanaAgentRemote := fun a =>
  Build_InstanaAgentRemote (remote_APIVersion a) (remote_Kind a) (remote_Meta a)
    (remote_Spec a) (remote_Status a).

(** [InstanaAgentRemote.Default]. *)
Definition DefaultRemote (a : InstanaAgentRemote) : InstanaAgentRemote :=
  a <| remote_Spec ::= fun s =>
         s <| rspec_Agent ::= default_BaseAgentSpec |>
           <| rspec_RbacCreate ::= fun v => ValueOrDefault v (Some true) |>
           <| rspec_ServiceAccount ::= fun sa =>
                sa <| sas_Create ::= fun v => ValueOrDefault v (Some true) |> |>
           <| rspec_UseSecretMounts ::= fun v => ValueOrDefault v (Some true) |> |>.
