(* ===== verification/Effects.v ===== *)
(** * Effects: the API server, the trace and panics

    The operator acts on a cluster through controller-runtime's client, code
    outside the repository: [K8sApi] lists the calls the operator makes, over
    an abstract world [W] that any call may change.  A computation of type
    [M A] passes the world along, appends every call and its answer to a
    ghost trace, may change the local state [X] of the component it belongs
    to (the status manager) and returns, panics or runs out of fuel. *)
From S2P Require Import Prelude GoStd Errors K8sTypes ApiTypes.

(** ** Objects the operator writes: client.Object *)
Inductive object :=
  | ODaemonSet (d : DaemonSet) | ODeployment (d : Deployment)
  | OConfigMap (c : ConfigMap) | OSecret (s : Secret)
  | OService (s : Service) | OServiceAccount (s : ServiceAccount)
  | OClusterRole (r : Role) | OClusterRoleBinding (r : RoleBinding)
  | ORole (r : Role) | ORoleBinding (r : RoleBinding)
  | OPodDisruptionBudget (p : PodDisruptionBudget)
  | OUnstructured (u : Unstructured).

(** [GetObjectKind().GroupVersionKind()]: the TypeMeta every builder sets; a
    config map read into a zero value may lack it. *)
Definition object_gvk (o : object) : GroupVersionKind :=
  match o with
  | ODaemonSet _ => GVK "apps" "v1" "DaemonSet"
  | ODeployment _ => GVK "apps" "v1" "Deployment"
  | OConfigMap c => if String.eqb (cm_Kind c) "" then GVK "" "" "" else GVK "" "v1" (cm_Kind c)
  | OSecret _ => GVK "" "v1" "Secret"
  | OService _ => GVK "" "v1" "Service"
  | OServiceAccount _ => GVK "" "v1" "ServiceAccount"
  | OClusterRole _ => GVK "rbac.authorization.k8s.io" "v1" "ClusterRole"
  | OClusterRoleBinding _ => GVK "rbac.authorization.k8s.io" "v1" "ClusterRoleBinding"
  | ORole _ => GVK "rbac.authorization.k8s.io" "v1" "Role"
  | ORoleBinding _ => GVK "rbac.authorization.k8s.io" "v1" "RoleBinding"
  | OPodDisruptionBudget _ => GVK "policy" "v1" "PodDisruptionBudget"
  | OUnstructured u => un_GVK u
  end.

Definition object_meta (o : object) : ObjectMeta :=
  match o with
  | ODaemonSet d => ds_Meta d | ODeployment d => dp_Meta d
  | OConfigMap c => cm_Meta c | OSecret s => sec_Meta s
  | OService s => svc_Meta s | OServiceAccount s => sa_Meta s
  | OClusterRole r | ORole r => role_Meta r
  | OClusterRoleBinding r | ORoleBinding r => rb_Meta r
  | OPodDisruptionBudget p => pdb_Meta p
  | OUnstructured u => NewObjectMeta (un_Name u) (un_Namespace u)
  end.

Definition map_meta (f : ObjectMeta → ObjectMeta) (o : object) : object :=
  match o with
  | ODaemonSet d =>
      ODaemonSet (Build_DaemonSet (f (ds_Meta d)) (ds_MinReadySeconds d) (ds_Selector d)
        (ds_Template d) (ds_UpdateStrategy d) (ds_Status d))
  | ODeployment d =>
      ODeployment (Build_Deployment (f (dp_Meta d)) (dp_Replicas d) (dp_MinReadySeconds d)
        (dp_Selector d) (dp_Template d) (dp_StrategyType d) (dp_Status d))
  | OConfigMap c => OConfigMap (Build_ConfigMap (f (cm_Meta c)) (cm_Kind c) (cm_Data c))
  | OSecret s => OSecret (Build_Secret (f (sec_Meta s)) (sec_Type s) (sec_Data s))
  | OService s =>
      OService (Build_Service (f (svc_Meta s)) (svc_ClusterIP s) (svc_Selector s)
        (svc_Ports s) (svc_InternalTrafficPolicy s))
  | OServiceAccount s => OServiceAccount (Build_ServiceAccount (f (sa_Meta s)))
  | OClusterRole r => OClusterRole (Build_Role (f (role_Meta r)) (role_Rules r))
  | ORole r => ORole (Build_Role (f (role_Meta r)) (role_Rules r))
  | OClusterRoleBinding r =>
      OClusterRoleBinding (Build_RoleBinding (f (rb_Meta r)) (rb_RoleRef r) (rb_Subjects r))
  | ORoleBinding r =>
      ORoleBinding (Build_RoleBinding (f (rb_Meta r)) (rb_RoleRef r) (rb_Subjects r))
  | OPodDisruptionBudget p =>
      OPodDisruptionBudget
        (Build_PodDisruptionBudget (f (pdb_Meta p)) (pdb_Selector p) (pdb_MinAvailable p))
  | OUnstructured u => OUnstructured u
  end.

Definition object_name (o : object) : string := om_Name (object_meta o).
Definition object_namespace (o : object) : string := om_Namespace (object_meta o).
(** [client.ObjectKeyFromObject]. *)
Definition object_key (o : object) : ObjectKey := Key (object_namespace o) (object_name o).

Definition is_unstructured (o : object) : bool :=
  match o with OUnstructured _ => true | _ => false end.

Lemma object_meta_map f o : is_unstructured o = false → object_meta (map_meta f o) = f (object_meta o).
Proof. by destruct o. Qed.
Lemma object_gvk_map f o : object_gvk (map_meta f o) = object_gvk o.
Proof. by destruct o. Qed.

(** ** Requests *)

(** What a typed [Get] can be asked for, and what it answers with. *)
Inductive kind :=
  | KInstanaAgent | KInstanaAgentRemote | KConfigMap | KSecret | KDaemonSet
  | KDeployment | KService | KEndpoints | KClusterRole | KClusterRoleBinding
  | KUnstructured (gvk : GroupVersionKind).
Definition denote (k : kind) : Type :=
  match k with
  | KInstanaAgent => InstanaAgent | KInstanaAgentRemote => InstanaAgentRemote
  | KConfigMap => ConfigMap | KSecret => Secret | KDaemonSet => DaemonSet
  | KDeployment => Deployment | KService => Service | KEndpoints => Endpoints
  | KClusterRole => Role | KClusterRoleBinding => RoleBinding
  | KUnstructured _ => Unstructured
  end.

Inductive request :=
  | RApply (obj : object) (dryRun : bool)
  | RDelete (obj : object)
  | RPatchAgent (agentNew agentOld : InstanaAgent)
  | RPatchRemote (agentNew agentOld : InstanaAgentRemote)
  | RPatchAgentStatus (agentNew agentOld : InstanaAgent)
  | RPatchRemoteStatus (agentNew agentOld : InstanaAgentRemote).

(** The cluster, the clock and the processes the operator runs. *)
Class K8sApi (W : Type) := {
  k8sGet (k : kind) : ObjectKey → W → (denote k + error) * W;
  k8sListNamespaces : string → W → (list Namespace + error) * W;
  k8sListEndpointSlices : string → smap → W → (list EndpointSlice + error) * W;
  k8sListDeployments : string → smap → W → (list Deployment + error) * W;  (** by name, labels *)
  k8sWrite : request → W → option error * W;
  helmInit : W → option error * W;
  helmUninstall : W → option error * W;
  runCommand : string → W → option error * W;
  clock : W → Z;                       (** nanoseconds *)
  sleep : Z → W → W;
  cancelled : W → option error         (** of the context the controller passes *)
}.

(** Time does not run backwards, and a sleep lasts at least as long as asked. *)
Class ClockLaws (W : Type) `{K8sApi W} := {
  clock_sleep d w : (0 ≤ d → clock w + d ≤ clock (sleep d w))%Z;
  clock_get k key w : (clock w ≤ clock (snd (k8sGet k key w)))%Z;
  clock_write r w : (clock w ≤ clock (snd (k8sWrite r w)))%Z
}.

(** JSON of the recorded dependents (encoding/json over apimachinery's
    unstructured codec) and its documented round trip: an object is encoded
    with its kind, without which it cannot be decoded. *)
Class DependentsCodec := {
  marshalUnstructureds : list Unstructured → string;
  unmarshalUnstructureds : string → list Unstructured * option error
}.
Class DependentsCodecLaws `{DependentsCodec} := {
  unmarshal_marshal us :
    Forall (fun u => gvk_Kind (un_GVK u) ≠ "") us →
    unmarshalUnstructureds (marshalUnstructureds us) = (us, None)
}.

(** The order in which [range] visits a map is not specified. *)
Class MapRange := range : smap → list (string * string).
Class MapRangeLaws `{MapRange} := range_perm m : range m ≡ₚ map_to_list m.

(** The process environment. *)
Class Env := getenv : string → string.

(** [debug.Stack()]. *)
Class Debug := debug_stack : string.

(** Semantic versions (Masterminds/semver); [None] is a parse error. *)
Class Semver := {
  NewVersion : string → option SemanticVersion;
  VersionEqual : SemanticVersion → SemanticVersion → bool
}.

(** apimachinery's [meta.SetStatusCondition] at a point of time, and its
    documentation: the condition of the given type is added, or updated in
    place; its transition time is set when the status changes. *)
Class StatusConditions := SetStatusCondition : Z → Condition → list Condition → list Condition.
Definition find_condition (type : string) (l : list Condition) : option Condition :=
  List.find (fun c => String.eqb (cond_Type c) type) l.
Definition same_content (c c' : Condition) : Prop :=
  cond_Type c = cond_Type c' ∧ cond_Status c = cond_Status c' ∧
  cond_ObservedGeneration c = cond_ObservedGeneration c' ∧
  cond_Reason c = cond_Reason c' ∧ cond_Message c = cond_Message c'.
Class StatusConditionsLaws `{StatusConditions} := {
  set_condition_same t c l :
    ∃ c', find_condition (cond_Type c) (SetStatusCondition t c l) = Some c' ∧ same_content c' c;
  set_condition_other t c l type : type ≠ cond_Type c →
    find_condition type (SetStatusCondition t c l) = find_condition type l
}.

(** controllerutil's [AddFinalizer] and [RemoveFinalizer] on the list of
    finalizers: the new list and whether it changed. *)
Class Finalizers := {
  AddFinalizer : string → list string → list string * bool;
  RemoveFinalizer : string → list string → list string * bool
}.
Class FinalizersLaws `{Finalizers} := {
  AddFinalizer_elem f l x : x ∈ fst (AddFinalizer f l) ↔ x = f ∨ x ∈ l;
  AddFinalizer_changed f l : snd (AddFinalizer f l) = true ↔ f ∉ l;
  RemoveFinalizer_elem f l x : x ∈ fst (RemoveFinalizer f l) ↔ x ≠ f ∧ x ∈ l;
  RemoveFinalizer_changed f l : snd (RemoveFinalizer f l) = true ↔ f ∈ l
}.

(** Helm's [errors.Is(err, driver.ErrReleaseNotFound)]. *)
Class HelmErrors := IsReleaseNotFound : error → bool.

(** ** The trace *)
Inductive event :=
  | EGet (k : kind) (key : ObjectKey) (res : denote k + error)
  | EListNamespaces (label : string) (res : list Namespace + error)
  | EListEndpointSlices (namespace : string) (labels : smap) (res : list EndpointSlice + error)
  | EWrite (r : request) (err : option error)
  | EHelmInit (err : option error)
  | EHelmUninstall (err : option error)
  | ECommand (cmd : string) (err : option error)
  | ESleep (duration : Z)
  | ERecord (eventtype reason message : string)
  | EListDeployments (name : string) (labels : smap) (res : list Deployment + error).

(** ** The monad *)
Inductive outcome (A : Type) :=
  | Ret (a : A)
  | Panic (p : panic_value)
  | OutOfFuel.
Arguments Ret {A} _.
Arguments Panic {A} _.
Arguments OutOfFuel {A}.

Record St (W X : Type) := MkSt { world : W; trace : list event; local : X }.
Arguments MkSt {W X} _ _ _.
Arguments world {W X} _.
Arguments trace {W X} _.
Arguments local {W X} _.

Definition M (W X A : Type) : Type := St W X → outcome A * St W X.

#[export] Instance M_ret {W X} : MRet (M W X) := fun A a s => (Ret a, s).
#[export] Instance M_bind {W X} : MBind (M W X) := fun A B k m s =>
  match m s with
  | (Ret a, s') => k a s'
  | (Panic p, s') => (Panic p, s')
  | (OutOfFuel, s') => (OutOfFuel, s')
  end.

Lemma bind_Ret {W X A B} (m : M W X A) (k : A → M W X B) s a s' :
  m s = (Ret a, s') → (m ≫= k) s = k a s'.
Proof. intros E. unfold mbind, M_bind. by rewrite E. Qed.

Section Operations.
Context {W X : Type} `{K8sApi W}.

(** A call of the world that answers and is recorded. *)
Definition call {A} (f : W → A * W) (ev : A → event) : M W X A := fun s =>
  let '(a, w) := f (world s) in
  (Ret a, MkSt w (trace s ++ [ev a]) (local s)).
Definition doGet (k : kind) (key : ObjectKey) : M W X (denote k + error) :=
  call (k8sGet k key) (EGet k key).
Definition doWrite (r : request) : M W X (option error) :=
  call (k8sWrite r) (EWrite r).
Definition doSleep (d : Z) : M W X unit :=
  call (fun w => (tt, sleep d w)) (fun _ => ESleep d).
Definition now : M W X Z := fun s => (Ret (clock (world s)), s).
Definition ctxErr : M W X (option error) := fun s => (Ret (cancelled (world s)), s).
Definition record (eventtype reason message : string) : M W X unit :=
  call (fun w => (tt, w)) (fun _ => ERecord eventtype reason message).
Definition panic {A} (p : panic_value) : M W X A := fun s => (Panic p, s).
Definition lift {A} (r : or_panic A) : M W X A :=
  match r with Value a => mret a | Panics p => panic p end.
Definition outOfFuel {A} : M W X A := fun s => (OutOfFuel, s).
Definition getLocal : M W X X := fun s => (Ret (local s), s).
Definition modifyLocal (f : X → X) : M W X unit := fun s =>
  (Ret tt, MkSt (world s) (trace s) (f (local s))).
End Operations.

(** The dereference of a nil pointer: a run time error. *)
Definition nil_dereference : panic_value :=
  PanicError (Errorf "runtime error: invalid memory address or nil pointer dereference").
(** [*p]. *)
Definition deref {A} (p : option A) : or_panic A :=
  match p with Some a => Value a | None => Panics nil_dereference end.

(** [defer recovery.Catch(&finalErr)] in a function that has set its result
    to [err] when it returns: a panic becomes an error. *)
Definition catching {W X} `{Debug} (m : M W X (option error)) : M W X (option error) := fun s =>
  match m s with
  | (Panic p, s') => (Ret (Catch debug_stack (Some p) None), s')
  | r => r
  end.

(** ** Reasoning about traces

    [emits m R]: whatever the state it starts from, [m] only appends to the
    trace, and its outcome and the events it appends are related by [R]. *)
Section Emits.
Context {W X : Type}.

Definition emits {A} (m : M W X A) (R : outcome A → list event → Prop) : Prop :=
  ∀ s, ∃ t, trace (snd (m s)) = trace s ++ t ∧ R (fst (m s)) t.

Lemma emits_mono {A} (m : M W X A) (R R' : outcome A → list event → Prop) :
  emits m R → (∀ o t, R o t → R' o t) → emits m R'.
Proof. intros Hm HR s. destruct (Hm s) as (t & ? & ?). eauto. Qed.

Lemma emits_ret {A} (a : A) (R : outcome A → list event → Prop) :
  R (Ret a) [] → emits (mret a) R.
Proof. intros HR s. exists []. rewrite app_nil_r. split; [done|]. apply HR. Qed.

Lemma emits_bind {A B} (m : M W X A) (k : A → M W X B)
    (R : outcome B → list event → Prop) :
  emits m (fun o t =>
    match o with
    | Ret a => emits (k a) (fun o' t' => R o' (t ++ t'))
    | Panic p => R (Panic p) t
    | OutOfFuel => R OutOfFuel t
    end) →
  emits (m ≫= k) R.
Proof.
  intros Hm s. destruct (Hm s) as (t & Ht & Hk). unfold mbind, M_bind.
  destruct (m s) as [[a|p|] s']; simpl in *; [|by exists t..].
  destruct (Hk s') as (t' & Ht' & HR). exists (t ++ t').
  by rewrite Ht', Ht, <- app_assoc.
Qed.

Lemma emits_call {A} (f : W → A * W) (ev : A → event)
    (R : outcome A → list event → Prop) :
  (∀ a, R (Ret a) [ev a]) → emits (call f ev) R.
Proof.
  intros HR s. unfold call. destruct (f (world s)) as [a w]. exists [ev a]. eauto.
Qed.

Lemma emits_pure {A} (f : St W X → A) (g : St W X → X)
    (R : outcome A → list event → Prop) :
  (∀ a, R (Ret a) []) →
  emits (fun s => (Ret (f s), MkSt (world s) (trace s) (g s))) R.
Proof. intros HR s. exists []. rewrite app_nil_r. split; [done|]. apply HR. Qed.

Lemma emits_panic {A} p (R : outcome A → list event → Prop) :
  R (Panic p) [] → emits (panic p) R.
Proof. intros HR s. exists []. rewrite app_nil_r. split; [done|]. apply HR. Qed.

Lemma emits_outOfFuel {A} (R : outcome A → list event → Prop) :
  R OutOfFuel [] → emits outOfFuel R.
Proof. intros HR s. exists []. rewrite app_nil_r. split; [done|]. apply HR. Qed.

Lemma emits_getLocal (R : outcome X → list event → Prop) :
  (∀ x, R (Ret x) []) → emits getLocal R.
Proof. intros HR s. exists []. rewrite app_nil_r. split; [done|]. apply HR. Qed.

Lemma emits_modifyLocal f (R : outcome unit → list event → Prop) :
  R (Ret tt) [] → emits (modifyLocal f) R.
Proof. intros HR s. exists []. rewrite app_nil_r. split; [done|]. apply HR. Qed.

Lemma emits_now `{K8sApi W} (R : outcome Z → list event → Prop) :
  (∀ z, R (Ret z) []) → emits now R.
Proof. intros HR s. exists []. rewrite app_nil_r. split; [done|]. apply HR. Qed.

Lemma emits_ctxErr `{K8sApi W} (R : outcome (option error) → list event → Prop) :
  (∀ w, R (Ret (cancelled w)) []) → emits ctxErr R.
Proof. intros HR s. exists []. rewrite app_nil_r. split; [done|]. apply HR. Qed.

(** What holds of every run holds of a given run. *)
Lemma emits_run {A} (m : M W X A) R s o s' :
  emits m R → m s = (o, s') → ∃ t, trace s' = trace s ++ t ∧ R o t.
Proof. intros Hm Hs. specialize (Hm s). by rewrite Hs in Hm. Qed.
End Emits.
#[export] Hint Resolve emits_panic emits_outOfFuel : operator.

(** Walk through one primitive of a computation. *)
Ltac emits_step :=
  lazymatch goal with
  | |- emits (mbind _ _) _ => apply emits_bind
  | |- emits (mret _) _ => apply emits_ret
  | |- emits (doGet _ _) _ => apply emits_call; intros
  | |- emits (doWrite _) _ => apply emits_call; intros
  | |- emits (doSleep _) _ => apply emits_call; intros
  | |- emits (record _ _ _) _ => apply emits_call; intros
  | |- emits (call _ _) _ => apply emits_call; intros
  | |- emits (panic _) _ => apply emits_panic
  | |- emits outOfFuel _ => apply emits_outOfFuel
  | |- emits getLocal _ => apply emits_getLocal; intros
  | |- emits (modifyLocal _) _ => apply emits_modifyLocal
  | |- emits now _ => apply emits_now; intros
  | |- emits ctxErr _ => apply emits_ctxErr; intros
  end.

(** ** Loops *)
Section Loops.
Context {W X : Type}.

(** [for _, x := range l { b = f(b, x) }]. *)
Fixpoint foldM {A B} (f : B → A → M W X B) (b : B) (l : list A) : M W X B :=
  match l with
  | [] => mret b
  | x :: l' => b' ← f b x; foldM f b' l'
  end.

(** A postcondition split by the way a computation ends; the argument of
    [E] is the panic, or [None] when the fuel ran out. *)
Definition post {A} (I : A → list event → Prop)
    (E : option panic_value → list event → Prop) : outcome A → list event → Prop :=
  fun o t =>
    match o with
    | Ret a => I a t
    | Panic p => E (Some p) t
    | OutOfFuel => E None t
    end.

Lemma emits_seq {A B} (m : M W X A) (k : A → M W X B) I E R :
  emits m (post I E) →
  (∀ a t, I a t → emits (k a) (fun o t' => R o (t ++ t'))) →
  (∀ p t, E (Some p) t → R (Panic p) t) →
  (∀ t, E None t → R OutOfFuel t) →
  emits (m ≫= k) R.
Proof.
  intros Hm Hk Hp Hf. apply emits_bind. eapply emits_mono; [exact Hm|].
  intros [a|p|] t Ht; simpl in Ht; eauto.
Qed.

Lemma emits_foldM {A B} (f : B → A → M W X B) (l : list A)
    (I : list A → B → list event → Prop) E b :
  (∀ d x r b t, l = d ++ x :: r → I d b t →
     emits (f b x) (post (fun b' t' => I (d ++ [x]) b' (t ++ t'))
                         (fun p t' => E p (t ++ t')))) →
  I [] b [] →
  emits (foldM f b l) (post (I l) E).
Proof.
  intros Hf H0. cut (∀ k d b t, l = d ++ k → I d b t →
    emits (foldM f b k) (post (fun b' t' => I l b' (t ++ t'))
                              (fun p t' => E p (t ++ t')))).
  { intros Hk. exact (Hk l [] b [] eq_refl H0). }
  intros k. induction k as [|x k IH]; intros d b' t -> HI; simpl.
  - apply emits_ret. simpl. by rewrite !app_nil_r in *.
  - eapply emits_seq; [by eapply Hf| | |].
    + intros b'' t' HI'. eapply emits_mono; [eapply IH, HI'; by rewrite <- app_assoc|].
      intros [a|p|] t''; simpl; by rewrite (app_assoc t).
    + done.
    + done.
Qed.
End Loops.

(** ** Computations that leave the local state alone *)
Section KeepsLocal.
Context {W X : Type}.

Definition keeps_local {A} (m : M W X A) : Prop := ∀ s, local (snd (m s)) = local s.

Lemma keeps_local_ret {A} (a : A) : keeps_local (mret a).
Proof. by intros s. Qed.
Lemma keeps_local_call {A} (f : W → A * W) ev : keeps_local (call f ev).
Proof. intros s. unfold call. by destruct (f (world s)). Qed.
Lemma keeps_local_bind {A B} (m : M W X A) (k : A → M W X B) :
  keeps_local m → (∀ a, keeps_local (k a)) → keeps_local (m ≫= k).
Proof.
  intros Hm Hk s. specialize (Hm s). unfold mbind, M_bind.
  destruct (m s) as [[a|p|] s']; simpl in *; [|done..]. by rewrite (Hk a s').
Qed.
Lemma keeps_local_now `{K8sApi W} : keeps_local now.
Proof. by intros s. Qed.
Lemma keeps_local_foldM {A B} (f : B → A → M W X B) b l :
  (∀ b x, keeps_local (f b x)) → keeps_local (foldM f b l).
Proof.
  intros Hf. revert b. induction l as [|x l IH]; intros b; simpl; [apply keeps_local_ret|].
  by apply keeps_local_bind.
Qed.
End KeepsLocal.

Ltac keeps_local_auto :=
  repeat (intros; lazymatch goal with
  | |- keeps_local (mret _) => apply keeps_local_ret
  | |- keeps_local (mbind _ _) => apply keeps_local_bind
  | |- keeps_local (foldM _ _ _) => apply keeps_local_foldM
  | |- keeps_local (call _ _) => apply keeps_local_call
  | |- keeps_local (doGet _ _) => apply keeps_local_call
  | |- keeps_local (doWrite _) => apply keeps_local_call
  | |- keeps_local (record _ _ _) => apply keeps_local_call
  | |- keeps_local now => apply keeps_local_now
  | |- keeps_local (match ?x with _ => _ end) => destruct x
  | |- keeps_local _ => solve [eauto with operator]
  end).
