(* ===== verification/Cluster.v ===== *)
(** * A concrete cluster

    An executable instance of the interfaces the development is generic in:
    an API server that stores a few objects and answers writes from a script
    of errors, a clock, a codec for recorded dependents, an environment.
    It shows the laws of the interfaces can hold together, and the examples of
    the other files run on it. *)
From S2P Require Import Prelude GoStd Errors K8sTypes ApiTypes Effects.

(** ** API errors by reason *)

(** The reason of the first classified error met by a traversal in depth. *)
Fixpoint ReasonForError (e : error) : option string :=
  match e with
  | LeafError r _ => if String.eqb r "" then None else Some r
  | WrapErrors _ es =>
      (fix first es := match es with
                       | [] => None
                       | e :: es => match ReasonForError e with
                                    | Some r => Some r
                                    | None => first es
                                    end
                       end) es
  | MultiError e | CaughtPanic e => ReasonForError e
  end.
Definition has_reason (r : string) (e : option error) : bool :=
  match e with
  | Some e => match ReasonForError e with Some r' => String.eqb r' r | None => false end
  | None => false
  end.
#[export] Instance reason_errors : ApiErrors :=
  {| IsNotFound := has_reason "NotFound"; IsConflict := has_reason "Conflict" |}.
#[export] Instance reason_errors_laws : ApiErrorsLaws.
Proof.
  split; try done. intros [e|]; simpl; [|done].
  destruct (ReasonForError e) as [r|]; [|done]. intros ->%String.eqb_eq. done.
Qed.

Definition NotFound : error := LeafError "NotFound" "not found".
Definition Conflict : error := LeafError "Conflict" "the object has been modified".
Definition Refused : error := LeafError "Forbidden" "forbidden".

(** ** The cluster *)
Record cluster := {
  c_clock : Z;
  c_objects : list (GroupVersionKind * ObjectKey);
  c_cm : option ConfigMap;
  c_agent : option InstanaAgent;
  c_remote : option InstanaAgentRemote;
  c_daemonset : option DaemonSet;
  c_deployment : option Deployment;
  c_secret : option Secret;
  c_service : option Service;
  c_slices : list EndpointSlice;
  c_deployments : list Deployment;
  c_role : option Role;
  c_binding : option RoleBinding;
  c_script : list (option error);     (** answers to the next writes *)
  c_cancelled : option error }.
#[export] Instance eta_cluster : Settable cluster := fun c =>
  Build_cluster (c_clock c) (c_objects c) (c_cm c) (c_agent c) (c_remote c) (c_daemonset c)
    (c_deployment c) (c_secret c) (c_service c) (c_slices c) (c_deployments c) (c_role c) (c_binding c) (c_script c) (c_cancelled c).
Definition empty_cluster : cluster :=
  {| c_clock := 0; c_objects := []; c_cm := None; c_agent := None; c_remote := None; c_daemonset := None;
     c_deployment := None; c_secret := None;
     c_service := None; c_slices := []; c_deployments := []; c_role := None; c_binding := None;
     c_script := []; c_cancelled := None |}.

Definition found {A} (o : option A) : A + error :=
  match o with Some a => inl a | None => inr NotFound end.

Definition cluster_get (k : kind) (key : ObjectKey) (c : cluster) : (denote k + error) * cluster :=
  (match k return denote k + error with
   | KInstanaAgent => found (c_agent c)
   | KConfigMap => found (c_cm c)
   | KDaemonSet => found (c_daemonset c)
   | KDeployment => found (c_deployment c)
   | KSecret => found (c_secret c)
   | KService => found (c_service c)
   | KInstanaAgentRemote => found (c_remote c)
   | KEndpoints => inr NotFound
   | KClusterRole => found (c_role c)
   | KClusterRoleBinding => found (c_binding c)
   | KUnstructured gvk =>
       if decide ((gvk, key) ∈ c_objects c)
       then inl (Build_Unstructured gvk (key_Name key) (key_Namespace key))
       else inr NotFound
   end, c).

Definition cluster_do (r : request) (c : cluster) : cluster :=
  match r with
  | RApply _ true => c
  | RApply (OConfigMap cm) false => c <| c_cm := Some cm |>
  | RApply o false => c <| c_objects ::= fun l => (object_gvk o, object_key o) :: l |>
  | RDelete o => c <| c_objects ::= filter (fun x => x ≠ (object_gvk o, object_key o)) |>
  | RPatchAgent new _ | RPatchAgentStatus new _ => c <| c_agent := Some new |>
  | RPatchRemote new _ | RPatchRemoteStatus new _ => c <| c_remote := Some new |>
  end.
Definition cluster_write (r : request) (c : cluster) : option error * cluster :=
  match c_script c with
  | Some e :: script => (Some e, c <| c_script := script |>)
  | None :: script => (None, cluster_do r (c <| c_script := script |>))
  | [] => (None, cluster_do r c)
  end.

#[export] Instance cluster_api : K8sApi cluster := {|
  k8sGet := cluster_get;
  k8sListNamespaces _ c := (inl [], c);
  k8sListEndpointSlices _ _ c := (inl (c_slices c), c);
  k8sListDeployments _ _ c := (inl (c_deployments c), c);
  k8sWrite := cluster_write;
  helmInit c := (None, c);
  helmUninstall c := (None, c);
  runCommand _ c := (None, c);
  clock := c_clock;
  sleep d c := c <| c_clock ::= fun t => (t + Z.max 0 d)%Z |>;
  cancelled := c_cancelled |}.

Lemma cluster_do_clock r c : c_clock (cluster_do r c) = c_clock c.
Proof. by destruct r as [[] []| | | | |]. Qed.
#[export] Instance cluster_clock_laws : ClockLaws cluster.
Proof.
  split.
  - intros d w ?. simpl. lia.
  - intros k key w. simpl. lia.
  - intros r w. simpl. unfold cluster_write. destruct (c_script w) as [|[e|] l]; simpl;
      rewrite ?cluster_do_clock; simpl; lia.
Qed.

#[export] Instance cluster_env : Env := fun v =>
  if String.eqb v "OPERATOR_VERSION" then "v2.0.0" else "".

#[export] Instance cluster_debug : Debug := "goroutine 1 [running]".

#[export] Instance reason_helm : HelmErrors := fun e => has_reason "ReleaseNotFound" (Some e).

(** ** Finalizers *)
#[export] Instance list_finalizers : Finalizers := {|
  AddFinalizer f l := if decide (f ∈ l) then (l, false) else (l ++ [f], true);
  RemoveFinalizer f l := (filter (fun x => x ≠ f) l, bool_decide (f ∈ l)) |}.
#[export] Instance list_finalizers_laws : FinalizersLaws.
Proof.
  split; intros; simpl.
  - case_decide; set_solver.
  - case_decide; set_solver.
  - by rewrite list_elem_of_filter.
  - apply bool_decide_eq_true.
Qed.

(** ** Versions and conditions *)
#[export] Instance text_semver : Semver :=
  {| NewVersion v := if HasPrefix v "v" then Some v else None; VersionEqual := String.eqb |}.

Fixpoint set_condition (t : Z) (c : Condition) (l : list Condition) : list Condition :=
  match l with
  | [] => [c <| cond_LastTransitionTime := t |>]
  | c' :: l =>
      if String.eqb (cond_Type c') (cond_Type c) then
        c <| cond_LastTransitionTime :=
               if String.eqb (cond_Status c') (cond_Status c)
               then cond_LastTransitionTime c' else t |> :: l
      else c' :: set_condition t c l
  end.
#[export] Instance cluster_conditions : StatusConditions := set_condition.
#[export] Instance cluster_conditions_laws : StatusConditionsLaws.
Proof.
  split; intros t c l; unfold SetStatusCondition, cluster_conditions.
  - induction l as [|c' l IH]; simpl.
    + rewrite String.eqb_refl. eexists. split; [done|]. by repeat split.
    + destruct (String.eqb_spec (cond_Type c') (cond_Type c)) as [E|E]; simpl.
      * rewrite String.eqb_refl. eexists. split; [done|]. by repeat split.
      * apply String.eqb_neq in E. by rewrite E.
  - intros type Ht. induction l as [|c' l IH]; simpl.
    + by rewrite (proj2 (String.eqb_neq _ _) (not_eq_sym Ht)).
    + destruct (String.eqb_spec (cond_Type c') (cond_Type c)) as [E|E]; simpl.
      * rewrite E, (proj2 (String.eqb_neq _ _) (not_eq_sym Ht)). done.
      * by rewrite IH.
Qed.

(** ** A codec of recorded dependents and an order of iteration *)
Fixpoint bits_of (p : positive) : string :=
  match p with
  | xH => ""
  | xO p => String "0" (bits_of p)
  | xI p => String "1" (bits_of p)
  end.
Fixpoint of_bits (s : string) : option positive :=
  match s with
  | EmptyString => Some xH
  | String c s =>
      p ← of_bits s;
      if Ascii.eqb c "0" then Some (xO p) else if Ascii.eqb c "1" then Some (xI p) else None
  end.
Lemma of_bits_bits p : of_bits (bits_of p) = Some p.
Proof. induction p as [p IH|p IH|]; simpl; by rewrite ?IH. Qed.

#[export] Instance bits_codec : DependentsCodec := {|
  marshalUnstructureds us := bits_of (encode us);
  unmarshalUnstructureds s :=
    match of_bits s ≫= decode with
    | Some us => (us, None)
    | None => ([], Some (Errorf "invalid JSON"))
    end |}.
#[export] Instance bits_codec_laws : DependentsCodecLaws.
Proof.
  split. intros us _. unfold unmarshalUnstructureds, marshalUnstructureds, bits_codec.
  rewrite of_bits_bits. simpl. by rewrite decode_encode.
Qed.

#[export] Instance sorted_range : MapRange := map_to_list.
#[export] Instance sorted_range_laws : MapRangeLaws.
Proof. by intros m. Qed.

Definition start {X} (c : cluster) (x : X) : St cluster X := MkSt c [] x.

(** ** A custom resource with nothing set *)
Definition zero_ImageSpec : ImageSpec :=
  {| im_Name := ""; im_Digest := ""; im_Tag := ""; im_PullPolicy := "" |}.
Definition zero_AgentPodSpec : AgentPodSpec :=
  {| pod_Annotations := None; pod_Labels := None; pod_Tolerations := []; pod_Affinity := zero;
     pod_PriorityClassName := ""; pod_Resources := zero_resources; pod_NodeSelector := None;
     pod_Volumes := []; pod_VolumeMounts := []; pod_Env := []; pod_LivenessProbe := None |}.
Definition zero_BaseAgentSpec : BaseAgentSpec :=
  {| ag_Mode := ""; ag_Key := ""; ag_DownloadKey := ""; ag_KeysSecret := "";
     ag_ListenAddress := ""; ag_EndpointHost := ""; ag_EndpointPort := "";
     ag_MinReadySeconds := 0; ag_AdditionalBackends := [];
     ag_Tls := {| tls_SecretName := ""; tls_Certificate := ""; tls_Key := "" |};
     ag_Image := zero_ImageSpec; ag_PullSecrets := None;
     ag_UpdateStrategy := {| us_Type := ""; us_RollingUpdate := None |};
     ag_Pod := zero_AgentPodSpec; ag_ProxyHost := ""; ag_ProxyPort := "";
     ag_ProxyProtocol := ""; ag_ProxyUser := ""; ag_ProxyPassword := "";
     ag_ProxyUseDNS := false; ag_Env := None; ag_ConfigurationYaml := "";
     ag_RedactKubernetesSecrets := ""; ag_HostRepository := "";
     ag_ServiceMeshEnabled := false; ag_MvnRepoUrl := ""; ag_MvnRepoFeaturesPath := "";
     ag_MvnRepoSharedPath := ""; ag_MirrorReleaseRepoUrl := "";
     ag_MirrorReleaseRepoUsername := ""; ag_MirrorReleaseRepoPassword := "";
     ag_MirrorSharedRepoUrl := ""; ag_MirrorSharedRepoUsername := "";
     ag_MirrorSharedRepoPassword := "" |}.
Definition zero_CASpec : CASpec := {| ca_MountPath := ""; ca_SecretName := ""; ca_Filename := "" |}.
Definition zero_K8sSpec : K8sSpec :=
  {| ks_DeploymentSpec := {| kd_Enabled := None; kd_MinReadySeconds := 0; kd_Replicas := 0;
       kd_Pod := {| kp_Resources := zero_resources; kp_NodeSelector := None;
         kp_PriorityClassName := ""; kp_Tolerations := []; kp_Affinity := zero |} |};
     ks_ImageSpec := zero_ImageSpec; ks_PodDisruptionBudget := None;
     ks_ETCD := {| etcd_Insecure := None; etcd_CA := zero_CASpec; etcd_Targets := [] |};
     ks_RestClient := {| rc_HostAllowlist := []; rc_CA := zero_CASpec |};
     ks_PollRate := ""; ks_CrdMonitoring := None |}.
Definition zero_OpenTelemetry : OpenTelemetry :=
  let port := {| otp_Enabled := None; otp_Port := None |} in
  {| ot_Enabled := None; ot_GRPC := port; ot_HTTP := port |}.
Definition zero_InstanaAgentSpec : InstanaAgentSpec :=
  {| spec_UseSecretMounts := None; spec_Agent := zero_BaseAgentSpec; spec_Cluster := "";
     spec_Zone := ""; spec_OpenShift := None; spec_RbacCreate := None;
     spec_ServiceCreate := None; spec_OpenTelemetry := zero_OpenTelemetry;
     spec_PrometheusRemoteWrite := None;
     spec_ServiceAccount := {| sas_Create := None; sas_Name := ""; sas_Annotations := None |};
     spec_K8sSensor := zero_K8sSpec; spec_PinnedChartVersion := ""; spec_Zones := [];
     spec_ServiceMeshEnabled := false |}.
Definition zero_InstanaAgentStatus : InstanaAgentStatus :=
  {| st_ConfigSecret := zero_ResourceInfo; st_NamespacesConfigMap := zero_ResourceInfo;
     st_Status := OperatorStateUnset; st_Reason := ""; st_LastUpdate := 0;
     st_OldVersionsUpdated := false; st_DaemonSet := zero_ResourceInfo; st_Conditions := None;
     st_ObservedGeneration := None; st_OperatorVersion := None |}.
Definition example_agent : InstanaAgent :=
  {| agent_APIVersion := "instana.io/v1"; agent_Kind := "InstanaAgent";
     agent_Meta := (NewObjectMeta "agent" "ns") <| om_UID := "1" |> <| om_Generation := 2%Z |>;
     agent_Spec := zero_InstanaAgentSpec <| spec_Cluster := "c" |>
       <| spec_Zone := "z" |> <| spec_Agent ::= fun a => a <| ag_Key := "k" |> |>;
     agent_Status := zero_InstanaAgentStatus |}.
Definition example_remote : InstanaAgentRemote :=
  {| remote_APIVersion := "instana.io/v1"; remote_Kind := "InstanaAgentRemote";
     remote_Meta := (NewObjectMeta "remote" "ns") <| om_UID := "2" |> <| om_Generation := 1%Z |>;
     remote_Spec :=
       {| rspec_UseSecretMounts := None; rspec_Agent := zero_BaseAgentSpec <| ag_Key := "k" |>;
          rspec_Zone := "z"; rspec_RbacCreate := None;
          rspec_ServiceAccount := {| sas_Create := None; sas_Name := ""; sas_Annotations := None |};
          rspec_Hostname := None |};
     remote_Status :=
       {| rst_ConfigSecret := zero_ResourceInfo; rst_Conditions := None;
          rst_ObservedGeneration := None; rst_OperatorVersion := None;
          rst_Deployment := zero_ResourceInfo |} |}.
