(* ===== verification/Client.v ===== *)
(** * The Instana agent client: pkg/k8s/client

    The wrapper of controller-runtime's client every component uses:
    server-side apply as field owner [instana-agent-operator], existence
    checks, deletion with a time limit, namespace labels. *)
From S2P Require Import Prelude GoStd Errors K8sTypes ApiTypes Effects Cluster.

Definition FieldOwnerName := "instana-agent-operator".

(** ** namespaces.go *)
Record NamespacesDetails := { nd_Version : Z; nd_Namespaces : gmap string smap }.
Definition zero_NamespacesDetails : NamespacesDetails :=
  {| nd_Version := 0; nd_Namespaces := ∅ |}.

(** ** helpers.go *)
Definition ifNotFound `{ApiErrors} (e : option error) : bool * option error :=
  (false, IgnoreNotFound e).
Definition doNotExist (r : Result.t bool) : bool :=
  Result.IsSuccess r && negb (Optional.Get (Result.ToOptional r)).

(** The error a context reports once its deadline has passed. *)
Definition DeadlineExceeded : error := Errorf "context deadline exceeded".

Definition err_of {A} (r : A + error) : option error :=
  match r with inl _ => None | inr e => Some e end.

Section Client.
Context {W X : Type} `{K8sApi W} `{ApiErrors}.

(** [Apply]: the managed fields are cleared, ownership is forced. *)
Definition clear_managed_fields (o : object) : object :=
  map_meta (fun m => m <| om_ManagedFields := [] |>) o.
Definition Apply (obj : object) (dryRun : bool) : M W X (Result.t object) :=
  let obj := clear_managed_fields obj in
  e ← doWrite (RApply obj dryRun);
  mret (Result.Of obj e).

Definition Delete (obj : object) : M W X (option error) := doWrite (RDelete obj).

Definition GetAsResult (k : kind) (key : ObjectKey) (zero : denote k) :
    M W X (Result.t (denote k)) :=
  r ← doGet k key;
  mret (match r with inl a => Result.Of a None | inr e => Result.Of zero (Some e) end).

Definition zero_Unstructured (gvk : GroupVersionKind) : Unstructured :=
  Build_Unstructured gvk "" "".

Definition Exists (gvk : GroupVersionKind) (key : ObjectKey) : M W X (Result.t bool) :=
  res ← GetAsResult (KUnstructured gvk) key (zero_Unstructured gvk);
  mret (Result.Recover (Result.Map res (fun _ => Result.OfSuccess true)) ifNotFound).

Definition objectsExist (objects : list object) : M W X (list (Result.t bool)) :=
  foldM (fun res obj =>
    objExistsRes ← Exists (object_gvk obj) (object_key obj);
    mret (res ++ [objExistsRes])) [] objects.

(** The context of [context.WithTimeout] is done. *)
Definition ctxDone (deadline : Z) : M W X (option error) :=
  e ← ctxErr;
  match e with
  | Some e => mret (Some e)
  | None => t ← now; mret (if (deadline <=? t)%Z then Some DeadlineExceeded else None)
  end.

(** [verifyDeletion] and [verifyDeletionStep] call each other: one unit of
    fuel per round. *)
Fixpoint verifyDeletion (fuel : nat) (deadline : Z) (objects : list object)
    (waitTime : Z) : M W X (option error) :=
  match fuel with
  | O => outOfFuel
  | S fuel =>
      done ← ctxDone deadline;
      match done with
      | Some e => mret (Some e)
      | None =>
          objectsExistResults ← objectsExist objects;
          if GoList.All objectsExistResults doNotExist then mret None
          else _ ← doSleep waitTime; verifyDeletion fuel deadline objects waitTime
      end
  end.

Definition deleteAll (objects : list object) : M W X (option error) :=
  errBuilder ← foldM (fun b obj =>
    err ← Delete obj;
    mret (MultiErrorBuilder.Add [IgnoreNotFound err] b)) (MultiErrorBuilder.New []) objects;
  mret (MultiErrorBuilder.Build errBuilder).

(** Enough rounds for [timeout], each sleeping [waitTime]. *)
Definition verify_fuel (timeout waitTime : Z) : nat :=
  S (S (Z.to_nat (timeout / waitTime))).

Definition deleteAllInTimeLimit (objects : list object) (timeout waitTime : Z) :
    M W X (option error) :=
  t ← now;
  err ← deleteAll objects;
  match err with
  | None => verifyDeletion (verify_fuel timeout waitTime) (t + timeout) objects waitTime
  | Some e => mret (Some e)
  end.

Definition DeleteAllInTimeLimit (objects : list object) (timeout waitTime : Z) :
    M W X (Result.t (list object)) :=
  err ← deleteAllInTimeLimit objects timeout waitTime;
  mret (Result.Of objects err).

Definition instanaWorkloadMonitoringLabel := "instana-workload-monitoring".

(** [GetNamespacesWithLabels]: only the one label of each namespace is kept. *)
Definition GetNamespacesWithLabels : M W X (NamespacesDetails * option error) :=
  r ← call (k8sListNamespaces instanaWorkloadMonitoringLabel)
           (EListNamespaces instanaWorkloadMonitoringLabel);
  mret match r with
  | inr e =>
      (zero_NamespacesDetails,
       Some (WrapErrors ("failed to list namespaces: " +++ ErrorMsg e) [e]))
  | inl items =>
      ({| nd_Version := 1;
          nd_Namespaces :=
            foldl (fun m ns =>
              <[om_Name (ns_Meta ns) :=
                  {[ instanaWorkloadMonitoringLabel :=
                       default "" (default ∅ (om_Labels (ns_Meta ns))
                                     !! instanaWorkloadMonitoringLabel) ]} ]> m)
              ∅ items |}, None)
  end.
End Client.

(** ** What a successful deletion means *)
Section ClientFacts.
Context {W X : Type} `{K8sApi W} `{ApiErrors}.

(** Some event of [t] shows that the object was asked for and not found. *)
Definition observed_gone (obj : object) (t : list event) : Prop :=
  ∃ e, EGet (KUnstructured (object_gvk obj)) (object_key obj) (inr e) ∈ t ∧
       IsNotFound (Some e) = true.
(** Some event of [t] is a deletion request the server accepted, or answered
    with not found. *)
Definition delete_requested (obj : object) (t : list event) : Prop :=
  ∃ e, EWrite (RDelete obj) e ∈ t ∧ IgnoreNotFound e = None.

(** Events a deletion may produce: deletions of the given objects, reads, sleeps. *)
Definition deletion_event (objects : list object) (ev : event) : Prop :=
  match ev with
  | EWrite (RDelete obj) _ => obj ∈ objects
  | EGet _ _ _ | ESleep _ => True
  | _ => False
  end.

(** Why a deletion with a time limit fails: its context was done, or the server
    refused requests. *)
Definition deletion_failed (e : error) (t : list event) : Prop :=
  e = DeadlineExceeded ∨ (∃ w, cancelled w = Some e) ∨
  ∃ answers, MultiErrorBuilder.Build (IgnoreNotFound <$> answers) = Some e ∧
    ∀ a, a ∈ answers → ∃ obj, EWrite (RDelete obj) a ∈ t.
Lemma deletion_failed_app e t u : deletion_failed e t ∨ deletion_failed e u → deletion_failed e (t ++ u).
Proof.
  intros [[?|[?|(answers & Hb & Ha)]]|[?|[?|(answers & Hb & Ha)]]]; [by left|by right; left|..|by left|by right; left|];
    right; right; exists answers; (split; [done|]); intros a (obj & ?)%Ha; exists obj; set_solver.
Qed.

(** Looking and waiting. *)
Definition look_event (ev : event) : Prop :=
  match ev with EGet _ _ _ | ESleep _ => True | _ => False end.
Lemma look_deletion objects ev : look_event ev → deletion_event objects ev.
Proof. by destruct ev. Qed.

Lemma observed_gone_app obj t t' :
  observed_gone obj t ∨ observed_gone obj t' → observed_gone obj (t ++ t').
Proof. intros [(e & ? & ?)|(e & ? & ?)]; exists e; set_solver. Qed.
Lemma delete_requested_app obj t t' :
  delete_requested obj t ∨ delete_requested obj t' → delete_requested obj (t ++ t').
Proof. intros [(e & ? & ?)|(e & ? & ?)]; exists e; set_solver. Qed.

Lemma Exists_emits gvk key (R : outcome (Result.t bool) → list event → Prop) :
  (∀ u : Unstructured,
     R (Ret (Result.OfSuccess true)) [EGet (KUnstructured gvk) key (inl u)]) →
  (∀ e, R (Ret (Result.Of false (IgnoreNotFound (Some e))))
          [EGet (KUnstructured gvk) key (inr e)]) →
  emits (W:=W) (X:=X) (Exists gvk key) R.
Proof.
  intros Hu He. unfold Exists, GetAsResult. emits_step. emits_step.
  emits_step. destruct a as [u|e]; emits_step; emits_step; simpl; [apply Hu|apply He].
Qed.

Lemma objectsExist_emits objects :
  emits (W:=W) (X:=X) (objectsExist objects) (post (fun rs t =>
    Forall look_event t ∧
    (GoList.All rs doNotExist = true → Forall (fun o => observed_gone o t) objects))
    (fun _ _ => False)).
Proof.
  unfold objectsExist. eapply emits_mono.
  - apply (emits_foldM _ objects (fun d rs t =>
      Forall look_event t ∧
      (GoList.All rs doNotExist = true → Forall (fun o => observed_gone o t) d))
      (fun _ _ => False)); [|done].
    intros d x r rs t _ [Ht Hd]. emits_step. apply Exists_emits.
    + intros u. emits_step. simpl. split.
      * apply Forall_app; split; [done|]. repeat constructor.
      * rewrite GoList.All_spec, Forall_app. by intros [_ [=]%Forall_inv].
    + intros e. emits_step. simpl. split.
      * apply Forall_app; split; [done|]. repeat constructor.
      * rewrite GoList.All_spec, Forall_app, <- GoList.All_spec.
        intros [Hrs Hx%Forall_inv]. apply Forall_app; split.
        { eapply Forall_impl; [by apply Hd|]. intros. apply observed_gone_app; by left. }
        apply Forall_singleton, observed_gone_app. right. exists e.
        split; [set_solver|]. revert Hx. unfold IgnoreNotFound.
        by destruct (IsNotFound (Some e)).
  - by intros [rs|p|] t.
Qed.

Lemma verifyDeletion_emits fuel deadline objects waitTime :
  emits (W:=W) (X:=X) (verifyDeletion fuel deadline objects waitTime) (post
    (fun r t => Forall look_event t ∧
                (r = None → Forall (fun o => observed_gone o t) objects) ∧
                ∀ e, r = Some e → deletion_failed e t)
    (fun p t => p = None ∧ Forall look_event t)).
Proof.
  induction fuel as [|fuel IH]; simpl; [by emits_step|].
  emits_step. unfold ctxDone. emits_step. emits_step. destruct (cancelled w) as [e|] eqn:Ew.
  { emits_step. emits_step. split_and!; [done..|]. intros e' [= <-]. right; left. by exists w. }
  emits_step. emits_step. emits_step. destruct (deadline <=? z)%Z.
  { emits_step. split_and!; [done..|]. intros e' [= <-]. by left. }
  eapply emits_seq; [apply objectsExist_emits| |by intros []|done].
  intros rs t [Ht Hrs]. destruct (GoList.All rs doNotExist).
  { emits_step. simpl. rewrite app_nil_r. split_and!; [done|auto|done]. }
  emits_step. emits_step. eapply emits_mono; [exact IH|].
  intros [r|p|] t' Ht'; simpl in *.
  - destruct Ht' as (Ht' & Hr & Hf). split_and!.
    + rewrite !Forall_app. by repeat constructor.
    + intros ->. eapply Forall_impl; [by apply Hr|]. intros o ?.
      apply observed_gone_app. right. apply (observed_gone_app o [_]). by right.
    + intros e ?%Hf. apply deletion_failed_app. right. apply (deletion_failed_app e [_]). by right.
  - destruct Ht' as [? Ht']. split; [done|]. rewrite !Forall_app. by repeat constructor.
  - destruct Ht' as [? Ht']. split; [done|]. rewrite !Forall_app. by repeat constructor.
Qed.

Lemma deleteAll_emits objects :
  emits (W:=W) (X:=X) (deleteAll objects) (post
    (fun r t => Forall (deletion_event objects) t ∧
                (r = None → Forall (fun o => delete_requested o t) objects) ∧
                ∀ e, r = Some e → deletion_failed e t)
    (fun _ _ => False)).
Proof.
  unfold deleteAll. eapply emits_seq.
  - apply (emits_foldM _ objects (fun d b t =>
      Forall (deletion_event objects) t ∧
      (MultiErrorBuilder.Build b = None → Forall (fun o => delete_requested o t) d) ∧
      ∃ answers, b = IgnoreNotFound <$> answers ∧ ∀ a, a ∈ answers → ∃ obj, EWrite (RDelete obj) a ∈ t)
      (fun _ _ => False)); [|by split_and!; [..|exists []; split; [done|by intros ? ?%elem_of_nil]]].
    intros d x r b t -> (Ht & Hd & answers & -> & Ha). unfold Delete. emits_step. emits_step. emits_step.
    simpl. split_and!.
    + apply Forall_app; split; [done|]. repeat constructor. simpl. set_solver.
    + intros [Hb He]%MultiErrorBuilder.Build_AddSingle. apply Forall_app; split.
      { eapply Forall_impl; [by apply Hd|]. intros. apply delete_requested_app; by left. }
      apply Forall_singleton, delete_requested_app. right. exists a.
      split; [set_solver|done].
    + exists (answers ++ [a]). split; [by rewrite fmap_app|].
      intros a' [(obj & ?)%Ha| ->%list_elem_of_singleton]%elem_of_app; [exists obj|exists x]; set_solver.
  - intros b t (Ht & Hb & answers & -> & Ha). emits_step. simpl. rewrite app_nil_r. split_and!; [done..|].
    intros e He. right; right. by exists answers.
  - done.
  - done.
Qed.

(** Every object was asked to be deleted, and after the last of these requests
    every one was looked up and not there. *)
Definition deleted_and_gone (objects : list object) (t : list event) : Prop :=
  ∃ requests looks, t = requests ++ looks ∧
    Forall (fun o => delete_requested o requests) objects ∧
    Forall (fun o => observed_gone o looks) objects ∧
    ∀ obj e, EWrite (RDelete obj) e ∉ looks.
Lemma deleted_gone objects t : deleted_and_gone objects t → Forall (fun o => observed_gone o t) objects.
Proof.
  intros (requests & looks & -> & _ & Hg & _). eapply Forall_impl; [exact Hg|].
  intros o ?. apply observed_gone_app. by right.
Qed.

Lemma DeleteAllInTimeLimit_emits objects timeout waitTime :
  emits (W:=W) (X:=X) (DeleteAllInTimeLimit objects timeout waitTime) (post
    (fun r t => Forall (deletion_event objects) t ∧
      (Result.err r = None → deleted_and_gone objects t) ∧
      ∀ e, Result.err r = Some e → deletion_failed e t)
    (fun p t => p = None ∧ Forall (deletion_event objects) t)).
Proof.
  unfold DeleteAllInTimeLimit, deleteAllInTimeLimit.
  emits_step. emits_step. emits_step.
  eapply emits_seq; [apply deleteAll_emits| |done|done].
  intros r t (Ht & Hr & Hfr). destruct r as [e|].
  { do 2 emits_step. simpl. rewrite !app_nil_r. split_and!; [done..|]. intros e' [= <-]. by apply Hfr. }
  eapply emits_mono; [apply verifyDeletion_emits|].
  intros [r|p|] t' Ht'; simpl in *.
  - destruct Ht' as (Hl & Hg & Hf). emits_step. simpl. rewrite app_nil_r, Forall_app.
    split_and!; [done|by eapply Forall_impl; [|apply look_deletion]| |].
    2: { intros e He. apply deletion_failed_app. right. by apply Hf. }
    intros ->.
    exists t, t'. split_and!; [done|by apply Hr|by apply Hg|]. intros obj e Hin.
    rewrite Forall_forall in Hl. by specialize (Hl _ Hin).
  - destruct Ht' as [? Hl]. rewrite Forall_app. split_and!; [done..|].
    by eapply Forall_impl; [|apply look_deletion].
  - destruct Ht' as [? Hl]. rewrite Forall_app. split_and!; [done..|].
    by eapply Forall_impl; [|apply look_deletion].
Qed.

(** *** Termination within the time limit *)
Context `{!ClockLaws W}.

(** A computation that returns, and during which time does not go back. *)
Definition runs {A} (m : M W X A) : Prop :=
  ∀ s, ∃ a s', m s = (Ret a, s') ∧ (clock (world s) ≤ clock (world s'))%Z.

Lemma runs_ret {A} (a : A) : runs (mret a).
Proof. intros s. exists a, s. split; [done|lia]. Qed.
Lemma runs_bind {A B} (m : M W X A) (k : A → M W X B) :
  runs m → (∀ a, runs (k a)) → runs (m ≫= k).
Proof.
  intros Hm Hk s. destruct (Hm s) as (a & s' & E & ?).
  destruct (Hk a s') as (b & s'' & E' & ?). exists b, s''.
  unfold mbind, M_bind. rewrite E. split; [done|lia].
Qed.
Lemma runs_foldM {A B} (f : B → A → M W X B) b l :
  (∀ b x, runs (f b x)) → runs (foldM f b l).
Proof.
  intros Hf. revert b. induction l as [|x l IH]; intros b; simpl.
  - apply runs_ret.
  - by apply runs_bind.
Qed.
Lemma runs_doGet k key : runs (doGet k key).
Proof.
  intros s. unfold doGet, call. pose proof (clock_get k key (world s)).
  destruct (k8sGet k key (world s)) as [a w]. by eexists _, _.
Qed.
Lemma runs_doWrite r : runs (doWrite r).
Proof.
  intros s. unfold doWrite, call. pose proof (clock_write r (world s)).
  destruct (k8sWrite r (world s)) as [a w]. by eexists _, _.
Qed.
#[local] Hint Resolve runs_ret runs_bind runs_foldM runs_doGet runs_doWrite : operator.

Lemma objectsExist_runs objects : runs (objectsExist objects).
Proof. unfold objectsExist, Exists, GetAsResult. eauto 10 with operator. Qed.
Lemma deleteAll_runs objects : runs (deleteAll objects).
Proof. unfold deleteAll, Delete. eauto 10 with operator. Qed.

Lemma ctxDone_eq deadline (s : St W X) :
  ctxDone deadline s =
    (Ret match cancelled (world s) with
         | Some e => Some e
         | None => if (deadline <=? clock (world s))%Z then Some DeadlineExceeded else None
         end, s).
Proof.
  unfold ctxDone. erewrite bind_Ret; [|done]. by destruct (cancelled (world s)).
Qed.

Lemma runs_doSleep d : (0 ≤ d)%Z → runs (doSleep d).
Proof.
  intros Hd s. exists tt. eexists. split; [done|]. simpl.
  pose proof (clock_sleep d (world s) Hd). lia.
Qed.

Lemma verifyDeletion_runs fuel deadline objects waitTime (s : St W X) :
  (0 < waitTime)%Z →
  (deadline ≤ clock (world s) + (Z.of_nat fuel - 1) * waitTime)%Z → (0 < fuel)%nat →
  ∃ r s', verifyDeletion fuel deadline objects waitTime s = (Ret r, s') ∧
          (clock (world s) ≤ clock (world s'))%Z.
Proof.
  intros Hw. revert s. induction fuel as [|fuel IH]; intros s Hd Hf; [lia|].
  cbn [verifyDeletion]. erewrite bind_Ret; [|apply ctxDone_eq].
  destruct (cancelled (world s)); [by eexists _, s|].
  destruct (Z.leb_spec deadline (clock (world s))); [by eexists _, s|].
  destruct (objectsExist_runs objects s) as (rs & s' & E & Hle).
  rewrite (bind_Ret _ _ _ _ _ E). destruct (GoList.All rs doNotExist); [by eexists _, s'|].
  erewrite bind_Ret; [|done].
  pose proof (clock_sleep waitTime (world s')) as Hsl.
  edestruct IH as (r & s'' & E' & Hle'); [..|exists r, s''; split; [exact E'|]]; simpl in *;
    [lia|destruct fuel; [exfalso|]; lia|lia].
Qed.

(** The rounds [verify_fuel] allows are enough. *)
Lemma deleteAllInTimeLimit_runs objects timeout waitTime :
  (0 < waitTime)%Z → (0 ≤ timeout)%Z →
  runs (deleteAllInTimeLimit objects timeout waitTime).
Proof.
  intros Hw Ht s. unfold deleteAllInTimeLimit. erewrite bind_Ret; [|done].
  destruct (deleteAll_runs objects s) as (r & s' & E & Hle).
  rewrite (bind_Ret _ _ _ _ _ E).
  destruct r as [e|]; [by eexists _, s'|].
  edestruct verifyDeletion_runs as (r & s'' & E' & Hle');
    [done| | |exists r, s''; split; [exact E'|lia]]; unfold verify_fuel; [|lia].
  rewrite !Nat2Z.inj_succ, Z2Nat.id by (apply Z.div_pos; lia).
  pose proof (Z.mul_succ_div_gt timeout waitTime Hw). nia.
Qed.
Lemma DeleteAllInTimeLimit_runs objects timeout waitTime :
  (0 < waitTime)%Z → (0 ≤ timeout)%Z →
  runs (DeleteAllInTimeLimit objects timeout waitTime).
Proof.
  intros. apply runs_bind; [by apply deleteAllInTimeLimit_runs|]. intros. apply runs_ret.
Qed.
End ClientFacts.
#[export] Hint Resolve runs_ret runs_bind runs_foldM runs_doGet runs_doWrite runs_doSleep
  : operator.

(** Walk through a computation that returns. *)
Ltac runs_auto :=
  repeat (intros; lazymatch goal with
  | |- runs (mret _) => apply runs_ret
  | |- runs (mbind _ _) => apply runs_bind
  | |- runs (foldM _ _ _) => apply runs_foldM
  | |- runs (doGet ?k ?key) => apply (runs_doGet k key)
  | |- runs (doWrite _) => apply runs_doWrite
  | |- runs (match ?x with _ => _ end) => destruct x
  | |- runs _ => solve [eauto with operator]
  end).

(** ** Properties *)

(** C25: when [DeleteAllInTimeLimit] reports success, the server accepted a
    deletion of every object of the list (or did not know it), and after the
    last deletion that was asked for every object was looked up and not found;
    nothing but deletions of these objects was written. *)
Theorem DeleteAllInTimeLimit_success {W X} `{K8sApi W} `{ApiErrors}
    objects timeout waitTime (s : St W X) r s' :
  DeleteAllInTimeLimit objects timeout waitTime s = (Ret r, s') →
  ∃ t, trace s' = trace s ++ t ∧ Forall (deletion_event objects) t ∧
    (Result.err r = None → ∃ requests looks, t = requests ++ looks ∧
       (∀ o, o ∈ objects → delete_requested o requests ∧ observed_gone o looks) ∧
       ∀ obj e, EWrite (RDelete obj) e ∉ looks).
Proof.
  intros E. edestruct (emits_run _ _ _ _ _ (DeleteAllInTimeLimit_emits objects timeout waitTime) E)
    as (t & Ht & Hev & Hr & _).
  exists t. split; [done|]. split; [done|]. intros He.
  destruct (Hr He) as (requests & looks & -> & Hd & Hg & Hn). exists requests, looks.
  split; [done|]. split; [|exact Hn]. intros o Ho. by split; [eapply Forall_forall in Hd|eapply Forall_forall in Hg].
Qed.

Definition two_objects : list object :=
  [OUnstructured (Build_Unstructured (GVK "" "v1" "Service") "a" "ns");
   OUnstructured (Build_Unstructured (GVK "" "v1" "Secret") "b" "ns")].
Definition two_objects_cluster : cluster :=
  empty_cluster <| c_objects := (fun o => (object_gvk o, object_key o)) <$> two_objects |>.

Lemma DeleteAllInTimeLimit_success_witness :
  ∃ r s', DeleteAllInTimeLimit two_objects 30 5 (start two_objects_cluster tt) = (Ret r, s') ∧
    Result.err r = None ∧
    ∃ t, trace s' = [] ++ t ∧ Forall (deletion_event two_objects) t ∧
      (Result.err r = None → ∃ requests looks, t = requests ++ looks ∧
         (∀ o, o ∈ two_objects → delete_requested o requests ∧ observed_gone o looks) ∧
         ∀ obj e, EWrite (RDelete obj) e ∉ looks).
Proof.
  eexists _, _. split; [vm_compute; reflexivity|]. split; [reflexivity|].
  eapply (DeleteAllInTimeLimit_success two_objects 30 5 (start two_objects_cluster tt)).
  vm_compute; reflexivity.
Defined.

(** A deletion with a time limit always returns, however the cluster
    answers: once the limit has passed, [verifyDeletion] gives up. *)
Theorem DeleteAllInTimeLimit_returns {W X} `{ClockLaws W} `{ApiErrors}
    objects timeout waitTime (s : St W X) :
  (0 < waitTime)%Z → (0 ≤ timeout)%Z →
  ∃ r s', DeleteAllInTimeLimit objects timeout waitTime s = (Ret r, s').
Proof.
  intros Hw Ht.
  destruct (DeleteAllInTimeLimit_runs (X:=X) objects timeout waitTime Hw Ht s) as (r & s' & E & _).
  eauto.
Qed.

Lemma DeleteAllInTimeLimit_returns_witness :
  ∃ r s', DeleteAllInTimeLimit two_objects 30 5
            (start (two_objects_cluster <| c_script := [Some Refused; None] |>) tt) = (Ret r, s').
Proof.
  apply DeleteAllInTimeLimit_returns; [exact (eq_refl : (0 < 5)%Z)|discriminate].
Defined.
