(* ===== verification/Deletion.v ===== *)
(** * Deletions that succeed: DeleteAllInTimeLimit of pkg/k8s/client

    Client.v shows what a reported success means; here is when success is
    reported.  The cluster accepts deletions and lets the objects disappear by
    some time; every call lasts a bounded time. *)
From S2P Require Import Prelude GoStd Errors K8sTypes ApiTypes Effects Cluster Client.

(** Within the worlds [I] deletions of the objects are accepted, the context is
    not cancelled, the objects are gone from the time [T] on, and no call
    lasts longer than [delay] beyond what it was asked to wait. *)
Record vanishing {W} `{K8sApi W} `{ApiErrors} (I : W → Prop) (objects : list object)
    (T delay : Z) : Prop := {
  vanishing_get k key w : I w → I (snd (k8sGet k key w)) ∧
    (clock (snd (k8sGet k key w)) ≤ clock w + delay)%Z;
  vanishing_delete o w : I w → o ∈ objects → I (snd (k8sWrite (RDelete o) w)) ∧
    IgnoreNotFound (fst (k8sWrite (RDelete o) w)) = None ∧
    (clock (snd (k8sWrite (RDelete o) w)) ≤ clock w + delay)%Z;
  vanishing_sleep d w : I w → (0 ≤ d)%Z → I (sleep d w) ∧ (clock (sleep d w) ≤ clock w + d + delay)%Z;
  vanishing_live w : I w → cancelled w = None;
  vanishing_gone o w : I w → o ∈ objects → (T ≤ clock w)%Z → ∃ e,
    fst (k8sGet (KUnstructured (object_gvk o)) (object_key o) w) = inr e ∧ IsNotFound (Some e) = true }.

Section Vanishing.
Context {W X : Type} `{ClockLaws W} `{ApiErrors}.
Context (I : W → Prop) (objects : list object) (T delay : Z).
Context (HI : vanishing I objects T delay).
Implicit Types s : St W X.

(** A computation that returns within [d], stays in [I] and establishes [Q]. *)
Definition lasts {A} (m : M W X A) s (d : Z) (Q : A → Prop) : Prop :=
  ∃ a s', m s = (Ret a, s') ∧ I (world s') ∧ Q a ∧
    (clock (world s) ≤ clock (world s') ≤ clock (world s) + d)%Z.

Lemma lasts_ret {A} (a : A) s (Q : A → Prop) : I (world s) → Q a → lasts (mret a) s 0 Q.
Proof. intros Hs Hq. exists a, s. split_and!; try done; lia. Qed.
Lemma lasts_bind {A B} (m : M W X A) (k : A → M W X B) s d e (P : A → Prop) (Q : B → Prop) :
  lasts m s d P →
  (∀ a s', I (world s') → P a → (clock (world s) ≤ clock (world s'))%Z → lasts (k a) s' e Q) →
  lasts (m ≫= k) s (d + e) Q.
Proof.
  intros (a & s' & Em & Hs' & Ha & Hc) Hk.
  destruct (Hk a s') as (b & s2 & Ek & Hs2 & Hb & Hc2); [done|done|lia|].
  exists b, s2. split; [by rewrite (bind_Ret _ _ _ _ _ Em)|]. split_and!; try done; lia.
Qed.
(** A loop, each iteration of which lasts [d] and keeps [Q]. *)
Lemma lasts_foldM {A B} (f : B → A → M W X B) (Q : B → Prop) d t0 l b s :
  (∀ b x s, I (world s) → x ∈ l → (t0 ≤ clock (world s))%Z → Q b → lasts (f b x) s d Q) →
  I (world s) → (t0 ≤ clock (world s))%Z → Q b →
  lasts (foldM f b l) s (Z.of_nat (length l) * d) Q.
Proof.
  revert b s. induction l as [|x l IH]; intros b s Hf Hs Ht Hb; cbn [foldM length].
  - by apply lasts_ret.
  - replace (Z.of_nat (S (length l)) * d)%Z with (d + Z.of_nat (length l) * d)%Z by lia.
    eapply lasts_bind; [apply Hf; [done|set_solver|done|done]|].
    intros b' s' Hs' Hb' Hc. apply IH; [|done|lia|done].
    intros b2 y s2 Hs2 Hy Ht2 Hb2. apply Hf; [done|set_solver|done|done].
Qed.

Lemma lasts_mono {A} (m : M W X A) s d e (Q : A → Prop) :
  lasts m s d Q → (d ≤ e)%Z → lasts m s e Q.
Proof. intros (a & s' & ? & ? & ? & ?) ?. exists a, s'. split_and!; try done; lia. Qed.

Lemma lasts_doGet k key s : I (world s) →
  lasts (doGet k key) s delay (fun r => r = fst (k8sGet k key (world s))).
Proof.
  intros Hs. destruct (vanishing_get _ _ _ _ HI k key _ Hs) as [Hi Hd].
  pose proof (clock_get k key (world s)) as Hc. unfold lasts, doGet, call. revert Hi Hd Hc.
  destruct (k8sGet k key (world s)) as [r w]. intros. eexists _, _. by split_and!.
Qed.

Lemma lasts_Exists o s : I (world s) → o ∈ objects →
  lasts (Exists (object_gvk o) (object_key o)) s delay
    (fun r => (T ≤ clock (world s))%Z → doNotExist r = true).
Proof.
  intros Hs Ho. replace delay with (delay + 0 + 0)%Z by lia. unfold Exists, GetAsResult.
  eapply (lasts_bind _ _ _ _ _ (fun r : Result.t Unstructured => (T ≤ clock (world s))%Z →
    ∃ z e, r = Result.Of z (Some e) ∧ IsNotFound (Some e) = true)).
  - eapply lasts_bind; [by apply lasts_doGet|]. intros r s' Hs' -> Hc. apply lasts_ret; [done|].
    intros Ht. destruct (vanishing_gone _ _ _ _ HI o _ Hs Ho Ht) as (e & -> & He). eauto.
  - intros r s' Hs' Hr Hc. apply lasts_ret; [done|]. intros Ht.
    destruct (Hr Ht) as (z & e & -> & He). simpl.
    unfold ifNotFound, IgnoreNotFound, Result.Recover. cbn. by rewrite He.
Qed.

Let n : Z := Z.of_nat (length objects).

Lemma lasts_objectsExist s : I (world s) →
  lasts (objectsExist objects) s (n * delay)
    (fun rs => (T ≤ clock (world s))%Z → GoList.All rs doNotExist = true).
Proof.
  intros Hs. unfold objectsExist.
  apply (lasts_foldM _ _ _ (clock (world s))); [|done|lia|done].
  intros rs o s' Hs' Ho Hc Hrs. replace delay with (delay + 0)%Z by lia.
  eapply lasts_bind; [by apply lasts_Exists|]. intros r s2 Hs2 Hr Hc2. apply lasts_ret; [done|].
  intros Ht. rewrite GoList.All_spec, Forall_app, <- GoList.All_spec, Forall_singleton.
  split; [by apply Hrs|apply Hr; lia].
Qed.

Lemma lasts_deleteAll s : I (world s) →
  lasts (deleteAll objects) s (n * delay) (fun r => r = None).
Proof.
  intros Hs. unfold deleteAll. replace (n * delay)%Z with (n * delay + 0)%Z by lia.
  eapply (lasts_bind _ _ _ _ _ (fun b => MultiErrorBuilder.Build b = None)).
  - apply (lasts_foldM _ _ _ (clock (world s))); [|done|lia|done].
    intros b o s' Hs' Ho _ Hb. unfold Delete, doWrite, call.
    destruct (vanishing_delete _ _ _ _ HI o _ Hs' Ho) as (Hi & He & Hd).
    pose proof (clock_write (RDelete o) (world s')) as Hc.
    replace delay with (delay + 0)%Z by lia.
    eapply (lasts_bind _ _ _ _ _ (fun e => IgnoreNotFound e = None)).
    + unfold lasts. revert Hi He Hd Hc. destruct (k8sWrite (RDelete o) (world s')) as [e w]. intros.
      eexists _, _. by split_and!.
    + intros e s2 Hs2 He2 _. apply lasts_ret; [done|].
      by apply (MultiErrorBuilder.Build_AddSingle b (IgnoreNotFound e)).
  - intros b s' Hs' Hb _. by apply lasts_ret.
Qed.

(** The latest time a round can start. *)
Definition last_round (waitTime : Z) : Z := (T + waitTime + (n + 1) * delay)%Z.

(** A round that starts in time is the last, or one that starts in time follows. *)
Lemma verifyDeletion_vanishing fuel deadline waitTime s :
  (0 < waitTime)%Z → (0 ≤ delay)%Z → I (world s) →
  (deadline ≤ clock (world s) + (Z.of_nat fuel - 1) * waitTime)%Z → (0 < fuel)%nat →
  (clock (world s) ≤ last_round waitTime < deadline)%Z →
  ∃ s', verifyDeletion fuel deadline objects waitTime s = (Ret None, s') ∧
        (clock (world s') ≤ last_round waitTime + n * delay)%Z.
Proof.
  intros Hw Hdelay. revert s. induction fuel as [|fuel IH]; intros s Hs Hd Hf Hl; [lia|].
  cbn [verifyDeletion]. erewrite bind_Ret; [|apply ctxDone_eq].
  rewrite (vanishing_live _ _ _ _ HI _ Hs).
  destruct (Z.leb_spec deadline (clock (world s))); [lia|].
  destruct (lasts_objectsExist s Hs) as (rs & s' & E & Hs' & Hrs & Hc).
  rewrite (bind_Ret _ _ _ _ _ E). destruct (GoList.All rs doNotExist) eqn:Ea.
  { exists s'. split; [done|lia]. }
  assert (Hearly : (clock (world s) < T)%Z).
  { destruct (Z.lt_ge_cases (clock (world s)) T) as [|Hge]; [done|].
    by discriminate (Hrs Hge). }
  erewrite bind_Ret; [|done].
  pose proof (clock_sleep waitTime (world s')) as Hsl.
  destruct (vanishing_sleep _ _ _ _ HI waitTime (world s')) as [Hi Hsd]; [done|lia|].
  apply IH; simpl; unfold last_round in *; [done|nia|destruct fuel; [exfalso|]; nia|nia].
Qed.
End Vanishing.

(** ** Properties *)

(** C26: when the cluster accepts the deletions and the objects are gone for
    good at a time [T] that leaves one more round of look-ups before the
    limit, [DeleteAllInTimeLimit] reports success, and does so at the end of
    the first round that starts after [T]. *)
Theorem DeleteAllInTimeLimit_succeeds {W X} `{ClockLaws W} `{ApiErrors}
    (I : W → Prop) objects T delay timeout waitTime (s : St W X) :
  let n := Z.of_nat (length objects) in
  vanishing I objects T delay → I (world s) →
  (0 ≤ delay)%Z → (0 < waitTime)%Z →
  (clock (world s) ≤ T)%Z →
  (T + waitTime + (n + 1) * delay < clock (world s) + timeout)%Z →
  ∃ r s', DeleteAllInTimeLimit objects timeout waitTime s = (Ret r, s') ∧
    Result.err r = None ∧
    (clock (world s') ≤ T + waitTime + (2 * n + 1) * delay)%Z.
Proof.
  intros n. subst n. intros HI Hs Hdelay Hw HT Htime. unfold DeleteAllInTimeLimit, deleteAllInTimeLimit.
  destruct (lasts_deleteAll I objects T delay HI s Hs) as (r & s1 & Ed & Hs1 & -> & Hc1).
  destruct (verifyDeletion_vanishing I objects T delay HI (verify_fuel timeout waitTime)
    (clock (world s) + timeout) waitTime s1) as (s2 & Ev & Hc2); try done.
  - unfold verify_fuel.
    assert (0 ≤ timeout)%Z by nia.
    rewrite !Nat2Z.inj_succ, Z2Nat.id by (apply Z.div_pos; lia).
    pose proof (Z.mul_succ_div_gt timeout waitTime Hw). nia.
  - unfold verify_fuel. lia.
  - unfold last_round. nia.
  - exists (Result.Of objects None), s2. split; [|split; [done|]].
    + rewrite (bind_Ret _ _ s None s2); [done|]. erewrite bind_Ret; [|reflexivity].
      rewrite (bind_Ret _ _ _ _ _ Ed). exact Ev.
    + unfold last_round in Hc2. nia.
Qed.

(** A cluster that is nothing but its clock: every call lasts a second, and
    from the twelfth second on there are no objects any more. *)
Definition hourglass_get (k : kind) (key : ObjectKey) (t : Z) : (denote k + error) * Z :=
  (match k return denote k + error with
   | KUnstructured gvk =>
       if (t <? 12)%Z then inl (Build_Unstructured gvk (key_Name key) (key_Namespace key))
       else inr NotFound
   | _ => inr NotFound
   end, (t + 1)%Z).
Definition hourglass : K8sApi Z := {|
  k8sGet := hourglass_get;
  k8sListNamespaces _ t := (inl [], t);
  k8sListEndpointSlices _ _ t := (inl [], t);
  k8sListDeployments _ _ t := (inl [], t);
  k8sWrite _ t := (None, (t + 1)%Z);
  helmInit t := (None, t);
  helmUninstall t := (None, t);
  runCommand _ t := (None, t);
  clock t := t;
  sleep d t := (t + Z.max 0 d + 1)%Z;
  cancelled _ := None |}.
Lemma hourglass_clock : @ClockLaws Z hourglass.
Proof. split; intros; simpl; lia. Qed.
Lemma hourglass_vanishing : @vanishing Z hourglass _ (fun _ => True) two_objects 12 1.
Proof.
  split; simpl.
  - intros. split; [done|lia].
  - intros. split_and!; [done|done|lia].
  - intros. split; [done|lia].
  - done.
  - intros o w _ _ Hw. exists NotFound. split; [|done]. by destruct (Z.ltb_spec w 12); [lia|].
Qed.

Lemma DeleteAllInTimeLimit_succeeds_witness :
  ∃ r s', @DeleteAllInTimeLimit Z unit hourglass _ two_objects 30 5 (@MkSt Z unit 0%Z [] tt) =
            (Ret r, s') ∧ Result.err r = None ∧ (@clock Z hourglass (world s') ≤ 22)%Z.
Proof.
  refine (@DeleteAllInTimeLimit_succeeds Z unit hourglass hourglass_clock _ (fun _ => True)
    two_objects 12 1 30 5 (MkSt 0%Z [] tt) hourglass_vanishing _ _ _ _ _).
  - exact Logic.I.
  - discriminate 1.
  - reflexivity.
  - discriminate 1.
  - reflexivity.
Defined.
