(* ===== verification/Transformations.v ===== *)
(** * Labels, owner references and object builders

    pkg/k8s/object/transformations, common/builder/builder.go, common/constants
    and pkg/env: how every object the operator builds is labelled and owned. *)
From S2P Require Import Prelude GoStd Errors K8sTypes ApiTypes Effects.

(** ** pkg/env *)

Definition GetOperatorVersion `{Env} : string :=
  if negb (String.eqb (getenv "OPERATOR_VERSION") "") then getenv "OPERATOR_VERSION"
  else "v0.0.1-dev".

(** ** common/constants/constants.go *)
Definition ComponentInstanaAgentRemote := "instana-agent-remote".
Definition ComponentInstanaAgent := "instana-agent".
Definition ComponentK8Sensor := "k8sensor".
Definition LabelAgentMode := "instana/agent-mode".
Definition AgentKey := "key".
Definition DownloadKey := "downloadKey".
Definition BackendKey := "backend".
Definition ReaderVerbs := ["get"; "list"; "watch"].
Definition InstanaNamespacesDetailsFileName := "namespaces.yaml".
Definition InstanaConfigDirectory := "/opt/instana/agent/etc/instana-config-yml".
Definition InstanaNamespacesDetailsDirectory := "/opt/instana/agent/etc/namespaces".
Definition InstanaSecretsDirectory := "/opt/instana/agent/etc/instana/secrets".
Definition SecretFileAgentKey := "INSTANA_AGENT_KEY".
Definition SecretFileDownloadKey := "INSTANA_DOWNLOAD_KEY".
Definition SecretFileProxyUser := "INSTANA_AGENT_PROXY_USER".
Definition SecretFileProxyPassword := "INSTANA_AGENT_PROXY_PASSWORD".
Definition SecretFileMirrorReleaseRepoUsername := "AGENT_RELEASE_REPOSITORY_MIRROR_USERNAME".
Definition SecretFileMirrorReleaseRepoPassword := "AGENT_RELEASE_REPOSITORY_MIRROR_PASSWORD".
Definition SecretFileMirrorSharedRepoUsername := "INSTANA_SHARED_REPOSITORY_MIRROR_USERNAME".
Definition SecretFileMirrorSharedRepoPassword := "INSTANA_SHARED_REPOSITORY_MIRROR_PASSWORD".
Definition SecretFileHttpsProxy := "HTTPS_PROXY".
Definition SecretKeyProxyUser := "proxyUser".
Definition SecretKeyProxyPassword := "proxyPassword".
Definition SecretKeyHttpsProxy := "httpsProxy".
Definition SecretKeyMirrorReleaseRepoUsername := "mirrorReleaseRepoUsername".
Definition SecretKeyMirrorReleaseRepoPassword := "mirrorReleaseRepoPassword".
Definition SecretKeyMirrorSharedRepoUsername := "mirrorSharedRepoUsername".
Definition SecretKeyMirrorSharedRepoPassword := "mirrorSharedRepoPassword".

(** ** common/constants/etcd.go *)
Definition ETCDCASecretName := "etcd-ca".
Definition ETCDClientCertSecretName := "etcd-client-cert".
Definition ETCDMetricsPortHTTPS : Z := 2379.
Definition ETCDMetricsPortHTTP : Z := 2381.
Definition ETCDOCPMetricsPort : Z := 9978.
Definition EnvETCDTargets := "ETCD_TARGETS".
Definition EnvETCDCAFile := "ETCD_CA_FILE".
Definition EnvETCDCertFile := "ETCD_CERT_FILE".
Definition EnvETCDKeyFile := "ETCD_KEY_FILE".
Definition EnvETCDMetricsURL := "ETCD_METRICS_URL".
Definition EnvETCDRequestTimeout := "ETCD_REQUEST_TIMEOUT".
Definition ETCDCAMountPath := "/var/run/secrets/etcd".
Definition ETCDMetricsCABundleName := "etcd-ca-bundle".
Definition ETCDMetricClientSecretName := "etcd-client".
Definition ETCDNamespace := "openshift-etcd".
Definition ETCDMetricsCAMountPath := "/etc/etcd-metrics-ca".
Definition ETCDClientCertMountPath := "/etc/etcd-client".
Definition ETCDCABundleFileName := "ca-bundle.crt".
Definition ETCDClientCertFileName := "tls.crt".
Definition ETCDClientKeyFileName := "tls.key".
Definition ContainerK8Sensor := "instana-agent".
Definition GetETCDOCPMetricsURL : string :=
  "https://etcd.openshift-etcd.svc.cluster.local:" +++ itoa ETCDOCPMetricsPort +++ "/metrics".

(** ** transformations.go *)
Definition NameLabel := "app.kubernetes.io/name".
Definition InstanceLabel := "app.kubernetes.io/instance".
Definition VersionLabel := "app.kubernetes.io/version".
Definition ComponentLabel := "app.kubernetes.io/component".
Definition PartOfLabel := "app.kubernetes.io/part-of".
Definition ManagedByLabel := "app.kubernetes.io/managed-by".
Definition GenerationLabel := "agent.instana.io/generation".

Definition tr_name := "instana-agent".
Definition tr_partOf := "instana".
Definition tr_managedBy := "instana-agent-operator".
Definition tr_nameRemote := "instana-agent-remote".

Definition GetVersion `{Env} : string := GetOperatorVersion.

Record transformations := { t_OwnerReference : OwnerReference; t_generation : string }.

Definition NewTransformations (agent : InstanaAgent) : transformations :=
  {| t_OwnerReference :=
       {| or_APIVersion := agent_APIVersion agent; or_Kind := agent_Kind agent;
          or_Name := agent_Name agent; or_UID := om_UID (agent_Meta agent);
          or_Controller := Some true; or_BlockOwnerDeletion := Some true |};
     t_generation := itoa (agent_Generation agent) |}.

Definition NewTransformationsRemote (agent : InstanaAgentRemote) : transformations :=
  {| t_OwnerReference :=
       {| or_APIVersion := remote_APIVersion agent; or_Kind := remote_Kind agent;
          or_Name := om_Name (remote_Meta agent); or_UID := om_UID (remote_Meta agent);
          or_Controller := Some true; or_BlockOwnerDeletion := Some true |};
     t_generation := itoa (om_Generation (remote_Meta agent)) |}.

Definition commonLabels `{Env} (t : transformations) (component : string)
    (objLabels : smap) : smap :=
  <[GenerationLabel := t_generation t]>
  (<[ManagedByLabel := tr_managedBy]>
  (<[PartOfLabel := tr_partOf]>
  (<[ComponentLabel := component]>
  (<[VersionLabel := GetVersion]>
  (<[InstanceLabel := or_Name (t_OwnerReference t)]>
  (<[NameLabel := tr_name]> objLabels)))))).

Definition AddCommonLabels `{Env} (t : transformations) (component : string)
    (obj : object) : object :=
  let objLabels := default ∅ (om_Labels (object_meta obj)) in
  map_meta (fun m => m <| om_Labels := Some (commonLabels t component objLabels) |>) obj.

(** *** PreviousGenerationsSelector

    apimachinery's conversion of requirements to a selector is code outside
    the repository; the laws are its documentation: valid requirements are
    converted, and the selector matches labels that meet all of them. *)
Inductive LabelSelectorOperator := LabelSelectorOpIn | LabelSelectorOpNotIn.
Record LabelSelectorRequirement := {
  lsr_Key : string; lsr_Operator : LabelSelectorOperator; lsr_Values : list string }.
Definition meets (labels : smap) (r : LabelSelectorRequirement) : Prop :=
  let listed := ∃ value, labels !! lsr_Key r = Some value ∧ value ∈ lsr_Values r in
  match lsr_Operator r with
  | LabelSelectorOpIn => listed
  | LabelSelectorOpNotIn => ¬ listed
  end.
Class LabelSelectors := {
  Selector : Type;
  LabelSelectorAsSelector : list LabelSelectorRequirement → Selector * option error;
  Matches : Selector → smap → bool;
  valid_requirement : LabelSelectorRequirement → bool
}.
Class LabelSelectorsLaws `{LabelSelectors} := {
  selector_valid rs : Forall (fun r => valid_requirement r = true) rs →
    ∃ sel, LabelSelectorAsSelector rs = (sel, None) ∧
           ∀ labels, Matches sel labels = true ↔ Forall (meets labels) rs
}.
Definition previousGenerations (t : transformations) : list LabelSelectorRequirement :=
  [{| lsr_Key := NameLabel; lsr_Operator := LabelSelectorOpIn; lsr_Values := [tr_name] |};
   {| lsr_Key := InstanceLabel; lsr_Operator := LabelSelectorOpIn;
      lsr_Values := [or_Name (t_OwnerReference t)] |};
   {| lsr_Key := GenerationLabel; lsr_Operator := LabelSelectorOpNotIn;
      lsr_Values := [t_generation t] |}].
Definition PreviousGenerationsSelector `{LabelSelectors} (t : transformations) : or_panic Selector :=
  let '(sel, err) := LabelSelectorAsSelector (previousGenerations t) in ResultOrDie sel err.

(** One iteration of the loop of [AddOwnerReference] over the existing
    references: the new slice and whether ours was found. *)
Definition addOwnerReference_step (own : OwnerReference)
    (acc : list OwnerReference * bool) (ref : OwnerReference) : list OwnerReference * bool :=
  let '(newRefs, found) := acc in
  if String.eqb (or_Name ref) (or_Name own) then
    if String.eqb (or_UID ref) (or_UID own) then (newRefs ++ [ref], true)
    else (newRefs, found)
  else (newRefs ++ [ref], found).

Definition newOwnerReferences (own : OwnerReference) (existing : list OwnerReference) :
    list OwnerReference :=
  let '(newRefs, found) := foldl (addOwnerReference_step own) ([], false) existing in
  if found then newRefs else newRefs ++ [own].

Definition AddOwnerReference (t : transformations) (obj : object) : object :=
  map_meta (fun m =>
    m <| om_OwnerReferences ::= newOwnerReferences (t_OwnerReference t) |>) obj.

(** ** pod_selector.go *)
Definition ZoneLabel := "io.instana/zone".

Definition GetPodLabels (agentName component : string) (zone : option Zone)
    (userLabels : option smap) : smap :=
  let podLabels :=
    <[ManagedByLabel := tr_managedBy]>
    (<[PartOfLabel := tr_partOf]>
    (<[ComponentLabel := component]>
    (<[InstanceLabel := agentName]>
    (<[NameLabel := tr_name]> (default ∅ userLabels))))) in
  match zone with
  | Some z => <[ZoneLabel := zone_Name z]> podLabels
  | None => podLabels
  end.

Definition GetPodSelectorLabels (agentName component : string) (zone : option Zone) : smap :=
  let labels :=
    <[ComponentLabel := component]>
    (<[InstanceLabel := agentName]> (<[NameLabel := tr_name]> ∅)) in
  match zone with
  | Some z => <[ZoneLabel := zone_Name z]> labels
  | None => labels
  end.

(** ** remote_pod_selector.go *)
Definition GetPodLabelsRemote (agentName component : string) (zone : option Zone)
    (userLabels : option smap) : smap :=
  let podLabels :=
    <[ManagedByLabel := tr_managedBy]>
    (<[PartOfLabel := tr_partOf]>
    (<[ComponentLabel := component]>
    (<[InstanceLabel := agentName]>
    (<[NameLabel := tr_nameRemote]> (default ∅ userLabels))))) in
  match zone with
  | Some z => <[ZoneLabel := zone_Name z]> podLabels
  | None => podLabels
  end.

Definition GetPodSelectorLabelsRemote (agentName component : string) (zone : option Zone) : smap :=
  let labels :=
    <[ComponentLabel := component]>
    (<[InstanceLabel := agentName]> (<[NameLabel := tr_nameRemote]> ∅)) in
  match zone with
  | Some z => <[ZoneLabel := zone_Name z]> labels
  | None => labels
  end.

(** ** common/builder/builder.go *)
Record ObjectBuilder (W X : Type) := {
  Build : M W X (option object);
  ComponentName : string;
  IsNamespaced : bool
}.
Arguments Build {W X} _.
Arguments ComponentName {W X} _.
Arguments IsNamespaced {W X} _.

(** [builderTransformer.Apply]. *)
Definition transform `{Env} (t : transformations) (component : string) (namespaced : bool)
    (obj : object) : object :=
  let obj := AddCommonLabels t component obj in
  if namespaced then AddOwnerReference t obj else obj.
Definition BuilderTransformer_Apply `{Env} {W X} (t : transformations)
    (builder : ObjectBuilder W X) : M W X (option object) :=
  opt ← Build builder;
  mret match opt with
       | Some obj => Some (transform t (ComponentName builder) (IsNamespaced builder) obj)
       | None => None
       end.

(** ** Pod labels *)
(** The selector of a workload selects the pods of its template. *)
Lemma GetPodSelectorLabels_subseteq name component zone user :
  GetPodSelectorLabels name component zone ⊆ GetPodLabels name component zone user.
Proof.
  unfold GetPodSelectorLabels, GetPodLabels. destruct zone as [z|].
  - apply insert_mono. repeat apply insert_subseteq_l; [..|apply map_empty_subseteq];
      rewrite ?lookup_insert_ne by done; apply lookup_insert_eq.
  - repeat apply insert_subseteq_l; [..|apply map_empty_subseteq];
      rewrite ?lookup_insert_ne by done; apply lookup_insert_eq.
Qed.
Lemma GetPodLabels_user name component user key :
  key ∉ [ManagedByLabel; PartOfLabel; ComponentLabel; InstanceLabel; NameLabel] →
  GetPodLabels name component None user !! key = default ∅ user !! key.
Proof.
  intros Hk. unfold GetPodLabels. rewrite !lookup_insert_ne by (intros <-; apply Hk; set_solver). done.
Qed.

(** ** Owner references *)
Section OwnerReferences.
Implicit Types (own : OwnerReference) (l : list OwnerReference).

(** A reference of the same name to another object. *)
Definition stale own (r : OwnerReference) : Prop :=
  or_Name r = or_Name own ∧ or_UID r ≠ or_UID own.
#[export] Instance stale_dec own r : Decision (stale own r).
Proof. unfold stale. apply _. Defined.
Definition owns own (r : OwnerReference) : Prop :=
  or_Name r = or_Name own ∧ or_UID r = or_UID own.
#[export] Instance owns_dec own r : Decision (owns own r).
Proof. unfold owns. apply _. Defined.

Lemma addOwnerReference_foldl own l acc found :
  foldl (addOwnerReference_step own) (acc, found) l =
    (acc ++ filter (fun r => ¬ stale own r) l,
     found || bool_decide (Exists (owns own) l)).
Proof.
  revert acc found. induction l as [|r l IH]; intros acc found.
  - rewrite (bool_decide_eq_false_2 (Exists (owns own) [])) by (by inversion 1).
    rewrite orb_false_r. simpl. by rewrite app_nil_r.
  - cbn [foldl]. unfold addOwnerReference_step at 2.
    destruct (String.eqb_spec (or_Name r) (or_Name own)) as [En|En];
      [destruct (String.eqb_spec (or_UID r) (or_UID own)) as [Eu|Eu]|];
      rewrite IH.
    + rewrite filter_cons_True by (intros []; done). rewrite <- app_assoc. f_equal.
      rewrite (bool_decide_eq_true_2 (Exists (owns own) (r :: l))) by (by left).
      by rewrite orb_true_r.
    + rewrite filter_cons_False by (intros Hs; apply Hs; by split). f_equal. f_equal.
      apply bool_decide_ext. rewrite Exists_cons. unfold owns. tauto.
    + rewrite filter_cons_True by (intros []; done). rewrite <- app_assoc.
      f_equal. f_equal. apply bool_decide_ext. rewrite Exists_cons. unfold owns. tauto.
Qed.

Lemma newOwnerReferences_eq own l :
  newOwnerReferences own l =
    filter (fun r => ¬ stale own r) l ++
    (if decide (Exists (owns own) l) then [] else [own]).
Proof.
  unfold newOwnerReferences. rewrite addOwnerReference_foldl. simpl.
  destruct (decide (Exists (owns own) l)) as [He|He].
  - rewrite bool_decide_eq_true_2 by done. by rewrite app_nil_r.
  - by rewrite bool_decide_eq_false_2.
Qed.

Lemma newOwnerReferences_no_stale own l r :
  r ∈ newOwnerReferences own l → ¬ stale own r.
Proof.
  rewrite newOwnerReferences_eq, elem_of_app, list_elem_of_filter.
  case_decide; [set_solver|]. intros [[? _]| ->%list_elem_of_singleton]; [done|].
  by intros [].
Qed.

Lemma newOwnerReferences_owned own l : Exists (owns own) (newOwnerReferences own l).
Proof.
  rewrite newOwnerReferences_eq. apply Exists_app.
  destruct (decide (Exists (owns own) l)) as [He|He].
  - left. apply Exists_exists in He as (r & Hr & Ho). apply Exists_exists.
    exists r. split; [|done]. apply list_elem_of_filter. split; [|done].
    intros [_ ?]. by destruct Ho.
  - right. apply Exists_cons. by left.
Qed.

Lemma newOwnerReferences_idemp own l :
  newOwnerReferences own (newOwnerReferences own l) = newOwnerReferences own l.
Proof.
  rewrite (newOwnerReferences_eq own (newOwnerReferences own l)).
  rewrite decide_True by apply newOwnerReferences_owned. rewrite app_nil_r.
  apply list_filter_all. intros r Hr. by apply newOwnerReferences_no_stale in Hr.
Qed.
End OwnerReferences.

(** ** Labels *)
Section Labels.
Context `{Env} (t : transformations) (component : string).

(** The labels every object carries, whatever it was built with. *)
Definition ownLabels : smap := commonLabels t component ∅.

Lemma commonLabels_union m : commonLabels t component m = ownLabels ∪ m.
Proof.
  unfold ownLabels, commonLabels. rewrite <- !insert_union_l. by rewrite (left_id_L ∅ (∪)).
Qed.
Lemma commonLabels_idemp m :
  commonLabels t component (commonLabels t component m) = commonLabels t component m.
Proof. rewrite !commonLabels_union. by rewrite (assoc_L (∪)), (idemp_L (∪)). Qed.

(** The selector of the previous generations takes, of the objects built for
    one custom resource, those of its other generations. *)
Lemma PreviousGenerationsSelector_spec `{LabelSelectorsLaws} t' labels :
  Forall (fun r => valid_requirement r = true) (previousGenerations t') →
  or_Name (t_OwnerReference t) = or_Name (t_OwnerReference t') →
  ∃ sel, PreviousGenerationsSelector t' = Value sel ∧
    (Matches sel (commonLabels t component labels) = true ↔ t_generation t ≠ t_generation t').
Proof.
  intros Hv Hn. destruct (selector_valid _ Hv) as (sel & E & Hm). exists sel.
  unfold PreviousGenerationsSelector. rewrite E. split; [done|]. rewrite Hm.
  unfold previousGenerations. rewrite !Forall_cons. unfold meets. cbn [lsr_Operator lsr_Key lsr_Values].
  unfold commonLabels. rewrite (lookup_insert_eq _ GenerationLabel).
  rewrite !(lookup_insert_ne _ _ InstanceLabel), (lookup_insert_eq _ InstanceLabel) by done.
  rewrite !(lookup_insert_ne _ _ NameLabel), (lookup_insert_eq _ NameLabel) by done.
  split.
  - intros (_ & _ & Hg & _) Ht. apply Hg. exists (t_generation t).
    split; [done|]. rewrite Ht. by left.
  - intros Hg. split_and!; [eexists; split; [done|by left]| | |done].
    + eexists. split; [done|]. rewrite Hn. by left.
    + by intros (v & [= <-] & [Ht|[]%elem_of_nil]%elem_of_cons).
Qed.
End Labels.

Lemma transform_meta `{Env} t component namespaced o :
  is_unstructured o = false →
  object_meta (transform t component namespaced o) =
    (object_meta o)
      <| om_Labels := Some (commonLabels t component (default ∅ (om_Labels (object_meta o)))) |>
      <| om_OwnerReferences ::= fun l =>
           if namespaced then newOwnerReferences (t_OwnerReference t) l else l |>.
Proof.
  intros Ho. unfold transform, AddCommonLabels, AddOwnerReference.
  destruct namespaced; rewrite ?object_meta_map; try done; by destruct o.
Qed.
Lemma map_meta_meta (f g : ObjectMeta → ObjectMeta) o : f (object_meta o) = g (object_meta o) → map_meta f o = map_meta g o.
Proof. destruct o; simpl; intros E; by rewrite ?E. Qed.
Lemma map_meta_comp (f g : ObjectMeta → ObjectMeta) o :
  map_meta f (map_meta g o) = map_meta (fun m => f (g m)) o.
Proof. by destruct o. Qed.
Lemma transform_as_map `{Env} t component namespaced o :
  transform t component namespaced o = map_meta (fun m : ObjectMeta =>
    m <| om_Labels := Some (commonLabels t component (default ∅ (om_Labels m))) |>
      <| om_OwnerReferences ::= fun l =>
           if namespaced then newOwnerReferences (t_OwnerReference t) l else l |>) o.
Proof.
  unfold transform, AddCommonLabels, AddOwnerReference.
  destruct namespaced; rewrite ?map_meta_comp; by apply map_meta_meta.
Qed.

Lemma transform_idemp `{Env} t component namespaced o :
  transform t component namespaced (transform t component namespaced o) =
  transform t component namespaced o.
Proof.
  rewrite !transform_as_map, map_meta_comp. apply map_meta_meta.
  generalize (object_meta o). intros [? ? ? ? ? labels ? owners ? ? ?].
  destruct namespaced; unfold set; cbn -[commonLabels newOwnerReferences];
    by rewrite commonLabels_idemp, ?newOwnerReferences_idemp.
Qed.

(** ** Properties *)

(** C27: what is done to every object that is built: its kind, name, namespace
    and annotations stay; the seven labels of the operator, those that name it
    as the manager among them, overwrite the ones the object has, which
    otherwise stay; a namespaced object has the custom resource among its
    owners, an owner of that name with another identity is dropped and all
    others stay; the owners of a cluster-scoped object stay; doing it twice
    changes nothing more. *)
Theorem transform_spec `{Env} t component namespaced o :
  is_unstructured o = false →
  let own := t_OwnerReference t in
  let m := object_meta o in
  let o' := transform t component namespaced o in
  let m' := object_meta o' in
  object_gvk o' = object_gvk o ∧ om_Name m' = om_Name m ∧ om_Namespace m' = om_Namespace m ∧
  om_Annotations m' = om_Annotations m ∧
  (∃ labels, om_Labels m' = Some labels ∧
     labels !! "app.kubernetes.io/managed-by" = Some "instana-agent-operator" ∧
     labels !! "app.kubernetes.io/part-of" = Some "instana" ∧
     labels !! "app.kubernetes.io/name" = Some "instana-agent" ∧
     labels !! "app.kubernetes.io/version" = Some GetVersion ∧
     labels !! "app.kubernetes.io/component" = Some component ∧
     labels !! "app.kubernetes.io/instance" = Some (or_Name own) ∧
     labels !! "agent.instana.io/generation" = Some (t_generation t) ∧
     ∀ key, key ∉ ["agent.instana.io/generation"; "app.kubernetes.io/managed-by";
                   "app.kubernetes.io/part-of"; "app.kubernetes.io/component";
                   "app.kubernetes.io/version"; "app.kubernetes.io/instance";
                   "app.kubernetes.io/name"] → labels !! key = default ∅ (om_Labels m) !! key) ∧
  (if namespaced then
     Exists (owns own) (om_OwnerReferences m') ∧
     ∀ r, ¬ owns own r → r ∈ om_OwnerReferences m' ↔ r ∈ om_OwnerReferences m ∧ ¬ stale own r
   else om_OwnerReferences m' = om_OwnerReferences m) ∧
  transform t component namespaced o' = o'.
Proof.
  intros Ho own m o' m'. unfold m', o'. rewrite (transform_meta _ _ _ _ Ho).
  split_and!; [by rewrite transform_as_map, object_gvk_map|done..| | |].
  - eexists. split; [reflexivity|]. unfold commonLabels. split_and!;
      [rewrite ?lookup_insert_ne by done; apply lookup_insert_eq..|].
    intros key Hk. rewrite !lookup_insert_ne by (intros <-; apply Hk; set_solver). done.
  - destruct namespaced; [|done]. split; [apply newOwnerReferences_owned|].
    intros r Hr. cbn [set om_OwnerReferences]. rewrite newOwnerReferences_eq, elem_of_app, list_elem_of_filter.
    case_decide; [set_solver|]. rewrite list_elem_of_singleton. split; [|naive_solver].
    intros [[? ?]| ->]; [done|]. exfalso. by apply Hr.
  - apply transform_idemp.
Qed.

Definition labelled_service : object :=
  OService {| svc_Meta := (NewObjectMeta "agent" "ns") <| om_Labels := Some {[ "app" := "x" ]} |>;
              svc_ClusterIP := ""; svc_Selector := None; svc_Ports := [];
              svc_InternalTrafficPolicy := None |}.
Definition example_transformations : transformations :=
  {| t_OwnerReference := {| or_APIVersion := "instana.io/v1"; or_Kind := "InstanaAgent";
       or_Name := "agent"; or_UID := "1"; or_Controller := Some true;
       or_BlockOwnerDeletion := Some true |}; t_generation := "2" |}.
Definition example_env : Env := fun _ => "".

Lemma transform_spec_witness :
  let o' := transform (H:=example_env) example_transformations ComponentInstanaAgent true labelled_service in
  om_Name (object_meta o') = "agent" ∧
  Exists (owns (t_OwnerReference example_transformations)) (om_OwnerReferences (object_meta o')) ∧
  transform (H:=example_env) example_transformations ComponentInstanaAgent true o' = o'.
Proof.
  intros o'.
  destruct (transform_spec (H:=example_env) example_transformations ComponentInstanaAgent true
              labelled_service eq_refl) as (_ & Hn & _ & _ & _ & [Ho _] & Hi).
  split; [exact Hn|]. split; [exact Ho|exact Hi].
Defined.
