(* ===== verification/Startup.v ===== *)
(** * When the operator starts: cleanupOldOperator of main.go, and warnings.go

    Before its controllers run, a new operator deletes the deployment and the
    cluster-wide roles an old one was installed with; it decides by names,
    labels and contents whether they were the operator's.  The client it uses
    reports the API server's warnings but for two it expects. *)
From S2P Require Import Prelude GoStd Errors K8sTypes ApiTypes Effects Cluster Client.
From S2P Require Import Transformations.

(** ** main.go *)
Definition InstanaOperatorOldDeploymentName := "controller-manager".
Definition InstanaOperatorOldClusterRoleName := "manager-role".
Definition InstanaOperatorOldClusterRoleBindingName := "manager-rolebinding".

(** Some rule of the role is for the operator's API group. *)
Definition hasInstanaApiGroup (rules : list PolicyRule) : bool :=
  existsb (fun rule => GoList.Contains (pr_APIGroups rule) "instana.io") rules.
(** Some subject of the binding is the operator's service account. *)
Definition hasInstanaAgentOperatorSA (subjects : list Subject) : bool :=
  existsb (fun subject => String.eqb (sub_Kind subject) "ServiceAccount" &&
                          String.eqb (sub_Name subject) FieldOwnerName) subjects.

Section CleanupOldOperator.
Context {W X : Type} `{K8sApi W}.
Notation M := (M W X).

(** Every error is logged only. *)
Definition deleteOldDeployments : M unit :=
  let labelSelector : smap := {[ NameLabel := FieldOwnerName ]} in
  r ← call (k8sListDeployments InstanaOperatorOldDeploymentName labelSelector)
           (EListDeployments InstanaOperatorOldDeploymentName labelSelector);
  match r with
  | inr _ => mret tt
  | inl items =>
      foldM (fun _ deployment => _ ← doWrite (RDelete (ODeployment deployment)); mret tt) tt items
  end.
Definition deleteOldClusterRole : M unit :=
  r ← doGet KClusterRole (Key "" InstanaOperatorOldClusterRoleName);
  match r with
  | inr _ => mret tt
  | inl oldRole =>
      if negb (hasInstanaApiGroup (role_Rules oldRole)) then mret tt
      else _ ← doWrite (RDelete (OClusterRole oldRole)); mret tt
  end.
Definition deleteOldClusterRoleBinding : M unit :=
  r ← doGet KClusterRoleBinding (Key "" InstanaOperatorOldClusterRoleBindingName);
  match r with
  | inr _ => mret tt
  | inl oldRoleBinding =>
      if negb (hasInstanaAgentOperatorSA (rb_Subjects oldRoleBinding)) then mret tt
      else _ ← doWrite (RDelete (OClusterRoleBinding oldRoleBinding)); mret tt
  end.
Definition cleanupOldOperator : M unit :=
  _ ← deleteOldDeployments;
  _ ← deleteOldClusterRole;
  deleteOldClusterRoleBinding.
End CleanupOldOperator.

(** ** pkg/k8s/client/warnings.go *)
Definition sessionAffinityHeadlessWarning := "spec.SessionAffinity is ignored for headless services".
Definition podSecurityWarning := "would violate PodSecurity".

(** The handler in front of which the filter is put, if any. *)
Record filteringWarningHandler (S : Type) := {
  fw_delegate : option (Z → string → string → S → S);
  fw_ignoredMessages : list string }.
Arguments fw_delegate {S} _.
Arguments fw_ignoredMessages {S} _.
Definition ConfigureWarningHandler {S} (delegate : Z → string → string → S → S) :
    filteringWarningHandler S :=
  {| fw_delegate := Some delegate;
     fw_ignoredMessages := [sessionAffinityHeadlessWarning; podSecurityWarning] |}.
Definition HandleWarningHeaderWithContext {S} (f : filteringWarningHandler S)
    (code : Z) (agent message : string) (s : S) : S :=
  if existsb (Contains message) (fw_ignoredMessages f) then s
  else match fw_delegate f with Some delegate => delegate code agent message s | None => s end.

(** ** Facts *)
Section Facts.
Context {W X : Type} `{K8sApi W}.
Implicit Types (t : list event) (o : object).

(** The event shows an object the old operator was installed with. *)
Definition shown (ev : event) o : Prop :=
  match ev with
  | EListDeployments name labels (inl items) =>
      name = InstanaOperatorOldDeploymentName ∧ labels = {[ NameLabel := FieldOwnerName ]} ∧
      o ∈ ODeployment <$> items
  | EGet KClusterRole key (inl role) =>
      key = Key "" InstanaOperatorOldClusterRoleName ∧ o = OClusterRole role ∧
      ∃ rule, rule ∈ role_Rules role ∧ "instana.io" ∈ pr_APIGroups rule
  | EGet KClusterRoleBinding key (inl binding) =>
      key = Key "" InstanaOperatorOldClusterRoleBindingName ∧ o = OClusterRoleBinding binding ∧
      ∃ subject, subject ∈ rb_Subjects binding ∧
        sub_Kind subject = "ServiceAccount" ∧ sub_Name subject = FieldOwnerName
  | _ => False
  end.
Definition old_object t o : Prop := ∃ ev, ev ∈ t ∧ shown ev o.
Definition deleted t o : Prop := ∃ e, EWrite (RDelete o) e ∈ t.
(** The trace of a step: it deletes exactly what it was shown of the old
    operator, and writes nothing else. *)
Definition deletes_old t : Prop :=
  (∀ r e, EWrite r e ∈ t → ∃ o, r = RDelete o ∧ old_object t o) ∧
  (∀ o, old_object t o → deleted t o).

Lemma deletes_old_app t t' : deletes_old t → deletes_old t' → deletes_old (t ++ t').
Proof. unfold deletes_old, old_object, deleted. set_solver. Qed.

(** A step: something is shown, and the objects are deleted. *)
Definition deletes (l : list object) t : Prop :=
  (∀ ev, ev ∈ t → ∃ o e, o ∈ l ∧ ev = EWrite (RDelete o) e) ∧ (∀ o, o ∈ l → deleted t o).
Lemma deletes_nil : deletes [] [].
Proof. split; set_solver. Qed.
Lemma deletes_snoc l t o e : deletes l t → deletes (l ++ [o]) (t ++ [EWrite (RDelete o) e]).
Proof.
  intros [Ht Hd]. split.
  - intros ev [Hev|Hev%list_elem_of_singleton]%elem_of_app; [|exists o, e; set_solver].
    destruct (Ht _ Hev) as (o' & e' & ? & ->). exists o', e'. set_solver.
  - intros o' [Ho|Ho%list_elem_of_singleton]%elem_of_app; [|exists e; set_solver].
    destruct (Hd _ Ho) as [e' ?]. exists e'. set_solver.
Qed.
Lemma deletes_old_cons ev l t :
  (∀ r e, ev ≠ EWrite r e) → (∀ o, shown ev o ↔ o ∈ l) → deletes l t → deletes_old (ev :: t).
Proof.
  intros Hev Hs [Ht Hd].
  assert (Ho : ∀ o, old_object (ev :: t) o ↔ o ∈ l).
  { intros o. rewrite <- Hs. split; [|intros ?; exists ev; set_solver].
    intros (ev' & [->|Hev']%elem_of_cons & Hsh); [done|].
    by destruct (Ht _ Hev') as (? & ? & _ & ->). }
  split.
  - intros r e [Hr|Hr]%elem_of_cons; [by destruct (Hev r e)|].
    destruct (Ht _ Hr) as (o & e' & Hin & [= -> _]). exists o. by rewrite Ho.
  - intros o Hin%Ho. destruct (Hd _ Hin) as [e ?]. exists e. by right.
Qed.

Lemma hasInstanaApiGroup_spec rules :
  hasInstanaApiGroup rules = true ↔ ∃ rule, rule ∈ rules ∧ "instana.io" ∈ pr_APIGroups rule.
Proof.
  unfold hasInstanaApiGroup. rewrite existsb_exists.
  setoid_rewrite <- list_elem_of_In. setoid_rewrite GoList.Contains_spec. done.
Qed.
Lemma hasInstanaAgentOperatorSA_spec subjects :
  hasInstanaAgentOperatorSA subjects = true ↔ ∃ subject, subject ∈ subjects ∧
    sub_Kind subject = "ServiceAccount" ∧ sub_Name subject = FieldOwnerName.
Proof.
  unfold hasInstanaAgentOperatorSA. rewrite existsb_exists.
  setoid_rewrite <- list_elem_of_In. setoid_rewrite andb_true_iff.
  by setoid_rewrite String.eqb_eq.
Qed.

Lemma deleteOldDeployments_emits :
  emits (W:=W) (X:=X) deleteOldDeployments (post (fun _ t => deletes_old t) (fun _ _ => False)).
Proof.
  unfold deleteOldDeployments. emits_step. emits_step. destruct a as [items|e].
  - eapply emits_mono; [apply (emits_foldM _ items (fun d _ t => deletes (ODeployment <$> d) t)
      (fun _ _ => False)); [|apply deletes_nil]|].
    + intros d x b r t _ Ht. do 3 emits_step. simpl. rewrite fmap_app. by apply deletes_snoc.
    + intros [u|p|] t; [|done..]. apply deletes_old_cons; [done|]. intros o. simpl. tauto.
  - emits_step. apply (deletes_old_cons _ []); [done| |apply deletes_nil]. set_solver.
Qed.
(** An object that is looked up and deleted when it passes a test. *)
Lemma delete_one_emits (k : kind) key (test : denote k → bool) (o : denote k → object) :
  (∀ x ob, shown (EGet k key (inl x)) ob ↔ test x = true ∧ ob = o x) →
  (∀ e ob, ¬ shown (EGet k key (inr e)) ob) →
  emits (W:=W) (X:=X)
    (r ← doGet k key;
     match r with
     | inr _ => mret tt
     | inl x => if negb (test x) then mret tt else _ ← doWrite (RDelete (o x)); mret tt
     end) (post (fun _ t => deletes_old t) (fun _ _ => False)).
Proof.
  intros Hx He. emits_step. emits_step. destruct a as [x|e].
  - specialize (Hx x). destruct (test x); cbn [negb].
    + do 3 emits_step. simpl. apply (deletes_old_cons _ [o x]); [done| |apply (deletes_snoc [] []), deletes_nil].
      intros ob. rewrite Hx, list_elem_of_singleton. naive_solver.
    + emits_step. simpl. apply (deletes_old_cons _ []); [done| |apply deletes_nil].
      intros ob. rewrite Hx, elem_of_nil. naive_solver.
  - emits_step. simpl. apply (deletes_old_cons _ []); [done| |apply deletes_nil]. set_solver.
Qed.
Lemma deleteOldClusterRole_emits :
  emits (W:=W) (X:=X) deleteOldClusterRole (post (fun _ t => deletes_old t) (fun _ _ => False)).
Proof.
  apply (delete_one_emits KClusterRole _ (fun role : Role => hasInstanaApiGroup (role_Rules role))); [|tauto].
  intros x ob. simpl. rewrite hasInstanaApiGroup_spec. tauto.
Qed.
Lemma deleteOldClusterRoleBinding_emits :
  emits (W:=W) (X:=X) deleteOldClusterRoleBinding (post (fun _ t => deletes_old t) (fun _ _ => False)).
Proof.
  apply (delete_one_emits KClusterRoleBinding _
    (fun binding : RoleBinding => hasInstanaAgentOperatorSA (rb_Subjects binding))); [|tauto].
  intros x ob. simpl. rewrite hasInstanaAgentOperatorSA_spec. tauto.
Qed.
Lemma cleanupOldOperator_emits :
  emits (W:=W) (X:=X) cleanupOldOperator (post (fun _ t => deletes_old t) (fun _ _ => False)).
Proof.
  unfold cleanupOldOperator.
  eapply emits_seq; [apply deleteOldDeployments_emits| |done|done]. intros u t Ht.
  eapply emits_seq; [apply deleteOldClusterRole_emits| |done|done]. intros u' t' Ht'.
  eapply emits_mono; [apply deleteOldClusterRoleBinding_emits|].
  intros [u2|p|] t2 Ht2; [|done..]. simpl. by repeat apply deletes_old_app.
Qed.
Lemma cleanupOldOperator_keeps_local : keeps_local (W:=W) (X:=X) cleanupOldOperator.
Proof.
  unfold cleanupOldOperator, deleteOldDeployments, deleteOldClusterRole, deleteOldClusterRoleBinding.
  keeps_local_auto.
Qed.
End Facts.

(** ** Properties *)

(** Starting up, whatever the cluster answers, the operator goes on, and of
    the objects the cluster shows it deletes exactly those of the old operator:
    the deployments listed under the old name and the operator's label, the
    role of the old name that has a rule for the operator's API group, the
    binding of the old name for the operator's service account.  It writes
    nothing else. *)
Theorem cleanupOldOperator_spec {W X} `{K8sApi W} (s : St W X) :
  ∃ s' t, cleanupOldOperator s = (Ret tt, s') ∧ trace s' = trace s ++ t ∧
    (∀ r e, EWrite r e ∈ t → ∃ o, r = RDelete o ∧ old_object t o) ∧
    (∀ o, old_object t o → ∃ e, EWrite (RDelete o) e ∈ t).
Proof.
  destruct (cleanupOldOperator_emits s) as (u & Hu & Hpost). destruct (cleanupOldOperator s) as [[[]|p|] s']; [|done..].
  exists s', u. split; [done|]. split; [done|]. exact Hpost.
Qed.

(** The filter passes on a warning exactly when it contains none of the
    ignored messages, unchanged. *)
Theorem HandleWarning_filters {S} (delegate : Z → string → string → S → S) code agent message s :
  let contains (m : string) := ∃ a b, message = a +++ m +++ b in
  let r := HandleWarningHeaderWithContext (ConfigureWarningHandler delegate) code agent message s in
  (contains sessionAffinityHeadlessWarning ∨ contains podSecurityWarning → r = s) ∧
  (¬ contains sessionAffinityHeadlessWarning → ¬ contains podSecurityWarning →
   r = delegate code agent message s).
Proof.
  intros contains r. unfold r, HandleWarningHeaderWithContext.
  cbn [fw_ignoredMessages fw_delegate ConfigureWarningHandler existsb]. rewrite orb_false_r.
  pose proof (strings_Contains_spec message sessionAffinityHeadlessWarning) as H1.
  pose proof (strings_Contains_spec message podSecurityWarning) as H2. unfold contains.
  destruct (Contains message _), (Contains message _); simpl; naive_solver.
Qed.
