(* ===== verification/Lifecycle.v ===== *)
(** * Dependents and their life cycle: pkg/k8s/operator/lifecycle

    The manager records, in a config map, the objects each generation of the
    custom resource made, and deletes the objects of older generations that
    are not made any more.  One definition per method of
    dependent_lifecycle_manager.go and helpers.go; the manager of the remote
    agent is in RemoteLifecycle.v. *)
From S2P Require Import Prelude GoStd Errors K8sTypes ApiTypes Effects Cluster Client.
From S2P Require Import Transformations.

(** ** helpers.go *)
Definition asUnstructured (obj : object) : Unstructured :=
  {| un_GVK := object_gvk obj; un_Name := object_name obj;
     un_Namespace := object_namespace obj |}.
Definition asUnstructureds (objects : list object) : list Unstructured :=
  asUnstructured <$> objects.
Definition asObject (u : Unstructured) : object := OUnstructured u.

(** ** The managers *)
Record lifecycleManager := {
  d_Name : string; d_Namespace : string; d_Generation : Z;
  d_transformations : transformations }.
Definition NewDependentLifecycleManager (agent : InstanaAgent) : lifecycleManager :=
  {| d_Name := agent_Name agent; d_Namespace := agent_Namespace agent;
     d_Generation := agent_Generation agent;
     d_transformations := NewTransformations agent |}.
Definition millisecond : Z := 1000000.
Definition second : Z := 1000000000.

(** [isConflictError]. *)
Definition isConflictError `{ApiErrors} (err : option error) : bool :=
  match err with
  | None => false
  | Some e =>
      if IsConflict err then true
      else negb (String.eqb (ErrorMsg e) "") &&
           (String.eqb (ErrorMsg e) "Operation cannot be fulfilled" ||
            String.eqb (ErrorMsg e) "the object has been modified")
  end.

Section Lifecycle.
Context {W X : Type} `{K8sApi W} `{ApiErrors} `{Env} `{DependentsCodec} `{MapRange}.

(** The attempts [i], [i+1], ... of [retry]; [n] of them are left.  The
    [err] returned after the loop is the one declared before it: the loop
    body declares its own, so it is still nil. *)
Fixpoint retry_from (n : nat) (i attempts sleep : Z)
    (fn : M W X (bool * option error)) : M W X (option error) :=
  match n with
  | O => mret None
  | S n =>
      r ← fn;
      if fst r : bool then mret (snd r)
      else
        _ ← (if (i <? attempts - 1)%Z then doSleep (sleep * 2 ^ i)%Z else mret tt);
        retry_from n (i + 1) attempts sleep fn
  end.
Definition retry (attempts sleep : Z) (fn : M W X (bool * option error)) :
    M W X (option error) :=
  retry_from (Z.to_nat attempts) 0 attempts sleep fn.

Context (d : lifecycleManager).

Definition getConfigMapName : string := d_Name d +++ "-dependents".
(** Where the record of the dependents is kept. *)
Definition record_key : ObjectKey := Key (d_Namespace d) getConfigMapName.
Definition getCurrentGenKey : string := GetVersion +++ "_" +++ itoa (d_Generation d).

Definition getLifecycleConfigMap : M W X (ConfigMap * option error) :=
  r ← doGet KConfigMap (Key (d_Namespace d) getConfigMapName);
  mret match r with
       | inl cm => (cm, None)
       | inr e => (zero_ConfigMap, Some e)
       end.

Definition initializeLifecycleCm (cm : ConfigMap) (err : option error) : ConfigMap :=
  let cm :=
    match err with
    | None => cm
    | Some _ =>
        if IsNotFound err then
          {| cm_Meta := NewObjectMeta getConfigMapName (d_Namespace d);
             cm_Kind := "ConfigMap"; cm_Data := None |}
        else zero_ConfigMap
    end in
  {| cm_Meta := cm_Meta cm; cm_Kind := cm_Kind cm; cm_Data := Some (default ∅ (cm_Data cm)) |}.
Definition getOrInitializeLifecycleCm : M W X (ConfigMap * option error) :=
  r ← getLifecycleConfigMap;
  mret (initializeLifecycleCm (fst r) (snd r), snd r).

(** *** UpdateDependentLifecycleInfo *)

(** The new contents of the config map: the previous value of the current
    generation moves to the dirty key. *)
Definition updatedData (current : list Unstructured) (data : smap) : smap :=
  let data :=
    match data !! getCurrentGenKey with
    | Some existingVersion => <[getCurrentGenKey +++ "-dirty" := existingVersion]> data
    | None => data
    end in
  <[getCurrentGenKey := marshalUnstructureds current]> data.
Definition updatedCm (current : list object) (cm : ConfigMap) : ConfigMap :=
  {| cm_Meta := cm_Meta cm; cm_Kind := cm_Kind cm;
     cm_Data := Some (updatedData (asUnstructureds current) (default ∅ (cm_Data cm))) |}.
Definition updatedObject (current : list object) (cm : ConfigMap) : object :=
  AddOwnerReference (d_transformations d)
    (AddCommonLabels (d_transformations d) ComponentInstanaAgent
      (OConfigMap (updatedCm current cm))).

Definition updateAttempt (currentGenerationDependents : list object) :
    M W X (bool * option error) :=
  r ← getOrInitializeLifecycleCm;
  res ← Apply (updatedObject currentGenerationDependents (fst r)) false;
  let err := Result.err res in
  mret match err with
       | None => (true, err)
       | Some _ => (negb (IsConflict err), err)
       end.
Definition UpdateDependentLifecycleInfo (currentGenerationDependents : list object) :
    M W X (option error) :=
  retry 5 (100 * millisecond) (updateAttempt currentGenerationDependents).

(** *** CleanupDependents *)
Definition deleteAllDependents (toBeDeleted : list Unstructured) :
    M W X (Result.t (list object)) :=
  DeleteAllInTimeLimit (GoList.MapTo toBeDeleted asObject) (30 * second) (5 * second).

Definition deprecatedDependents (jsonString : string) (currentGeneration : list Unstructured) :
    list Unstructured :=
  GoList.Diff (fst (unmarshalUnstructureds jsonString)) currentGeneration.

(** One iteration over an entry of the config map. *)
Definition cleanupEntry (currentGeneration : list Unstructured)
    (acc : smap * MultiErrorBuilder.t) (entry : string * string) :
    M W X (smap * MultiErrorBuilder.t) :=
  let '(data, errBuilder) := acc in
  let '(key, jsonString) := entry in
  res ← deleteAllDependents (deprecatedDependents jsonString currentGeneration);
  match Result.err res with
  | Some e => mret (data, MultiErrorBuilder.AddSingle (Some e) errBuilder)
  | None =>
      mret (if String.eqb key getCurrentGenKey then data else delete key data, errBuilder)
  end.

Definition cleanedCm (cm : ConfigMap) (data : smap) : ConfigMap :=
  {| cm_Meta := cm_Meta cm; cm_Kind := cm_Kind cm;
     cm_Data := match cm_Data cm with None => None | Some _ => Some data end |}.

Definition cleanupOnce (currentDependents : list object) : M W X (option error) :=
  r ← getLifecycleConfigMap;
  let cm := fst r in
  let data := default ∅ (cm_Data cm) in
  acc ← foldM (cleanupEntry (asUnstructureds currentDependents))
              (data, MultiErrorBuilder.New []) (range data);
  result ← Apply (OConfigMap (cleanedCm cm (fst acc))) false;
  mret (MultiErrorBuilder.Build
         (Result.OnFailure result MultiErrorBuilder.AddSingle (snd acc))).

Definition cleanupAttempt (currentDependents : list object) : M W X (bool * option error) :=
  err ← cleanupOnce currentDependents;
  mret match err with
       | None => (true, err)
       | Some _ => (negb (isConflictError err), err)
       end.
Definition CleanupDependents (currentDependents : list object) : M W X (option error) :=
  retry 5 (100 * millisecond) (cleanupAttempt currentDependents).

End Lifecycle.

(** ** Facts about retries *)
Section RetryFacts.
Context {W X : Type} `{K8sApi W}.
Implicit Types fn : M W X (bool * option error).

Definition is_sleep (ev : event) : Prop := ∃ d, ev = ESleep d.

(** A write of a config map; the managers write no other than the record of the
    dependents, once in each attempt. *)
Definition record_write (ev : event) : bool :=
  match ev with EWrite (RApply (OConfigMap _) false) _ => true | _ => false end.
Definition attempts_in (t : list event) : nat := length (List.filter record_write t).
Lemma attempts_app t u : attempts_in (t ++ u) = attempts_in t + attempts_in u.
Proof. unfold attempts_in. by rewrite List.filter_app, length_app. Qed.
Lemma attempts_none t : Forall (fun ev => record_write ev = false) t → attempts_in t = 0.
Proof. unfold attempts_in. by induction 1 as [|ev t Hev _ IH]; simpl; [|rewrite Hev]. Qed.
Lemma attempts_sleep t : Forall is_sleep t → attempts_in t = 0.
Proof. intros Ht. apply attempts_none. eapply Forall_impl; [exact Ht|]. by intros ev [d ->]. Qed.

(** The contract of [retry]: [retried I n r t] when up to [n] attempts, each
    described by [I], end with [r] and have produced [t].  After the last
    attempt the answer is nil. *)
Inductive retried (I : bool * option error → list event → Prop) :
    nat → option error → list event → Prop :=
  | retried_exhausted : retried I 0 None []
  | retried_done n r t : I (true, r) t → retried I (S n) r t
  | retried_again n e t ts r t' :
      I (false, e) t → Forall is_sleep ts → retried I n r t' →
      retried I (S n) r (t ++ ts ++ t').

(** [E] is a property of traces that concatenation preserves. *)
Lemma retry_from_emits n i attempts sleep fn I (E : list event → Prop) :
  emits fn (post (fun a t => I a t ∧ E t) (fun p t => p = None ∧ E t)) →
  (∀ t, Forall is_sleep t → E t) →
  (∀ t t', E t → E t' → E (t ++ t')) →
  emits (retry_from n i attempts sleep fn)
    (post (fun r t => retried I n r t ∧ E t) (fun p t => p = None ∧ E t)).
Proof.
  intros Hfn Hsl Happ. revert i. induction n as [|n IH]; intros i; simpl.
  - emits_step. split; [constructor|by apply Hsl].
  - eapply emits_seq; [exact Hfn| |by intros p t [? _]|by intros t [_ ?]].
    intros [done err] t [HI HE]. simpl. destruct done.
    { emits_step. rewrite app_nil_r. split; [by constructor|done]. }
    apply emits_bind. eapply (emits_mono _ (fun o t' => o = Ret tt ∧ Forall is_sleep t')).
    { destruct (i <? attempts - 1)%Z; emits_step; [|done].
      destruct a. split; [done|]. repeat constructor. by eexists. }
    intros o ts [-> Hts]. simpl.
    eapply emits_mono; [apply IH|].
    intros [r|p|] t' [Hr HE']; simpl in *; (split; [|by auto]); try done.
    by eapply retried_again.
Qed.

Lemma retried_mono (I J : bool * option error → list event → Prop) n r t :
  (∀ a u, I a u → J a u) → retried I n r t → retried J n r t.
Proof. intros HIJ. induction 1; [constructor|constructor; auto|eapply retried_again; eauto]. Qed.

(** A retry that reports an error made a last attempt which did. *)
Lemma retried_error I n e t :
  retried I n (Some e) t → ∃ t1 t2, t = t1 ++ t2 ∧ I (true, Some e) t2.
Proof.
  remember (Some e) as r. induction 1 as [|n r t HI|n e' t ts r t' HI Hts Hr IH]; [done|..].
  - subst. by exists [], t.
  - destruct (IH Heqr) as (t1 & t2 & -> & ?). exists (t ++ ts ++ t1), t2.
    by rewrite <- !app_assoc.
Qed.

(** A retry ends with an attempt, whose answer is reported unless it is the last
    one allowed and asks for another. *)
Lemma retried_last I n r t :
  (∀ a u, I a u → attempts_in u = 1) → retried I (S n) r t →
  ∃ t1 a u ts, t = t1 ++ u ++ ts ∧ Forall is_sleep ts ∧ I a u ∧
    (a = (true, r) ∨ fst a = false ∧ r = None ∧ attempts_in t = S n).
Proof.
  intros HI. revert t. induction n as [|n IH]; intros t Hr;
    inversion Hr as [|? ? ? Ha|? e t0 ts ? t' Ha Hts Hr']; subst.
  - exists [], (true, r), t, []. rewrite app_nil_r. by eauto.
  - inversion Hr'; subst. exists [], (false, e), t0, ts. rewrite app_nil_r. split_and!; [done..|right].
    by rewrite attempts_app, (attempts_sleep ts), (HI _ _ Ha).
  - exists [], (true, r), t, []. rewrite app_nil_r. by eauto.
  - apply IH in Hr' as (t1 & a & u & us & -> & ? & ? & Hlast).
    exists (t0 ++ ts ++ t1), a, u, us. rewrite <- !app_assoc. split_and!; [done..|].
    destruct Hlast as [?|(? & ? & Hl)]; [by left|right]. split_and!; [done..|].
    by rewrite attempts_app, (attempts_app ts), (attempts_sleep ts), Hl, (HI _ _ Ha).
Qed.

(** All [n] attempts failed, one after the other. *)
Fixpoint exhausted (I : bool * option error → list event → Prop) (n : nat) (t : list event) :
    Prop :=
  match n with
  | O => t = []
  | S n => ∃ e u ts t', t = u ++ ts ++ t' ∧ I (false, e) u ∧ Forall is_sleep ts ∧
                        exhausted I n t'
  end.

(** The last attempt of a retry, or what every attempt was. *)
Lemma retried_cases I n r t :
  retried I n r t →
  (∃ t1 t2, t = t1 ++ t2 ∧ I (true, r) t2) ∨ (r = None ∧ exhausted I n t).
Proof.
  induction 1 as [|n r t HI|n e t ts r t' HI Hts Hr IH]; simpl.
  - by right.
  - left. by exists [], t.
  - destruct IH as [(t1 & t2 & -> & ?)|[-> ?]].
    + left. exists (t ++ ts ++ t1), t2. by rewrite <- !app_assoc.
    + right. split; [done|]. by exists e, t, ts, t'.
Qed.

End RetryFacts.

Section RetryRuns.
Context {W X : Type} `{ClockLaws W} `{ApiErrors}.

Lemma retry_runs attempts sleep (fn : M W X (bool * option error)) :
  (0 ≤ sleep)%Z → runs fn → runs (retry attempts sleep fn).
Proof.
  intros Hs Hfn. unfold retry. assert (0 ≤ 0)%Z as Hi by done. revert Hi.
  generalize 0%Z at 2 3. induction (Z.to_nat attempts) as [|n IH]; intros i Hi; simpl.
  - apply runs_ret.
  - apply runs_bind; [done|]. intros [[] e]; simpl; [apply runs_ret|].
    apply runs_bind; [|intros; apply IH; lia].
    destruct (i <? attempts - 1)%Z; [apply runs_doSleep|apply runs_ret].
    pose proof (Z.pow_nonneg 2 i). nia.
Qed.
End RetryRuns.

(** ** Facts about the clean-up *)
Section CleanupFacts.
Context {W X : Type} `{K8sApi W} `{ApiErrors} `{Env} `{DependentsCodec} `{MapRangeLaws}.
Context (d : lifecycleManager).
Implicit Types (current : list Unstructured) (data : smap) (t : list event).

(** The server answered that the recorded object does not exist. *)
Definition gone (t : list event) (u : Unstructured) : Prop := observed_gone (asObject u) t.

Lemma gone_app t t' u : gone t u ∨ gone t' u → gone (t ++ t') u.
Proof. apply observed_gone_app. Qed.

(** [recorded data u]: the config map has an entry that lists [u]. *)
Definition recorded data (u : Unstructured) : Prop :=
  ∃ k j, data !! k = Some j ∧ u ∈ fst (unmarshalUnstructureds j).

(** What an attempt may do before it writes the config map: delete recorded objects that are not current,
    look and wait. *)
Definition cleanup_event data current (ev : event) : Prop :=
  match ev with
  | EWrite (RDelete obj) _ => ∃ u, obj = asObject u ∧ u ∉ current ∧ recorded data u
  | EGet _ _ _ | ESleep _ => True
  | _ => False
  end.

Lemma deletion_cleanup_event data k j current t :
  data !! k = Some j →
  Forall (deletion_event (GoList.MapTo (deprecatedDependents j current) asObject)) t →
  Forall (cleanup_event data current) t.
Proof.
  intros Hkj Ht. eapply Forall_impl; [exact Ht|]. intros [| | |[]| | | | | |]; simpl; try done.
  rewrite GoList.MapTo_fmap. intros (u & -> & Hu)%list_elem_of_fmap.
  apply GoList.Diff_spec in Hu as [Hu Hn]. exists u. split; [done|]. split; [done|]. by exists k, j.
Qed.

Lemma cleanupEntry_emits data current data' b k j :
  data !! k = Some j →
  emits (W:=W) (X:=X) (cleanupEntry d current (data', b) (k, j)) (post
    (fun acc t => Forall (cleanup_event data current) t ∧
      ((∃ e, acc = (data', MultiErrorBuilder.AddSingle (Some e) b) ∧ deletion_failed e t) ∨
       (acc = (if String.eqb k (getCurrentGenKey d) then data' else delete k data', b) ∧
        Forall (gone t) (deprecatedDependents j current))))
    (fun p t => p = None ∧ Forall (cleanup_event data current) t)).
Proof.
  intros Hkj. unfold cleanupEntry, deleteAllDependents.
  eapply emits_seq; [apply DeleteAllInTimeLimit_emits| | |].
  - intros r t (Ht & Hr & Hf). apply (deletion_cleanup_event _ _ _ _ _ Hkj) in Ht.
    destruct (Result.err r) as [e|]; emits_step; simpl; rewrite app_nil_r.
    + split; [done|]. left. exists e. split; [done|]. by apply Hf.
    + split; [done|]. right. split; [done|]. apply deleted_gone in Hr; [|done].
      by rewrite GoList.MapTo_fmap, Forall_fmap in Hr.
  - by intros p t [? _].
  - intros t [_ Ht]. split; [done|]. by eapply deletion_cleanup_event.
Qed.

(** What the loop over the config map has established after the entries [l]. *)
Record cleaned current data (l : list (string * string))
    (acc : smap * MultiErrorBuilder.t) t : Prop := {
  cleaned_events : Forall (cleanup_event data current) t;
  cleaned_kept k j : acc.1 !! k = Some j → data !! k = Some j;
  cleaned_removed k j : data !! k = Some j → acc.1 !! k = None →
    k ≠ getCurrentGenKey d ∧ Forall (gone t) (deprecatedDependents j current);
  cleaned_all k j : (k, j) ∈ l → MultiErrorBuilder.Build acc.2 = None →
    Forall (gone t) (deprecatedDependents j current) ∧
    (k ≠ getCurrentGenKey d → acc.1 !! k = None);
  cleaned_errors : Forall (fun e => ∃ x, e = Some x ∧ deletion_failed x t) acc.2
}.

Lemma Forall_gone_app t t' us : Forall (gone t) us → Forall (gone (t ++ t')) us.
Proof. intros Hus. eapply Forall_impl; [exact Hus|]. intros. apply gone_app. by left. Qed.

Lemma cleaned_step current data l k j acc acc' t t' :
  data !! k = Some j →
  cleaned current data l acc t →
  Forall (cleanup_event data current) t' →
  (∃ e, acc' = (acc.1, MultiErrorBuilder.AddSingle (Some e) acc.2) ∧ deletion_failed e t') ∨
  (acc' = (if String.eqb k (getCurrentGenKey d) then acc.1 else delete k acc.1, acc.2) ∧
   Forall (gone t') (deprecatedDependents j current)) →
  cleaned current data (l ++ [(k, j)]) acc' (t ++ t').
Proof.
  intros Hkj [He Hk Hr Ha Hf] Ht' Hacc.
  assert (Hf' : Forall (fun e => ∃ x, e = Some x ∧ deletion_failed x (t ++ t')) acc.2).
  { eapply Forall_impl; [exact Hf|]. intros e (x & -> & ?). exists x. split; [done|].
    apply deletion_failed_app. by left. }
  destruct Hacc as [(e & -> & Hfe)|[-> Hg]].
  - split; simpl.
    + by apply Forall_app.
    + done.
    + intros k' j' Hd Hn. destruct (Hr k' j' Hd Hn). split; [done|]. by apply Forall_gone_app.
    + intros k' j' _ [_ ?]%MultiErrorBuilder.Build_AddSingle. done.
    + apply Forall_app. split; [done|]. apply Forall_singleton. exists e. split; [done|].
      apply deletion_failed_app. by right.
  - assert (Hg' : Forall (gone (t ++ t')) (deprecatedDependents j current)).
    { eapply Forall_impl; [exact Hg|]. intros. apply gone_app. by right. }
    split; simpl.
    + by apply Forall_app.
    + intros k' j'. destruct (String.eqb_spec k (getCurrentGenKey d)); [apply Hk|].
      rewrite lookup_delete_Some. naive_solver.
    + intros k' j' Hd. destruct (String.eqb_spec k (getCurrentGenKey d)) as [|Hne].
      * intros Hn. destruct (Hr k' j' Hd Hn). split; [done|]. by apply Forall_gone_app.
      * rewrite lookup_delete_None. intros [<-|Hn].
        { by simplify_eq. }
        destruct (Hr k' j' Hd Hn). split; [done|]. by apply Forall_gone_app.
    + intros k' j' [Hl|[=-> ->]%list_elem_of_singleton]%elem_of_app Hb.
      * destruct (Ha k' j' Hl Hb) as [Hg1 Hn]. split; [by apply Forall_gone_app|].
        intros Hc. specialize (Hn Hc). destruct (String.eqb k _); [done|].
        apply lookup_delete_None. by right.
      * split; [done|]. intros Hc. destruct (String.eqb_spec k (getCurrentGenKey d)); [done|].
        apply lookup_delete_eq.
    + done.
Qed.

Lemma cleanup_loop_emits current data :
  emits (W:=W) (X:=X)
    (foldM (cleanupEntry d current) (data, MultiErrorBuilder.New []) (range data))
    (post (cleaned current data (range data))
          (fun p t => p = None ∧ Forall (cleanup_event data current) t)).
Proof.
  eapply emits_mono; [eapply (emits_foldM _ _ (cleaned current data)
    (fun p t => p = None ∧ Forall (cleanup_event data current) t))|by intros [a|p|]].
  - intros l [k j] r [data' b] t Hl Hc.
    assert (Hkj : data !! k = Some j).
    { apply elem_of_map_to_list. rewrite <- (range_perm data), Hl. set_solver. }
    eapply emits_mono; [by apply (cleanupEntry_emits data)|].
    intros [acc'|p|] t'; simpl.
    + intros [Ht' Hs]. by eapply (cleaned_step _ _ _ _ _ (data', b)).
    + by intros [? _].
    + intros [? ?]. split; [done|]. apply Forall_app. split; [apply Hc|done].
  - split; simpl; [done|done|congruence|set_solver|done].
Qed.

(** *** The abstract promise of a clean-up *)
Notation record_key := (record_key d).

(** Nothing is lost between the config map read and the one written. *)
Definition no_leak current data data' t : Prop :=
  ∀ u, recorded data u → u ∈ current ∨ gone t u ∨ recorded data' u.

Lemma cleaned_no_leak current data l acc t :
  cleaned current data l acc t → no_leak current data acc.1 t.
Proof.
  intros Hc u (k & j & Hkj & Hu). destruct (decide (u ∈ current)) as [|Hnu]; [by left|].
  right. destruct (acc.1 !! k) as [j'|] eqn:E.
  - right. exists k, j. split; [|done].
    pose proof (cleaned_kept _ _ _ _ _ Hc k j' E). congruence.
  - left. destruct (cleaned_removed _ _ _ _ _ Hc k j Hkj E) as [_ Hg].
    rewrite Forall_forall in Hg. apply Hg. apply GoList.Diff_spec. done.
Qed.

Lemma getLifecycleConfigMap_emits (R : outcome (ConfigMap * option error) → list event → Prop) :
  (∀ cm, R (Ret (cm, None))
     [EGet KConfigMap (Key (d_Namespace d) (getConfigMapName d)) (inl cm)]) →
  (∀ e, R (Ret (zero_ConfigMap, Some e))
     [EGet KConfigMap (Key (d_Namespace d) (getConfigMapName d)) (inr e)]) →
  emits (W:=W) (X:=X) (getLifecycleConfigMap d) R.
Proof.
  intros Hcm He. unfold getLifecycleConfigMap. emits_step. emits_step.
  destruct a as [cm|e]; emits_step; simpl; auto.
Qed.

(** The writes of a trace are those of clean-ups that keep [current]: what is
    deleted was recorded in a config map the server had answered with. *)
Definition cleanup_ok current t : Prop :=
  ∀ ev, ev ∈ t →
    match ev with
    | EWrite (RDelete obj) _ => ∃ u cm, obj = asObject u ∧ u ∉ current ∧
        EGet KConfigMap (Key (d_Namespace d) (getConfigMapName d)) (inl cm) ∈ t ∧
        recorded (default ∅ (cm_Data cm)) u
    | EWrite (RApply (OConfigMap _) false) _ => True
    | EGet _ _ _ | ESleep _ => True
    | _ => False
    end.

Lemma cleanup_ok_app current t t' :
  cleanup_ok current t → cleanup_ok current t' → cleanup_ok current (t ++ t').
Proof.
  intros Ht Ht' ev [Hev|Hev]%elem_of_app; [specialize (Ht ev Hev)|specialize (Ht' ev Hev)];
    destruct ev as [| | |[]| | | | | |]; try done.
  all: destruct Ht as (u & cm & ? & ? & ? & ?) || destruct Ht' as (u & cm & ? & ? & ? & ?).
  all: exists u, cm; set_solver.
Qed.

Lemma cleanup_ok_sleep current t : Forall is_sleep t → cleanup_ok current t.
Proof. rewrite Forall_forall. intros Ht ev Hev. by destruct (Ht ev Hev) as [? ->]. Qed.

Lemma cleanup_ok_events current r t :
  Forall (fun ev => cleanup_event (default ∅ (cm_Data match r with inl cm => cm | inr _ => zero_ConfigMap end))
            current ev ∨ record_write ev = true) t →
  cleanup_ok current (EGet KConfigMap (Key (d_Namespace d) (getConfigMapName d)) r :: t).
Proof.
  rewrite Forall_forall. intros Ht ev [->|Hev]%elem_of_cons; [done|].
  specialize (Ht ev Hev). destruct ev as [| | |[[] []| | | | |]| | | | | |]; simpl in *; try (by destruct Ht).
  destruct Ht as [Ht|]; [|done].
  destruct Ht as (u & -> & Hn & Hu). destruct r as [cm|e].
  - exists u, cm. split; [done|]. split; [done|]. split; [by left|done].
  - by destruct Hu as (k & j & Hk & _).
Qed.

(** One attempt to clean up, ended with [err]: the config map [cm] was read,
    and written with the entries [data'] once every deletion had been tried. *)
Record cleaned_up current (err : option error) t cm data' w t' : Prop := {
  cu_trace : t = t' ++
    [EWrite (RApply (clear_managed_fields (OConfigMap (cleanedCm cm data'))) false) w];
  cu_read : ∃ r looks, t' = EGet KConfigMap record_key r :: looks ∧
    cm = match r with inl cm => cm | inr _ => zero_ConfigMap end ∧
    Forall (cleanup_event (default ∅ (cm_Data cm)) current) looks;
  cu_no_leak : no_leak current (default ∅ (cm_Data cm)) data' t';
  cu_shrinks k j : data' !! k = Some j → default ∅ (cm_Data cm) !! k = Some j;
  cu_success : err = None →
    w = None ∧ (∀ k, is_Some (data' !! k) → k = getCurrentGenKey d) ∧
    ∀ u, recorded (default ∅ (cm_Data cm)) u → u ∈ current ∨ gone t' u;
  cu_error : ∃ errs, err = MultiErrorBuilder.Build (errs ++ [w]) ∧
    Forall (fun e => ∃ x, e = Some x ∧ deletion_failed x t') errs
}.

Lemma cleaned_success current data acc t :
  cleaned current data (range data) acc t → MultiErrorBuilder.Build acc.2 = None →
  (∀ k, is_Some (acc.1 !! k) → k = getCurrentGenKey d) ∧
  (∀ u, recorded data u → u ∈ current ∨ gone t u).
Proof.
  intros Hc Herr.
  assert (Hall : ∀ k j, data !! k = Some j → Forall (gone t) (deprecatedDependents j current) ∧
            (k ≠ getCurrentGenKey d → acc.1 !! k = None)).
  { intros k j Hkj. apply elem_of_map_to_list in Hkj. rewrite <- range_perm in Hkj.
    by apply (cleaned_all _ _ _ _ _ Hc). }
  split.
  - intros k [j Hj]. destruct (decide (k = getCurrentGenKey d)) as [|Hne]; [done|].
    pose proof (cleaned_kept _ _ _ _ _ Hc k j Hj) as Hd.
    destruct (Hall k j Hd) as [_ Hn]. by rewrite Hn in Hj.
  - intros u (k & j & Hkj & Hu).
    destruct (decide (u ∈ current)) as [|Hnu]; [by left|right].
    destruct (Hall k j Hkj) as [Hg _]. rewrite Forall_forall in Hg.
    apply Hg, GoList.Diff_spec. done.
Qed.

Lemma cleanupOnce_emits currentDependents :
  let current := asUnstructureds currentDependents in
  emits (W:=W) (X:=X) (cleanupOnce d currentDependents) (post
    (fun err t => (∃ cm data' w t', cleaned_up current err t cm data' w t') ∧ cleanup_ok current t)
    (fun p t => p = None ∧ cleanup_ok current t)).
Proof.
  intros current. unfold cleanupOnce, getLifecycleConfigMap. do 2 emits_step. emits_step.
  emits_step. set (cm := match a with inl cm => cm | inr _ => zero_ConfigMap end).
  replace (fst _) with cm by (by destruct a).
  eapply emits_seq; [apply cleanup_loop_emits| |by intros p t [? _]|].
  2: { intros t [_ Ht]. split; [done|]. apply cleanup_ok_events. eapply Forall_impl; [exact Ht|]. by left. }
  intros acc t Hc. unfold Apply. do 5 emits_step. simpl.
  set (rd := EGet KConfigMap _ a). split.
  - exists cm, acc.1, a0, (rd :: t). split.
    + done.
    + exists a, t. split_and!; [done..|apply Hc].
    + intros u Hu. destruct (cleaned_no_leak _ _ _ _ _ Hc u Hu) as [?|[?|?]]; auto.
      right; left. apply (gone_app [_]). by right.
    + apply Hc.
    + unfold Result.OnFailure, Result.IsFailure, Result.IsSuccess; simpl.
      intros Herr. destruct a0 as [e|]; simpl in Herr.
      { by apply MultiErrorBuilder.Build_AddSingle in Herr as [_ ?]. }
      split; [done|]. destruct (cleaned_success _ _ _ _ Hc Herr) as [Hk Hg].
      split; [exact Hk|]. intros u Hu. destruct (Hg u Hu); [by left|].
      right. apply (gone_app [_]). by right.
    + exists acc.2. split.
      * unfold Result.OnFailure, Result.IsFailure, Result.IsSuccess; simpl.
        destruct a0 as [e|]; [done|]. unfold MultiErrorBuilder.Build, MultiErrorBuilder.AllNonNil.
        by rewrite omap_app, app_nil_r.
      * eapply Forall_impl; [apply Hc|]. intros e (x & -> & ?). exists x. split; [done|].
        apply (deletion_failed_app x [rd]). by right.
  - apply cleanup_ok_events, Forall_app. split.
    + eapply Forall_impl; [apply Hc|]. by left.
    + apply Forall_singleton. by right.
Qed.

(** An attempt asks for another one exactly after a conflict. *)
Definition cleanup_attempt currentDependents (a : bool * option error) t : Prop :=
  (∃ cm data' w t', cleaned_up (asUnstructureds currentDependents) (snd a) t cm data' w t') ∧
  (fst a = false → isConflictError (snd a) = true).

Lemma exhausted_conflicts currentDependents n t :
  exhausted (cleanup_attempt currentDependents) n t →
  exhausted (fun a u => cleanup_attempt currentDependents a u ∧
                        isConflictError (snd a) = true) n t.
Proof.
  revert t. induction n as [|n IH]; intros t; simpl; [done|].
  intros (e & u & ts & t' & ? & Hu & ? & ?). exists e, u, ts, t'.
  split; [done|]. split; [split; [done|by apply Hu]|]. auto.
Qed.

Lemma CleanupDependents_emits currentDependents :
  emits (W:=W) (X:=X) (CleanupDependents d currentDependents) (post
    (fun r t => retried (cleanup_attempt currentDependents) 5 r t ∧
                cleanup_ok (asUnstructureds currentDependents) t)
    (fun p t => p = None ∧ cleanup_ok (asUnstructureds currentDependents) t)).
Proof.
  unfold CleanupDependents, retry. apply retry_from_emits;
    [|apply cleanup_ok_sleep|apply cleanup_ok_app].
  unfold cleanupAttempt. eapply emits_seq; [apply cleanupOnce_emits| |done|done].
  intros err t [Hc Hok]. emits_step. rewrite app_nil_r.
  destruct err as [e|]; (split; [split|]); simpl; try done.
  by intros ?%negb_false_iff.
Qed.
End CleanupFacts.

(** ** Facts about the registration *)
Section UpdateFacts.
Context {W X : Type} `{K8sApi W} `{ApiErrors} `{Env} `{DependentsCodec}.
Context (d : lifecycleManager).

(** One attempt: the config map is read, and written with the current objects. *)
Definition update_attempt objects (a : bool * option error) (t : list event) : Prop :=
  ∃ r, t = [EGet KConfigMap (Key (d_Namespace d) (getConfigMapName d)) r;
            EWrite (RApply (clear_managed_fields (updatedObject d objects
              match r with
              | inl cm => initializeLifecycleCm d cm None
              | inr e => initializeLifecycleCm d zero_ConfigMap (Some e)
              end)) false) (snd a)] ∧
       (fst a = false → IsConflict (snd a) = true) ∧
       (∀ e, a = (true, Some e) → IsConflict (Some e) = false).

(** The registration only reads and writes the config map, and waits. *)
Definition update_event (ev : event) : Prop :=
  match ev with
  | EGet KConfigMap _ _ | ESleep _ | EWrite (RApply (OConfigMap _) false) _ => True
  | _ => False
  end.

Lemma updateAttempt_emits objects :
  emits (W:=W) (X:=X) (updateAttempt d objects)
    (post (fun a t => update_attempt objects a t ∧ Forall update_event t) (fun _ _ => False)).
Proof.
  unfold updateAttempt, getOrInitializeLifecycleCm, getLifecycleConfigMap, Apply.
  repeat emits_step.
  split; [exists a; split; [by destruct a, a0|]|by destruct a, a0; repeat constructor].
  destruct a0 as [e|]; simpl; [|done]. split; [apply negb_false_iff|].
  intros e' [=Hn ->]. by apply negb_true_iff in Hn.
Qed.

Lemma UpdateDependentLifecycleInfo_emits objects :
  emits (W:=W) (X:=X) (UpdateDependentLifecycleInfo d objects)
    (post (fun r t => retried (update_attempt objects) 5 r t ∧ Forall update_event t)
          (fun p t => p = None ∧ Forall update_event t)).
Proof.
  apply retry_from_emits.
  - eapply emits_mono; [apply updateAttempt_emits|]. by intros [a|p|].
  - intros t Ht. eapply Forall_impl; [exact Ht|]. by intros ev [? ->].
  - intros t t' ? ?. by apply Forall_app.
Qed.

Lemma asUnstructureds_kinds objects :
  Forall (fun o => gvk_Kind (object_gvk o) ≠ "") objects →
  Forall (fun u => gvk_Kind (un_GVK u) ≠ "") (asUnstructureds objects).
Proof. intros Ho. by apply Forall_fmap. Qed.

Lemma updatedData_current current data :
  updatedData d current data !! getCurrentGenKey d = Some (marshalUnstructureds current).
Proof. unfold updatedData. apply lookup_insert_eq. Qed.

Lemma dirty_ne : getCurrentGenKey d +++ "-dirty" ≠ getCurrentGenKey d.
Proof.
  intros E. apply (f_equal String.length) in E. rewrite string_length_app in E.
  simpl in E. lia.
Qed.

Lemma updatedData_dirty current data :
  updatedData d current data !! (getCurrentGenKey d +++ "-dirty") =
    match data !! getCurrentGenKey d with
    | Some v => Some v
    | None => data !! (getCurrentGenKey d +++ "-dirty")
    end.
Proof.
  unfold updatedData. rewrite lookup_insert_ne by (intros E; by apply dirty_ne).
  destruct (data !! getCurrentGenKey d); [|done]. apply lookup_insert_eq.
Qed.

Lemma updatedData_other current data k :
  k ≠ getCurrentGenKey d → k ≠ getCurrentGenKey d +++ "-dirty" →
  updatedData d current data !! k = data !! k.
Proof.
  intros Hc Hd. unfold updatedData. rewrite lookup_insert_ne by done.
  destruct (data !! getCurrentGenKey d); [|done]. by rewrite lookup_insert_ne.
Qed.
End UpdateFacts.

(** ** Both operations return *)
Section LifecycleRuns.
Context {W X : Type} `{ClockLaws W} `{ApiErrors} `{Env} `{DependentsCodec} `{MapRange}.
Context (d : lifecycleManager).

Lemma UpdateDependentLifecycleInfo_runs objects :
  runs (W:=W) (X:=X) (UpdateDependentLifecycleInfo d objects).
Proof.
  apply retry_runs; [done|]. unfold updateAttempt, getOrInitializeLifecycleCm,
    getLifecycleConfigMap, Apply. runs_auto.
Qed.

Lemma cleanupOnce_runs objects : runs (W:=W) (X:=X) (cleanupOnce d objects).
Proof.
  unfold cleanupOnce, getLifecycleConfigMap, Apply. runs_auto.
  unfold cleanupEntry, deleteAllDependents. destruct b as [data b], x as [k j].
  apply runs_bind; [by apply DeleteAllInTimeLimit_runs|]. runs_auto.
Qed.

Lemma CleanupDependents_runs objects : runs (W:=W) (X:=X) (CleanupDependents d objects).
Proof.
  apply retry_runs; [done|]. unfold cleanupAttempt.
  apply runs_bind; [apply cleanupOnce_runs|]. runs_auto.
Qed.
End LifecycleRuns.
#[export] Hint Resolve UpdateDependentLifecycleInfo_runs CleanupDependents_runs cleanupOnce_runs
  : operator.

(** ** Properties *)

(** A write the server answered with a conflict. *)
Definition conflict_write `{ApiErrors} (ev : event) : bool :=
  match ev with EWrite _ e => IsConflict e | _ => false end.

Section UpdateOutcome.
Context {W X : Type} `{K8sApi W} `{ApiErrors} `{Env} `{DependentsCodecLaws}.
Context (d : lifecycleManager).

(** Some accepted write recorded every object. *)
Definition registered (objects : list object) (t : list event) : Prop :=
  ∃ cm, EWrite (RApply (OConfigMap cm) false) None ∈ t ∧
        ∀ o, o ∈ objects → recorded (default ∅ (cm_Data cm)) (asUnstructured o).

Lemma updated_registers objects cm :
  Forall (fun o => gvk_Kind (object_gvk o) ≠ "") objects →
  ∃ cm', clear_managed_fields (updatedObject d objects cm) = OConfigMap cm' ∧
    ∀ o, o ∈ objects → recorded (default ∅ (cm_Data cm')) (asUnstructured o).
Proof.
  intros Hk. eexists. split; [done|]. intros o Ho. simpl.
  exists (getCurrentGenKey d), (marshalUnstructureds (asUnstructureds objects)).
  split; [apply updatedData_current|].
  rewrite unmarshal_marshal by (by apply asUnstructureds_kinds). simpl.
  by apply list_elem_of_fmap_2.
Qed.

Lemma update_retried objects n r t :
  Forall (fun o => gvk_Kind (object_gvk o) ≠ "") objects →
  retried (update_attempt d objects) n r t →
  match r with
  | Some e => IsConflict (Some e) = false ∧ ∃ obj, EWrite (RApply obj false) (Some e) ∈ t
  | None => registered objects t ∨ length (List.filter conflict_write t) = n
  end.
Proof.
  intros Hk. induction 1 as [|n r t HI|n e t ts r t' HI Hts Hr IH].
  - by right.
  - destruct HI as (rd & -> & _ & He). cbn [fst snd] in *. destruct r as [e|].
    + split; [by apply He|]. eexists. right. by left.
    + left. destruct (updated_registers objects
        (match rd with inl cm => initializeLifecycleCm d cm None
                     | inr e => initializeLifecycleCm d zero_ConfigMap (Some e) end) Hk)
        as (cm' & E & Hcm'). exists cm'. rewrite E. split; [right; by left|done].
  - destruct r as [e'|].
    + destruct IH as [? (obj & ?)]. split; [done|]. exists obj. set_solver.
    + destruct IH as [(cm & ? & ?)|<-]; [left; exists cm; set_solver|right].
      destruct HI as (rd & -> & Hc & _). simpl in *. rewrite Hc by done. simpl. f_equal.
      induction Hts as [|ev ts [dd ->] _ IHs]; [done|]. exact IHs.
Qed.
End UpdateOutcome.

(** Registration always returns.  When it reports nil, either an accepted
    write of the config map lists every object given, or all five attempts met
    a conflict; when it reports an error, that is the answer to the last write
    and never a conflict. Nothing but the config map is written. *)
Theorem UpdateDependentLifecycleInfo_registers {W X} `{ClockLaws W} `{ApiErrors} `{Env}
    `{DependentsCodecLaws} d objects (s : St W X) :
  Forall (fun o => gvk_Kind (object_gvk o) ≠ "") objects →
  ∃ r s' t, UpdateDependentLifecycleInfo d objects s = (Ret r, s') ∧
    trace s' = trace s ++ t ∧ Forall update_event t ∧
    match r with
    | Some e => IsConflict (Some e) = false ∧ ∃ obj, EWrite (RApply obj false) (Some e) ∈ t
    | None => registered objects t ∨ length (List.filter conflict_write t) = 5%nat
    end.
Proof.
  intros Hk. destruct (UpdateDependentLifecycleInfo_runs d objects s) as (r & s' & E & _).
  destruct (emits_run _ _ _ _ _ (UpdateDependentLifecycleInfo_emits d objects) E)
    as (t & Ht & Hr & Hev).
  exists r, s', t. split; [done|]. split; [done|]. split; [done|]. by eapply update_retried.
Qed.

Definition manager2 : lifecycleManager :=
  {| d_Name := "agent"; d_Namespace := "ns"; d_Generation := 2;
     d_transformations :=
       {| t_OwnerReference := {| or_APIVersion := "instana.io/v1"; or_Kind := "InstanaAgent";
            or_Name := "agent"; or_UID := "1"; or_Controller := Some true;
            or_BlockOwnerDeletion := Some true |};
          t_generation := "2" |} |}.
(** Generation 1 made two objects. *)
Definition cm_generation1 : ConfigMap :=
  {| cm_Meta := NewObjectMeta "agent-dependents" "ns"; cm_Kind := "ConfigMap";
     cm_Data := Some {[ "v2.0.0_1" := marshalUnstructureds (asUnstructureds two_objects) ]} |}.
Definition generation1_cluster : cluster :=
  two_objects_cluster <| c_cm := Some cm_generation1 |>.

Lemma UpdateDependentLifecycleInfo_registers_witness :
  Forall (fun o => gvk_Kind (object_gvk o) ≠ "") two_objects ∧
  ∃ r s' t, UpdateDependentLifecycleInfo manager2 two_objects
      (start (generation1_cluster <| c_script := [Some Conflict] |>) tt) = (Ret r, s') ∧
    trace s' = [] ++ t ∧ Forall update_event t ∧
    match r with
    | Some e => IsConflict (Some e) = false ∧ ∃ obj, EWrite (RApply obj false) (Some e) ∈ t
    | None => registered two_objects t ∨ length (List.filter conflict_write t) = 5%nat
    end.
Proof.
  assert (Forall (fun o => gvk_Kind (object_gvk o) ≠ "") two_objects) as Hk
    by (repeat constructor; discriminate).
  split; [exact Hk|].
  exact (UpdateDependentLifecycleInfo_registers manager2 two_objects
           (start (generation1_cluster <| c_script := [Some Conflict] |>) tt) Hk).
Defined.

(** C24: what [UpdateDependentLifecycleInfo] writes lists the current objects
    and forgets no recorded object, with one exception: objects listed only
    under the dirty key are forgotten when the current generation was already
    recorded. *)
Theorem updatedData_tracks `{ApiErrors} `{Env} `{DependentsCodecLaws} d current data :
  Forall (fun u => gvk_Kind (un_GVK u) ≠ "") current →
  (∀ u, u ∈ current → recorded (updatedData d current data) u) ∧
  (∀ u, recorded data u →
     recorded (updatedData d current data) u ∨
     (is_Some (data !! getCurrentGenKey d) ∧
      ∃ j, data !! (getCurrentGenKey d +++ "-dirty") = Some j ∧
           u ∈ fst (unmarshalUnstructureds j))).
Proof.
  intros Hk. split.
  - intros u Hu. exists (getCurrentGenKey d), (marshalUnstructureds current).
    split; [apply updatedData_current|]. by rewrite unmarshal_marshal.
  - intros u (k & j & Hkj & Hu).
    destruct (decide (k = getCurrentGenKey d)) as [->|Hc];
      [|destruct (decide (k = getCurrentGenKey d +++ "-dirty")) as [->|Hd]].
    + left. exists (getCurrentGenKey d +++ "-dirty"), j. by rewrite updatedData_dirty, Hkj.
    + destruct (data !! getCurrentGenKey d) as [v|] eqn:E; [right; eauto|left].
      exists (getCurrentGenKey d +++ "-dirty"), j. by rewrite updatedData_dirty, E.
    + left. exists k, j. by rewrite updatedData_other.
Qed.

Lemma updatedData_tracks_witness :
  let current := asUnstructureds two_objects in
  let data := default ∅ (cm_Data cm_generation1) in
  Forall (fun u => gvk_Kind (un_GVK u) ≠ "") current ∧
  (∀ u, u ∈ current → recorded (updatedData manager2 current data) u) ∧
  (∀ u, recorded data u →
     recorded (updatedData manager2 current data) u ∨
     (is_Some (data !! getCurrentGenKey manager2) ∧
      ∃ j, data !! (getCurrentGenKey manager2 +++ "-dirty") = Some j ∧
           u ∈ fst (unmarshalUnstructureds j))).
Proof.
  intros current data.
  assert (Forall (fun u => gvk_Kind (un_GVK u) ≠ "") current) as Hk
    by (repeat constructor; discriminate).
  split; [exact Hk|]. exact (updatedData_tracks manager2 current data Hk).
Defined.

(** Two failed clean-ups of the same generation lose the first one's objects. *)
Example dirty_overwritten :
  let svc := Build_Unstructured (GVK "" "v1" "Service") "a" "ns" in
  let data1 := updatedData manager2 [] {[ getCurrentGenKey manager2 := marshalUnstructureds [svc] ]} in
  let data2 := updatedData manager2 [] data1 in
  bool_decide (svc ∈ (map_to_list data1).*2 ≫= (fun j => fst (unmarshalUnstructureds j))) = true ∧
  bool_decide (svc ∈ (map_to_list data2).*2 ≫= (fun j => fst (unmarshalUnstructureds j))) = false.
Proof. vm_compute. done. Qed.

(** C10: a clean-up always returns, and deletes only objects that a config map
    it read lists and that are not among the current ones; the only other
    writes are those of the config map. *)
Theorem CleanupDependents_safe {W X} `{ClockLaws W} `{ApiErrors} `{Env}
    `{DependentsCodec} `{MapRangeLaws} d objects (s : St W X) :
  ∃ r s' t, CleanupDependents d objects s = (Ret r, s') ∧ trace s' = trace s ++ t ∧
    cleanup_ok d (asUnstructureds objects) t.
Proof.
  destruct (CleanupDependents_runs d objects s) as (r & s' & E & _).
  destruct (emits_run _ _ _ _ _ (CleanupDependents_emits d objects) E) as (t & Ht & _ & Hok).
  eauto 10.
Qed.

Lemma CleanupDependents_safe_witness :
  ∃ r s' t, CleanupDependents manager2 [] (start generation1_cluster tt) = (Ret r, s') ∧
    trace s' = [] ++ t ∧ cleanup_ok manager2 [] t.
Proof. exact (CleanupDependents_safe manager2 [] (start generation1_cluster tt)). Defined.

(** C11: when a clean-up reports nil, its last attempt found every recorded
    object current or gone from the cluster, and wrote the config map back
    with at most the entry of the current generation; or all five attempts
    ended in a conflict. *)
Theorem CleanupDependents_complete {W X} `{K8sApi W} `{ApiErrors} `{Env}
    `{DependentsCodec} `{MapRangeLaws} d objects (s s' : St W X) :
  CleanupDependents d objects s = (Ret None, s') →
  (∃ cm data' t, t `suffix_of` trace s' ∧
     (∃ r, EGet KConfigMap (Key (d_Namespace d) (getConfigMapName d)) r ∈ t ∧
           cm = match r with inl cm => cm | inr _ => zero_ConfigMap end) ∧
     (∀ u, recorded (default ∅ (cm_Data cm)) u → u ∈ asUnstructureds objects ∨ gone t u) ∧
     (∀ k, is_Some (data' !! k) → k = getCurrentGenKey d) ∧
     EWrite (RApply (clear_managed_fields (OConfigMap (cleanedCm cm data'))) false) None ∈ t) ∨
  (∃ t, trace s' = trace s ++ t ∧
        exhausted (fun a u => cleanup_attempt d objects a u ∧ isConflictError (snd a) = true) 5 t).
Proof.
  intros E.
  destruct (emits_run _ _ _ _ _ (CleanupDependents_emits d objects) E) as (t & Ht & Hr & _).
  destruct (retried_cases _ _ _ _ Hr) as [(t1 & t2 & -> & (cm & data' & w & t' & Hc) & _)
                                         |[_ Hex]].
  - left. destruct (cu_success _ _ _ _ _ _ _ _ Hc eq_refl) as (-> & Hk & Hg).
    destruct (cu_read _ _ _ _ _ _ _ _ Hc) as (r & looks & Hin & Hcm & _).
    exists cm, data', t2. rewrite Ht, (cu_trace _ _ _ _ _ _ _ _ Hc).
    split; [exists (trace s ++ t1); by rewrite <- app_assoc|].
    split; [exists r; split; [rewrite Hin; by left|done]|].
    split; [|split; [done|set_solver]].
    intros u Hu. destruct (Hg u Hu); [by left|]. right. apply gone_app. by left.
  - right. exists t. split; [done|]. by apply exhausted_conflicts.
Qed.

Lemma CleanupDependents_complete_witness :
  ∃ s', CleanupDependents manager2 [] (start generation1_cluster tt) = (Ret None, s') ∧
  ((∃ cm data' t, t `suffix_of` trace s' ∧
     (∃ r, EGet KConfigMap (Key (d_Namespace manager2) (getConfigMapName manager2)) r ∈ t ∧
           cm = match r with inl cm => cm | inr _ => zero_ConfigMap end) ∧
     (∀ u, recorded (default ∅ (cm_Data cm)) u → u ∈ asUnstructureds [] ∨ gone t u) ∧
     (∀ k, is_Some (data' !! k) → k = getCurrentGenKey manager2) ∧
     EWrite (RApply (clear_managed_fields (OConfigMap (cleanedCm cm data'))) false) None ∈ t) ∨
  (∃ t, trace s' = [] ++ t ∧ exhausted (fun a u => cleanup_attempt manager2 [] a u ∧
                                           isConflictError (snd a) = true) 5 t)).
Proof.
  eexists. split; [vm_compute; reflexivity|].
  eapply (CleanupDependents_complete manager2 [] (start generation1_cluster tt)).
  vm_compute; reflexivity.
Defined.

(** A retry whose every attempt asks for another one reports nil: the
    error of the last attempt is lost, since the loop body declares an [err]
    of its own. *)
Theorem retry_swallows {W X} `{K8sApi W} attempts sleep
    (fn : M W X (bool * option error)) (s : St W X) :
  (∀ s, ∃ e s', fn s = (Ret (false, Some e), s')) →
  ∃ s', retry attempts sleep fn s = (Ret None, s').
Proof.
  intros Hfn. unfold retry. generalize 0%Z at 1. revert s.
  induction (Z.to_nat attempts) as [|n IH]; intros s i; simpl; [by exists s|].
  destruct (Hfn s) as (e & s' & E). rewrite (bind_Ret _ _ _ _ _ E). simpl.
  destruct (i <? attempts - 1)%Z; (erewrite bind_Ret; [|done]); apply IH.
Qed.

Lemma retry_swallows_witness :
  ∃ s', retry (W:=cluster) (X:=unit) 5 (100 * millisecond)
          (e ← doWrite (RDelete (OUnstructured (Build_Unstructured (GVK "" "v1" "Pod") "p" "ns")));
           mret (false, Some Conflict)) (start empty_cluster tt) = (Ret None, s').
Proof.
  apply (retry_swallows (W:=cluster)). intros s.
  unfold mbind, M_bind, doWrite, call. destruct (k8sWrite _ _). eexists _, _. reflexivity.
Defined.
