(* ===== verification/RemoteLifecycle.v ===== *)
(** * The life cycle manager of the remote agent

    remote_dependent_lifecycle_manager.go of pkg/k8s/operator/lifecycle, one
    definition per method.  It is a copy of the agent's manager without its
    retries: each operation is one attempt of Lifecycle.v. *)
From S2P Require Import Prelude GoStd Errors K8sTypes ApiTypes Effects Cluster Client.
From S2P Require Import Transformations Lifecycle.

Record remoteDependentLifecycleManager := {
  rlm_agent : InstanaAgentRemote; rlm_transformations : transformations }.
Definition NewRemoteDependentLifecycleManager (agent : InstanaAgentRemote) :
    remoteDependentLifecycleManager :=
  {| rlm_agent := agent; rlm_transformations := NewTransformationsRemote agent |}.

Section RemoteLifecycle.
Context {W X : Type} `{K8sApi W} `{ApiErrors} `{Env} `{DependentsCodec} `{MapRange}.
Context (d : remoteDependentLifecycleManager).
Let agent := rlm_agent d.

Definition remote_getConfigMapName : string := om_Name (remote_Meta agent) +++ "-dependents".
Definition remote_getCurrentGenKey : string :=
  GetVersion +++ "_" +++ itoa (om_Generation (remote_Meta agent)).

Definition remote_getLifecycleConfigMap : M W X (ConfigMap * option error) :=
  r ← doGet KConfigMap (Key (om_Namespace (remote_Meta agent)) remote_getConfigMapName);
  mret match r with
       | inl cm => (cm, None)
       | inr e => (zero_ConfigMap, Some e)
       end.
(** A config map that cannot be read is new, or empty when the error is
    another one than not found. *)
Definition remote_initializedCm (lifecycleConfigMap : ConfigMap) (err : option error) : ConfigMap :=
  let cm :=
    match err with
    | Some _ =>
        if IsNotFound err then
          {| cm_Meta := NewObjectMeta remote_getConfigMapName (om_Namespace (remote_Meta agent));
             cm_Kind := "ConfigMap"; cm_Data := None |}
        else zero_ConfigMap
    | None => lifecycleConfigMap
    end in
  {| cm_Meta := cm_Meta cm; cm_Kind := cm_Kind cm; cm_Data := Some (default ∅ (cm_Data cm)) |}.
Definition remote_getOrInitializeLifecycleCm : M W X (ConfigMap * option error) :=
  r ← remote_getLifecycleConfigMap;
  let '(lifecycleConfigMap, err) := r in
  mret (remote_initializedCm lifecycleConfigMap err, err).

Definition remote_unmarshalToUnstructured (jsonString : string) : list Unstructured * option error :=
  unmarshalUnstructureds jsonString.
Definition remote_deleteAll (toBeDeleted : list Unstructured) :
    M W X (list object * option error) :=
  r ← DeleteAllInTimeLimit (GoList.MapTo toBeDeleted asObject) (30 * second) (5 * second);
  mret (Result.res r, Result.err r).

(** The object [UpdateDependentLifecycleInfo] applies. *)
Definition remote_registration (currentGenerationDependents : list object) (lifecycleCm : ConfigMap) :
    object :=
  let data := default ∅ (cm_Data lifecycleCm) in
  let currentGenKey := remote_getCurrentGenKey in
  let data := match data !! currentGenKey with
              | Some existingVersion => <[currentGenKey +++ "-dirty" := existingVersion]> data
              | None => data
              end in
  let data := <[currentGenKey := marshalUnstructureds (asUnstructureds currentGenerationDependents)]> data in
  let cm := OConfigMap {| cm_Meta := cm_Meta lifecycleCm; cm_Kind := cm_Kind lifecycleCm;
                          cm_Data := Some data |} in
  AddOwnerReference (rlm_transformations d)
    (AddCommonLabels (rlm_transformations d) ComponentInstanaAgent cm).
Definition RemoteUpdateDependentLifecycleInfo (currentGenerationDependents : list object) :
    M W X (option error) :=
  r ← remote_getOrInitializeLifecycleCm;
  res ← Apply (remote_registration currentGenerationDependents (fst r)) false;
  mret (Result.err res).

(** One iteration over an entry of the config map. *)
Definition remote_cleanupEntry (currentGeneration : list Unstructured)
    (acc : smap * MultiErrorBuilder.t) (entry : string * string) :
    M W X (smap * MultiErrorBuilder.t) :=
  let '(data, errBuilder) := acc in
  let '(key, jsonString) := entry in
  let olderGeneration := fst (remote_unmarshalToUnstructured jsonString) in
  r ← remote_deleteAll (GoList.Diff olderGeneration currentGeneration);
  match snd r with
  | Some e => mret (data, MultiErrorBuilder.AddSingle (Some e) errBuilder)
  | None =>
      mret (if negb (String.eqb key remote_getCurrentGenKey) then delete key data else data, errBuilder)
  end.
Definition RemoteCleanupDependents (currentDependents : list object) : M W X (option error) :=
  r ← remote_getLifecycleConfigMap;
  let lifecycleConfigMap := fst r in
  let data := default ∅ (cm_Data lifecycleConfigMap) in
  acc ← foldM (remote_cleanupEntry (asUnstructureds currentDependents))
              (data, MultiErrorBuilder.New []) (range data);
  result ← Apply (OConfigMap {| cm_Meta := cm_Meta lifecycleConfigMap;
                                cm_Kind := cm_Kind lifecycleConfigMap;
                                cm_Data := match cm_Data lifecycleConfigMap with
                                           | None => None
                                           | Some _ => Some (fst acc)
                                           end |}) false;
  mret (MultiErrorBuilder.Build (Result.OnFailure result MultiErrorBuilder.AddSingle (snd acc))).

(** The agent's manager of the same resource. *)
Definition commonManager : lifecycleManager :=
  {| d_Name := om_Name (remote_Meta agent); d_Namespace := om_Namespace (remote_Meta agent);
     d_Generation := om_Generation (remote_Meta agent); d_transformations := rlm_transformations d |}.
End RemoteLifecycle.

(** ** Each operation is an attempt of the agent's manager *)
Section Attempts.
Context {W X : Type} `{K8sApi W} `{ApiErrors} `{Env} `{DependentsCodec} `{MapRange}.

(** Computations that do the same from every state. *)
Definition same {A} (m m' : M W X A) : Prop := ∀ s, m s = m' s.
#[export] Instance same_equivalence {A} : Equivalence (@same A).
Proof. split; [by intros m s|by intros m m' E s|intros m1 m2 m3 E E' s; by rewrite E, E']. Qed.
Lemma same_bind {A B} (m m' : M W X A) (k k' : A → M W X B) :
  same m m' → (∀ a, same (k a) (k' a)) → same (m ≫= k) (m' ≫= k').
Proof.
  intros Hm Hk s. unfold mbind, M_bind. rewrite Hm. destruct (m' s) as [[a|p|] s']; [apply Hk|done..].
Qed.
Lemma same_bind_ret {A B C} (m : M W X A) (f : A → B) (k : B → M W X C) :
  same (b ← (a ← m; mret (f a)); k b) (a ← m; k (f a)).
Proof. intros s. unfold mbind, M_bind. by destruct (m s) as [[a|p|] s']. Qed.
Lemma same_bind_bind {A B C} (m : M W X A) (f : A → M W X B) (k : B → M W X C) :
  same (b ← (a ← m; f a); k b) (a ← m; b ← f a; k b).
Proof. intros s. unfold mbind, M_bind. by destruct (m s) as [[a|p|] s']. Qed.
Lemma same_foldM {A B} (f f' : B → A → M W X B) b l :
  (∀ b x, same (f b x) (f' b x)) → same (foldM f b l) (foldM f' b l).
Proof.
  intros Hf. revert b. induction l as [|x l IH]; intros b; [by intros s|]. simpl. by apply same_bind.
Qed.
Lemma same_retry attempts sleep (fn fn' : M W X (bool * option error)) :
  same fn fn' → same (retry attempts sleep fn) (retry attempts sleep fn').
Proof.
  intros Hfn. unfold retry. generalize 0%Z. induction (Z.to_nat attempts) as [|n IH]; intros i.
  - by intros s.
  - simpl. apply same_bind; [done|]. intros [[] e]; [by intros s|]. simpl. by apply same_bind.
Qed.

Context (d : remoteDependentLifecycleManager).
Let c := commonManager d.

Lemma remote_getOrInitialize_same :
  same (remote_getOrInitializeLifecycleCm d) (getOrInitializeLifecycleCm c).
Proof. apply same_bind; [reflexivity|]. by intros [cm err] s. Qed.
Lemma RemoteUpdate_same objects :
  same (RemoteUpdateDependentLifecycleInfo d objects)
    (r ← getOrInitializeLifecycleCm c;
     res ← Apply (updatedObject c objects (fst r)) false;
     mret (Result.err res)).
Proof. apply same_bind; [apply remote_getOrInitialize_same|]. by intros [cm err] s. Qed.
Lemma remote_cleanupEntry_same current acc entry :
  same (remote_cleanupEntry d current acc entry) (cleanupEntry c current acc entry).
Proof.
  destruct acc as [data b], entry as [key json]. unfold remote_cleanupEntry, cleanupEntry, remote_deleteAll.
  etrans; [apply same_bind_ret|]. apply same_bind; [reflexivity|]. intros r s. simpl.
  change (remote_getCurrentGenKey d) with (getCurrentGenKey c).
  by destruct (Result.err r), (String.eqb key (getCurrentGenKey c)).
Qed.
Lemma RemoteCleanup_same objects :
  same (RemoteCleanupDependents d objects) (cleanupOnce c objects).
Proof.
  apply same_bind; [reflexivity|]. intros r. apply same_bind; [|by intros acc s].
  apply same_foldM. apply remote_cleanupEntry_same.
Qed.
End Attempts.

(** What holds of the runs of one holds of those of the other. *)
Section Same.
Context {W X : Type} `{K8sApi W}.
Lemma emits_same {A} (m m' : M W X A) R : same m m' → emits m' R → emits m R.
Proof. intros Hm HR s. rewrite Hm. apply HR. Qed.
Lemma runs_same {A} (m m' : M W X A) : same m m' → runs m' → runs m.
Proof. intros Hm Hr s. rewrite Hm. apply Hr. Qed.
End Same.

(** ** Properties *)

(** C22: the remote manager is the agent's without its retries: for the same
    name, namespace, generation and owner, a registration of the agent's
    manager is the remote manager's, retried up to five times after conflicts,
    and so is a clean-up. *)
Theorem remote_manager_equivalent {W X} `{K8sApi W} `{ApiErrors} `{Env} `{DependentsCodec} `{MapRange}
    (d : remoteDependentLifecycleManager) objects (s : St W X) :
  UpdateDependentLifecycleInfo (commonManager d) objects s =
    retry 5 (100 * millisecond)
      (err ← RemoteUpdateDependentLifecycleInfo d objects;
       mret (match err with None => true | Some _ => negb (IsConflict err) end, err)) s ∧
  CleanupDependents (commonManager d) objects s =
    retry 5 (100 * millisecond)
      (err ← RemoteCleanupDependents d objects;
       mret (match err with None => true | Some _ => negb (isConflictError err) end, err)) s.
Proof.
  split; apply same_retry; intros s'; symmetry.
  - etrans; [apply same_bind; [apply RemoteUpdate_same|intros err s2; reflexivity]|].
    etrans; [apply same_bind_bind|]. apply same_bind; [reflexivity|]. intros res.
    etrans; [apply same_bind_ret|]. apply same_bind; [reflexivity|]. intros x s2.
    by destruct (Result.err x).
  - etrans; [apply same_bind; [apply RemoteCleanup_same|intros err s2; reflexivity]|].
    apply same_bind; [reflexivity|]. by intros [e|] s2.
Qed.

Definition remote_manager2 : remoteDependentLifecycleManager :=
  NewRemoteDependentLifecycleManager
    (example_remote <| remote_Meta := (NewObjectMeta "agent" "ns") <| om_Generation := 2%Z |> |>).

(** C21: no attempt to clean up loses track of an object: whatever fails, every
    object listed in the config map that was read is current, seen gone, or
    still listed in the config map that is written, and the entries kept are
    unchanged.  (The remote manager makes one attempt; the agent's manager
    makes this attempt up to five times.) *)
Theorem RemoteCleanupDependents_keeps_track {W X} `{ClockLaws W} `{ApiErrors} `{Env}
    `{DependentsCodec} `{MapRangeLaws} d objects (s : St W X) :
  ∃ err s' t, RemoteCleanupDependents d objects s = (Ret err, s') ∧ trace s' = trace s ++ t ∧
    ∃ cm data' w t', cleaned_up (commonManager d) (asUnstructureds objects) err t cm data' w t'.
Proof.
  destruct (cleanupOnce_runs (commonManager d) objects s) as (r & s' & E & _).
  destruct (emits_run _ _ _ _ _ (cleanupOnce_emits (commonManager d) objects) E) as (t & Ht & Hc & _).
  rewrite <- (RemoteCleanup_same d objects) in E.
  exists r, s', t. auto.
Qed.

Lemma RemoteCleanupDependents_keeps_track_witness :
  ∃ err s' t, RemoteCleanupDependents remote_manager2 []
      (start (generation1_cluster <| c_script := [None; Some Refused] |>) tt) = (Ret err, s') ∧
    trace s' = [] ++ t ∧
    ∃ cm data' w t', cleaned_up (commonManager remote_manager2) (asUnstructureds []) err t cm data' w t'.
Proof.
  exact (RemoteCleanupDependents_keeps_track remote_manager2 []
    (start (generation1_cluster <| c_script := [None; Some Refused] |>) tt)).
Defined.
