(* ===== verification/OperatorUtils.v ===== *)
(** * Applying a generation of objects: pkg/k8s/operator/operator_utils

    [ApplyAll] builds the objects of the custom resource, applies them in dry
    run mode, builds them again, records them with the dependent life cycle
    manager, applies them, and has the objects of older generations deleted.
    The life cycle manager is used through an interface, [LifecycleContract],
    which the managers of InstanaAgent and InstanaAgentRemote implement. *)
From S2P Require Import Prelude GoStd Errors K8sTypes ApiTypes Effects Cluster Client.
From S2P Require Import Transformations Lifecycle RemoteLifecycle.

(** ** The interface of the life cycle manager *)
Record DependentLifecycleManager (W X : Type) := {
  dlm_Update : list object → M W X (option error);
  dlm_Cleanup : list object → M W X (option error) }.
Arguments dlm_Update {W X} _ _.
Arguments dlm_Cleanup {W X} _ _.

(** A clean-up after [objects] deletes none of them, and writes nothing else
    than the record of the dependents. *)
Definition keeps (objects : list object) (t : list event) : Prop :=
  ∀ ev, ev ∈ t →
    match ev with
    | EWrite (RDelete obj) _ => asUnstructured obj ∉ asUnstructureds objects
    | EWrite (RApply (OConfigMap _) false) _ | EGet _ _ _ | ESleep _ => True
    | _ => False
    end.

(** What the record lists, as the server answered. *)
Definition answered (answer : ConfigMap + error) : smap :=
  match answer with inl cm => default ∅ (cm_Data cm) | inr _ => ∅ end.

(** The phases of the life cycle manager, whose record is the config map of
    this key.  Both end with an attempt that reads and then writes the record.
    Its outcome is the one that is reported, unless it is the fifth attempt
    that has to be repeated, after which nil is reported. *)
Section Phases.
Context {W : Type} `{K8sApi W} `{ApiErrors} `{DependentsCodec} (key : ObjectKey).

(** Registration of [objects] reports [err]: the record that is written lists
    them, under an entry of its own, and [err] is the server's answer. *)
Record registering (objects : list object) (err : option error) (t : list event) : Prop := {
  rg_events : Forall update_event t;
  rg_last : ∃ before answer cm w after, t = before ++
      [EGet KConfigMap key answer; EWrite (RApply (OConfigMap cm) false) w] ++ after ∧
    Forall is_sleep after ∧
    (∃ entry, default ∅ (cm_Data cm) !! entry = Some (marshalUnstructureds (asUnstructureds objects))) ∧
    (err = w ∨ err = None ∧ IsConflict w = true ∧ attempts_in t = 5)
}.

(** A clean-up after [objects] reports [err]: between reading and writing the
    record it deletes recorded objects that are not among [objects], and loses
    track of none; the errors it reports are those of the deletions and of the
    write, and without any of them every recorded object that is not among
    [objects] was seen to be gone. *)
Record cleaning (objects : list object) (err : option error) (t : list event) : Prop := {
  cl_keeps : keeps objects t;
  cl_last : ∃ before answer looks cm w after last errs, t = before ++
      (EGet KConfigMap key answer :: looks) ++ [EWrite (RApply (OConfigMap cm) false) w] ++ after ∧
    Forall is_sleep after ∧
    (∀ u, recorded (answered answer) u →
       u ∈ asUnstructureds objects ∨ gone looks u ∨ recorded (default ∅ (cm_Data cm)) u) ∧
    last = MultiErrorBuilder.Build (errs ++ [w]) ∧
    Forall (fun e => ∃ x, e = Some x ∧ deletion_failed x looks) errs ∧
    (last = None → ∀ u, recorded (answered answer) u → u ∈ asUnstructureds objects ∨ gone looks u) ∧
    (err = last ∨ err = None ∧ attempts_in t = 5)
}.
End Phases.

Class LifecycleContract {W X} `{K8sApi W} `{ApiErrors} `{DependentsCodec}
    (mgr : DependentLifecycleManager W X) := {
  kept_record : ObjectKey;
  update_contract objects :
    emits (dlm_Update mgr objects) (post (registering kept_record objects)
                                         (fun p t => p = None ∧ Forall update_event t));
  cleanup_contract objects :
    emits (dlm_Cleanup mgr objects) (post (cleaning kept_record objects)
                                          (fun p t => p = None ∧ keeps objects t));
  update_runs objects : runs (dlm_Update mgr objects);
  cleanup_runs objects : runs (dlm_Cleanup mgr objects)
}.

Section Managers.
Context {W X : Type} `{K8sApi W} `{ApiErrors} `{Env} `{DependentsCodec} `{MapRange}.

Definition agentManager (d : lifecycleManager) : DependentLifecycleManager W X :=
  {| dlm_Update := UpdateDependentLifecycleInfo d; dlm_Cleanup := CleanupDependents d |}.
Definition remoteManager (d : remoteDependentLifecycleManager) : DependentLifecycleManager W X :=
  {| dlm_Update := RemoteUpdateDependentLifecycleInfo d;
     dlm_Cleanup := RemoteCleanupDependents d |}.
End Managers.

(** ** operator_utils.go *)
Section OperatorUtils.
Context {W X : Type} `{K8sApi W} `{ApiErrors} `{Env}.

Record operatorUtils := {
  ou_transformations : transformations;
  ou_manager : DependentLifecycleManager W X }.

Context (o : operatorUtils).

Definition buildObjects (builders : list (ObjectBuilder W X)) : M W X (list object) :=
  optionals ← foldM (fun acc b =>
    opt ← BuilderTransformer_Apply (ou_transformations o) b;
    mret (acc ++ [opt])) [] builders;
  mret (omap id optionals).

Definition applyAll (objects : list object) (dryRun : bool) : M W X (option error) :=
  errBuilder ← foldM (fun b obj =>
    res ← Apply obj dryRun;
    mret (Result.OnFailure res MultiErrorBuilder.AddSingle b)) (MultiErrorBuilder.New []) objects;
  mret (MultiErrorBuilder.Build errBuilder).

Definition ApplyAll (builders : list (ObjectBuilder W X)) : M W X (option error) :=
  dryRunObjects ← buildObjects builders;
  err ← applyAll dryRunObjects true;
  match err with
  | Some _ => mret err
  | None =>
      objects ← buildObjects builders;
      err ← dlm_Update (ou_manager o) objects;
      match err with
      | Some _ => mret err
      | None =>
          err ← applyAll objects false;
          match err with
          | Some _ => mret err
          | None => dlm_Cleanup (ou_manager o) objects
          end
      end
  end.

Definition DeleteAll : M W X (option error) := dlm_Cleanup (ou_manager o) [].

Definition CustomResourceDefinition : GroupVersionKind :=
  GVK "apiextensions.k8s.io" "v1" "CustomResourceDefinition".
Definition ClusterIsOpenShift (agent : InstanaAgent) : M W X (bool * option error) :=
  match spec_OpenShift (agent_Spec agent) with
  | None =>
      r ← Exists CustomResourceDefinition (Key "" "clusteroperators.config.openshift.io");
      mret (Result.res r, Result.err r)
  | Some b => mret (b, None)
  end.
End OperatorUtils.
Arguments operatorUtils W X : clear implicits.

(** ** remote_operator_utils.go

    The same fields with the transformations and the manager of a remote
    agent, and methods written out a second time. *)
Section RemoteOperatorUtils.
Context {W X : Type} `{K8sApi W} `{ApiErrors} `{Env} (o : operatorUtils W X).

Definition remote_buildObjects (builders : list (ObjectBuilder W X)) : M W X (list object) :=
  optionals ← foldM (fun acc b =>
    opt ← BuilderTransformer_Apply (ou_transformations o) b;
    mret (acc ++ [opt])) [] builders;
  mret (omap id optionals).
Definition remote_applyAll (objects : list object) (dryRun : bool) : M W X (option error) :=
  errBuilder ← foldM (fun b obj =>
    res ← Apply obj dryRun;
    mret (Result.OnFailure res MultiErrorBuilder.AddSingle b)) (MultiErrorBuilder.New []) objects;
  mret (MultiErrorBuilder.Build errBuilder).
Definition remote_ApplyAll (builders : list (ObjectBuilder W X)) : M W X (option error) :=
  dryRunObjects ← remote_buildObjects builders;
  err ← remote_applyAll dryRunObjects true;
  match err with
  | Some _ => mret err
  | None =>
      objects ← remote_buildObjects builders;
      err ← dlm_Update (ou_manager o) objects;
      match err with
      | Some _ => mret err
      | None =>
          err ← remote_applyAll objects false;
          match err with
          | Some _ => mret err
          | None => dlm_Cleanup (ou_manager o) objects
          end
      end
  end.
Definition remote_DeleteAll : M W X (option error) := dlm_Cleanup (ou_manager o) [].

(** What is proved of the agent's methods holds of the remote agent's. *)
Lemma remote_ApplyAll_eq builders : remote_ApplyAll builders = ApplyAll o builders.
Proof. reflexivity. Qed.
Lemma remote_DeleteAll_eq : remote_DeleteAll = DeleteAll o.
Proof. reflexivity. Qed.
End RemoteOperatorUtils.

Section Constructors.
Context {W X : Type} `{K8sApi W} `{ApiErrors} `{Env} `{DependentsCodec} `{MapRange}.

Definition NewOperatorUtils (agent : InstanaAgent) : operatorUtils W X :=
  {| ou_transformations := NewTransformations agent;
     ou_manager := agentManager (NewDependentLifecycleManager agent) |}.
Definition NewRemoteOperatorUtils (agent : InstanaAgentRemote) : operatorUtils W X :=
  {| ou_transformations := NewTransformationsRemote agent;
     ou_manager := remoteManager (NewRemoteDependentLifecycleManager agent) |}.
End Constructors.

(** ** Both managers implement the interface *)
Section Contracts.
Context {W X : Type} `{ClockLaws W} `{ApiErrors} `{Env} `{DependentsCodec} `{MapRangeLaws}.

Lemma cleanup_ok_keeps d objects t :
  cleanup_ok d (asUnstructureds objects) t → keeps objects t.
Proof.
  intros Ht ev Hev. specialize (Ht ev Hev). destruct ev as [| | |[]| | | | | |]; try done.
  destruct Ht as ([] & cm & -> & ? & _). done.
Qed.

(** One attempt to register, and one to clean up, as parts of a phase. *)
Lemma update_attempt_once d objects a t : update_attempt d objects a t → attempts_in t = 1.
Proof. by intros (r & -> & _). Qed.
Lemma updatedObject_lists d objects cm : ∃ cm', clear_managed_fields (updatedObject d objects cm) = OConfigMap cm' ∧
  ∃ entry, default ∅ (cm_Data cm') !! entry = Some (marshalUnstructureds (asUnstructureds objects)).
Proof. eexists. split; [done|]. exists (getCurrentGenKey d). apply updatedData_current. Qed.
Lemma registering_last d objects err t1 r cm w ts :
  let t := t1 ++ [EGet KConfigMap (record_key d) r;
                  EWrite (RApply (clear_managed_fields (updatedObject d objects cm)) false) w] ++ ts in
  Forall update_event t → Forall is_sleep ts →
  err = w ∨ err = None ∧ IsConflict w = true ∧ attempts_in t = 5 →
  registering (record_key d) objects err t.
Proof.
  destruct (updatedObject_lists d objects cm) as (cm' & -> & Hl). intros t Hev Hts Ha.
  split; [done|]. by exists t1, r, cm', w, ts.
Qed.
Lemma cleaned_up_once d current err t cm data' w t' :
  cleaned_up d current err t cm data' w t' → attempts_in t = 1.
Proof.
  intros [-> (r & looks & -> & _ & Hl) _ _ _ _]. rewrite attempts_app. cbn.
  fold (attempts_in looks). rewrite attempts_none; [done|].
  eapply Forall_impl; [exact Hl|]. by intros [| | |[[] []| | | | |]| | | | | |].
Qed.
Lemma cleaning_last d objects err t1 last u ts :
  keeps objects (t1 ++ u ++ ts) → Forall is_sleep ts →
  (∃ cm data' w t', cleaned_up d (asUnstructureds objects) last u cm data' w t') →
  err = last ∨ err = None ∧ attempts_in (t1 ++ u ++ ts) = 5 →
  cleaning (record_key d) objects err (t1 ++ u ++ ts).
Proof.
  intros Hk Hts (cm & data' & w & t' & [-> (r & looks & -> & Hcm & _) Hleak _ Hs (errs & He & Hf)]) Ha.
  assert (Hd : default ∅ (cm_Data cm) = answered r) by (subst cm; by destruct r).
  assert (Hlook : ∀ x, observed_gone x (EGet KConfigMap (record_key d) r :: looks) → observed_gone x looks).
  { intros x (e & [?|Hin]%elem_of_cons & ?); [done|by exists e]. }
  assert (Hw : ∃ cm', clear_managed_fields (OConfigMap (cleanedCm cm data')) = OConfigMap cm' ∧
    cm_Data cm' = cm_Data (cleanedCm cm data')) by (by eexists).
  destruct Hw as (cm' & Ew & Edata). rewrite Ew in *.
  split; [done|]. exists t1, r, looks, cm', w, ts, last, errs. rewrite <- Hd in *. split_and!.
  - by rewrite <- !app_assoc.
  - done.
  - intros x Hx. destruct (Hleak x Hx) as [?|[?|?]]; [by left|right; left; by apply Hlook|right; right].
    rewrite Edata. simpl. destruct (cm_Data cm); [done|]. by destruct Hx as (? & ? & ? & _).
  - done.
  - eapply Forall_impl; [exact Hf|]. intros e (x & -> & Hx). exists x. split; [done|].
    destruct Hx as [?|[?|(answers & ? & Hin)]]; [by left|by right; left|right; right].
    exists answers. split; [done|]. intros y (obj & [?|?]%elem_of_cons)%Hin; [done|by exists obj].
  - intros Hn x Hx. destruct (Hs Hn) as (_ & _ & Hg). destruct (Hg x Hx); [by left|right; by apply Hlook].
  - done.
Qed.

#[export] Instance agentManager_contract d : LifecycleContract (agentManager (W:=W) (X:=X) d).
Proof.
  refine {| kept_record := record_key d |}; intros objects.
  - eapply emits_mono; [apply UpdateDependentLifecycleInfo_emits|].
    intros [r|p|] t [Hr Hev]; simpl; auto.
    apply (retried_last _ _ _ _ (update_attempt_once d objects)) in Hr
      as (t1 & a & u & ts & -> & Hts & (rd & -> & Hc & _) & Hlast).
    apply registering_last; [done..|]. destruct Hlast as [->|(Hf & -> & ?)]; [by left|right].
    split_and!; [done|by apply Hc|done].
  - eapply emits_mono; [apply CleanupDependents_emits|].
    intros [r|p|] t [Hr Hk%cleanup_ok_keeps]; simpl; auto.
    apply retried_last in Hr as (t1 & a & u & ts & -> & ? & [Ha _] & Hlast).
    2: { intros a u [(cm & data' & w & t' & Ha) _]. by eapply cleaned_up_once. }
    eapply cleaning_last; [done..|]. destruct Hlast as [->|(_ & ? & ?)]; [by left|by right].
  - apply UpdateDependentLifecycleInfo_runs.
  - apply CleanupDependents_runs.
Defined.

#[export] Instance remoteManager_contract d : LifecycleContract (remoteManager (W:=W) (X:=X) d).
Proof.
  refine {| kept_record := record_key (commonManager d) |}; intros objects; simpl.
  - apply (emits_same _ _ _ (RemoteUpdate_same d objects)). unfold getOrInitializeLifecycleCm,
      getLifecycleConfigMap, Apply. repeat emits_step. set (c := commonManager d).
    apply (registering_last c objects a0 [] a _ a0 []); [by repeat constructor|done|by left].
  - apply (emits_same _ _ _ (RemoteCleanup_same d objects)).
    eapply emits_mono; [apply cleanupOnce_emits|].
    intros [r|p|] t [Hc Hk%cleanup_ok_keeps]; simpl; auto.
    rewrite <- (app_nil_r t) in *. apply (cleaning_last (commonManager d) objects r [] r t []);
      [by rewrite app_nil_l|done|by rewrite app_nil_r in Hc|by left].
  - apply (runs_same _ _ (RemoteUpdate_same d objects)). unfold getOrInitializeLifecycleCm,
      getLifecycleConfigMap, Apply. runs_auto.
  - apply (runs_same _ _ (RemoteCleanup_same d objects)), cleanupOnce_runs.
Defined.
End Contracts.

(** ** The abstract specification of [ApplyAll] *)
Section ApplyAllSpec.
Context {W X : Type} `{K8sApi W} `{ApiErrors} `{Env} `{DependentsCodec}.

(** The builder makes [v], whatever the cluster holds, and only touches the
    local state. *)
Definition Builds (b : ObjectBuilder W X) (v : option object) : Prop :=
  ∀ s, ∃ x, Build b s = (Ret v, MkSt (world s) (trace s) x).

(** One write per object, in order, each with the server's answer. *)
Definition applied (dryRun : bool) (objects : list object) (err : option error)
    (t : list event) : Prop :=
  ∃ answers, length answers = length objects ∧
    t = zip_with (fun obj e => EWrite (RApply (clear_managed_fields obj) dryRun) e)
          objects answers ∧
    err = MultiErrorBuilder.Build answers.

(** The phases of a run over [objects], whose record is kept under [key], with
    the events of each: a phase is entered only when the one before reported no
    error, and the run reports what the phase it stopped in reports. *)
Inductive apply_run (key : ObjectKey) (objects : list object) : option error → list event → Prop :=
  | dry_run_failed e t : applied true objects (Some e) t → apply_run key objects (Some e) t
  | update_failed e t u :
      applied true objects None t → registering key objects (Some e) u →
      apply_run key objects (Some e) (t ++ u)
  | apply_failed e t u v :
      applied true objects None t → registering key objects None u →
      applied false objects (Some e) v → apply_run key objects (Some e) (t ++ u ++ v)
  | cleanup_reached r t u v w :
      applied true objects None t → registering key objects None u →
      applied false objects None v → cleaning key objects r w →
      apply_run key objects r (t ++ u ++ v ++ w).

(** What the transformer makes of a built object. *)
Definition transformed (o : operatorUtils W X) (b : ObjectBuilder W X) (v : option object) :
    option object :=
  transform (ou_transformations o) (ComponentName b) (IsNamespaced b) <$> v.
Definition transformedAll o (bs : list (ObjectBuilder W X)) (vs : list (option object)) :
    list object :=
  omap id (zip_with (transformed o) bs vs).

Lemma buildObjects_Builds o bs vs (s : St W X) :
  Forall2 Builds bs vs →
  ∃ x, buildObjects o bs s = (Ret (transformedAll o bs vs), MkSt (world s) (trace s) x).
Proof.
  intros Hbs. unfold buildObjects, transformedAll.
  cut (∀ acc (s : St W X), ∃ x, foldM (fun acc b =>
      opt ← BuilderTransformer_Apply (ou_transformations o) b; mret (acc ++ [opt])) acc bs s =
    (Ret (acc ++ zip_with (transformed o) bs vs), MkSt (world s) (trace s) x)).
  { intros Hf. destruct (Hf [] s) as (x & E). exists x. by rewrite (bind_Ret _ _ _ _ _ E). }
  clear s. induction Hbs as [|b v bs vs Hb _ IH]; intros acc [w t x]; simpl.
  - exists x. by rewrite app_nil_r.
  - destruct (Hb (MkSt w t x)) as (x' & E).
    destruct (IH (acc ++ [transformed o b v]) (MkSt w t x')) as (x'' & E').
    exists x''. rewrite <- app_assoc in E'. simpl in E'. rewrite <- E'.
    unfold BuilderTransformer_Apply. unfold mbind, M_bind. rewrite E. by destruct v.
Qed.

Lemma buildObjects_emits o bs vs (R : outcome (list object) → list event → Prop) :
  Forall2 Builds bs vs → R (Ret (transformedAll o bs vs)) [] → emits (buildObjects o bs) R.
Proof.
  intros Hbs HR s. destruct (buildObjects_Builds o bs vs s Hbs) as (x & ->).
  exists []. by rewrite app_nil_r.
Qed.

Lemma applyAll_emits objects dryRun :
  emits (W:=W) (X:=X) (applyAll objects dryRun)
    (post (fun r t => applied dryRun objects r t) (fun _ _ => False)).
Proof.
  unfold applyAll. eapply emits_seq.
  - apply (emits_foldM _ objects (fun d b t => ∃ answers, length answers = length d ∧
      t = zip_with (fun obj e => EWrite (RApply (clear_managed_fields obj) dryRun) e) d answers ∧
      MultiErrorBuilder.AllNonNil b = MultiErrorBuilder.AllNonNil answers) (fun _ _ => False)).
    + intros d x r b t _ (answers & Hl & -> & Hb). unfold Apply. do 5 emits_step. simpl.
      exists (answers ++ [a]). rewrite !length_app, Hl. split; [done|].
      split; [by rewrite zip_with_app by done|].
      revert Hb. unfold Result.OnFailure, Result.IsFailure, Result.IsSuccess,
        MultiErrorBuilder.AllNonNil, MultiErrorBuilder.AddSingle, MultiErrorBuilder.Add.
      simpl. intros Hb. destruct a; simpl; rewrite ?omap_app, Hb; simpl; by rewrite ?app_nil_r.
    + by exists [].
  - intros b t (answers & Hl & -> & Hb). emits_step. rewrite app_nil_r. exists answers.
    split; [done|]. split; [done|]. unfold MultiErrorBuilder.Build. by rewrite Hb.
  - done.
  - done.
Qed.

Lemma ApplyAll_emits o bs vs `{!LifecycleContract (ou_manager o)} :
  Forall2 Builds bs vs →
  emits (ApplyAll o bs) (post (fun r t => apply_run kept_record (transformedAll o bs vs) r t)
                              (fun p _ => p = None)).
Proof.
  intros Hbs. unfold ApplyAll. set (objects := transformedAll o bs vs).
  emits_step. eapply buildObjects_emits; [done|]. fold objects.
  eapply emits_seq; [apply applyAll_emits| |done|done]. intros [e|] t Ht.
  { emits_step. rewrite app_nil_r. by apply dry_run_failed. }
  emits_step. eapply buildObjects_emits; [done|]. fold objects.
  eapply emits_seq; [apply update_contract| |by intros p u [? _]|done]. intros [e|] u Hu.
  { emits_step. rewrite app_nil_r. exact (update_failed _ _ e t u Ht Hu). }
  eapply emits_seq; [apply applyAll_emits| |done|done]. intros [e|] v Hv.
  { emits_step. rewrite app_nil_r. exact (apply_failed _ _ e t u v Ht Hu Hv). }
  eapply emits_mono; [apply cleanup_contract|]. intros [r|p|] w Hw; simpl in *.
  - exact (cleanup_reached _ _ r t u v w Ht Hu Hv Hw).
  - by destruct Hw.
  - done.
Qed.

Lemma applied_ok dryRun objects t obj :
  applied dryRun objects None t → obj ∈ objects →
  EWrite (RApply (clear_managed_fields obj) dryRun) None ∈ t.
Proof.
  intros (answers & Hl & -> & Ha) Hobj. symmetry in Ha. apply MultiErrorBuilder.Build_None in Ha.
  revert answers Hl Ha. induction Hobj as [x l|x y l _ IH]; intros [|a answers]; try done;
    intros Hl Ha; inv Ha; simpl.
  - by left.
  - right. apply IH; [by inv Hl|done].
Qed.

Lemma applied_events dryRun objects r t ev :
  applied dryRun objects r t → ev ∈ t → ∃ obj e, ev = EWrite (RApply obj dryRun) e.
Proof.
  intros (answers & _ & -> & _) Hev. apply elem_of_lookup_zip_with in Hev as (i & x & y & ? & _ & _).
  eauto.
Qed.
End ApplyAllSpec.

(** The objects of the builders. *)
Lemma transformedAll_elem {W X} `{Env} (ou : operatorUtils W X) bs vs o :
  Forall2 Builds bs vs → o ∈ transformedAll ou bs vs →
  ∃ b obj, b ∈ bs ∧ Builds b (Some obj) ∧
    o = transform (ou_transformations ou) (ComponentName b) (IsNamespaced b) obj.
Proof.
  intros Hbs. unfold transformedAll. induction Hbs as [|b v bs vs Hb _ IH]; simpl.
  - by intros ?%elem_of_nil.
  - destruct v as [obj|]; simpl.
    + intros [->|Ho]%elem_of_cons; [exists b, obj; set_solver|].
      destruct (IH Ho) as (b' & obj' & ? & ? & ?). exists b', obj'. set_solver.
    + intros (b' & obj' & ? & ? & ?)%IH. exists b', obj'. set_solver.
Qed.

Lemma transformedAll_intro {W X} `{Env} (ou : operatorUtils W X) bs vs b obj (s : St W X) :
  Forall2 Builds bs vs → b ∈ bs → Builds b (Some obj) →
  transform (ou_transformations ou) (ComponentName b) (IsNamespaced b) obj ∈ transformedAll ou bs vs.
Proof.
  intros Hbs. unfold transformedAll. induction Hbs as [|b' v bs vs Hb' _ IH]; intros Hb Hobj.
  - by apply elem_of_nil in Hb.
  - apply elem_of_cons in Hb as [->|Hb].
    + destruct (Hb' s) as [x E], (Hobj s) as [x' E']. rewrite E' in E. injection E as <- _.
      simpl. by left.
    + specialize (IH Hb Hobj). simpl. destruct v; simpl; [by right|done].
Qed.

Lemma Builds_unique {W X} (bs : list (ObjectBuilder W X)) vs vs' (s : St W X) :
  Forall2 Builds bs vs → Forall2 Builds bs vs' → vs = vs'.
Proof.
  intros Hbs. revert vs'. induction Hbs as [|b v bs vs Hb _ IH]; intros vs' Hbs'; inv Hbs'; [done|].
  f_equal; [|by apply IH]. destruct (Hb s) as [x E].
  match goal with Hb' : Builds b _ |- _ => destruct (Hb' s) as [x' E'] end. rewrite E in E'. by injection E'.
Qed.
(** What a builder of the list makes, it always makes. *)
Lemma Builds_made {W X} (bs : list (ObjectBuilder W X)) vs b v (s s' : St W X) :
  Forall2 Builds bs vs → b ∈ bs → Build b s = (Ret v, s') → Builds b v.
Proof.
  intros Hbs [i Hi]%list_elem_of_lookup E. destruct (Forall2_lookup_l _ _ _ _ _ Hbs Hi) as (v' & _ & Hb).
  destruct (Hb s) as [x E']. rewrite E' in E. by injection E as <- _.
Qed.

Section ApplyAllRuns.
Context {W X : Type} `{ClockLaws W} `{ApiErrors} `{Env} `{DependentsCodec}.

Lemma applyAll_runs objects dryRun : runs (W:=W) (X:=X) (applyAll objects dryRun).
Proof. unfold applyAll, Apply. runs_auto. Qed.

Lemma ApplyAll_runs (o : operatorUtils W X) bs vs `{!LifecycleContract (ou_manager o)} :
  Forall2 Builds bs vs → runs (ApplyAll o bs).
Proof.
  intros Hbs. assert (Hb : runs (buildObjects o bs)).
  { intros s. destruct (buildObjects_Builds o bs vs s Hbs) as (x & ->). by eexists _, _. }
  unfold ApplyAll. pose proof applyAll_runs. pose proof update_runs. pose proof cleanup_runs.
  runs_auto; eauto.
Qed.
End ApplyAllRuns.

(** ** Properties *)

(** A write that changes the cluster. *)
Definition changes_cluster (ev : event) : Prop :=
  match ev with EWrite (RApply _ dryRun) _ => dryRun = false | EWrite _ _ => True | _ => False end.
(** An event the specification allows before the dry run is over. *)
Definition accepted (dryRun : bool) (objects : list object) (t : list event) : Prop :=
  ∀ obj, obj ∈ objects → EWrite (RApply (clear_managed_fields obj) dryRun) None ∈ t.

Section ApplyOrder.
Context {W X : Type} `{K8sApi W} `{ApiErrors} `{Env} `{DependentsCodec}.

Lemma app_split {A} (t u l r : list A) (x : A) :
  t ++ u = l ++ x :: r → (∃ m, t = l ++ x :: m) ∨ ∃ m, l = t ++ m ∧ u = m ++ x :: r.
Proof.
  intros E. apply app_eq_app in E as (k & [[-> E]|[-> E]]).
  - destruct k as [|y k]; simpl in *; simplify_eq/=; [|left; eauto].
    right. exists []. by rewrite !app_nil_r.
  - right. eauto.
Qed.

Lemma accepted_app_l dryRun objects t u : accepted dryRun objects t → accepted dryRun objects (t ++ u).
Proof. intros Ht obj Ho. apply elem_of_app. left. auto. Qed.
Lemma accepted_app_r dryRun objects t u : accepted dryRun objects u → accepted dryRun objects (t ++ u).
Proof. intros Ht obj Ho. apply elem_of_app. right. auto. Qed.
Lemma applied_accepted dryRun objects t :
  applied dryRun objects None t → accepted dryRun objects t.
Proof. intros Ht obj. by apply applied_ok. Qed.

(** Before an event that changes the cluster the dry run was accepted, and
    before a deletion the real run was. *)
Definition ordered objects (ev : event) (before : list event) : Prop :=
  (changes_cluster ev → accepted true objects before) ∧
  match ev with
  | EWrite (RDelete obj) _ =>
      accepted false objects before ∧ asUnstructured obj ∉ asUnstructureds objects
  | _ => True
  end.

Lemma ordered_event objects ev before :
  accepted true objects before → update_event ev ∨ (∃ obj e, ev = EWrite (RApply obj false) e) →
  ordered objects ev before.
Proof.
  intros Hb [Hu|(obj & e & ->)]; split; try done. by destruct ev as [| | |[]| | | | | |].
Qed.

Lemma apply_run_ordered key objects r t l ev m :
  apply_run key objects r t → t = l ++ ev :: m → ordered objects ev l.
Proof.
  assert (Hdry : ∀ err t l ev m, applied true objects err t → t = l ++ ev :: m →
            ordered objects ev l).
  { intros err t' l' ev' m' Ht ->. destruct (applied_events _ _ _ _ ev' Ht) as (obj & e & ->);
      [set_solver|]. by split. }
  assert (Hupd : ∀ t u l ev m, applied true objects None t → Forall update_event u →
            t ++ u = l ++ ev :: m → ordered objects ev l).
  { intros t' u l' ev' m' Ht Hu [(k & ->)|(k & -> & ->)]%app_split; [by eapply Hdry|].
    apply ordered_event; [by apply accepted_app_l, applied_accepted|].
    left. apply Forall_app in Hu as [_ Hu]. by inv Hu. }
  assert (Happ : ∀ err t u v l ev m, applied true objects None t → Forall update_event u →
            applied false objects err v → t ++ u ++ v = l ++ ev :: m → ordered objects ev l).
  { intros err t' u v l' ev' m' Ht Hu Hv. rewrite app_assoc.
    intros [(k & E)|(k & -> & ->)]%app_split; [by eapply Hupd|].
    apply ordered_event; [by apply accepted_app_l, accepted_app_l, applied_accepted|].
    right. apply (applied_events _ _ _ _ _ Hv). set_solver. }
  destruct 1 as [e t Ht|e t u Ht [Hu _]|e t u v Ht [Hu _] Hv|r t u v w Ht [Hu _] Hv [Hw _]]; [eauto..|].
  rewrite (app_assoc u), (app_assoc t). intros [(k & E)|(k & -> & ->)]%app_split; [eauto|].
  specialize (Hw ev ltac:(set_solver)). split.
  { intros _. by apply accepted_app_l, accepted_app_l, applied_accepted. }
  destruct ev as [| | |[]| | | | | |]; try done. split; [|done].
  by apply accepted_app_l, accepted_app_r, accepted_app_r, applied_accepted.
Qed.
End ApplyOrder.

(** C6: [ApplyAll] implements its abstract specification: it always returns,
    and runs through dry run, registration, application and clean-up of the
    objects its builders make, entering a phase only when the one before it
    reported no error, and reporting what the phase it stopped in reports.  The
    registration writes a record that lists the objects and reports the
    server's answer; the clean-up deletes recorded objects that are not made
    any more, and reports its failures, or nil when all of them are gone; only
    after five attempts that had to be repeated both report nil all the same. *)
Theorem ApplyAll_refines {W X} `{ClockLaws W} `{ApiErrors} `{Env} `{DependentsCodec}
    (o : operatorUtils W X) `{!LifecycleContract (ou_manager o)} bs vs s :
  Forall2 Builds bs vs →
  ∃ r s' t, ApplyAll o bs s = (Ret r, s') ∧ trace s' = trace s ++ t ∧
            apply_run kept_record (transformedAll o bs vs) r t.
Proof.
  intros Hbs. destruct (ApplyAll_runs o bs vs Hbs s) as (r & s' & E & _).
  destruct (emits_run _ _ _ _ _ (ApplyAll_emits o bs vs Hbs) E) as (t & ? & ?). eauto 10.
Qed.

(** A builder that makes a fixed object. *)
Definition const_builder (v : option object) : ObjectBuilder cluster unit :=
  {| Build := mret v; ComponentName := "instana-agent"; IsNamespaced := true |}.
Lemma const_builder_Builds v : Builds (const_builder v) v.
Proof. intros [w t x]. by exists x. Qed.
Definition example_utils : operatorUtils cluster unit :=
  {| ou_transformations := d_transformations manager2; ou_manager := agentManager manager2 |}.
Definition example_objects : list (option object) :=
  [Some (OServiceAccount {| sa_Meta := NewObjectMeta "sa" "ns" |}); None;
   Some (OService {| svc_Meta := NewObjectMeta "svc" "ns"; svc_ClusterIP := "None";
     svc_Selector := None; svc_Ports := []; svc_InternalTrafficPolicy := None |})].

Lemma ApplyAll_refines_witness :
  Forall2 Builds (const_builder <$> example_objects) example_objects ∧
  ∃ r s' t, ApplyAll example_utils (const_builder <$> example_objects)
              (start generation1_cluster tt) = (Ret r, s') ∧
    trace s' = [] ++ t ∧
    apply_run (Key "ns" "agent-dependents") (transformedAll example_utils (const_builder <$> example_objects) example_objects)
      r t.
Proof.
  assert (Forall2 Builds (const_builder <$> example_objects) example_objects) as Hb.
  { repeat (constructor; [apply const_builder_Builds|]). constructor. }
  split; [exact Hb|].
  exact (ApplyAll_refines example_utils _ _ (start generation1_cluster tt) Hb).
Defined.

(** C9: no event that changes the cluster precedes the acceptance of every
    object in the dry run, and no deletion precedes the acceptance of every
    object in the real run; an object that was just applied is never deleted. *)
Theorem ApplyAll_ordered {W X} `{ClockLaws W} `{ApiErrors} `{Env} `{DependentsCodec}
    (o : operatorUtils W X) `{!LifecycleContract (ou_manager o)} bs vs s out s' :
  Forall2 Builds bs vs → ApplyAll o bs s = (out, s') →
  ∃ t, trace s' = trace s ++ t ∧
    ∀ l ev m, t = l ++ ev :: m → ordered (transformedAll o bs vs) ev l.
Proof.
  intros Hbs E. destruct (ApplyAll_runs o bs vs Hbs s) as (r & s'' & E' & _).
  rewrite E in E'. injection E' as -> ->.
  destruct (emits_run _ _ _ _ _ (ApplyAll_emits o bs vs Hbs) E) as (t & ? & ?).
  exists t. split; [done|]. intros l ev m. by apply (apply_run_ordered kept_record _ r).
Qed.

Lemma ApplyAll_ordered_witness :
  ∃ out s' t, ApplyAll example_utils (const_builder <$> example_objects)
        (start generation1_cluster tt) = (out, s') ∧ trace s' = [] ++ t ∧
    ∀ l ev m, t = l ++ ev :: m →
      ordered (transformedAll example_utils (const_builder <$> example_objects) example_objects)
        ev l.
Proof.
  assert (Forall2 Builds (const_builder <$> example_objects) example_objects) as Hb.
  { repeat (constructor; [apply const_builder_Builds|]). constructor. }
  destruct (ApplyAll example_utils (const_builder <$> example_objects)
    (start generation1_cluster tt)) as [out s'] eqn:E.
  destruct (ApplyAll_ordered example_utils _ _ (start generation1_cluster tt) out s' Hb E)
    as (t & Ht & Ho).
  exists out, s', t. split; [reflexivity|]. split; [exact Ht|exact Ho].
Defined.
