(* ===== verification/StatusHelpers.v ===== *)
(** * What the status managers share: pkg/k8s/operator/status/helpers.go

    The conditions, when a workload counts as available, and what both status
    managers do to learn it: reading objects and building conditions. *)
From S2P Require Import Prelude GoStd Errors K8sTypes ApiTypes Effects Cluster Client.
From S2P Require Import Transformations.

(** ** helpers.go *)
Definition ConditionTypeReconcileSucceeded := "ReconcileSucceeded".
Definition ConditionTypeAllAgentsAvailable := "AllAgentsAvailable".
Definition CondtionTypeAllK8sSensorsAvailable := "AllK8sSensorsAvailable".

Definition getAgentPhase (reconcileErr : option error) : AgentOperatorState :=
  match reconcileErr with Some _ => OperatorStateFailed | None => OperatorStateRunning end.
Definition getReason (reconcileErr : option error) : string :=
  match reconcileErr with None => "" | Some e => ErrorMsg e end.

Definition toResourceInfo (meta : ObjectMeta) : Result.t ResourceInfo :=
  Result.OfSuccess {| ri_Name := om_Name meta; ri_UID := om_UID meta |}.

Definition truncate_limit : nat := Z.to_nat 32768.
Definition truncateMessage (message : string) : string :=
  if String.length message <=? truncate_limit then message
  else String.substring 0 truncate_limit message.

Definition EventTypeNormal := "Normal".
Definition EventTypeWarning := "Warning".
Definition eventTypeFromCondition (condition : Condition) : string :=
  if String.eqb (cond_Status condition) ConditionTrue then EventTypeNormal else EventTypeWarning.

Definition daemonsetIsAvailable (ds : DaemonSet) : bool :=
  let status := ds_Status ds in
  if Optional.IsNotPresent (Optional.Of status) then false
  else if negb (Z.eqb (om_Generation (ds_Meta ds)) (dss_ObservedGeneration status)) then false
  else if negb (Z.eqb (dss_NumberMisscheduled status) 0) then false
  else if negb (Z.eqb (dss_DesiredNumberScheduled status) (dss_NumberAvailable status)) then false
  else if negb (Z.eqb (dss_DesiredNumberScheduled status) (dss_UpdatedNumberScheduled status))
  then false
  else true.

Definition DeploymentAvailable := "Available".
Definition DeploymentProgressing := "Progressing".
Definition DeploymentReplicaFailure := "ReplicaFailure".

Notation deploymentConditionsMap := (gmap string DeploymentCondition) (only parsing).
Definition deploymentConditionsAsMap (conditions : list DeploymentCondition) :
    deploymentConditionsMap :=
  foldl (fun res condition => <[dc_Type condition := condition]> res) ∅ conditions.

Definition deploymentHasMinimumAvailability (conditions : deploymentConditionsMap) : bool :=
  match conditions !! DeploymentAvailable with
  | Some condition => String.eqb (dc_Status condition) ConditionTrue
  | None => false
  end.
Definition deploymentIsComplete (conditions : deploymentConditionsMap) : bool :=
  match conditions !! DeploymentProgressing with
  | Some condition => String.eqb (dc_Status condition) ConditionTrue &&
                      String.eqb (dc_Reason condition) "NewReplicaSetAvailable"
  | None => false
  end.
Definition deploymentHasReplicaFailures (conditions : deploymentConditionsMap) : bool :=
  match conditions !! DeploymentReplicaFailure with
  | Some condition => String.eqb (dc_Status condition) ConditionTrue
  | None => false
  end.
Definition deploymentIsAvailableAndComplete (dpl : Deployment) : bool :=
  let conditions := deploymentConditionsAsMap (dps_Conditions (dp_Status dpl)) in
  if negb (Z.eqb (dps_ObservedGeneration (dp_Status dpl)) (om_Generation (dp_Meta dpl))) then false
  else if negb (deploymentHasMinimumAvailability conditions) then false
  else if negb (deploymentIsComplete conditions) then false
  else if deploymentHasReplicaFailures conditions then false
  else true.

Definition setStatusDotDaemonset (ds : ResourceInfo) (agentNew : InstanaAgent) : InstanaAgent :=
  agentNew <| agent_Status ::= fun s => s <| st_DaemonSet := ds |> |>.
Definition setStatusDotConfigSecret (cm : ResourceInfo) (agentNew : InstanaAgent) : InstanaAgent :=
  agentNew <| agent_Status ::= fun s => s <| st_ConfigSecret := cm |> |>.
Definition setStatusDotNamespacesConfigmap (cm : ResourceInfo) (agentNew : InstanaAgent) :
    InstanaAgent :=
  agentNew <| agent_Status ::= fun s => s <| st_NamespacesConfigMap := cm |> |>.
Definition setStatusDotOperatorVersion (version : SemanticVersion) (agentNew : InstanaAgent) :
    InstanaAgent :=
  agentNew <| agent_Status ::= fun s => s <| st_OperatorVersion := Some version |> |>.
Definition setStatusDotConfigSecretRemote (cm : ResourceInfo) (agentNew : InstanaAgentRemote) :
    InstanaAgentRemote :=
  agentNew <| remote_Status ::= fun s => s <| rst_ConfigSecret := cm |> |>.
Definition setStatusDotDeployment (deployment : ResourceInfo) (agentNew : InstanaAgentRemote) :
    InstanaAgentRemote :=
  agentNew <| remote_Status ::= fun s => s <| rst_Deployment := deployment |> |>.
Definition setStatusDotOperatorVersionRemote (version : SemanticVersion)
    (agentNew : InstanaAgentRemote) : InstanaAgentRemote :=
  agentNew <| remote_Status ::= fun s => s <| rst_OperatorVersion := Some version |> |>.

Definition objectKeyHasNoName (key : ObjectKey) : bool := String.eqb (key_Name key) "".

(** ** What both managers do *)

(** A condition of a custom resource of the generation. *)
Definition NewCondition (generation : Z) (type status reason message : string) : Condition :=
  {| cond_Type := type; cond_Status := status; cond_ObservedGeneration := generation;
     cond_LastTransitionTime := 0; cond_Reason := reason; cond_Message := message |}.

(** The objects of the keys, or the condition and the error of the first that
    cannot be read: the loop of [getAllAgentsAvailableCondition]. *)
Fixpoint readAll {W X} `{K8sApi W} (k : kind) (z : denote k)
    (unavailable : ObjectKey → error → Condition) (keys : list ObjectKey)
    (objects : list (denote k)) : M W X (list (denote k) + Result.t Condition) :=
  match keys with
  | [] => mret (inl objects)
  | key :: keys =>
      res ← GetAsResult k key z;
      match Result.err res with
      | None => readAll k z unavailable keys (objects ++ [Result.res res])
      | Some err => mret (inr (Result.Of (unavailable key err) (Some err)))
      end
  end.

(** ** Facts *)

(** The condition of a type that a map built from the list holds: the last one. *)
Definition last_of_type (type : string) (l : list DeploymentCondition) :
    option DeploymentCondition :=
  last (filter (fun c => dc_Type c = type) l).

Lemma deploymentConditionsAsMap_lookup l type :
  deploymentConditionsAsMap l !! type = last_of_type type l.
Proof.
  unfold deploymentConditionsAsMap, last_of_type. induction l as [|c l IH] using rev_ind; [done|].
  rewrite foldl_app, filter_app. simpl. destruct (decide (dc_Type c = type)) as [<-|Hn].
  - rewrite lookup_insert_eq. rewrite filter_cons_True, filter_nil by done.
    by rewrite last_snoc.
  - rewrite lookup_insert_ne by done.
    rewrite filter_cons_False, filter_nil, app_nil_r by done. exact IH.
Qed.

(** The condition is of the type and the generation, and says True, False or
    Unknown for the reason given for it. *)
Definition condition_of (generation : Z) (type : string) (yes no unknown : Prop) (c : Condition) : Prop :=
  cond_Type c = type ∧ cond_ObservedGeneration c = generation ∧
  (cond_Status c = ConditionTrue ∧ yes ∨ cond_Status c = ConditionFalse ∧ no ∨
   cond_Status c = ConditionUnknown ∧ unknown).
(** The condition [c] tells how the reconciliation ended. *)
Definition reconcile_told (generation : Z) (reconcileErr : option error) (c : Condition) : Prop :=
  cond_ObservedGeneration c = generation ∧
  match reconcileErr with
  | None => cond_Status c = ConditionTrue
  | Some e => cond_Status c = ConditionFalse ∧ cond_Message c = truncateMessage (ErrorMsg e)
  end.

Lemma condition_of_content generation type yes no unknown c c' :
  same_content c' c → condition_of generation type yes no unknown c →
  condition_of generation type yes no unknown c'.
Proof.
  intros (Ht & Hs & Hg & _) (? & ? & Hp). unfold condition_of. rewrite Ht, Hs, Hg. done.
Qed.
Lemma condition_of_mono generation type (yes no unknown yes' no' unknown' : Prop) c :
  (yes → yes') → (no → no') → (unknown → unknown') →
  condition_of generation type yes no unknown c → condition_of generation type yes' no' unknown' c.
Proof. intros ??? (? & ? & ?). unfold condition_of. naive_solver. Qed.

(** What a manager does besides the patch: it reads and fires events. *)
Definition status_event (ev : event) : Prop :=
  match ev with EGet _ _ _ | ERecord _ _ _ => True | _ => False end.
Definition reads_ok (t : list event) : Prop := ∀ k key e, EGet k key (inr e) ∉ t.
(** A step that only reads, and reports a failed read. *)
Definition reading {A} (r : Result.t A) (t : list event) : Prop :=
  Forall status_event t ∧ (Result.err r = None → reads_ok t).
Definition fired (c : Condition) : event :=
  ERecord (eventTypeFromCondition c) (cond_Reason c) (cond_Message c).
Definition deployment_seen (t : list event) (key : ObjectKey) : Prop :=
  ∃ d, EGet KDeployment key (inl d) ∈ t ∧ deploymentIsAvailableAndComplete d = true.
(** It was read and is not available, and it could not be read. *)
Definition deployment_lacking (t : list event) (key : ObjectKey) : Prop :=
  ∃ d, EGet KDeployment key (inl d) ∈ t ∧ deploymentIsAvailableAndComplete d = false.
Definition read_failed (k : kind) (t : list event) (key : ObjectKey) : Prop :=
  ∃ e, EGet k key (inr e) ∈ t.

Lemma reads_ok_nil : reads_ok [].
Proof. intros ???. set_solver. Qed.
Lemma reads_ok_app t u : reads_ok (t ++ u) ↔ reads_ok t ∧ reads_ok u.
Proof. unfold reads_ok. setoid_rewrite elem_of_app. naive_solver. Qed.
Lemma reads_ok_one k key (v : denote k) : reads_ok [EGet k key (inl v)].
Proof. intros k' key' e ?%list_elem_of_singleton. simplify_eq. Qed.
Lemma record_reads_ok e r m : reads_ok [ERecord e r m].
Proof. intros ???. set_solver. Qed.
Lemma reading_nil {A} (r : Result.t A) : reading r [].
Proof. split; [done|]. intros _. apply reads_ok_nil. Qed.
#[export] Hint Resolve reads_ok_nil record_reads_ok : operator.

Section Reading.
Context {W X : Type} `{K8sApi W}.
Notation M := (M W X).

Lemma GetAsResult_emits (k : kind) key z (R : outcome (Result.t (denote k)) → list event → Prop) :
  (∀ v, R (Ret (Result.Of v None)) [EGet k key (inl v)]) →
  (∀ e, R (Ret (Result.Of z (Some e))) [EGet k key (inr e)]) →
  emits (W:=W) (X:=X) (GetAsResult k key z) R.
Proof. intros Hv He. unfold GetAsResult. do 2 emits_step. destruct a; emits_step; auto. Qed.

(** A read of an object of which only the metadata is kept. *)
Lemma read_info_emits (k : kind) key z (f : denote k → Result.t ResourceInfo) :
  (∀ v, Result.err (f v) = None) →
  emits (r ← GetAsResult k key z; mret (Result.Map r f) : M _) (post reading (fun _ _ => False)).
Proof.
  intros Hf. emits_step. apply GetAsResult_emits; intros; emits_step; simpl;
    (split; [by repeat constructor|]); [|done]. intros _. apply reads_ok_one.
Qed.

Lemma readAll_emits (k : kind) z unavailable keys seen u objects :
  Forall2 (fun key o => EGet k key (inl o) ∈ u) seen objects →
  emits (readAll k z unavailable keys objects : M _) (post (fun r t =>
    Forall status_event t ∧
    match r with
    | inl objects' => reads_ok t ∧
        Forall2 (fun key o => EGet k key (inl o) ∈ u ++ t) (seen ++ keys) objects'
    | inr res => ∃ key err, key ∈ keys ∧ EGet k key (inr err) ∈ t ∧ res = Result.Of (unavailable key err) (Some err)
    end) (fun _ _ => False)).
Proof.
  revert seen u objects. induction keys as [|key keys IH]; intros seen u objects Hs; simpl.
  - emits_step. simpl. rewrite !app_nil_r. auto with operator.
  - emits_step. apply GetAsResult_emits.
    + intros o. simpl. eapply emits_mono.
      { apply (IH (seen ++ [key]) (u ++ [EGet k key (inl o)]) (objects ++ [o])).
        apply Forall2_app.
        - eapply Forall2_impl; [exact Hs|]. set_solver.
        - constructor; [set_solver|done]. }
      intros [r|p|] t Ht; simpl in *; [|done..]. destruct Ht as [He Hr].
      split; [by constructor|]. destruct r as [objects'|res].
      2: { destruct Hr as (key' & err & ? & ? & ->). exists key', err. set_solver. }
      destruct Hr as [Hok Hf].
      split; [apply (reads_ok_app [_]); by split; [apply reads_ok_one|]|].
      by rewrite <- !app_assoc in Hf.
    + intros e. simpl. emits_step. simpl. split; [by repeat constructor|]. exists key, e. set_solver.
Qed.
(** All the objects of the keys satisfy the check, or one could not be read. *)
Lemma readAll_all (k : kind) z unavailable keys (check : denote k → bool) :
  emits (readAll k z unavailable keys [] : M _) (post (fun r t =>
    Forall status_event t ∧
    match r with
    | inl objects => reads_ok t ∧ length objects = length keys ∧
        (GoList.All objects check = true →
         ∀ key, key ∈ keys → ∃ o, EGet k key (inl o) ∈ t ∧ check o = true) ∧
        (GoList.All objects check = false →
         ∃ key o, key ∈ keys ∧ EGet k key (inl o) ∈ t ∧ check o = false)
    | inr res => ∃ key err, key ∈ keys ∧ EGet k key (inr err) ∈ t ∧ res = Result.Of (unavailable key err) (Some err)
    end) (fun _ _ => False)).
Proof.
  eapply emits_mono; [by apply (readAll_emits k z unavailable keys [] [])|].
  intros [[objects|res]|p|] t Ht; simpl in *; [|done..].
  destruct Ht as (Ht & Hok & Hf). split_and!; [done|done|symmetry; by eapply Forall2_length|..].
  2: { intros Hall. assert (Hno : ¬ Forall (fun o => check o = true) objects).
    { rewrite <- GoList.All_spec, Hall. done. }
    apply not_Forall_Exists in Hno; [|apply _]. apply Exists_exists in Hno as (o & [i Hi]%list_elem_of_lookup & Hc).
    destruct (Forall2_lookup_r _ _ _ _ _ Hf Hi) as (key & Hkey & Hin). exists key, o.
    split; [by eapply list_elem_of_lookup_2|]. split; [done|]. by apply not_true_iff_false. }
  intros Hall key [i Hi]%list_elem_of_lookup. destruct (Forall2_lookup_l _ _ _ _ _ Hf Hi) as (o & Ho & Hin).
  exists o. split; [done|]. apply GoList.All_spec in Hall. rewrite Forall_forall in Hall.
  apply Hall. by eapply list_elem_of_lookup_2.
Qed.
Lemma readAll_local (k : kind) z unavailable keys objects :
  keeps_local (readAll k z unavailable keys objects : M _).
Proof.
  revert objects. induction keys as [|key keys IH]; intros objects; simpl; [keeps_local_auto|].
  unfold GetAsResult. keeps_local_auto.
Qed.
End Reading.
#[export] Hint Extern 1 (keeps_local (readAll ?k _ _ _ _)) => apply (readAll_local k) : operator.

(** A getter that reads an object to keep its name, or answers at once. *)
Ltac read_info_step :=
  lazymatch goal with
  | |- emits (GetAsResult ?k ?key ?z ≫= _) _ => by apply (read_info_emits k key z)
  | |- emits (mret _) _ => emits_step; apply reading_nil
  end.
