(* ===== verification/Status.v ===== *)
(** * The status of the custom resource: pkg/k8s/operator/status

    The status manager is told which objects the reconciliation made (its
    fields are the local state of the reconciliation) and, when it ends, reads
    them back, derives the conditions and patches the status of the custom
    resource.  agent_status_manager.go. *)
From S2P Require Import Prelude GoStd Errors K8sTypes ApiTypes Effects Cluster Client.
From S2P Require Import Transformations StatusHelpers.

(** ** agent_status_manager.go *)
Record agentStatusManager := {
  agentOld : option InstanaAgent;
  agentDaemonsets : list ObjectKey;
  k8sSensorDeployment : ObjectKey;
  agentSecretConfig : ObjectKey;
  agentNamespacesConfigmap : ObjectKey }.
#[export] Instance eta_agentStatusManager : Settable agentStatusManager := fun a =>
  Build_agentStatusManager (agentOld a) (agentDaemonsets a) (k8sSensorDeployment a)
    (agentSecretConfig a) (agentNamespacesConfigmap a).
Definition NewAgentStatusManager : agentStatusManager :=
  {| agentOld := None; agentDaemonsets := []; k8sSensorDeployment := zero_key;
     agentSecretConfig := zero_key; agentNamespacesConfigmap := zero_key |}.

Definition AddAgentDaemonset (key : ObjectKey) (a : agentStatusManager) : agentStatusManager :=
  if GoList.Contains (agentDaemonsets a) key then a
  else a <| agentDaemonsets ::= fun l => l ++ [key] |>.
Definition SetAgentOld (agent : InstanaAgent) (a : agentStatusManager) : agentStatusManager :=
  a <| agentOld := Some agent |>.
Definition SetK8sSensorDeployment (key : ObjectKey) (a : agentStatusManager) : agentStatusManager :=
  a <| k8sSensorDeployment := key |>.
Definition SetAgentSecretConfig (key : ObjectKey) (a : agentStatusManager) : agentStatusManager :=
  a <| agentSecretConfig := key |>.
Definition SetAgentNamespacesConfigMap (key : ObjectKey) (a : agentStatusManager) :
    agentStatusManager :=
  a <| agentNamespacesConfigmap := key |>.

Section AgentStatusManager.
Context {W : Type} `{K8sApi W} `{ApiErrors} `{Env} `{Debug} `{Semver} `{StatusConditions}.
Notation M := (M W agentStatusManager).

(** The methods below read the manager's fields only, except for the agent,
    which the caller has found not nil. *)
Section Methods.
Context (a : agentStatusManager) (agentOld : InstanaAgent).

Definition getDaemonSet : M (Result.t ResourceInfo) :=
  match agentDaemonsets a with
  | [key] =>
      ds ← GetAsResult KDaemonSet key zero_DaemonSet;
      mret (Result.Map ds (fun ds => toResourceInfo (ds_Meta ds)))
  | _ => mret (Result.OfSuccess zero_ResourceInfo)
  end.
Definition getConfigSecret : M (Result.t ResourceInfo) :=
  if objectKeyHasNoName (agentSecretConfig a) then mret (Result.OfSuccess zero_ResourceInfo)
  else
    cm ← GetAsResult KSecret (agentSecretConfig a) zero_Secret;
    mret (Result.Map cm (fun s => toResourceInfo (sec_Meta s))).
Definition getNamespacesConfigMap : M (Result.t ResourceInfo) :=
  if objectKeyHasNoName (agentNamespacesConfigmap a) then mret (Result.OfSuccess zero_ResourceInfo)
  else
    cm ← GetAsResult KConfigMap (agentNamespacesConfigmap a) zero_ConfigMap;
    mret (Result.Map cm (fun c => toResourceInfo (cm_Meta c))).

Definition setConditionAndFireEvent (condition : Condition) (agentNew : InstanaAgent) :
    M InstanaAgent :=
  t ← now;
  _ ← record (eventTypeFromCondition condition) (cond_Reason condition) (cond_Message condition);
  mret (agentNew <| agent_Status ::= fun s =>
          s <| st_Conditions ::= fun l => Some (SetStatusCondition t condition (default [] l)) |> |>).

#[local] Notation NewCondition := (NewCondition (agent_Generation agentOld)).

Definition getReconcileSucceededCondition (reconcileErr : option error) : Condition :=
  match reconcileErr with
  | None =>
      NewCondition ConditionTypeReconcileSucceeded ConditionTrue "ReconcileSucceeded"
        "most recent reconcile of agent CR completed without issue"
  | Some e =>
      NewCondition ConditionTypeReconcileSucceeded ConditionFalse "ReconcileFailed"
        (truncateMessage (ErrorMsg e))
  end.

Definition daemonset_unavailable (key : ObjectKey) (err : error) : Condition :=
  NewCondition ConditionTypeAllAgentsAvailable ConditionUnknown "AgentDaemonsetInfoUnavailable"
    (truncateMessage ("failed to retrieve status of Agent Daemonset: " +++ key_Name key +++
       " due to error: " +++ ErrorMsg err)).
Definition getAllAgentsAvailableCondition : M (Result.t Condition) :=
  r ← readAll KDaemonSet zero_DaemonSet daemonset_unavailable (agentDaemonsets a) [];
  mret match r with
       | inr res => res
       | inl dameonsets =>
           Result.OfSuccess
             (if GoList.All dameonsets daemonsetIsAvailable then
                NewCondition ConditionTypeAllAgentsAvailable ConditionTrue
                  "AllDesiredAgentsAvailable"
                  "All desired Instana Agents are available and using up-to-date configuration"
              else
                NewCondition ConditionTypeAllAgentsAvailable ConditionFalse
                  "NotAllDesiredAgentsAvailable"
                  "Not all desired Instana agents are available or some Agents are not using up-to-date configuration")
       end.

Definition updateWasPerformed : bool :=
  let operatorVersion := NewVersion GetOperatorVersion in
  let status := agent_Status agentOld in
  match st_ObservedGeneration status with
  | None => false
  | Some observed =>
      if negb (Z.eqb observed (agent_Generation agentOld)) then true
      else match st_OperatorVersion status, operatorVersion with
           | None, _ => false
           | Some _, None => true
           | Some old, Some new => negb (VersionEqual old new)
           end
  end.

Definition k8sensor_disabled : error := Errorf "k8sensor is disabled".
Definition getAllK8sSensorsAvailableCondition : M (Result.t Condition) :=
  let condition := NewCondition CondtionTypeAllK8sSensorsAvailable in
  if negb (Pointer.DerefOrDefault
             (kd_Enabled (ks_DeploymentSpec (spec_K8sSensor (agent_Spec agentOld)))) true)
  then mret (Result.Of (Build_Condition "" "" 0 0 "" "") (Some k8sensor_disabled))
  else if objectKeyHasNoName (k8sSensorDeployment a) then
    mret (Result.OfSuccess (condition ConditionUnknown "K8sensorDeploymentNotConfigured"
      "k8sensor deployment has not been configured for this agent"))
  else
    res ← GetAsResult KDeployment (k8sSensorDeployment a) zero_Deployment;
    mret match Result.err res with
         | Some err =>
             Result.Of (condition ConditionUnknown "K8sensorDeploymentInfoUnavailable"
               (truncateMessage ("failed to retrieve status of k8sensor deployment: " +++
                  key_Name (k8sSensorDeployment a) +++ " due to error: " +++ ErrorMsg err)))
               (Some err)
         | None =>
             Result.OfSuccess
               (if deploymentIsAvailableAndComplete (Result.res res) then
                  condition ConditionTrue "AllDesiredK8sensorsAvailable"
                    "All desired k8sensors are available and using up-to-date configuration"
                else
                  condition ConditionFalse "NotAllDesiredK8sensorsAvailable"
                    "Not all desired k8sensors are available or some k8sensors are not using up-to-date configuration")
         end.

(** The fields [agentWithUpdatedStatus] sets without asking the cluster. *)
Definition withDeprecatedStatus (reconcileErr : option error) (time : Z)
    (agentNew : InstanaAgent) : InstanaAgent :=
  agentNew <| agent_Status ::= fun s =>
    s <| st_Status := getAgentPhase reconcileErr |>
      <| st_Reason := getReason reconcileErr |>
      <| st_LastUpdate := time |> |>.
Definition withNewStatus (agentNew : InstanaAgent) : InstanaAgent :=
  let agentNew :=
    if updateWasPerformed
    then agentNew <| agent_Status ::= fun s => s <| st_OldVersionsUpdated := true |> |>
    else agentNew in
  let agentNew :=
    agentNew <| agent_Status ::= fun s =>
      s <| st_ObservedGeneration := Some (agent_Generation agentOld) |> |> in
  let agentNew :=
    match NewVersion GetOperatorVersion with
    | Some version => setStatusDotOperatorVersion version agentNew
    | None => agentNew
    end in
  agentNew <| agent_Status ::= fun s =>
    s <| st_Conditions ::= fun l => Some (default [] l) |> |>.

Definition agentWithUpdatedStatus (reconcileErr : option error) : M (Result.t InstanaAgent) :=
  let errBuilder := MultiErrorBuilder.New [] in
  t ← now;
  let agentNew := withDeprecatedStatus reconcileErr t agentOld in
  ds ← getDaemonSet;
  let agentNew := Result.OnSuccess ds setStatusDotDaemonset agentNew in
  let errBuilder := Result.OnFailure ds MultiErrorBuilder.AddSingle errBuilder in
  secret ← getConfigSecret;
  let agentNew := Result.OnSuccess secret setStatusDotConfigSecret agentNew in
  let errBuilder := Result.OnFailure secret MultiErrorBuilder.AddSingle errBuilder in
  cm ← getNamespacesConfigMap;
  let agentNew := Result.OnSuccess cm setStatusDotNamespacesConfigmap agentNew in
  let errBuilder := Result.OnFailure cm MultiErrorBuilder.AddSingle errBuilder in
  let agentNew := withNewStatus agentNew in
  agentNew ← setConditionAndFireEvent (getReconcileSucceededCondition reconcileErr) agentNew;
  agents ← getAllAgentsAvailableCondition;
  let errBuilder := Result.OnFailure agents MultiErrorBuilder.AddSingle errBuilder in
  agentNew ← setConditionAndFireEvent (Result.res agents) agentNew;
  sensors ← getAllK8sSensorsAvailableCondition;
  let errBuilder := Result.OnFailure sensors MultiErrorBuilder.AddSingle errBuilder in
  agentNew ← (if Result.IsSuccess sensors
              then setConditionAndFireEvent (Result.res sensors) agentNew
              else mret agentNew);
  mret (Result.Of agentNew (MultiErrorBuilder.Build errBuilder)).
End Methods.

Definition UpdateAgentStatus (reconcileErr : option error) : M (option error) :=
  catching (
    a ← getLocal;
    match agentOld a with
    | None => mret None
    | Some old =>
        let errBuilder := MultiErrorBuilder.New [] in
        res ← agentWithUpdatedStatus a old reconcileErr;
        let errBuilder := Result.OnFailure res MultiErrorBuilder.AddSingle errBuilder in
        err ← doWrite (RPatchAgentStatus (Result.res res) old);
        let errBuilder :=
          match err with
          | Some _ => if IsNotFound err then errBuilder
                      else MultiErrorBuilder.AddSingle err errBuilder
          | None => errBuilder
          end in
        mret (MultiErrorBuilder.Build errBuilder)
    end).
End AgentStatusManager.

(** ** Facts *)

Section StatusFacts.
Context {W : Type} `{K8sApi W} `{ApiErrors} `{Env} `{Debug} `{Semver} `{StatusConditionsLaws}.
Notation M := (M W agentStatusManager).
Implicit Types (t : list event) (a : agentStatusManager) (old : InstanaAgent).

Lemma getDaemonSet_emits a : emits (getDaemonSet a : M _) (post reading (fun _ _ => False)).
Proof. unfold getDaemonSet. destruct (agentDaemonsets a) as [|key []]; read_info_step. Qed.
Lemma getConfigSecret_emits a : emits (getConfigSecret a : M _) (post reading (fun _ _ => False)).
Proof. unfold getConfigSecret. destruct (objectKeyHasNoName _); read_info_step. Qed.
Lemma getNamespacesConfigMap_emits a :
  emits (getNamespacesConfigMap a : M _) (post reading (fun _ _ => False)).
Proof. unfold getNamespacesConfigMap. destruct (objectKeyHasNoName _); read_info_step. Qed.

Definition daemonset_seen t key : Prop :=
  ∃ ds, EGet KDaemonSet key (inl ds) ∈ t ∧ daemonsetIsAvailable ds = true.
Definition daemonset_lacking t key : Prop :=
  ∃ ds, EGet KDaemonSet key (inl ds) ∈ t ∧ daemonsetIsAvailable ds = false.
(** What AllAgentsAvailable says of the daemon sets of the manager. *)
Definition agents_told a (generation : Z) t : Condition → Prop :=
  condition_of generation ConditionTypeAllAgentsAvailable
    (∀ key, key ∈ agentDaemonsets a → daemonset_seen t key)
    (∃ key, key ∈ agentDaemonsets a ∧ daemonset_lacking t key)
    (∃ key, key ∈ agentDaemonsets a ∧ read_failed KDaemonSet t key).
(** And AllK8sSensorsAvailable of the deployment. *)
Definition sensors_told a (generation : Z) t : Condition → Prop :=
  condition_of generation CondtionTypeAllK8sSensorsAvailable
    (deployment_seen t (k8sSensorDeployment a))
    (deployment_lacking t (k8sSensorDeployment a))
    (objectKeyHasNoName (k8sSensorDeployment a) = true).
Lemma getAllAgentsAvailableCondition_emits a old :
  emits (getAllAgentsAvailableCondition a old : M _) (post (fun r t => reading r t ∧
    agents_told a (agent_Generation old) t (Result.res r)) (fun _ _ => False)).
Proof.
  unfold getAllAgentsAvailableCondition.
  eapply emits_seq; [by apply (readAll_all KDaemonSet _ _ _ daemonsetIsAvailable)| |done|done].
  intros [dss|res] t [Ht Hr]; emits_step; simpl; rewrite app_nil_r.
  - destruct Hr as (Hok & _ & Hall & Hno). split; [by split|].
    destruct (GoList.All dss daemonsetIsAvailable) eqn:E; (split; [done|split; [done|]]).
    + left. split; [done|]. exact (Hall E).
    + right; left. split; [done|]. destruct (Hno E) as (key & ds & ? & ? & ?).
      exists key. split; [done|]. by exists ds.
  - destruct Hr as (key & err & ? & ? & ->). split; [by split|]. split; [done|]. split; [done|].
    right; right. split; [done|]. exists key. split; [done|]. by exists err.
Qed.

Definition sensor_enabled old : bool :=
  Pointer.DerefOrDefault
    (kd_Enabled (ks_DeploymentSpec (spec_K8sSensor (agent_Spec old)))) true.

Lemma getAllK8sSensorsAvailableCondition_emits a old :
  emits (getAllK8sSensorsAvailableCondition a old : M _) (post (fun r t => reading r t ∧
    match Result.err r with
    | None => sensor_enabled old = true ∧ sensors_told a (agent_Generation old) t (Result.res r)
    | Some _ => sensor_enabled old = true → read_failed KDeployment t (k8sSensorDeployment a)
    end) (fun _ _ => False)).
Proof.
  unfold getAllK8sSensorsAvailableCondition, sensor_enabled.
  destruct (Pointer.DerefOrDefault _ true); simpl;
    [|emits_step; split; [apply reading_nil|done]].
  destruct (objectKeyHasNoName (k8sSensorDeployment a)) eqn:En.
  { emits_step. split; [apply reading_nil|]. simpl. split; [done|]. split; [done|]. split; [done|].
    right; right. done. }
  emits_step. apply (GetAsResult_emits KDeployment); [intros dpl|intros e]; emits_step; simpl.
  - split; [split; [by repeat constructor|intros _; apply reads_ok_one]|].
    split; [done|]. destruct (deploymentIsAvailableAndComplete dpl) eqn:E; (split; [done|split; [done|]]).
    + left. split; [done|]. exists dpl. split; [by left|done].
    + right; left. split; [done|]. exists dpl. split; [by left|done].
  - split; [split; [by repeat constructor|done]|]. intros _. exists e. by left.
Qed.

(** *** The agent that is patched *)
Definition same_resource (new old : InstanaAgent) : Prop :=
  agent_APIVersion new = agent_APIVersion old ∧ agent_Kind new = agent_Kind old ∧
  agent_Meta new = agent_Meta old ∧ agent_Spec new = agent_Spec old.
Definition condition_in (type : string) (agent : InstanaAgent) : option Condition :=
  find_condition type (default [] (st_Conditions (agent_Status agent))).

(** What the fields of the status other than conditions say. *)
Definition status_fields old (reconcileErr : option error) (new : InstanaAgent) : Prop :=
  same_resource new old ∧
  st_Status (agent_Status new) = getAgentPhase reconcileErr ∧
  st_Reason (agent_Status new) = getReason reconcileErr ∧
  st_ObservedGeneration (agent_Status new) = Some (agent_Generation old).

Definition with_condition (time : Z) (c : Condition) (agent : InstanaAgent) : InstanaAgent :=
  agent <| agent_Status ::= fun s =>
    s <| st_Conditions ::= fun l => Some (SetStatusCondition time c (default [] l)) |> |>.

Lemma setConditionAndFireEvent_emits c new :
  emits (setConditionAndFireEvent c new : M _) (post (fun new' t =>
    t = [fired c] ∧ ∃ time, new' = with_condition time c new) (fun _ _ => False)).
Proof.
  unfold setConditionAndFireEvent. do 5 emits_step. simpl. split; [done|]. by exists z.
Qed.

Lemma with_condition_fields time c old e new :
  status_fields old e new → status_fields old e (with_condition time c new).
Proof. done. Qed.
Lemma with_condition_same time c new :
  ∃ c', condition_in (cond_Type c) (with_condition time c new) = Some c' ∧ same_content c' c.
Proof. apply set_condition_same. Qed.
Lemma with_condition_other time c new type :
  type ≠ cond_Type c → condition_in type (with_condition time c new) = condition_in type new.
Proof. apply set_condition_other. Qed.

Lemma status_before_conditions old e time (r1 r2 r3 : Result.t ResourceInfo) :
  let new := withNewStatus old
    (Result.OnSuccess r3 setStatusDotNamespacesConfigmap
      (Result.OnSuccess r2 setStatusDotConfigSecret
        (Result.OnSuccess r1 setStatusDotDaemonset (withDeprecatedStatus e time old)))) in
  status_fields old e new ∧
  default [] (st_Conditions (agent_Status new)) = default [] (st_Conditions (agent_Status old)).
Proof.
  unfold withNewStatus, Result.OnSuccess.
  destruct (Result.IsSuccess r1), (Result.IsSuccess r2), (Result.IsSuccess r3),
    (updateWasPerformed old), (NewVersion GetOperatorVersion); done.
Qed.

(** What part of the events show, all of them do. *)
Lemma agents_told_mono a generation t u v c :
  agents_told a generation u c → agents_told a generation (t ++ u ++ v) c.
Proof.
  apply condition_of_mono.
  - intros Hk key (ds & ? & ?)%Hk. exists ds. set_solver.
  - intros (key & ? & ds & ? & ?). exists key. split; [done|]. exists ds. set_solver.
  - intros (key & ? & e & ?). exists key. split; [done|]. exists e. set_solver.
Qed.
Lemma sensors_told_mono a generation t u v c :
  sensors_told a generation u c → sensors_told a generation (t ++ u ++ v) c.
Proof. apply condition_of_mono; [intros (d & ? & ?); exists d; set_solver..|done]. Qed.
Lemma reconcile_told_content old e c :
  same_content c (getReconcileSucceededCondition old e) → reconcile_told (agent_Generation old) e c.
Proof. unfold reconcile_told. intros (_ & -> & -> & _ & ->). by destruct e. Qed.

(** What the status of [new] says after the events [t]. *)
Record reports a old (reconcileErr : option error) t (new : InstanaAgent) : Prop := {
  rp_fields : status_fields old reconcileErr new;
  rp_reconcile : ∃ c, condition_in ConditionTypeReconcileSucceeded new = Some c ∧
    reconcile_told (agent_Generation old) reconcileErr c;
  rp_agents : ∃ c, condition_in ConditionTypeAllAgentsAvailable new = Some c ∧
    agents_told a (agent_Generation old) t c;
  rp_sensors :
    (sensor_enabled old = true ∧ ∃ c, condition_in CondtionTypeAllK8sSensorsAvailable new = Some c ∧
       sensors_told a (agent_Generation old) t c) ∨
    ((sensor_enabled old = true → read_failed KDeployment t (k8sSensorDeployment a)) ∧
     condition_in CondtionTypeAllK8sSensorsAvailable new =
       condition_in CondtionTypeAllK8sSensorsAvailable old)
}.

(** The three conditions set in turn on an agent that has the other fields. *)
Lemma reports_conditions a old e t0 t1 t2 t3 t4 new new1 new2 new3 c2 c3 :
  status_fields old e new →
  default [] (st_Conditions (agent_Status new)) = default [] (st_Conditions (agent_Status old)) →
  (∃ time, new1 = with_condition time (getReconcileSucceededCondition old e) new) →
  agents_told a (agent_Generation old) t1 c2 →
  (∃ time, new2 = with_condition time c2 new1) →
  (new3 = new2 ∧ (sensor_enabled old = true → read_failed KDeployment t3 (k8sSensorDeployment a)) ∨
   (sensor_enabled old = true ∧ sensors_told a (agent_Generation old) t3 c3) ∧
   ∃ time, new3 = with_condition time c3 new2) →
  reports a old e (t0 ++ t1 ++ t2 ++ t3 ++ t4) new3.
Proof.
  intros Hf Hc0 [z1 ->] Hagents [z2 ->] Hsens.
  set (c1 := getReconcileSucceededCondition old e) in *.
  assert (T1 : cond_Type c1 = ConditionTypeReconcileSucceeded) by (subst c1; by destruct e).
  assert (T2 : cond_Type c2 = ConditionTypeAllAgentsAvailable) by apply Hagents.
  set (new2 := with_condition z2 c2 (with_condition z1 c1 new)) in *.
  assert (Hall : ∀ new3, new3 = new2 ∨ (∃ z, cond_Type c3 = CondtionTypeAllK8sSensorsAvailable ∧
            new3 = with_condition z c3 new2) →
    status_fields old e new3 ∧
    (∃ c, condition_in ConditionTypeReconcileSucceeded new3 = Some c ∧ same_content c c1) ∧
    (∃ c, condition_in ConditionTypeAllAgentsAvailable new3 = Some c ∧ same_content c c2)).
  { assert (Hnew2 : status_fields old e new2 ∧
      (∃ c, condition_in ConditionTypeReconcileSucceeded new2 = Some c ∧ same_content c c1) ∧
      (∃ c, condition_in ConditionTypeAllAgentsAvailable new2 = Some c ∧ same_content c c2)).
    { split; [done|]. split.
      - unfold new2. rewrite with_condition_other by (by rewrite T2).
        rewrite <- T1. apply with_condition_same.
      - rewrite <- T2. apply with_condition_same. }
    intros new4 [->|(z & T3 & ->)]; [exact Hnew2|].
    rewrite !with_condition_other by (by rewrite T3). exact Hnew2. }
  destruct (Hall new3) as (Hf3 & Hr & c & Hc & Hcc).
  { destruct Hsens as [[-> _]|[[_ Hc3] [z ->]]]; [by left|right; exists z; split; [apply Hc3|done]]. }
  split; [done| | |].
  - destruct Hr as (c' & Hc' & Hcc'). exists c'. split; [done|]. by apply reconcile_told_content.
  - exists c. split; [done|]. eapply condition_of_content; [done|]. by apply agents_told_mono.
  - destruct Hsens as [[-> Hfail]|[[He Hc3] [z ->]]].
    + right. split.
      { intros (err & ?)%Hfail. exists err. set_solver. }
      unfold new2. rewrite !with_condition_other by (by rewrite ?T1, ?T2).
      unfold condition_in. by rewrite Hc0.
    + left. split; [done|]. assert (T3 : cond_Type c3 = CondtionTypeAllK8sSensorsAvailable) by apply Hc3.
      destruct (with_condition_same z c3 new2) as (c' & Hc' & Hcc'). rewrite T3 in Hc'.
      exists c'. split; [done|]. eapply condition_of_content; [done|].
      rewrite (app_assoc t0), (app_assoc (t0 ++ t1)). by apply sensors_told_mono.
Qed.
End StatusFacts.

(** ** The whole update *)
Section UpdateFacts.
Context {W : Type} `{K8sApi W} `{ApiErrors} `{Env} `{Debug} `{Semver} `{StatusConditionsLaws}.
Notation M := (M W agentStatusManager).
Implicit Types (t : list event) (a : agentStatusManager) (old : InstanaAgent).

Lemma agentWithUpdatedStatus_emits a old e :
  emits (agentWithUpdatedStatus a old e : M _) (post (fun res t =>
    Forall status_event t ∧ reports a old e t (Result.res res) ∧
    (Result.err res = None → reads_ok t ∧ sensor_enabled old = true)) (fun _ _ => False)).
Proof.
  unfold agentWithUpdatedStatus. do 2 emits_step.
  eapply emits_seq; [apply getDaemonSet_emits| |done|done]. intros r1 t1 [Ht1 Hr1].
  eapply emits_seq; [apply getConfigSecret_emits| |done|done]. intros r2 t2 [Ht2 Hr2].
  eapply emits_seq; [apply getNamespacesConfigMap_emits| |done|done]. intros r3 t3 [Ht3 Hr3].
  eapply emits_seq; [apply setConditionAndFireEvent_emits| |done|done]. intros n1 t4 [-> Hn1].
  eapply emits_seq; [apply getAllAgentsAvailableCondition_emits| |done|done].
  intros r5 t5 [[Ht5 Hr5] Hc5].
  eapply emits_seq; [apply setConditionAndFireEvent_emits| |done|done]. intros n2 t6 [-> Hn2].
  eapply emits_seq; [apply getAllK8sSensorsAvailableCondition_emits| |done|done].
  intros r7 t7 [[Ht7 Hr7] Hc7].
  destruct (status_before_conditions old e z r1 r2 r3) as [Hf Hc0].
  eapply (emits_seq _ _ (fun n3 t8 => (Result.err r7 ≠ None ∧ n3 = n2 ∧ t8 = [] ∨ Result.err r7 = None ∧
      t8 = [fired (Result.res r7)] ∧
      ∃ time, n3 = with_condition time (Result.res r7) n2)) (fun _ _ => False)); [|intros n3 t8 H8|done|done].
  { unfold Result.IsSuccess. destruct (Result.err r7).
    - emits_step. by left.
    - eapply emits_mono; [apply setConditionAndFireEvent_emits|].
      intros [n3|p|] t8 H8; simpl in *; [|done..]. by right. }
  emits_step. unfold post. cbn [Result.res Result.err]. assert (Ht8 : Forall status_event t8)
    by (destruct H8 as [(_ & _ & ->)|(_ & -> & _)]; by repeat constructor).
  assert (Hok8 : reads_ok t8) by (destruct H8 as [(_ & _ & ->)|(_ & -> & _)]; intros ???; set_solver).
  assert (Hf1 : ∀ c, Forall status_event [fired c]) by (intros; by repeat constructor).
  assert (Hk1 : ∀ c, reads_ok [fired c]) by (intros; apply record_reads_ok).
  split; [rewrite app_nil_l, app_nil_r, !Forall_app; auto 10|]. split.
  - match goal with |- reports _ _ _ ?t _ => replace t with
      ((t1 ++ t2 ++ t3 ++ [fired (getReconcileSucceededCondition old e)]) ++
       t5 ++ [fired (Result.res r5)] ++ t7 ++ t8)
      by (by rewrite app_nil_l, app_nil_r, <- !app_assoc) end.
    eapply reports_conditions; try done.
    destruct H8 as [(Hn & -> & _)|(Hn & _ & Hn3)].
    + left. split; [done|]. by destruct (Result.err r7).
    + right. by rewrite Hn in Hc7.
  - rewrite !Result.Build_OnFailure. intros (((((_ & E1) & E2) & E3) & E5) & E7).
    split; [|rewrite E7 in Hc7; apply Hc7].
    rewrite app_nil_l, app_nil_r, !reads_ok_app. auto 15.
Qed.

Lemma agentWithUpdatedStatus_local a old e : keeps_local (agentWithUpdatedStatus a old e : M _).
Proof.
  unfold agentWithUpdatedStatus, getDaemonSet, getConfigSecret, getNamespacesConfigMap,
    setConditionAndFireEvent, getAllAgentsAvailableCondition, getAllK8sSensorsAvailableCondition,
    GetAsResult.
  keeps_local_auto.
Qed.

Lemma UpdateAgentStatus_run e (s : St W agentStatusManager) old :
  agentOld (local s) = Some old →
  ∃ r s' t new w, UpdateAgentStatus e s = (Ret r, s') ∧ local s' = local s ∧
    trace s' = trace s ++ t ++ [EWrite (RPatchAgentStatus new old) w] ∧
    Forall status_event t ∧ reports (local s) old e t new ∧
    (r = None → reads_ok t ∧ sensor_enabled old = true ∧ IgnoreNotFound w = None).
Proof.
  intros Ho. unfold UpdateAgentStatus, catching.
  rewrite (bind_Ret getLocal _ s (local s) s) by done. rewrite Ho.
  pose proof (agentWithUpdatedStatus_emits (local s) old e s) as (t & Ht & Hpost).
  pose proof (agentWithUpdatedStatus_local (local s) old e s) as Hl.
  destruct (agentWithUpdatedStatus (local s) old e s) as [[res|p|] s1] eqn:E; [|done..].
  rewrite (bind_Ret _ _ _ _ _ E). simpl in Ht, Hpost, Hl.
  unfold doWrite, call, mbind, M_bind.
  destruct (k8sWrite (RPatchAgentStatus (Result.res res) old) (world s1)) as [w w'].
  destruct Hpost as (Hev & Hrep & Hok).
  eexists _, _, t, (Result.res res), w. split; [reflexivity|]. simpl. rewrite Ht.
  split; [done|]. split; [by rewrite app_assoc|]. split; [done|]. split; [done|].
  intros Hr. unfold IgnoreNotFound in *. destruct w as [w|].
  - destruct (IsNotFound (Some w)).
    + apply Result.Build_OnFailure in Hr as [_ Hr]. naive_solver.
    + by apply MultiErrorBuilder.Build_AddSingle in Hr as [_ ?].
  - apply Result.Build_OnFailure in Hr as [_ Hr]. destruct (IsNotFound None); naive_solver.
Qed.
End UpdateFacts.

(** ** Properties *)


Definition example_manager : agentStatusManager :=
  SetAgentOld example_agent (AddAgentDaemonset (Key "ns" "agent") NewAgentStatusManager).
Definition available_daemonset : DaemonSet :=
  {| ds_Meta := (NewObjectMeta "agent" "ns") <| om_Generation := 1%Z |>;
     ds_MinReadySeconds := 0; ds_Selector := ∅; ds_Template := zero_PodTemplate;
     ds_UpdateStrategy := {| us_Type := ""; us_RollingUpdate := None |};
     ds_Status := {| dss_NumberMisscheduled := 0; dss_DesiredNumberScheduled := 3;
       dss_NumberAvailable := 3; dss_UpdatedNumberScheduled := 3;
       dss_CurrentNumberScheduled := 3; dss_NumberReady := 3; dss_NumberUnavailable := 0;
       dss_ObservedGeneration := 1; dss_CollisionCount := None; dss_Conditions := [] |} |}.


(** A deployment of the sensor that cannot be read any more leaves the condition
    as it was. *)
Example sensor_condition_stale :
  let available := {| cond_Type := CondtionTypeAllK8sSensorsAvailable; cond_Status := ConditionTrue;
    cond_ObservedGeneration := 1; cond_LastTransitionTime := 0; cond_Reason := ""; cond_Message := "" |} in
  let old := example_agent <| agent_Status ::= fun s => s <| st_Conditions := Some [available] |> |> in
  let manager := SetK8sSensorDeployment (Key "ns" "agent-k8sensor") (SetAgentOld old NewAgentStatusManager) in
  match agentWithUpdatedStatus manager old None (start empty_cluster manager) with
  | (Ret res, _) => condition_in CondtionTypeAllK8sSensorsAvailable (Result.res res) = Some available
  | _ => False
  end.
Proof. vm_compute. reflexivity. Qed.

(** With the k8sensor disabled, [UpdateAgentStatus] returns an error
    whatever the cluster answers: the error meant as a mark that the condition
    is skipped is collected with the others. *)
Theorem UpdateAgentStatus_disabled_sensor {W} `{K8sApi W} `{ApiErrors} `{Env} `{Debug} `{Semver}
    `{StatusConditionsLaws} reconcileErr (s : St W agentStatusManager) old :
  agentOld (local s) = Some old →
  kd_Enabled (ks_DeploymentSpec (spec_K8sSensor (agent_Spec old))) = Some false →
  ∃ e s', UpdateAgentStatus reconcileErr s = (Ret (Some e), s').
Proof.
  intros Ho Hd. destruct (UpdateAgentStatus_run reconcileErr s old Ho)
    as ([e|] & s' & t & new & w & E & _ & _ & _ & _ & Hok); [eauto|].
  destruct (Hok eq_refl) as (_ & He & _). unfold sensor_enabled in He. by rewrite Hd in He.
Qed.

Definition disabled_agent : InstanaAgent :=
  example_agent <| agent_Spec ::= fun s => s <| spec_K8sSensor ::= fun k =>
    k <| ks_DeploymentSpec ::= fun d => d <| kd_Enabled := Some false |> |> |> |>.
Lemma UpdateAgentStatus_disabled_sensor_witness :
  ∃ e s', UpdateAgentStatus None
    (start (empty_cluster <| c_daemonset := Some available_daemonset |>)
       (SetAgentOld disabled_agent example_manager)) = (Ret (Some e), s').
Proof.
  exact (UpdateAgentStatus_disabled_sensor None
    (start (empty_cluster <| c_daemonset := Some available_daemonset |>)
       (SetAgentOld disabled_agent example_manager)) disabled_agent eq_refl eq_refl).
Defined.

(** When a daemon set is taken to be available. *)
Theorem daemonsetIsAvailable_iff ds :
  daemonsetIsAvailable ds = true ↔
  let status := ds_Status ds in
  status ≠ zero_DaemonSetStatus ∧
  om_Generation (ds_Meta ds) = dss_ObservedGeneration status ∧
  dss_NumberMisscheduled status = 0%Z ∧
  dss_DesiredNumberScheduled status = dss_NumberAvailable status ∧
  dss_DesiredNumberScheduled status = dss_UpdatedNumberScheduled status.
Proof.
  unfold daemonsetIsAvailable, Optional.IsNotPresent, Optional.val.
  destruct (IsZero (ds_Status ds)) eqn:E.
  - apply IsZero_spec in E. simpl in *. naive_solver.
  - assert (ds_Status ds ≠ zero_DaemonSetStatus)
      by (intros Hz; rewrite Hz in E; done).
    cbv zeta. repeat match goal with |- context [Z.eqb ?x ?y] => destruct (Z.eqb_spec x y) end;
      simpl; naive_solver.
Qed.

(** When a deployment is taken to be available: its status is of the
    current generation, and among its conditions (the last one of each type
    counts) Available is true, Progressing is true because of a new replica
    set, and ReplicaFailure is not true. *)
Theorem deploymentIsAvailableAndComplete_iff d :
  let conditions := dps_Conditions (dp_Status d) in
  deploymentIsAvailableAndComplete d = true ↔
  dps_ObservedGeneration (dp_Status d) = om_Generation (dp_Meta d) ∧
  (∃ c, last_of_type DeploymentAvailable conditions = Some c ∧ dc_Status c = ConditionTrue) ∧
  (∃ c, last_of_type DeploymentProgressing conditions = Some c ∧
        dc_Status c = ConditionTrue ∧ dc_Reason c = "NewReplicaSetAvailable") ∧
  (∀ c, last_of_type DeploymentReplicaFailure conditions = Some c → dc_Status c ≠ ConditionTrue).
Proof.
  cbv zeta. unfold deploymentIsAvailableAndComplete, deploymentHasMinimumAvailability,
    deploymentIsComplete, deploymentHasReplicaFailures.
  rewrite !deploymentConditionsAsMap_lookup.
  destruct (Z.eqb_spec (dps_ObservedGeneration (dp_Status d)) (om_Generation (dp_Meta d)));
    simpl; [|naive_solver].
  destruct (last_of_type DeploymentAvailable _) as [c1|]; [|naive_solver].
  destruct (String.eqb_spec (dc_Status c1) ConditionTrue); simpl; [|naive_solver].
  destruct (last_of_type DeploymentProgressing _) as [c2|]; [|naive_solver].
  destruct (String.eqb_spec (dc_Status c2) ConditionTrue); simpl; [|naive_solver].
  destruct (String.eqb_spec (dc_Reason c2) "NewReplicaSetAvailable"); simpl; [|naive_solver].
  destruct (last_of_type DeploymentReplicaFailure _) as [c3|]; [|naive_solver].
  destruct (String.eqb_spec (dc_Status c3) ConditionTrue); naive_solver.
Qed.

Lemma substring_prefix n s : ∃ s', s = String.substring 0 n s +++ s'.
Proof.
  revert s. induction n as [|n IH]; intros s.
  - exists s. by destruct s.
  - destruct s as [|c s]; [by exists ""|]. destruct (IH s) as [s' E]. exists s'.
    simpl. by rewrite string_app_cons, <- E.
Qed.
Lemma substring_length n s : String.length (String.substring 0 n s) = Nat.min n (String.length s).
Proof.
  revert s. induction n as [|n IH]; intros [|c s]; simpl; try done. by rewrite IH.
Qed.

(** The messages of conditions fit the API's limit of 32768 bytes: a
    message is cut to a prefix only when it is longer. *)
Theorem truncateMessage_bounds message :
  (String.length (truncateMessage message) ≤ truncate_limit)%nat ∧
  (∃ rest, message = truncateMessage message +++ rest) ∧
  ((String.length message ≤ truncate_limit)%nat → truncateMessage message = message).
Proof.
  unfold truncateMessage. destruct (Nat.leb_spec (String.length message) truncate_limit) as [Hl|Hl].
  - split; [done|]. split; [|done]. exists "". by rewrite string_app_nil_r.
  - split; [rewrite substring_length; lia|]. split; [apply substring_prefix|lia].
Qed.

Lemma truncateMessage_bounds_witness :
  (String.length "ok" ≤ truncate_limit)%nat ∧
  (String.length (truncateMessage "ok") ≤ truncate_limit)%nat ∧
  (∃ rest, "ok" = truncateMessage "ok" +++ rest) ∧
  ((String.length "ok" ≤ truncate_limit)%nat → truncateMessage "ok" = "ok").
Proof.
  split; [apply Nat.leb_le; vm_compute; reflexivity|].
  exact (truncateMessage_bounds "ok").
Defined.
