(* ===== verification/EventFilter.v ===== *)
(** * Which events trigger a reconciliation: controllers/event_filter.go

    The predicates given to the controllers: creations and generation changes
    of the custom resource, and changes of dependents made by somebody else
    than the operator.  The managed fields of an object say who wrote last;
    their times are pointers, and the code dereferences some that can be nil. *)
From S2P Require Import Prelude GoStd Errors K8sTypes ApiTypes Effects Client.

(** [time.Time{}], before any time the API server gives. *)
Definition zero_time : Z := 0.
Definition time_IsZero (t : Z) : bool := Z.eqb t zero_time.

(** ** wasModifiedByOther *)

(** The first loop: the time of the operator's first entry that has one. *)
Fixpoint lastModifiedBySelf (mfes : list ManagedFieldsEntry) : Z :=
  match mfes with
  | [] => zero_time
  | mfe :: mfes =>
      if String.eqb (mfe_Manager mfe) FieldOwnerName then
        match mfe_Time mfe with
        | None => lastModifiedBySelf mfes
        | Some t => t
        end
      else lastModifiedBySelf mfes
  end.

(** The second loop. *)
Fixpoint someOtherAfter (last : Z) (oldFields mfes : list ManagedFieldsEntry) : or_panic bool :=
  match mfes with
  | [] => Value false
  | mfe :: mfes =>
      if String.eqb (mfe_Manager mfe) FieldOwnerName then someOtherAfter last oldFields mfes
      else
        match mfe_Time mfe with
        | None =>
            if negb (GoList.Contains oldFields mfe) then Value true
            else Panics nil_dereference
        | Some t => if (last <? t)%Z then Value true else someOtherAfter last oldFields mfes
        end
  end.

Definition wasModifiedByOther (objectNew objectOld : ObjectMeta) : or_panic bool :=
  let last := lastModifiedBySelf (om_ManagedFields objectNew) in
  if time_IsZero last then Value true
  else someOtherAfter last (om_ManagedFields objectOld) (om_ManagedFields objectNew).

(** ** The predicates *)
Inductive watched :=
  | WInstanaAgent (m : ObjectMeta)
  | WInstanaAgentRemote (m : ObjectMeta)
  | WOther (m : ObjectMeta).
Definition watched_meta (w : watched) : ObjectMeta :=
  match w with WInstanaAgent m | WInstanaAgentRemote m | WOther m => m end.
Definition generation_changed (objectOld objectNew : ObjectMeta) : bool :=
  negb (Z.eqb (om_Generation objectOld) (om_Generation objectNew)).

Inductive watch_event :=
  | CreateEvent (object : watched)
  | UpdateEvent (objectOld objectNew : watched)
  | DeleteEvent (object : watched) (deleteStateUnknown : bool).

Definition filterPredicate (e : watch_event) : or_panic bool :=
  match e with
  | CreateEvent (WInstanaAgent _) => Value true
  | CreateEvent _ => Value false
  | UpdateEvent (WInstanaAgent old) new => Value (generation_changed old (watched_meta new))
  | UpdateEvent old new => wasModifiedByOther (watched_meta new) (watched_meta old)
  | DeleteEvent (WInstanaAgent _) unknown => Value (negb unknown)
  | DeleteEvent _ _ => Value true
  end.

Definition filterPredicateRemote (e : watch_event) : or_panic bool :=
  match e with
  | CreateEvent (WInstanaAgentRemote _) => Value true
  | CreateEvent _ => Value false
  | UpdateEvent (WInstanaAgentRemote old) new => Value (generation_changed old (watched_meta new))
  | UpdateEvent old new => wasModifiedByOther (watched_meta new) (watched_meta old)
  | DeleteEvent (WInstanaAgentRemote _) unknown => Value (negb unknown)
  | DeleteEvent _ _ => Value true
  end.

(** ** Facts *)

(** The manager the API server records for what this operator writes. *)
Definition by_operator (mfe : ManagedFieldsEntry) : Prop :=
  mfe_Manager mfe = "instana-agent-operator".
Definition by_other (mfe : ManagedFieldsEntry) : Prop := ¬ by_operator mfe.
(** The operator wrote the object at [t]: its first entry that has a time. *)
Definition own_write (fields : list ManagedFieldsEntry) (t : Z) : Prop :=
  ∃ before mfe after, fields = before ++ mfe :: after ∧
    by_operator mfe ∧ mfe_Time mfe = Some t ∧
    Forall (fun e => by_operator e → mfe_Time e = None) before.
(** An entry that shows a change by somebody else: later than the operator's
    write, or without a time and new. *)
Definition shows_change (last : Z) (oldFields : list ManagedFieldsEntry)
    (mfe : ManagedFieldsEntry) : Prop :=
  by_other mfe ∧
  match mfe_Time mfe with
  | Some t => (last < t)%Z
  | None => mfe ∉ oldFields
  end.

Lemma own_write_cons_own mfe fields t :
  by_operator mfe → mfe_Time mfe = Some t → own_write (mfe :: fields) t.
Proof. intros Hm Ht. by exists [], mfe, fields. Qed.
Lemma own_write_cons_skip mfe fields t :
  (by_operator mfe → mfe_Time mfe = None) → own_write (mfe :: fields) t ↔ own_write fields t.
Proof.
  intros Hs. split.
  - intros (before & e & after & E & He & Ht & Hb). destruct before as [|e' before]; simplify_eq/=.
    + rewrite Hs in Ht by done. done.
    + exists before, e, after. by inversion Hb.
  - intros (before & e & after & -> & He & Ht & Hb). exists (mfe :: before), e, after.
    split_and!; [done..|]. by constructor.
Qed.

(** The first loop finds the operator's write. *)
Lemma lastModifiedBySelf_own fields t : own_write fields t → lastModifiedBySelf fields = t.
Proof.
  intros (before & mfe & after & -> & Hm & Ht & Hb).
  induction Hb as [|e before He _ IH]; simpl.
  - unfold by_operator in Hm. by rewrite Hm, Ht.
  - destruct (String.eqb_spec (mfe_Manager e) FieldOwnerName) as [Eo|]; [by rewrite He|done].
Qed.
Lemma lastModifiedBySelf_none fields :
  (∀ t, ¬ own_write fields t) → lastModifiedBySelf fields = zero_time.
Proof.
  induction fields as [|mfe fields IH]; intros Hn; [done|]. simpl.
  destruct (String.eqb_spec (mfe_Manager mfe) FieldOwnerName) as [Eo|Eo];
    [destruct (mfe_Time mfe) as [t|] eqn:Et|].
  - by destruct (Hn t); apply own_write_cons_own.
  - apply IH. intros t. rewrite <- (own_write_cons_skip mfe); [apply Hn|done].
  - apply IH. intros t. rewrite <- (own_write_cons_skip mfe); [apply Hn|]. by intros ?%Eo.
Qed.
Lemma lastModifiedBySelf_timed fields :
  lastModifiedBySelf fields ≠ zero_time → own_write fields (lastModifiedBySelf fields).
Proof.
  induction fields as [|mfe fields IH]; [done|]. simpl.
  destruct (String.eqb_spec (mfe_Manager mfe) FieldOwnerName) as [Eo|Eo];
    [destruct (mfe_Time mfe) as [t|] eqn:Et|]; intros Hz.
  - by apply own_write_cons_own.
  - apply own_write_cons_skip; [done|]. by apply IH.
  - apply own_write_cons_skip; [by intros ?%Eo|]. by apply IH.
Qed.

Lemma someOtherAfter_spec last oldFields mfes :
  match someOtherAfter last oldFields mfes with
  | Value b => b = true ↔ List.Exists (shows_change last oldFields) mfes
  | Panics p => p = nil_dereference ∧
      List.Exists (fun mfe => by_other mfe ∧ mfe_Time mfe = None ∧ mfe ∈ oldFields) mfes
  end.
Proof.
  induction mfes as [|mfe mfes IH]; simpl.
  - split; [done|]. by inversion 1.
  - destruct (String.eqb_spec (mfe_Manager mfe) FieldOwnerName) as [Hs|Ho].
    { assert (¬ shows_change last oldFields mfe) by (by intros [? _]).
      destruct (someOtherAfter last oldFields mfes); rewrite Exists_cons; [|naive_solver].
      rewrite IH. naive_solver. }
    destruct (mfe_Time mfe) as [t|] eqn:Et.
    + destruct (Z.ltb_spec last t).
      { split; [|done]. intros _. left. split; [done|]. by rewrite Et. }
      assert (¬ shows_change last oldFields mfe) by (intros [_ Hc]; rewrite Et in Hc; lia).
      destruct (someOtherAfter last oldFields mfes); rewrite Exists_cons; [|naive_solver].
      rewrite IH. naive_solver.
    + destruct (GoList.Contains oldFields mfe) eqn:Ec; simpl.
      * split; [done|]. left. by apply GoList.Contains_spec in Ec.
      * split; [|done]. intros _. left. split; [done|]. rewrite Et.
        intros Hin%GoList.Contains_spec. congruence.
Qed.

Lemma wasModifiedByOther_answers objectNew objectOld :
  let fields := om_ManagedFields objectNew in
  match wasModifiedByOther objectNew objectOld with
  | Value b => b = true ↔
      (∀ t, own_write fields t → t = zero_time) ∨
      ∃ t, own_write fields t ∧ List.Exists (shows_change t (om_ManagedFields objectOld)) fields
  | Panics p => p = nil_dereference ∧
      List.Exists (fun mfe => by_other mfe ∧ mfe_Time mfe = None ∧ mfe ∈ om_ManagedFields objectOld)
        fields
  end.
Proof.
  intros fields. unfold wasModifiedByOther, time_IsZero. fold fields.
  destruct (Z.eqb_spec (lastModifiedBySelf fields) zero_time) as [Hz|Hz].
  - split; [|done]. intros _. left. by intros t <-%lastModifiedBySelf_own.
  - pose proof (lastModifiedBySelf_timed _ Hz) as Hw.
    pose proof (someOtherAfter_spec (lastModifiedBySelf fields) (om_ManagedFields objectOld) fields) as Hs.
    destruct (someOtherAfter _ _ fields) as [b|p]; [|done]. rewrite Hs. split; [eauto|].
    intros [Hn|(t & <-%lastModifiedBySelf_own & Ht)]; [by destruct Hz; apply Hn|done].
Qed.

(** ** Properties *)

(** C28: [wasModifiedByOther] tells exactly whether somebody else changed the
    object.  The operator's write is its first entry, by name, that has a time;
    the answer is yes when there is no such entry, or its time is the zero of
    Go, or when an entry of somebody else is later than it, or has no time and
    is new.  It panics only on an entry of somebody else without a time that
    the old object has too. *)
Theorem wasModifiedByOther_spec objectNew objectOld :
  let fields := om_ManagedFields objectNew in
  match wasModifiedByOther objectNew objectOld with
  | Value b => b = true ↔
      (∀ t, own_write fields t → t = zero_time) ∨
      ∃ t, own_write fields t ∧ List.Exists (shows_change t (om_ManagedFields objectOld)) fields
  | Panics p => p = nil_dereference ∧
      List.Exists (fun mfe => by_other mfe ∧ mfe_Time mfe = None ∧ mfe ∈ om_ManagedFields objectOld)
        fields
  end.
Proof. apply wasModifiedByOther_answers. Qed.

(** An update that leaves alone the entry of a controller that gives no time. *)
Definition untimed_fields : list ManagedFieldsEntry :=
  [{| mfe_Manager := FieldOwnerName; mfe_Operation := "Apply"; mfe_APIVersion := "v1";
      mfe_Time := Some 5%Z; mfe_FieldsType := "FieldsV1"; mfe_FieldsV1 := "{}";
      mfe_Subresource := "" |};
   {| mfe_Manager := "other"; mfe_Operation := "Update"; mfe_APIVersion := "v1";
      mfe_Time := None; mfe_FieldsType := "FieldsV1"; mfe_FieldsV1 := "{}";
      mfe_Subresource := "" |}].
Example filterPredicate_panics :
  let m := (NewObjectMeta "svc" "ns") <| om_ManagedFields := untimed_fields |> in
  filterPredicate (UpdateEvent (WOther m) (WOther m)) = Panics nil_dereference.
Proof. vm_compute. reflexivity. Qed.

(** When all managed fields of others carry a time, the filter never
    panics, and an update of a dependent triggers a reconciliation exactly
    when the operator never wrote the object or somebody else wrote after it;
    an update of the custom resource exactly when its generation changed. *)
Theorem filterPredicate_update old new :
  Forall (fun mfe => by_other mfe → mfe_Time mfe ≠ None) (om_ManagedFields (watched_meta new)) →
  ∃ b, filterPredicate (UpdateEvent old new) = Value b ∧
    (b = true ↔
     match old with
     | WInstanaAgent m => om_Generation m ≠ om_Generation (watched_meta new)
     | _ =>
         let fields := om_ManagedFields (watched_meta new) in
         (∀ t, own_write fields t → t = zero_time) ∨
         ∃ last, own_write fields last ∧ List.Exists (fun mfe => by_other mfe ∧
                   ∃ t, mfe_Time mfe = Some t ∧ (last < t)%Z) fields
     end).
Proof.
  intros Ht. destruct old as [m|m|m]; simpl.
  { eexists. split; [done|]. unfold generation_changed. rewrite negb_true_iff, Z.eqb_neq. done. }
  all: pose proof (wasModifiedByOther_answers (watched_meta new) m) as Hs;
    destruct (wasModifiedByOther _ m) as [b|p];
    [exists b; split; [done|]; rewrite Hs; apply or_iff_compat_l|].
  1, 3: split; intros (last & Hw & He); exists last; (split; [done|]);
    rewrite Exists_exists in *; rewrite Forall_forall in Ht; destruct He as (mfe & Hin & Ho & Hm);
    specialize (Ht mfe Hin Ho); unfold shows_change; exists mfe;
    destruct (mfe_Time mfe) as [t|]; naive_solver.
  all: destruct Hs as [_ He]; apply Exists_exists in He as (mfe & Hin & Ho & Hn & _);
    rewrite Forall_forall in Ht; by destruct (Ht mfe Hin Ho).
Qed.

Lemma filterPredicate_update_witness :
  let m := (NewObjectMeta "svc" "ns") <| om_ManagedFields ::= fun _ => take 1 untimed_fields |> in
  ∃ b, filterPredicate (UpdateEvent (WOther m) (WOther m)) = Value b ∧
    (b = true ↔
     let fields := om_ManagedFields m in
     (∀ t, own_write fields t → t = zero_time) ∨
     ∃ last, own_write fields last ∧ List.Exists (fun mfe => by_other mfe ∧
               ∃ t, mfe_Time mfe = Some t ∧ (last < t)%Z) fields).
Proof.
  intros m. refine (filterPredicate_update (WOther m) (WOther m) _).
  constructor; [discriminate|constructor].
Defined.
