(* ===== verification/Helpers.v ===== *)
(** * Shared parts of the builders: names, ports, backends

    pkg/k8s/object/builders/common/helpers, ports, backends, and
    getK8SensorBackends, getRemoteSensorBackends of controllers/util.go. *)
From S2P Require Import Prelude GoStd Errors K8sTypes ApiTypes Effects Cluster Transformations.

(** ** helpers.go *)
Definition ContainersInstanaIORegistry := "containers.instana.io".

Definition serviceAccountNameDefault (name : string) (sa : ServiceAccountSpec) : string :=
  if Pointer.DerefOrEmpty (sas_Create sa) then name else "default".
Definition serviceAccountName (name : string) (sa : ServiceAccountSpec) : string :=
  Optional.GetOrDefault (Optional.Of (sas_Name sa)) (serviceAccountNameDefault name sa).
Definition tlsIsEnabled (tls : TlsSpec) : bool :=
  negb (String.eqb (tls_SecretName tls) "") ||
  (negb (String.eqb (tls_Certificate tls) "") && negb (String.eqb (tls_Key tls) "")).
Definition tlsSecretName (name : string) (tls : TlsSpec) : string :=
  Optional.GetOrDefault (Optional.Of (tls_SecretName tls)) (name +++ "-tls").
(** Nil pull secrets, not an empty list. *)
Definition useContainersSecret (a : BaseAgentSpec) : bool :=
  match ag_PullSecrets a with
  | None => HasPrefix (im_Name (ag_Image a)) ContainersInstanaIORegistry
  | Some _ => false
  end.
Definition imagePullSecrets (containersSecretName : string) (a : BaseAgentSpec) :
    option (list LocalObjectReference) :=
  if useContainersSecret a then Some [{| lor_Name := containersSecretName |}]
  else ag_PullSecrets a.

(** The strict order of the comparison is total on distinct names; Go leaves
    the order of equal names open. *)
Definition env_le (a b : EnvVar) : Prop := str_le (ev_Name a) (ev_Name b).
#[export] Instance env_le_dec : RelDecision env_le :=
  fun a b => decide (str_le (ev_Name a) (ev_Name b)).
Definition SortEnvVarsByName (envVars : list EnvVar) : list EnvVar := merge_sort env_le envVars.

Section Helpers.
Context (agent : InstanaAgent).
Definition ServiceAccountName : string :=
  serviceAccountName (agent_Name agent) (spec_ServiceAccount (agent_Spec agent)).
Definition TLSIsEnabled : bool := tlsIsEnabled (ag_Tls (spec_Agent (agent_Spec agent))).
Definition TLSSecretName : string :=
  tlsSecretName (agent_Name agent) (ag_Tls (spec_Agent (agent_Spec agent))).
Definition HeadlessServiceName : string := agent_Name agent +++ "-headless".
Definition K8sSensorResourcesName : string := agent_Name agent +++ "-k8sensor".
Definition ContainersSecretName : string := agent_Name agent +++ "-containers-instana-io".
Definition UseContainersSecret : bool := useContainersSecret (spec_Agent (agent_Spec agent)).
Definition ImagePullSecrets : option (list LocalObjectReference) :=
  imagePullSecrets ContainersSecretName (spec_Agent (agent_Spec agent)).
End Helpers.

(** ** remote_helpers.go *)
Section RemoteHelpers.
Context (agent : InstanaAgentRemote).
Definition remote_Name : string := om_Name (remote_Meta agent).
Definition RemoteServiceAccountName : string :=
  serviceAccountName remote_Name (rspec_ServiceAccount (remote_Spec agent)).
Definition RemoteTLSIsEnabled : bool := tlsIsEnabled (ag_Tls (rspec_Agent (remote_Spec agent))).
Definition RemoteTLSSecretName : string :=
  tlsSecretName remote_Name (ag_Tls (rspec_Agent (remote_Spec agent))).
Definition RemoteContainersSecretName : string :=
  "instana-agent-r-" +++ remote_Name +++ "-containers-instana-io".
Definition RemoteUseContainersSecret : bool :=
  useContainersSecret (rspec_Agent (remote_Spec agent)).
Definition RemoteImagePullSecrets : option (list LocalObjectReference) :=
  imagePullSecrets RemoteContainersSecretName (rspec_Agent (remote_Spec agent)).
Definition RemoteResourcesName : string := remote_Name +++ "-remote".
End RemoteHelpers.

(** ** ports *)
Record InstanaAgentPortConfig := { port_Name : string; port_Port : Z }.
Definition InstanaAgentAPIPortConfig := {| port_Name := "agent-apis"; port_Port := 42699 |}.
Definition OpenTelemetryLegacyPortConfig := {| port_Name := "otlp-legacy"; port_Port := 55680 |}.
Definition DefaultOpenTelemetryGRPCPortConfig := {| port_Name := "otlp-grpc"; port_Port := 4317 |}.
Definition DefaultOpenTelemetryHTTPPortConfig := {| port_Name := "otlp-http"; port_Port := 4318 |}.

Definition AsServicePort (i : InstanaAgentPortConfig) : ServicePort :=
  {| sp_Name := port_Name i; sp_Protocol := "TCP"; sp_Port := port_Port i;
     sp_TargetPort := IntVal (port_Port i) |}.
Definition AsContainerPort (i : InstanaAgentPortConfig) : ContainerPort :=
  {| cp_Name := port_Name i; cp_ContainerPort := port_Port i; cp_Protocol := "TCP" |}.

(** Both getters of ports_builder.go, for a conversion: a port of the custom
    resource overrides the default; the pointers to the two [Enabled] fields
    are dereferenced without a check. *)
Definition withPort (config : InstanaAgentPortConfig) (port : option Z) : InstanaAgentPortConfig :=
  match port with
  | Some p => {| port_Name := port_Name config; port_Port := p |}
  | None => config
  end.
Definition getPorts {A} (as_port : InstanaAgentPortConfig → A) (otel : OpenTelemetry) :
    or_panic (list A) :=
  let ports := [as_port InstanaAgentAPIPortConfig] in
  if Pointer.DerefOrDefault (ot_Enabled otel) false then
    grpc ← deref (otp_Enabled (ot_GRPC otel));
    let ports :=
      if grpc : bool then
        ports ++ [as_port (withPort DefaultOpenTelemetryGRPCPortConfig (otp_Port (ot_GRPC otel)));
                  as_port OpenTelemetryLegacyPortConfig]
      else ports in
    http ← deref (otp_Enabled (ot_HTTP otel));
    mret (if http : bool then
            ports ++ [as_port (withPort DefaultOpenTelemetryHTTPPortConfig (otp_Port (ot_HTTP otel)))]
          else ports)
  else Value ports.
Definition GetServicePorts (otel : OpenTelemetry) : or_panic (list ServicePort) :=
  getPorts AsServicePort otel.
Definition GetContainerPorts (otel : OpenTelemetry) : or_panic (list ContainerPort) :=
  getPorts AsContainerPort otel.

(** ** backends *)
Record K8SensorBackend := {
  kb_ResourceSuffix : string; kb_EndpointKey : string; kb_DownloadKey : string;
  kb_EndpointHost : string; kb_EndpointPort : string }.

(** [getK8SensorBackends] and [getRemoteSensorBackends]: the two backend types
    have the same fields. *)
Definition additionalBackend (i : nat) (b : BackendSpec) : K8SensorBackend :=
  {| kb_ResourceSuffix := "-" +++ itoa (Z.of_nat i + 1); kb_EndpointKey := be_Key b;
     kb_DownloadKey := ""; kb_EndpointHost := be_EndpointHost b;
     kb_EndpointPort := be_EndpointPort b |}.
Definition sensorBackends (a : BaseAgentSpec) : list K8SensorBackend :=
  {| kb_ResourceSuffix := ""; kb_EndpointKey := ag_Key a; kb_DownloadKey := ag_DownloadKey a;
     kb_EndpointHost := ag_EndpointHost a; kb_EndpointPort := ag_EndpointPort a |}
  :: imap additionalBackend (ag_AdditionalBackends a).
Definition getK8SensorBackends (agent : InstanaAgent) : list K8SensorBackend :=
  sensorBackends (spec_Agent (agent_Spec agent)).
Definition getRemoteSensorBackends (agent : InstanaAgentRemote) : list K8SensorBackend :=
  sensorBackends (rspec_Agent (remote_Spec agent)).

(** ** Facts *)
Lemma sensorBackends_suffix a i b :
  sensorBackends a !! i = Some b →
  kb_ResourceSuffix b = (if Nat.eqb i 0 then "" else "-" +++ itoa (Z.of_nat i)).
Proof.
  destruct i as [|i]; [by intros [= <-]|].
  unfold sensorBackends. rewrite lookup_cons_ne_0 by done. simpl pred.
  rewrite list_lookup_imap. intros (x & _ & ->)%fmap_Some. unfold additionalBackend.
  cbn [kb_ResourceSuffix Nat.eqb]. f_equal. f_equal. lia.
Qed.

Lemma sensorBackends_suffix_inj a i j b c :
  sensorBackends a !! i = Some b → sensorBackends a !! j = Some c →
  kb_ResourceSuffix b = kb_ResourceSuffix c → i = j.
Proof.
  intros Hb%sensorBackends_suffix Hc%sensorBackends_suffix. rewrite Hb, Hc.
  destruct i as [|i], j as [|j]; cbn [Nat.eqb]; try done.
  intros E%(string_app_inj_l "-"). apply (inj (pretty (A:=Z))) in E. lia.
Qed.

Lemma SortEnvVarsByName_perm l : SortEnvVarsByName l ≡ₚ l.
Proof. apply merge_sort_Permutation. Qed.

#[export] Instance env_le_trans : Transitive env_le.
Proof. intros a b c. unfold env_le. apply str_le_trans. Qed.
#[export] Instance env_le_total : Total env_le.
Proof. intros a b. unfold env_le. apply str_le_total. Qed.

Lemma SortEnvVarsByName_sorted l : StronglySorted env_le (SortEnvVarsByName l).
Proof. apply (StronglySorted_merge_sort env_le). Qed.

(** Any sorted arrangement of variables of distinct names is this one. *)
Lemma SortEnvVarsByName_unique l k :
  NoDup (ev_Name <$> l) → k ≡ₚ l → StronglySorted env_le k → k = SortEnvVarsByName l.
Proof.
  intros Hd Hk Hs. pose proof (SortEnvVarsByName_sorted l) as Hs'.
  assert (Hp : k ≡ₚ SortEnvVarsByName l) by (by rewrite SortEnvVarsByName_perm).
  assert (Hd' : NoDup (ev_Name <$> k)) by (by rewrite Hk).
  clear Hk Hd. revert Hs' Hp. generalize (SortEnvVarsByName l) as m.
  induction Hs as [|x k Hs IH Hx]; intros m Hm Hp; [by apply Permutation_nil_l in Hp|].
  destruct Hm as [|y m Hm Hy]; [by apply Permutation_nil_r in Hp|].
  assert (x = y) as ->.
  { assert (Hin : y ∈ x :: k) by (rewrite Hp; by left).
    assert (Hin' : x ∈ y :: m) by (rewrite <- Hp; by left).
    apply elem_of_cons in Hin as [->|Hin]; [done|].
    apply elem_of_cons in Hin' as [->|Hin']; [done|].
    rewrite Forall_forall in Hx, Hy. specialize (Hx y Hin). specialize (Hy x Hin').
    rewrite fmap_cons in Hd'. apply NoDup_cons in Hd' as [Hn _]. exfalso. apply Hn.
    rewrite (anti_symm str_le (ev_Name x) (ev_Name y)) by done. by apply list_elem_of_fmap_2. }
  f_equal. apply IH; [|done|].
  - rewrite fmap_cons in Hd'. by apply NoDup_cons in Hd' as [_ ?].
  - by eapply Permutation_cons_inv.
Qed.

Lemma getPorts_after_Default {A} (as_port : InstanaAgentPortConfig → A) agent :
  let otel := spec_OpenTelemetry (agent_Spec (Default agent)) in
  let user := spec_OpenTelemetry (agent_Spec agent) in
  let on := Pointer.DerefOrDefault (ot_Enabled user) true in
  let configs :=
    [InstanaAgentAPIPortConfig] ++
    (if on && Pointer.DerefOrDefault (otp_Enabled (ot_GRPC user)) true
     then [withPort DefaultOpenTelemetryGRPCPortConfig (otp_Port (ot_GRPC user));
           OpenTelemetryLegacyPortConfig] else []) ++
    (if on && Pointer.DerefOrDefault (otp_Enabled (ot_HTTP user)) true
     then [withPort DefaultOpenTelemetryHTTPPortConfig (otp_Port (ot_HTTP user))] else []) in
  getPorts as_port otel = Value (as_port <$> configs).
Proof.
  destruct (spec_OpenTelemetry (agent_Spec agent)) as [en [ge gp] [he hp]] eqn:E.
  cbv zeta. unfold Default, default_InstanaAgentSpec, default_OpenTelemetry, getPorts.
  cbn. rewrite E. destruct en as [[]|], ge as [[]|], he as [[]|]; reflexivity.
Qed.

(** ** Properties *)

(** After [Default], building the ports never dereferences a nil pointer,
    and the ports are the agent's, then, when OpenTelemetry is enabled, those
    of the enabled protocols, gRPC with the legacy port; a container port
    corresponds to each service port. *)
Theorem GetServicePorts_after_Default agent :
  let otel := spec_OpenTelemetry (agent_Spec (Default agent)) in
  let user := spec_OpenTelemetry (agent_Spec agent) in
  let on := Pointer.DerefOrDefault (ot_Enabled user) true in
  let configs :=
    [InstanaAgentAPIPortConfig] ++
    (if on && Pointer.DerefOrDefault (otp_Enabled (ot_GRPC user)) true
     then [withPort DefaultOpenTelemetryGRPCPortConfig (otp_Port (ot_GRPC user));
           OpenTelemetryLegacyPortConfig] else []) ++
    (if on && Pointer.DerefOrDefault (otp_Enabled (ot_HTTP user)) true
     then [withPort DefaultOpenTelemetryHTTPPortConfig (otp_Port (ot_HTTP user))] else []) in
  GetServicePorts otel = Value (AsServicePort <$> configs) ∧
  GetContainerPorts otel = Value (AsContainerPort <$> configs).
Proof. split; apply getPorts_after_Default. Qed.

(** The backends of a custom resource have pairwise distinct resource
    suffixes, so the deployments of the k8sensor have distinct names. *)
Theorem getK8SensorBackends_distinct agent :
  length (getK8SensorBackends agent) =
    S (length (ag_AdditionalBackends (spec_Agent (agent_Spec agent)))) ∧
  NoDup ((fun b => K8sSensorResourcesName agent +++ kb_ResourceSuffix b)
           <$> getK8SensorBackends agent).
Proof.
  unfold getK8SensorBackends. split; [simpl; by rewrite length_imap|].
  apply NoDup_alt. intros i j x Hi Hj.
  rewrite list_lookup_fmap in Hi, Hj.
  apply fmap_Some in Hi as (b & Hb & ->). apply fmap_Some in Hj as (c & Hc & Heq).
  apply string_app_inj_l in Heq. by eapply sensorBackends_suffix_inj.
Qed.
