(* ===== verification/Reconcile.v ===== *)
(** * Steps of a reconciliation: the custom resource and its deletion

    controllers/reconcile_result.go, agent.go, finalizer.go, cleanup.go,
    util.go and reconciliation/helm: reading and patching the custom resource,
    its finalizers, what happens when it is deleted, and the questions the
    reconciliation asks the cluster first. *)
From S2P Require Import Prelude GoStd Errors K8sTypes ApiTypes Effects Cluster Client.
From S2P Require Import Transformations Lifecycle OperatorUtils.

(** ** reconcile_result.go *)
Record ctrlResult := { cr_Requeue : bool }.
#[export] Instance ctrlResult_zero : GoZero ctrlResult :=
  {| zero := {| cr_Requeue := false |}; IsZero r := negb (cr_Requeue r) |}.

(** An empty optional lets the reconciliation continue. *)
Record reconcileReturn := { rr_res : option (Result.t ctrlResult) }.
Definition suppliesReconcileResult (r : reconcileReturn) : bool :=
  match rr_res r with Some _ => true | None => false end.
(** [Get] of an empty optional is a nil interface, and its [Get] panics. *)
Definition reconcileResult (r : reconcileReturn) : or_panic (ctrlResult * option error) :=
  res ← deref (rr_res r);
  mret (Result.res res, Result.err res).
Definition reconcileSuccess (res : ctrlResult) : reconcileReturn :=
  {| rr_res := Some (Result.OfSuccess res) |}.
Definition reconcileFailure (err : option error) : reconcileReturn :=
  {| rr_res := Some (Result.OfFailure err) |}.
Definition reconcileContinue : reconcileReturn := {| rr_res := None |}.

Definition finalizerV1 := "agent.instana.io/finalizer".
Definition finalizerV3 := "v3.agent.instana.io/finalizer".

Definition noRequeue : ctrlResult := {| cr_Requeue := false |}.
Definition requeue : ctrlResult := {| cr_Requeue := true |}.

Definition agentFinalizers (agent : InstanaAgent) : list string := om_Finalizers (agent_Meta agent).
Definition withFinalizers (l : list string) (agent : InstanaAgent) : InstanaAgent :=
  agent <| agent_Meta ::= fun m => m <| om_Finalizers := l |> |>.

Section Reconcile.
Context {W X : Type} `{K8sApi W} `{ApiErrors} `{Env} `{Finalizers} `{HelmErrors}.

(** ** agent.go *)
Definition getAgent (key : ObjectKey) : M W X (option InstanaAgent * reconcileReturn) :=
  r ← doGet KInstanaAgent key;
  mret match r with
       | inl agent => (Some agent, reconcileContinue)
       | inr e =>
           if IsNotFound (Some e) then (None, reconcileSuccess noRequeue)
           else (None, reconcileFailure (Some e))
       end.

Definition updateAgent (agentOld agentNew : InstanaAgent) : M W X reconcileReturn :=
  err ← doWrite (RPatchAgent agentNew agentOld);
  mret match err with
       | None => reconcileSuccess requeue
       | Some _ => if IsNotFound err then reconcileSuccess noRequeue else reconcileFailure err
       end.

(** ** reconciliation/helm/agent_reconciliation.go *)
Definition NewHelmReconciliation : M W X unit :=
  err ← call helmInit EHelmInit;
  match err with
  | None => mret tt
  | Some e =>
      panic (PanicValue ("Failed initializing Helm Reconciliation: failure initializing Helm configuration: "
                           +++ ErrorMsg e))
  end.
Definition helmDelete : M W X (option error) :=
  err ← call helmUninstall EHelmUninstall;
  mret match err with
       | Some e => if IsReleaseNotFound e then None else Some e
       | None => None
       end.

(** ** cleanup.go *)
Definition cleanupHelmChart (agentOld : InstanaAgent) : M W X reconcileReturn :=
  let '(finalizers, removed) := RemoveFinalizer finalizerV1 (agentFinalizers agentOld) in
  let agentNew := withFinalizers finalizers agentOld in
  if negb removed then mret reconcileContinue
  else
    _ ← NewHelmReconciliation;
    err ← helmDelete;
    match err with
    | Some _ => mret (reconcileFailure err)
    | None => updateAgent agentOld agentNew
    end.

Definition cleanupDependents (o : operatorUtils W X) (agentOld : InstanaAgent) :
    M W X reconcileReturn :=
  let '(finalizers, removed) := RemoveFinalizer finalizerV3 (agentFinalizers agentOld) in
  let agentNew := withFinalizers finalizers agentOld in
  if negb removed then mret reconcileContinue
  else
    err ← DeleteAll o;
    match err with
    | Some _ => mret (reconcileFailure err)
    | None => updateAgent agentOld agentNew
    end.

Definition cleanupNodeLabels : M W X unit :=
  let cmd := "kubectl label node --all pool-" in
  _ ← call (runCommand cmd) (ECommand cmd);
  mret tt.

Definition handleDeletion (o : operatorUtils W X) (agent : InstanaAgent) : M W X reconcileReturn :=
  _ ← cleanupNodeLabels;
  match om_DeletionTimestamp (agent_Meta agent) with
  | None => mret reconcileContinue
  | Some _ =>
      cleanupChartRes ← cleanupHelmChart agent;
      if suppliesReconcileResult cleanupChartRes then mret cleanupChartRes
      else
        cleanupDependentsRes ← cleanupDependents o agent;
        if suppliesReconcileResult cleanupDependentsRes then mret cleanupDependentsRes
        else mret (reconcileSuccess noRequeue)
  end.

(** ** finalizer.go *)
Definition addOrUpdateFinalizers (agentOld : InstanaAgent) : M W X reconcileReturn :=
  removeHelmChartRes ← cleanupHelmChart agentOld;
  if suppliesReconcileResult removeHelmChartRes then mret removeHelmChartRes
  else
    let '(finalizers, added) := AddFinalizer finalizerV3 (agentFinalizers agentOld) in
    if added : bool then updateAgent agentOld (withFinalizers finalizers agentOld)
    else mret reconcileContinue.

(** ** util.go *)
Definition isOpenShift (agent : InstanaAgent) : M W X (bool * reconcileReturn) :=
  r ← ClusterIsOpenShift agent;
  mret match snd r with
       | Some _ => (false, reconcileFailure (snd r))
       | None => (fst r, reconcileContinue)
       end.

Definition PersistHostUniqueID := "INSTANA_PERSIST_HOST_UNIQUE_ID".

(** The loop over the containers of the existing daemon set. *)
Fixpoint hasPersistHostUniqueID (containers : list Container) : option bool :=
  match containers with
  | [] => None
  | container :: containers =>
      if String.eqb (ct_Name container) "instana-agent"
      then Some (GoList.Any (ct_Env container) (fun env => String.eqb (ev_Name env) PersistHostUniqueID))
      else hasPersistHostUniqueID containers
  end.

Definition shouldSetPersistHostUniqueIDEnvVar (agent : InstanaAgent) (zone : option Zone) :
    M W X (bool * reconcileReturn) :=
  let dsName :=
    match zone with
    | Some z => agent_Name agent +++ "-" +++ zone_Name z
    | None => agent_Name agent
    end in
  r ← doGet KDaemonSet (Key (agent_Namespace agent) dsName);
  mret match r with
       | inr e =>
           if IsNotFound (Some e) then (true, reconcileContinue)
           else (false, reconcileFailure (Some e))
       | inl existingDS =>
           match hasPersistHostUniqueID (ps_Containers (pt_Spec (ds_Template existingDS))) with
           | Some b => (b, reconcileContinue)
           | None =>
               (false, reconcileFailure (Some (Errorf
                  ("instana-agent container not found in DaemonSet " +++ dsName))))
           end
       end.
End Reconcile.

(** ** Facts *)
Section ReconcileFacts.
Context {W X : Type} `{K8sApi W} `{ApiErrors} `{Env} `{FinalizersLaws} `{HelmErrors}.
Implicit Types (o : operatorUtils W X) (agent : InstanaAgent) (t : list event).

Definition under_deletion agent : Prop := om_DeletionTimestamp (agent_Meta agent) ≠ None.

Lemma bool_iff_true (b : bool) (P : Prop) : (b = true ↔ P) → P → b = true.
Proof. naive_solver. Qed.
Lemma bool_iff_false (b : bool) (P : Prop) : (b = true ↔ P) → ¬ P → b = false.
Proof. destruct b; naive_solver. Qed.

Lemma RemoveFinalizer_absent f l : f ∉ l → snd (RemoveFinalizer f l) = false.
Proof. apply bool_iff_false, RemoveFinalizer_changed. Qed.
Lemma RemoveFinalizer_present f l : f ∈ l → snd (RemoveFinalizer f l) = true.
Proof. apply bool_iff_true, RemoveFinalizer_changed. Qed.

Lemma cleanupHelmChart_absent agent :
  finalizerV1 ∉ agentFinalizers agent →
  cleanupHelmChart (W:=W) (X:=X) agent = mret reconcileContinue.
Proof.
  intros Hf%RemoveFinalizer_absent. unfold cleanupHelmChart.
  destruct (RemoveFinalizer _ _) as [l b]. simpl in Hf. by subst b.
Qed.

(** Patches of the custom resource, its status aside. *)
Definition patches_agent (ev : event) : bool :=
  match ev with EWrite (RPatchAgent _ _) _ => true | _ => false end.

Lemma updateAgent_emits (old new : InstanaAgent) :
  emits (W:=W) (X:=X) (updateAgent old new) (post (fun r t =>
    suppliesReconcileResult r = true ∧ ∃ e, t = [EWrite (RPatchAgent new old) e])
    (fun _ _ => False)).
Proof.
  unfold updateAgent. do 3 emits_step. simpl. split; [|by eexists].
  destruct a; [|done]. by destruct (IsNotFound _).
Qed.

(** No patch in [t] drops the finalizer of the operator. *)
Definition keeps_finalizer t : Prop :=
  ∀ new old e, EWrite (RPatchAgent new old) e ∈ t → finalizerV3 ∈ agentFinalizers new.

Lemma keeps_finalizer_app t u : keeps_finalizer t → keeps_finalizer u → keeps_finalizer (t ++ u).
Proof. intros Ht Hu new old e [|]%elem_of_app; eauto. Qed.
Lemma keeps_finalizer_none t :
  Forall (fun ev => patches_agent ev = false) t → keeps_finalizer t.
Proof. rewrite Forall_forall. intros Ht new old e Hin. by specialize (Ht _ Hin). Qed.

(** A patch the Helm clean-up makes drops nothing but the old finalizer. *)
Lemma cleanupHelmChart_emits agent :
  finalizerV3 ∈ agentFinalizers agent →
  emits (W:=W) (X:=X) (cleanupHelmChart agent) (post
    (fun _ t => keeps_finalizer t) (fun _ t => keeps_finalizer t)).
Proof.
  intros Hv3. destruct (decide (finalizerV1 ∈ agentFinalizers agent)) as [Hin|Hn].
  2: { rewrite cleanupHelmChart_absent by done. emits_step. by apply keeps_finalizer_none. }
  pose proof (RemoveFinalizer_present _ _ Hin) as Hr.
  pose proof (RemoveFinalizer_elem finalizerV1 (agentFinalizers agent)) as He.
  unfold cleanupHelmChart, NewHelmReconciliation, helmDelete.
  destruct (RemoveFinalizer _ _) as [l b]. simpl in Hr, He. subst b. simpl.
  do 3 emits_step. destruct a as [e|]; emits_step; [apply keeps_finalizer_none; by repeat constructor|].
  do 4 emits_step.
  destruct (match a with Some e => if IsReleaseNotFound e then None else Some e
                       | None => None end) as [e|].
  - emits_step. apply keeps_finalizer_none. by repeat constructor.
  - eapply emits_mono; [apply updateAgent_emits|]. intros [r|p|] t Ht; simpl in *; [|done..].
    destruct Ht as (Hs & e & ->). intros new old e' Hev. assert (new = withFinalizers l agent) as -> by set_solver.
    apply He. done.
Qed.
End ReconcileFacts.

Section DeletionFacts.
Context {W X : Type} `{K8sApi W} `{ApiErrors} `{Env} `{FinalizersLaws} `{HelmErrors}
  `{DependentsCodec} `{MapRangeLaws}.
Implicit Types (agent : InstanaAgent) (t : list event).

(** A patch that drops the operator's finalizer directly follows a clean-up of
    all dependents that reported success. *)
Definition cleaned_before_drop agent t : Prop :=
  ∀ l new old e m, t = l ++ EWrite (RPatchAgent new old) e :: m →
    finalizerV3 ∉ agentFinalizers new →
    ∃ l' u, l = l' ++ u ∧
      retried (cleanup_attempt (NewDependentLifecycleManager agent) []) 5 None u.

Lemma keeps_finalizer_cleaned agent t : keeps_finalizer t → cleaned_before_drop agent t.
Proof. intros Ht l new old e m -> Hn. destruct Hn. apply (Ht new old e). set_solver. Qed.

Lemma cleaned_before_last agent t u ev :
  keeps_finalizer (t ++ u) →
  retried (cleanup_attempt (NewDependentLifecycleManager agent) []) 5 None u →
  cleaned_before_drop agent ((t ++ u) ++ [ev]).
Proof.
  intros Hk Hu l new old e m E Hn. apply app_split in E as [(k & E)|(k & -> & E)].
  - destruct Hn. eapply (Hk new old e). rewrite E. set_solver.
  - destruct k as [|? []]; simplify_eq/=. exists t, u. by rewrite app_nil_r.
Qed.

Lemma cleanup_ok_keeps_finalizer d current t : cleanup_ok d current t → keeps_finalizer t.
Proof. intros Ht new old e Hin. by specialize (Ht _ Hin). Qed.

Lemma handleDeletion_emits agent :
  finalizerV3 ∈ agentFinalizers agent →
  emits (W:=W) (X:=X) (handleDeletion (NewOperatorUtils agent) agent) (fun _ t =>
    cleaned_before_drop agent t ∧ (om_DeletionTimestamp (agent_Meta agent) = None → keeps_finalizer t)).
Proof.
  intros Hv3. unfold handleDeletion, cleanupNodeLabels. do 4 emits_step.
  assert (Hcmd : keeps_finalizer ([ECommand "kubectl label node --all pool-" a] ++ []))
    by (apply keeps_finalizer_none; by repeat constructor).
  destruct (om_DeletionTimestamp (agent_Meta agent)).
  2: { emits_step. split; [by apply keeps_finalizer_cleaned|done]. }
  eapply emits_seq; [by apply cleanupHelmChart_emits| | |].
  2, 3: intros; split; [apply keeps_finalizer_cleaned; by apply keeps_finalizer_app|done].
  intros r th Hth. destruct (suppliesReconcileResult r).
  { emits_step. split; [|done]. rewrite !app_nil_r.
    apply keeps_finalizer_cleaned. by apply keeps_finalizer_app. }
  pose proof (RemoveFinalizer_present _ _ Hv3) as Hrm. unfold cleanupDependents, DeleteAll.
  destruct (RemoveFinalizer finalizerV3 _) as [fs b]. simpl in Hrm. subst b. simpl negb. cbv iota.
  emits_step. eapply emits_seq; [apply CleanupDependents_emits| | |].
  2: intros p t [_ Ht%cleanup_ok_keeps_finalizer].
  3: intros t [_ Ht%cleanup_ok_keeps_finalizer].
  2, 3: split; [|done]; apply keeps_finalizer_cleaned;
    repeat first [done|apply keeps_finalizer_app].
  intros err u [Hu Hok%cleanup_ok_keeps_finalizer]. destruct err as [err|].
  { emits_step. cbv beta iota delta [suppliesReconcileResult reconcileFailure rr_res].
    emits_step. split; [|done]. rewrite !app_nil_r. apply keeps_finalizer_cleaned.
    repeat first [done|apply keeps_finalizer_app]. }
  eapply emits_mono; [apply updateAgent_emits|]. intros [r'|p|] t Ht; simpl in Ht; [|done..].
  destruct Ht as (Hs & e & ->). cbv beta iota. rewrite Hs. emits_step. split; [|done].
  rewrite !app_nil_r, !app_assoc. apply cleaned_before_last; [|done].
  repeat first [done|apply keeps_finalizer_app].
Qed.
End DeletionFacts.

(** ** Properties *)

(** C5: handling the deletion of a custom resource, however the cluster
    answers: while it is not deleted no patch drops the operator's finalizer,
    and once it is, a patch that drops it directly follows a clean-up of all
    its dependents that reported success. *)
Theorem finalizer_dropped_after_cleanup {W X} `{K8sApi W} `{ApiErrors} `{Env}
    `{FinalizersLaws} `{HelmErrors} `{DependentsCodec} `{MapRangeLaws}
    agent (s : St W X) out s' :
  handleDeletion (NewOperatorUtils agent) agent s = (out, s') →
  finalizerV3 ∈ agentFinalizers agent →
  ∃ t, trace s' = trace s ++ t ∧ cleaned_before_drop agent t ∧
    (om_DeletionTimestamp (agent_Meta agent) = None → keeps_finalizer t).
Proof.
  intros E Hv3. destruct (emits_run _ _ _ _ _ (handleDeletion_emits agent Hv3) E) as (t & ? & ? & ?).
  eauto.
Qed.

Definition deleted_agent : InstanaAgent :=
  example_agent <| agent_Meta ::= fun m =>
    m <| om_Finalizers := [finalizerV3] |> <| om_DeletionTimestamp := Some 7%Z |> |>.
Lemma finalizer_dropped_after_cleanup_witness :
  ∃ out s' t, handleDeletion (NewOperatorUtils deleted_agent) deleted_agent
      (start generation1_cluster tt) = (out, s') ∧ trace s' = [] ++ t ∧
    cleaned_before_drop deleted_agent t ∧
    (om_DeletionTimestamp (agent_Meta deleted_agent) = None → keeps_finalizer t).
Proof.
  destruct (handleDeletion (NewOperatorUtils deleted_agent) deleted_agent
      (start generation1_cluster tt)) as [out s'] eqn:E.
  exists out, s'.
  destruct (finalizer_dropped_after_cleanup deleted_agent (start generation1_cluster tt) out s' E)
    as (t & Ht & Hc & Hk); [left|].
  exists t. split; [reflexivity|]. split; [exact Ht|]. split; [exact Hc|exact Hk].
Defined.

(** [addOrUpdateFinalizers] lets the reconciliation continue exactly when
    the resource carries the operator's finalizer and not the one of the old
    Helm installation, and does nothing then; otherwise, if it returns, it
    ends the reconciliation. *)
Theorem addOrUpdateFinalizers_spec {W X} `{K8sApi W} `{ApiErrors} `{FinalizersLaws} `{HelmErrors}
    agent (s : St W X) :
  (finalizerV3 ∈ agentFinalizers agent ∧ finalizerV1 ∉ agentFinalizers agent →
   addOrUpdateFinalizers agent s = (Ret reconcileContinue, s)) ∧
  (¬ (finalizerV3 ∈ agentFinalizers agent ∧ finalizerV1 ∉ agentFinalizers agent) →
   ∀ r s', addOrUpdateFinalizers agent s = (Ret r, s') → suppliesReconcileResult r = true).
Proof.
  assert (Hup : ∀ old new (s : St W X) r s', updateAgent old new s = (Ret r, s') →
    suppliesReconcileResult r = true).
  { intros old new s0 r s' E.
    by destruct (emits_run _ _ _ _ _ (updateAgent_emits old new) E) as (t & _ & ? & _). }
  unfold addOrUpdateFinalizers. split.
  - intros [Hv3 Hv1]. rewrite cleanupHelmChart_absent by done.
    rewrite (bind_Ret _ _ s reconcileContinue s) by done. cbv beta iota delta [suppliesReconcileResult
      reconcileContinue rr_res].
    destruct (AddFinalizer finalizerV3 (agentFinalizers agent)) as [l b] eqn:Ea.
    assert (b = false) as ->; [|done]. change b with (snd (l, b)). rewrite <- Ea.
    apply (bool_iff_false _ _ (AddFinalizer_changed _ _)). auto.
  - intros Hn r s'. destruct (decide (finalizerV1 ∈ agentFinalizers agent)) as [Hv1|Hv1].
    + unfold cleanupHelmChart. pose proof (RemoveFinalizer_present _ _ Hv1) as Hrm.
      destruct (RemoveFinalizer _ _) as [l b]. simpl in Hrm. subst b. simpl negb. cbv iota.
      unfold NewHelmReconciliation, helmDelete, call, mbind, M_bind.
      destruct (helmInit _) as [[e|] w]; [done|]. cbn.
      destruct (helmUninstall _) as [e w']. cbn.
      destruct (match e with Some e => if IsReleaseNotFound e then None else Some e
                       | None => None end); cbn; [by intros [= <- _]|].
      destruct (updateAgent _ _ _) as [[r'|p|] s1] eqn:E; [|done..].
      rewrite (Hup _ _ _ _ _ E). intros [= <- _]. by eapply Hup.
    + rewrite cleanupHelmChart_absent by done.
      rewrite (bind_Ret _ _ s reconcileContinue s) by done. cbv beta iota delta
        [suppliesReconcileResult reconcileContinue rr_res].
      destruct (AddFinalizer finalizerV3 (agentFinalizers agent)) as [l b] eqn:Ea.
      assert (b = true) as ->; [|by intros E; apply Hup in E].
      change b with (snd (l, b)). rewrite <- Ea.
      apply (bool_iff_true _ _ (AddFinalizer_changed _ _)). tauto.
Qed.

Lemma addOrUpdateFinalizers_spec_witness :
  (finalizerV3 ∈ agentFinalizers deleted_agent ∧ finalizerV1 ∉ agentFinalizers deleted_agent) ∧
  addOrUpdateFinalizers deleted_agent (start empty_cluster tt) =
    (Ret reconcileContinue, start empty_cluster tt).
Proof.
  assert (finalizerV3 ∈ agentFinalizers deleted_agent ∧
          finalizerV1 ∉ agentFinalizers deleted_agent) as Hf.
  { split; [left|]. intros Hin. apply list_elem_of_singleton in Hin. discriminate Hin. }
  split; [exact Hf|].
  exact (proj1 (addOrUpdateFinalizers_spec deleted_agent (start empty_cluster tt)) Hf).
Defined.

(** INSTANA_PERSIST_HOST_UNIQUE_ID is set for a daemon set that does not
    exist yet and kept for one that has it, and in no other case; a read that
    fails otherwise, or a daemon set without the agent's container, ends the
    reconciliation, so the variable is never dropped by mistake. *)
Theorem shouldSetPersistHostUniqueIDEnvVar_spec {W X} `{K8sApi W} `{ApiErrors}
    agent zone (s : St W X) b ret s' :
  shouldSetPersistHostUniqueIDEnvVar agent zone s = (Ret (b, ret), s') →
  ∃ key res, trace s' = trace s ++ [EGet KDaemonSet key res] ∧
    (ret = reconcileContinue ∨ suppliesReconcileResult ret = true ∧ b = false) ∧
    (ret = reconcileContinue ↔
     match res with
     | inr e => IsNotFound (Some e) = true
     | inl ds => hasPersistHostUniqueID (ps_Containers (pt_Spec (ds_Template ds))) ≠ None
     end) ∧
    (b = true ↔
     match res with
     | inr e => IsNotFound (Some e) = true
     | inl ds => hasPersistHostUniqueID (ps_Containers (pt_Spec (ds_Template ds))) = Some true
     end).
Proof.
  unfold shouldSetPersistHostUniqueIDEnvVar, doGet, call, mbind, M_bind, mret, M_ret.
  destruct (k8sGet KDaemonSet _ _) as [[ds|e] w]; simpl; intros E.
  - eexists _, (inl ds). destruct (hasPersistHostUniqueID _) as [b'|]; simplify_eq/=;
      (split; [reflexivity|]); naive_solver.
  - eexists _, (inr e). destruct (IsNotFound (Some e)) eqn:He; simplify_eq/=;
      (split; [reflexivity|]); naive_solver.
Qed.

Lemma shouldSetPersistHostUniqueIDEnvVar_spec_witness :
  ∃ key res, [EGet KDaemonSet (Key "ns" "agent") (inr NotFound)] = [] ++ [EGet KDaemonSet key res] ∧
    (reconcileContinue = reconcileContinue ∨ suppliesReconcileResult reconcileContinue = true ∧ true = false) ∧
    (reconcileContinue = reconcileContinue ↔
     match res with
     | inr e => IsNotFound (Some e) = true
     | inl ds => hasPersistHostUniqueID (ps_Containers (pt_Spec (ds_Template ds))) ≠ None
     end) ∧
    (true = true ↔
     match res with
     | inr e => IsNotFound (Some e) = true
     | inl ds => hasPersistHostUniqueID (ps_Containers (pt_Spec (ds_Template ds))) = Some true
     end).
Proof.
  exact (shouldSetPersistHostUniqueIDEnvVar_spec example_agent None (start empty_cluster tt)
    true reconcileContinue (MkSt empty_cluster [EGet KDaemonSet (Key "ns" "agent") (inr NotFound)] tt)
    eq_refl).
Defined.
