(* ===== verification/Etcd.v ===== *)
(** * Monitoring of etcd: controllers/etcd_discovery.go, etcd_discoverer.go, apply.go

    On OpenShift the operator copies the CA bundle and the client certificate
    of etcd to the agent's namespace; elsewhere it discovers the metrics
    endpoints of etcd in kube-system.  Either way it makes the context the
    k8sensor deployment is built with. *)
From S2P Require Import Prelude GoStd Errors K8sTypes ApiTypes Effects Cluster Client.
From S2P Require Import Transformations OperatorUtils Helpers Reconcile.

Definition kubeSystemNamespace := "kube-system".
Definition LabelServiceName := "kubernetes.io/service-name".

(** ** etcd_discovery.go, k8s-sensor/deployment: DeploymentContext *)
Record DiscoveredETCDTargets := { det_Targets : list string; det_CAFound : bool }.
Record DeploymentContext := {
  dc_DiscoveredETCDTargets : list string;
  dc_ETCDCASecretName : string;
  dc_OpenShiftETCDResourcesExist : bool }.
Definition zero_DeploymentContext : DeploymentContext :=
  {| dc_DiscoveredETCDTargets := []; dc_ETCDCASecretName := "";
     dc_OpenShiftETCDResourcesExist := false |}.

(** ** Targets *)
Definition targetURL (scheme address : string) (port : Z) : string :=
  scheme +++ "://" +++ address +++ ":" +++ itoa port +++ "/metrics".

(** The port named metrics, the first one that has a number. *)
Fixpoint sliceMetricsPort (ports : list EndpointPort) (metricsPort : Z) : Z :=
  match ports with
  | [] => metricsPort
  | {| ep_Name := Some name; ep_Port := Some port |} :: ports =>
      if String.eqb name "metrics" then port else sliceMetricsPort ports metricsPort
  | _ :: ports => sliceMetricsPort ports metricsPort
  end.
(** An endpoint whose readiness is unknown counts as ready. *)
Definition endpointReady (endpoint : Endpoint) : bool :=
  Pointer.DerefOrDefault (en_Ready endpoint) true.
Definition buildTargetsFromEndpointSlice (slice : EndpointSlice) (metricsPort : Z)
    (scheme : string) : list string :=
  let endpointPort := sliceMetricsPort (es_Ports slice) metricsPort in
  endpoint ← es_Endpoints slice;
  if endpointReady endpoint
  then (fun address => targetURL scheme address endpointPort) <$> en_Addresses endpoint
  else [].

Fixpoint subsetMetricsPort (ports : list (string * Z)) (metricsPort : Z) : Z :=
  match ports with
  | [] => metricsPort
  | (name, port) :: ports =>
      if String.eqb name "metrics" then port else subsetMetricsPort ports metricsPort
  end.
Definition targetsOfSubset (metricsPort : Z) (scheme : string) (subset : EndpointSubset) :
    list string :=
  (fun ip => targetURL scheme ip (subsetMetricsPort (sub_Ports subset) metricsPort))
    <$> sub_Addresses subset.

Definition FindMetricsPortAndScheme (service : Service) : option (Z * string) :=
  match List.find (fun port => String.eqb (sp_Name port) "metrics") (svc_Ports service) with
  | None => None
  | Some port =>
      let scheme :=
        if Z.eqb (sp_Port port) ETCDMetricsPortHTTPS then "https"
        else if Z.eqb (sp_Port port) ETCDMetricsPortHTTP then "http"
        else "https" in
      let scheme :=
        default scheme (default ∅ (om_Annotations (svc_Meta service)) !! "instana.io/etcd-scheme") in
      Some (sp_Port port, scheme)
  end.

Definition getSortedTargets (targets : list string) : list string := sort_strings targets.

Section Discovery.
Context {W X : Type} `{K8sApi W} `{ApiErrors} `{Env}.

(** ** etcd_discoverer.go *)
Definition ShouldSkipDiscovery (agent : InstanaAgent) : M W X (bool * option error) :=
  r ← isOpenShift agent;
  mret (if suppliesReconcileResult (snd r)
        then (false, Some (Errorf "failed to determine if cluster is OpenShift"))
        else if fst r : bool then (true, None)
        else if (0 <? Z.of_nat (length (etcd_Targets (ks_ETCD (spec_K8sSensor (agent_Spec agent))))))%Z
        then (true, None) else (false, None)).

Definition GetServiceByName (name : string) : M W X (option Service + error) :=
  r ← doGet KService (Key kubeSystemNamespace name);
  mret match r with
       | inl service => inl (Some service)
       | inr e => if IsNotFound (Some e) then inl None else inr e
       end.

Definition GetServiceWithLabel (name labelKey labelValue : string) : M W X (option Service + error) :=
  r ← GetServiceByName name;
  mret match r with
       | inl (Some service) =>
           match om_Labels (svc_Meta service) with
           | None => inl None
           | Some labels =>
               if String.eqb (default "" (labels !! labelKey)) labelValue
               then inl (Some service) else inl None
           end
       | _ => r
       end.

(** The first service some lookup of the list yields, or the first error. *)
Fixpoint firstService (lookups : list (M W X (option Service + error))) :
    M W X (option Service + error) :=
  match lookups with
  | [] => mret (inl None)
  | lookup :: lookups =>
      r ← lookup;
      match r with
      | inl None => firstService lookups
      | _ => mret r
      end
  end.
Definition FindETCDService : M W X (option Service + error) :=
  firstService
    [GetServiceWithLabel "etcd" "component" "etcd";
     GetServiceWithLabel "etcd-metrics" "component" "etcd";
     GetServiceByName "etcd"; GetServiceByName "etcd-metrics"; GetServiceByName "etcd-k8s"].

Definition BuildTargetsFromLegacyEndpoints (service : Service) (metricsPort : Z)
    (scheme : string) : M W X (list string + error) :=
  r ← doGet KEndpoints (Key kubeSystemNamespace (om_Name (svc_Meta service)));
  mret match r with
       | inr e => if IsNotFound (Some e) then inl [] else inr e
       | inl endpoints => inl (eps_Subsets endpoints ≫= targetsOfSubset metricsPort scheme)
       end.

Definition BuildTargetsFromEndpoints (service : Service) (metricsPort : Z) (scheme : string) :
    M W X (list string + error) :=
  let labels : smap := {[ LabelServiceName := om_Name (svc_Meta service) ]} in
  r ← call (k8sListEndpointSlices kubeSystemNamespace labels)
           (EListEndpointSlices kubeSystemNamespace labels);
  match r with
  | inr e => mret (inr e)
  | inl slices =>
      let targets := slices ≫= (fun s => buildTargetsFromEndpointSlice s metricsPort scheme) in
      match targets with
      | [] =>
          r ← BuildTargetsFromLegacyEndpoints service metricsPort scheme;
          mret match r with
               | inr e => inr e
               | inl legacyTargets => inl (sort_strings legacyTargets)
               end
      | _ => mret (inl (sort_strings targets))
      end
  end.

Definition CheckCASecretExists (agent : InstanaAgent) : M W X bool :=
  r ← doGet KSecret (Key (agent_Namespace agent) ETCDCASecretName);
  mret match r with inl _ => true | inr _ => false end.

(** ** etcd_discovery.go *)
Definition DiscoverETCDEndpoints (agent : InstanaAgent) :
    M W X (option DiscoveredETCDTargets + error) :=
  skip ← ShouldSkipDiscovery agent;
  match snd skip with
  | Some e => mret (inr e)
  | None =>
      if fst skip : bool then mret (inl None)
      else
        svc ← FindETCDService;
        match svc with
        | inr e => mret (inr e)
        | inl None => mret (inl None)
        | inl (Some etcdService) =>
            match FindMetricsPortAndScheme etcdService with
            | None => mret (inl None)
            | Some (metricsPort, scheme) =>
                r ← BuildTargetsFromEndpoints etcdService metricsPort scheme;
                match r with
                | inr e => mret (inr e)
                | inl [] => mret (inl None)
                | inl targets =>
                    caSecretExists ← CheckCASecretExists agent;
                    mret (inl (Some {| det_Targets := targets; det_CAFound := caSecretExists |}))
                end
            end
        end
  end.

(** ** apply.go: the context of the k8sensor deployment *)

(** The value of the variable in the first container of that name. *)
Definition currentETCDTargets (containers : list Container) : string :=
  match List.find (fun c => String.eqb (ct_Name c) ContainerK8Sensor) containers with
  | None => ""
  | Some container =>
      match List.find (fun env => String.eqb (ev_Name env) EnvETCDTargets) (ct_Env container) with
      | None => ""
      | Some env => ev_Value env
      end
  end.
Definition compareAndUpdateETCDTargets (existingDeployment : Deployment)
    (discoveredTargets : list string) : bool :=
  let currentTargets :=
    currentETCDTargets (ps_Containers (pt_Spec (dp_Template existingDeployment))) in
  let newTargets := Join (getSortedTargets discoveredTargets) "," in
  let currentTargets :=
    if negb (String.eqb currentTargets "")
    then Join (sort_strings (Split currentTargets ",")) "," else currentTargets in
  negb (String.eqb currentTargets newTargets).

Definition validateOpenShiftETCDResources (configMap : ConfigMap) (secret : Secret)
    (caErr certErr : option error) : option error * option error :=
  match caErr with
  | Some _ => (caErr, certErr)
  | None =>
      match cm_Data configMap with
      | None => (Some (Errorf "etcd-metrics-ca-bundle has no data"), certErr)
      | Some data =>
          match data !! "ca-bundle.crt" with
          | None => (Some (Errorf "etcd-metrics-ca-bundle missing ca-bundle.crt key"), certErr)
          | Some bundle =>
              if String.eqb bundle ""
              then (Some (Errorf "etcd-metrics-ca-bundle ca-bundle.crt is empty"), certErr)
              else
                match certErr with
                | Some _ => (caErr, certErr)
                | None =>
                    match sec_Data secret with
                    | None => (caErr, Some (Errorf "etcd-metric-client has no data"))
                    | Some data =>
                        match data !! "tls.crt" with
                        | None => (caErr, Some (Errorf "etcd-metric-client missing tls.crt key"))
                        | Some crt =>
                            if String.eqb crt ""
                            then (caErr, Some (Errorf "etcd-metric-client tls.crt is empty"))
                            else
                              match data !! "tls.key" with
                              | None => (caErr, Some (Errorf "etcd-metric-client missing tls.key key"))
                              | Some key =>
                                  if String.eqb key ""
                                  then (caErr, Some (Errorf "etcd-metric-client tls.key is empty"))
                                  else (caErr, certErr)
                              end
                        end
                    end
                end
          end
      end
  end.

Definition buildETCDResourceObjectMeta (targetName sourceName sourceResourceVersion : string)
    (agent : InstanaAgent) : ObjectMeta :=
  (NewObjectMeta targetName (agent_Namespace agent))
    <| om_OwnerReferences :=
         [{| or_APIVersion := "instana.io/v1"; or_Kind := "InstanaAgent";
             or_Name := agent_Name agent; or_UID := om_UID (agent_Meta agent);
             or_Controller := Some true; or_BlockOwnerDeletion := Some true |}] |>
    <| om_Labels := Some (list_to_map
         [("app.kubernetes.io/name", "instana-agent"); ("app.kubernetes.io/component", "k8sensor");
          ("app.kubernetes.io/managed-by", "instana-agent-operator");
          ("instana.io/copied-from", ETCDNamespace)]) |>
    <| om_Annotations := Some (list_to_map
         [("instana.io/source-namespace", ETCDNamespace); ("instana.io/source-name", sourceName);
          ("instana.io/source-resource-version", sourceResourceVersion);
          ("instana.io/instana-agent-name", agent_Name agent)]) |>.

Definition targetCAConfigMap (agent : InstanaAgent) (source : ConfigMap) : object :=
  OConfigMap {| cm_Meta := buildETCDResourceObjectMeta ETCDMetricsCABundleName
                             ETCDMetricsCABundleName (om_ResourceVersion (cm_Meta source)) agent;
                cm_Kind := "ConfigMap"; cm_Data := cm_Data source |}.
Definition targetClientSecret (agent : InstanaAgent) (source : Secret) : object :=
  OSecret {| sec_Meta := buildETCDResourceObjectMeta ETCDMetricClientSecretName
                           ETCDMetricClientSecretName (om_ResourceVersion (sec_Meta source)) agent;
             sec_Type := sec_Type source; sec_Data := sec_Data source |}.

Definition copyETCDResourcesToNamespace (agent : InstanaAgent) (sourceConfigMap : ConfigMap)
    (sourceSecret : Secret) : M W X bool :=
  res ← Apply (targetCAConfigMap agent sourceConfigMap) false;
  match Result.err res with
  | Some _ => mret false
  | None =>
      res ← Apply (targetClientSecret agent sourceSecret) false;
      mret match Result.err res with Some _ => false | None => true end
  end.

Definition copiedConfigMap (agent : InstanaAgent) : object :=
  OConfigMap {| cm_Meta := NewObjectMeta ETCDMetricsCABundleName (agent_Namespace agent);
                cm_Kind := ""; cm_Data := None |}.
Definition copiedSecret (agent : InstanaAgent) : object :=
  OSecret {| sec_Meta := NewObjectMeta ETCDMetricClientSecretName (agent_Namespace agent);
             sec_Type := ""; sec_Data := None |}.
Definition cleanupCopiedETCDResources (agent : InstanaAgent) : M W X unit :=
  _ ← Delete (copiedConfigMap agent);
  _ ← Delete (copiedSecret agent);
  mret tt.

Definition value_of {A} (zero : A) (r : A + error) : A :=
  match r with inl a => a | inr _ => zero end.
Definition setupOpenShiftETCDMonitoring (agent : InstanaAgent) : M W X DeploymentContext :=
  ca ← doGet KConfigMap (Key ETCDNamespace ETCDMetricsCABundleName);
  cert ← doGet KSecret (Key ETCDNamespace ETCDMetricClientSecretName);
  let etcdCAConfigMap := value_of zero_ConfigMap ca in
  let etcdClientSecret := value_of zero_Secret cert in
  match validateOpenShiftETCDResources etcdCAConfigMap etcdClientSecret (err_of ca) (err_of cert) with
  | (None, None) =>
      copied ← copyETCDResourcesToNamespace agent etcdCAConfigMap etcdClientSecret;
      mret {| dc_DiscoveredETCDTargets := []; dc_ETCDCASecretName := "";
              dc_OpenShiftETCDResourcesExist := copied |}
  | _ =>
      _ ← cleanupCopiedETCDResources agent;
      mret zero_DeploymentContext
  end.

(** The error of the source's result is always nil. *)
Definition CreateDeploymentContext (agent : InstanaAgent) (isOpenShift : bool) :
    M W X (option DeploymentContext) :=
  if isOpenShift then
    dc ← setupOpenShiftETCDMonitoring agent;
    mret (Some dc)
  else
    r ← DiscoverETCDEndpoints agent;
    match r with
    | inr _ | inl None => mret None
    | inl (Some discoveredETCD) =>
        match det_Targets discoveredETCD with
        | [] => mret None
        | _ =>
            existing ← doGet KDeployment (Key (agent_Namespace agent) (K8sSensorResourcesName agent));
            let needsUpdate :=
              match existing with
              | inr _ => true
              | inl existingDeployment =>
                  compareAndUpdateETCDTargets existingDeployment (det_Targets discoveredETCD)
              end in
            mret (if needsUpdate
                  then Some {| dc_DiscoveredETCDTargets := getSortedTargets (det_Targets discoveredETCD);
                               dc_ETCDCASecretName :=
                                 if det_CAFound discoveredETCD then ETCDCASecretName else "";
                               dc_OpenShiftETCDResourcesExist := false |}
                  else None)
        end
    end.
End Discovery.

(** ** Facts *)
Lemma Split_not_nil s sep : Split s sep ≠ [].
Proof.
  destruct s as [|c s]; simpl; [done|]. destruct (Ascii.eqb c sep); [done|].
  by destruct (Split s sep).
Qed.
Lemma Split_parts s sep : Forall (fun p => string_in sep p = false) (Split s sep).
Proof.
  induction s as [|c s IH]; simpl; [by repeat constructor|].
  destruct (Ascii.eqb c sep) eqn:E; [by constructor|].
  destruct (Split s sep) as [|p ps] eqn:Es; [by destruct (Split_not_nil s sep)|].
  inv IH. constructor; [|done]. simpl. by rewrite E.
Qed.
Lemma Join_comma_inj l k :
  l ≠ [] → k ≠ [] → Forall (fun p => string_in "," p = false) l →
  Forall (fun p => string_in "," p = false) k → Join l "," = Join k "," → l = k.
Proof.
  intros Hl Hk Fl Fk E. apply (f_equal (fun s => Split s ",")) in E.
  by rewrite (Split_Join l "," Hl Fl), (Split_Join k "," Hk Fk) in E.
Qed.

(** A source the operator may copy: every key it will mount has a value. *)
Definition usable_etcd_resources (cm : ConfigMap) (sec : Secret) : Prop :=
  (∃ bundle, default ∅ (cm_Data cm) !! "ca-bundle.crt" = Some bundle ∧ bundle ≠ "") ∧
  (∃ crt, default ∅ (sec_Data sec) !! "tls.crt" = Some crt ∧ crt ≠ "") ∧
  (∃ key, default ∅ (sec_Data sec) !! "tls.key" = Some key ∧ key ≠ "").

Lemma validateOpenShiftETCDResources_valid cm sec caErr certErr :
  validateOpenShiftETCDResources cm sec caErr certErr = (None, None) ↔
  caErr = None ∧ certErr = None ∧ usable_etcd_resources cm sec.
Proof.
  unfold validateOpenShiftETCDResources, usable_etcd_resources.
  destruct caErr; [naive_solver|]. destruct (cm_Data cm) as [data|]; simpl; [|naive_solver].
  destruct (data !! "ca-bundle.crt") as [bundle|]; [|naive_solver].
  destruct (String.eqb_spec bundle ""); [naive_solver|].
  destruct certErr; [naive_solver|]. destruct (sec_Data sec) as [sdata|]; simpl; [|naive_solver].
  destruct (sdata !! "tls.crt") as [crt|]; [|naive_solver].
  destruct (String.eqb_spec crt ""); [naive_solver|].
  destruct (sdata !! "tls.key") as [key|]; [|naive_solver].
  destruct (String.eqb_spec key ""); naive_solver.
Qed.

Section EtcdFacts.
Context {W X : Type} `{K8sApi W} `{ApiErrors} `{Env}.
Implicit Types (agent : InstanaAgent) (t : list event).

Lemma copyETCDResources_emits agent cm sec :
  emits (W:=W) (X:=X) (copyETCDResourcesToNamespace agent cm sec) (post (fun b t =>
    b = true → accepted false [targetCAConfigMap agent cm; targetClientSecret agent sec] t)
    (fun _ _ => False)).
Proof.
  unfold copyETCDResourcesToNamespace, Apply. do 4 emits_step. simpl.
  destruct a as [e|]; emits_step; [done|]. do 4 emits_step. simpl. destruct a; [done|].
  intros _ obj [->|[->|[]%not_elem_of_nil]%elem_of_cons]%elem_of_cons; simpl; set_solver.
Qed.

(** What the OpenShift set-up guarantees when it reports the resources. *)
Definition etcd_copied agent t : Prop :=
  ∃ cm sec,
    EGet KConfigMap (Key ETCDNamespace ETCDMetricsCABundleName) (inl cm) ∈ t ∧
    EGet KSecret (Key ETCDNamespace ETCDMetricClientSecretName) (inl sec) ∈ t ∧
    usable_etcd_resources cm sec ∧
    accepted false [targetCAConfigMap agent cm; targetClientSecret agent sec] t.

Lemma setupOpenShiftETCDMonitoring_emits agent :
  emits (W:=W) (X:=X) (setupOpenShiftETCDMonitoring agent) (post (fun dc t =>
    (dc_OpenShiftETCDResourcesExist dc = true → etcd_copied agent t) ∧
    dc_DiscoveredETCDTargets dc = [] ∧ dc_ETCDCASecretName dc = "") (fun _ _ => False)).
Proof.
  unfold setupOpenShiftETCDMonitoring. do 4 emits_step.
  destruct (validateOpenShiftETCDResources _ _ _ _) as [e1 e2] eqn:Ev.
  assert (Hdel : emits (W:=W) (X:=X)
    (_ ← cleanupCopiedETCDResources agent; mret zero_DeploymentContext)
    (fun o _ => o = Ret zero_DeploymentContext)).
  { unfold cleanupCopiedETCDResources, Delete. by repeat emits_step. }
  destruct e1 as [e1|], e2 as [e2|].
  1-3: eapply emits_mono; [apply Hdel|]; by intros o t ->.
  apply validateOpenShiftETCDResources_valid in Ev as (Ea & Ea0 & Hu).
  destruct a as [cm|e]; [|done]. destruct a0 as [sec|e]; [|done].
  eapply emits_seq; [apply copyETCDResources_emits| |done|done]. intros b t Hb. emits_step. simpl.
  split; [|done]. intros ->. exists cm, sec. specialize (Hb eq_refl).
  split; [by left|]. split; [right; by left|]. split; [done|].
  intros obj Ho. do 2 right. rewrite app_nil_r. by apply Hb.
Qed.
End EtcdFacts.

(** A target that a list separated by commas can hold. *)
Definition listable (url : string) : Prop := string_in "," url = false ∧ url ≠ "".

(** An update of the deployment is needed exactly when its environment does not
    list the discovered targets, up to their order. *)
Lemma compareAndUpdateETCDTargets_spec deployment targets :
  targets ≠ [] → Forall listable targets →
  let current := currentETCDTargets (ps_Containers (pt_Spec (dp_Template deployment))) in
  compareAndUpdateETCDTargets deployment targets = false ↔
  current ≠ "" ∧ Split current "," ≡ₚ targets.
Proof.
  intros Hne Ht current. unfold compareAndUpdateETCDTargets, getSortedTargets. fold current.
  rewrite negb_false_iff, String.eqb_eq.
  assert (Hsort : sort_strings targets ≠ []).
  { intros E. pose proof (sort_strings_perm targets) as Hp. rewrite E in Hp.
    by apply Permutation_nil_l in Hp. }
  assert (Hcomma : Forall (fun p => string_in "," p = false) (sort_strings targets)).
  { rewrite sort_strings_perm. eapply Forall_impl; [exact Ht|]. by intros ? []. }
  destruct (String.eqb_spec current "") as [->|Hc]; cbn [negb].
  - split; [|by intros [? _]]. intros E. exfalso.
    assert (Hin : "" ∈ targets).
    { rewrite <- (sort_strings_perm targets).
      rewrite <- (Split_Join (sort_strings targets) "," Hsort Hcomma). change (String "," "") with ",".
      rewrite <- E. by left. }
    rewrite Forall_forall in Ht. by apply (Ht "" Hin).
  - split.
    + intros E. split; [done|].
      apply Join_comma_inj in E; try done.
      * rewrite <- (sort_strings_perm (Split current ",")), E. apply sort_strings_perm.
      * intros E'. pose proof (sort_strings_perm (Split current ",")) as Hp. rewrite E' in Hp.
        apply Permutation_nil_l in Hp. symmetry in Hp. by apply Split_not_nil in Hp.
      * rewrite sort_strings_perm. apply Split_parts.
    + intros [_ Hp]. f_equal. by apply sort_strings_canonical.
Qed.

(** A URL of an address that is ready, at the metrics port of its slice. *)
Definition ready_target (slices : list EndpointSlice) (metricsPort : Z) (scheme url : string) : Prop :=
  ∃ slice endpoint address, slice ∈ slices ∧ endpoint ∈ es_Endpoints slice ∧
    en_Ready endpoint ≠ Some false ∧ address ∈ en_Addresses endpoint ∧
    url = targetURL scheme address (sliceMetricsPort (es_Ports slice) metricsPort).

Lemma slices_targets slices metricsPort scheme url :
  url ∈ slices ≫= (fun s => buildTargetsFromEndpointSlice s metricsPort scheme) ↔
  ready_target slices metricsPort scheme url.
Proof.
  unfold ready_target, buildTargetsFromEndpointSlice. rewrite list_elem_of_bind. split.
  - intros (slice & Hurl & Hs). apply list_elem_of_bind in Hurl as (endpoint & Hurl & He).
    unfold endpointReady, Pointer.DerefOrDefault, Pointer.DerefOrElse in Hurl.
    destruct (en_Ready endpoint) as [[]|] eqn:Er; try (by apply not_elem_of_nil in Hurl);
      apply list_elem_of_fmap in Hurl as (address & -> & Ha);
      exists slice, endpoint, address; rewrite Er; naive_solver.
  - intros (slice & endpoint & address & Hs & He & Hr & Ha & ->). exists slice. split; [|done].
    apply list_elem_of_bind. exists endpoint. split; [|done].
    unfold endpointReady, Pointer.DerefOrDefault, Pointer.DerefOrElse.
    destruct (en_Ready endpoint) as [[]|]; [|done|]; apply list_elem_of_fmap; by exists address.
Qed.

(** When the deployment already lists the discovered targets there is no
    context, as when nothing was discovered. *)
Lemma CreateDeploymentContext_unchanged {W X} `{K8sApi W} `{ApiErrors} `{Env} agent
    (s : St W X) found s1 deployment w :
  DiscoverETCDEndpoints agent s = (Ret (inl (Some found)), s1) →
  k8sGet KDeployment (Key (agent_Namespace agent) (K8sSensorResourcesName agent)) (world s1) =
    (inl deployment, w) →
  compareAndUpdateETCDTargets deployment (det_Targets found) = false →
  ∃ s', CreateDeploymentContext agent false s = (Ret None, s').
Proof.
  intros Ed Eg Ec. unfold CreateDeploymentContext. rewrite (bind_Ret _ _ _ _ _ Ed).
  destruct (det_Targets found) as [|u us] eqn:Et; [by exists s1|].
  unfold doGet, call, mbind, M_bind. rewrite Eg, Ec. by eexists.
Qed.

(** ** Properties *)

(** The discovered targets are sorted; when some endpoint of the slices
    the server listed is ready, the targets are exactly the URLs of the ready
    addresses, each at the metrics port of its slice. *)
Theorem BuildTargetsFromEndpoints_spec {W X} `{K8sApi W} `{ApiErrors} `{Env}
    service metricsPort scheme (s : St W X) targets s' :
  BuildTargetsFromEndpoints service metricsPort scheme s = (Ret (inl targets), s') →
  StronglySorted str_le targets ∧
  ∃ labels slices, EListEndpointSlices kubeSystemNamespace labels (inl slices) ∈ trace s' ∧
    (∀ url, ready_target slices metricsPort scheme url →
       ∀ url', url' ∈ targets ↔ ready_target slices metricsPort scheme url').
Proof.
  unfold BuildTargetsFromEndpoints. set (labels := {[ LabelServiceName := _ ]}).
  destruct (k8sListEndpointSlices kubeSystemNamespace labels (world s)) as [[slices|e] w] eqn:El.
  2: { unfold call, mbind, M_bind. by rewrite El. }
  set (s1 := MkSt w (trace s ++ [EListEndpointSlices kubeSystemNamespace labels (inl slices)]) (local s)).
  rewrite (bind_Ret _ _ s (inl slices) s1) by (unfold call; by rewrite El).
  pose proof (slices_targets slices metricsPort scheme) as Hst.
  destruct (slices ≫= _) as [|u us].
  - unfold BuildTargetsFromLegacyEndpoints, doGet, call, mbind, M_bind.
    destruct (k8sGet KEndpoints _ _) as [[eps|e] w'].
    + cbn. intros [= <- <-]. split; [apply sort_strings_sorted|]. exists labels, slices.
      split; [cbn; set_solver|]. intros url Hurl%Hst. by apply not_elem_of_nil in Hurl.
    + cbn. destruct (IsNotFound _); [|done]. cbn. intros [= <- <-].
      split; [constructor|]. exists labels, slices.
      split; [cbn; set_solver|]. intros url Hurl%Hst. by apply not_elem_of_nil in Hurl.
  - intros [= <- <-]. split; [apply sort_strings_sorted|]. exists labels, slices.
    split; [subst s1; cbn; set_solver|]. intros _ _ url'. by rewrite sort_strings_perm.
Qed.

Definition etcd_service : Service :=
  {| svc_Meta := (NewObjectMeta "etcd" kubeSystemNamespace)
       <| om_Labels := Some {[ "component" := "etcd" ]} |>;
     svc_ClusterIP := "None"; svc_Selector := None;
     svc_Ports := [{| sp_Name := "metrics"; sp_Protocol := "TCP"; sp_Port := 2381;
                      sp_TargetPort := IntVal 2381 |}];
     svc_InternalTrafficPolicy := None |}.
Definition etcd_slice : EndpointSlice :=
  {| es_Ports := [{| ep_Name := Some "metrics"; ep_Port := Some 2382%Z |}];
     es_Endpoints := [{| en_Addresses := ["10.0.0.2"]; en_Ready := None |};
                      {| en_Addresses := ["10.0.0.3"]; en_Ready := Some false |};
                      {| en_Addresses := ["10.0.0.1"]; en_Ready := Some true |}] |}.
Definition etcd_targets : list string :=
  ["http://10.0.0.1:2382/metrics"; "http://10.0.0.2:2382/metrics"].
Definition etcd_cluster : cluster :=
  empty_cluster <| c_service := Some etcd_service |> <| c_slices := [etcd_slice] |>.

Lemma BuildTargetsFromEndpoints_spec_witness :
  ∃ s', BuildTargetsFromEndpoints etcd_service 2381 "http" (start etcd_cluster tt) =
          (Ret (inl etcd_targets), s') ∧
    StronglySorted str_le etcd_targets ∧
    ∃ labels slices, EListEndpointSlices kubeSystemNamespace labels (inl slices) ∈ trace s' ∧
      (∀ url, ready_target slices 2381 "http" url →
         ∀ url', url' ∈ etcd_targets ↔ ready_target slices 2381 "http" url').
Proof.
  eexists. split; [vm_compute; reflexivity|].
  eapply (BuildTargetsFromEndpoints_spec etcd_service 2381 "http" (start etcd_cluster tt)).
  vm_compute. reflexivity.
Defined.

(** C36: the OpenShift set-up enables the monitoring only after it read usable
    source resources and the server accepted both copies. *)
Theorem setupOpenShiftETCDMonitoring_sound {W X} `{K8sApi W} `{ApiErrors} agent (s : St W X) :
  ∃ dc s' t, setupOpenShiftETCDMonitoring agent s = (Ret dc, s') ∧ trace s' = trace s ++ t ∧
    (dc_OpenShiftETCDResourcesExist dc = true → etcd_copied agent t).
Proof.
  destruct (setupOpenShiftETCDMonitoring_emits agent s) as (t & Ht & Hpost).
  destruct (setupOpenShiftETCDMonitoring agent s) as [[dc|p|] s']; [|done..].
  exists dc, s', t. split; [done|]. split; [done|]. apply Hpost.
Qed.
