(* ===== verification/EnvBuilder.v ===== *)
(** * Environment variables of the agent's containers: common/env/env_builder.go

    [build] translates one symbolic variable for a custom resource and an
    optional zone; [EnvBuilder_Build] puts the user's variables first.  The
    pointers of the OpenTelemetry settings are dereferenced without a check,
    so building may panic. *)
From S2P Require Import Prelude GoStd Errors K8sTypes ApiTypes Effects Cluster Transformations.
From S2P Require Import Helpers.

Inductive AgentEnvVar :=
  | AgentModeEnv | ZoneNameEnv | ClusterNameEnv | AgentEndpointEnv | AgentEndpointPortEnv
  | MavenRepoURLEnv | MavenRepoFeaturesPath | MavenRepoSharedPath
  | MirrorReleaseRepoUrlEnv | MirrorReleaseRepoUsernameEnv | MirrorReleaseRepoPasswordEnv
  | MirrorSharedRepoUrlEnv | MirrorSharedRepoUsernameEnv | MirrorSharedRepoPasswordEnv
  | ProxyHostEnv | ProxyPortEnv | ProxyProtocolEnv | ProxyUserEnv | ProxyPasswordEnv
  | ProxyUseDNSEnv | ListenAddressEnv | RedactK8sSecretsEnv | AgentZoneEnv | HTTPSProxyEnv
  | BackendURLEnv | NoProxyEnv | ConfigPathEnv | EntrypointSkipBackendTemplateGeneration
  | BackendEnv | InstanaAgentKeyEnv | AgentKeyEnv | DownloadKeyEnv
  | InstanaAgentPodNameEnv | PodNameEnv | PodIPEnv | PodUIDEnv | PodNamespaceEnv
  | K8sServiceDomainEnv | EnableAgentSocketEnv | NamespacesDetailsPathEnv | NodeNameEnv
  | InstanaOpenTelemetryGRPCEnabled | InstanaOpenTelemetryGRPCPort
  | InstanaOpenTelemetryHTTPEnabled | InstanaOpenTelemetryHTTPPort
  | ETCDCAFileEnv | ETCDInsecureEnv | ETCDTargetsEnv | ControlPlaneCAFileEnv
  | RestClientHostAllowlistEnv | CrdMonitoring.
#[export] Instance AgentEnvVar_eq_dec : EqDecision AgentEnvVar.
Proof. solve_decision. Defined.

(** ** Conversions *)
Definition FormatBool (b : bool) : string := if b then "true" else "false".
Definition stringToEnvVar (name val : string) : option EnvVar :=
  if String.eqb val "" then None else Some (env_value name val).
Definition boolToEnvVar (name : string) (val : bool) : option EnvVar :=
  if negb val then None else Some (env_value name (FormatBool val)).
Definition int32ToEnvVar (name : string) (val : Z) : option EnvVar :=
  Some (env_value name (itoa val)).
Definition env_source (fieldRef : option string) (cm secret : option KeySelector) : EnvVarSource :=
  {| evs_FieldRef := fieldRef; evs_ResourceFieldRef := None;
     evs_ConfigMapKeyRef := cm; evs_SecretKeyRef := secret |}.
Definition envWithObjectFieldSelector (name fieldPath : string) : EnvVar :=
  {| ev_Name := name; ev_Value := "";
     ev_ValueFrom := Some (env_source (Some fieldPath) None None) |}.

Definition isSecret (envVar : AgentEnvVar) : bool :=
  match envVar with
  | InstanaAgentKeyEnv | AgentKeyEnv | DownloadKeyEnv
  | ProxyUserEnv | ProxyPasswordEnv | HTTPSProxyEnv
  | MirrorReleaseRepoUsernameEnv | MirrorReleaseRepoPasswordEnv
  | MirrorSharedRepoUsernameEnv | MirrorSharedRepoPasswordEnv => true
  | _ => false
  end.

(** ** The builder *)
Section EnvBuilder.
Context (agent : InstanaAgent) (zone : option Zone).
Let spec := agent_Spec agent.
Let ag := spec_Agent (agent_Spec agent).
Let ks := spec_K8sSensor (agent_Spec agent).

Definition agentModeEnv : option EnvVar :=
  match zone with
  | Some z => Some (env_value "INSTANA_AGENT_MODE" (zone_Mode z))
  | None => stringToEnvVar "INSTANA_AGENT_MODE" (ag_Mode ag)
  end.
Definition zoneNameEnv : option EnvVar :=
  match zone with
  | Some z => Some (env_value "INSTANA_ZONE" (zone_Name z))
  | None => stringToEnvVar "INSTANA_ZONE" (spec_Zone spec)
  end.
Definition httpsProxyEnv : option EnvVar :=
  if String.eqb (ag_ProxyHost ag) "" then None
  else
    let protocol := Optional.GetOrDefault (Optional.Of (ag_ProxyProtocol ag)) "http" in
    let port := Optional.GetOrDefault (Optional.Of (ag_ProxyPort ag)) "80" in
    if String.eqb (ag_ProxyUser ag) "" || String.eqb (ag_ProxyPassword ag) ""
    then Some (env_value "HTTPS_PROXY" (protocol +++ "://" +++ ag_ProxyHost ag +++ ":" +++ port))
    else Some (env_value "HTTPS_PROXY"
           (protocol +++ "://" +++ (ag_ProxyUser ag +++ ":" +++ ag_ProxyPassword ag +++ "@")
              +++ ag_ProxyHost ag +++ ":" +++ port)).
Definition backendEnv : EnvVar :=
  {| ev_Name := "BACKEND"; ev_Value := "";
     ev_ValueFrom := Some (env_source None
       (Some {| ks_Name := K8sSensorResourcesName agent; ks_Key := BackendKey;
                ks_Optional := None |}) None) |}.
Definition keysSecretName : string :=
  Optional.GetOrDefault (Optional.Of (ag_KeysSecret ag)) (agent_Name agent).
Definition agentKeyHelper (name : string) : EnvVar :=
  {| ev_Name := name; ev_Value := "";
     ev_ValueFrom := Some (env_source None None
       (Some {| ks_Name := keysSecretName; ks_Key := AgentKey; ks_Optional := None |})) |}.
Definition downloadKeyEnv : EnvVar :=
  {| ev_Name := "INSTANA_DOWNLOAD_KEY"; ev_Value := "";
     ev_ValueFrom := Some (env_source None None
       (Some {| ks_Name := keysSecretName; ks_Key := DownloadKey; ks_Optional := Some true |})) |}.
Definition etcdCAFileEnv : option EnvVar :=
  if String.eqb (ca_MountPath (etcd_CA (ks_ETCD ks))) "" then None
  else Some (env_value "ETCD_CA_FILE" (ca_MountPath (etcd_CA (ks_ETCD ks)) +++ "/ca.crt")).
Definition etcdInsecureEnv : option EnvVar :=
  match etcd_Insecure (ks_ETCD ks) with
  | None => None
  | Some b => Some (env_value "ETCD_INSECURE" (FormatBool b))
  end.
Definition etcdTargetsEnv : option EnvVar :=
  match etcd_Targets (ks_ETCD ks) with
  | [] => None
  | targets => Some (env_value "ETCD_TARGETS" (Join targets ","))
  end.
Definition controlPlaneCAFileEnv : option EnvVar :=
  if String.eqb (ca_MountPath (rc_CA (ks_RestClient ks))) "" then None
  else Some (env_value "CONTROL_PLANE_CA_FILE" (ca_MountPath (rc_CA (ks_RestClient ks)) +++ "/ca.crt")).
Definition restClientHostAllowlistEnv : option EnvVar :=
  match rc_HostAllowlist (ks_RestClient ks) with
  | [] => None
  | hosts => Some (env_value "REST_CLIENT_HOST_ALLOWLIST" (Join hosts ","))
  end.

Definition useSecretMounts : bool := Pointer.DerefOrDefault (spec_UseSecretMounts spec) true.

Definition build_switch (envVar : AgentEnvVar) : or_panic (option EnvVar) :=
  match envVar with
  | AgentModeEnv => Value agentModeEnv
  | ZoneNameEnv => Value zoneNameEnv
  | ClusterNameEnv => Value (stringToEnvVar "INSTANA_KUBERNETES_CLUSTER_NAME" (spec_Cluster spec))
  | AgentEndpointEnv => Value (stringToEnvVar "INSTANA_AGENT_ENDPOINT" (ag_EndpointHost ag))
  | AgentEndpointPortEnv =>
      Value (stringToEnvVar "INSTANA_AGENT_ENDPOINT_PORT" (ag_EndpointPort ag))
  | MavenRepoURLEnv => Value (stringToEnvVar "INSTANA_MVN_REPOSITORY_URL" (ag_MvnRepoUrl ag))
  | MavenRepoFeaturesPath =>
      Value (stringToEnvVar "INSTANA_MVN_REPOSITORY_FEATURES_PATH" (ag_MvnRepoFeaturesPath ag))
  | MavenRepoSharedPath =>
      Value (stringToEnvVar "INSTANA_MVN_REPOSITORY_SHARED_PATH" (ag_MvnRepoSharedPath ag))
  | MirrorReleaseRepoUrlEnv =>
      Value (stringToEnvVar "AGENT_RELEASE_REPOSITORY_MIRROR_URL" (ag_MirrorReleaseRepoUrl ag))
  | MirrorReleaseRepoUsernameEnv =>
      Value (stringToEnvVar "AGENT_RELEASE_REPOSITORY_MIRROR_USERNAME"
               (ag_MirrorReleaseRepoUsername ag))
  | MirrorSharedRepoUrlEnv =>
      Value (stringToEnvVar "INSTANA_SHARED_REPOSITORY_MIRROR_URL" (ag_MirrorSharedRepoUrl ag))
  | MirrorSharedRepoUsernameEnv =>
      Value (stringToEnvVar "INSTANA_SHARED_REPOSITORY_MIRROR_USERNAME"
               (ag_MirrorSharedRepoUsername ag))
  | MirrorSharedRepoPasswordEnv =>
      Value (stringToEnvVar "INSTANA_SHARED_REPOSITORY_MIRROR_PASSWORD"
               (ag_MirrorSharedRepoPassword ag))
  | MirrorReleaseRepoPasswordEnv =>
      Value (stringToEnvVar "AGENT_RELEASE_REPOSITORY_MIRROR_PASSWORD"
               (ag_MirrorReleaseRepoPassword ag))
  | ProxyHostEnv => Value (stringToEnvVar "INSTANA_AGENT_PROXY_HOST" (ag_ProxyHost ag))
  | ProxyPortEnv => Value (stringToEnvVar "INSTANA_AGENT_PROXY_PORT" (ag_ProxyPort ag))
  | ProxyProtocolEnv =>
      Value (stringToEnvVar "INSTANA_AGENT_PROXY_PROTOCOL" (ag_ProxyProtocol ag))
  | ProxyUserEnv => Value (stringToEnvVar "INSTANA_AGENT_PROXY_USER" (ag_ProxyUser ag))
  | ProxyPasswordEnv => Value (stringToEnvVar "INSTANA_AGENT_PROXY_PASSWORD" (ag_ProxyPassword ag))
  | ProxyUseDNSEnv => Value (boolToEnvVar "INSTANA_AGENT_PROXY_USE_DNS" (ag_ProxyUseDNS ag))
  | ListenAddressEnv => Value (stringToEnvVar "INSTANA_AGENT_HTTP_LISTEN" (ag_ListenAddress ag))
  | RedactK8sSecretsEnv =>
      Value (stringToEnvVar "INSTANA_KUBERNETES_REDACT_SECRETS" (ag_RedactKubernetesSecrets ag))
  | AgentZoneEnv =>
      Value (Some (env_value "AGENT_ZONE"
        (Optional.GetOrDefault (Optional.Of (spec_Cluster spec)) (spec_Zone spec))))
  | HTTPSProxyEnv => Value httpsProxyEnv
  | BackendURLEnv => Value (Some (env_value "BACKEND_URL" "https://$(BACKEND)"))
  | NoProxyEnv =>
      Value (if String.eqb (ag_ProxyHost ag) "" then None
             else Some (env_value "NO_PROXY" "kubernetes.default.svc"))
  | ConfigPathEnv => Value (Some (env_value "CONFIG_PATH" InstanaConfigDirectory))
  | NamespacesDetailsPathEnv =>
      Value (Some (env_value "NAMESPACES_DETAILS_PATH"
        (InstanaNamespacesDetailsDirectory +++ "/" +++ InstanaNamespacesDetailsFileName)))
  | EntrypointSkipBackendTemplateGeneration =>
      Value (Some (env_value "ENTRYPOINT_SKIP_BACKEND_TEMPLATE_GENERATION" "true"))
  | BackendEnv => Value (Some backendEnv)
  | InstanaAgentKeyEnv => Value (Some (agentKeyHelper "INSTANA_AGENT_KEY"))
  | AgentKeyEnv => Value (Some (agentKeyHelper "AGENT_KEY"))
  | DownloadKeyEnv => Value (Some downloadKeyEnv)
  | InstanaAgentPodNameEnv =>
      Value (Some (envWithObjectFieldSelector "INSTANA_AGENT_POD_NAME" "metadata.name"))
  | PodNameEnv => Value (Some (envWithObjectFieldSelector "POD_NAME" "metadata.name"))
  | PodIPEnv => Value (Some (envWithObjectFieldSelector "POD_IP" "status.podIP"))
  | PodUIDEnv => Value (Some (envWithObjectFieldSelector "POD_UID" "metadata.uid"))
  | PodNamespaceEnv => Value (Some (envWithObjectFieldSelector "POD_NAMESPACE" "metadata.namespace"))
  | NodeNameEnv => Value (Some (envWithObjectFieldSelector "NODE_NAME" "spec.nodeName"))
  | K8sServiceDomainEnv =>
      Value (Some (env_value "K8S_SERVICE_DOMAIN"
        (HeadlessServiceName agent +++ "." +++ agent_Namespace agent +++ ".svc")))
  | EnableAgentSocketEnv => Value (boolToEnvVar "ENABLE_AGENT_SOCKET" (ag_ServiceMeshEnabled ag))
  | InstanaOpenTelemetryGRPCEnabled =>
      boolToEnvVar "INSTANA_AGENT_OTEL_GRPC" <$> deref (otp_Enabled (ot_GRPC (spec_OpenTelemetry spec)))
  | InstanaOpenTelemetryGRPCPort =>
      int32ToEnvVar "INSTANA_AGENT_OTEL_GRPC_PORT" <$> deref (otp_Port (ot_GRPC (spec_OpenTelemetry spec)))
  | InstanaOpenTelemetryHTTPEnabled =>
      boolToEnvVar "INSTANA_AGENT_OTEL_HTTP" <$> deref (otp_Enabled (ot_HTTP (spec_OpenTelemetry spec)))
  | InstanaOpenTelemetryHTTPPort =>
      int32ToEnvVar "INSTANA_AGENT_OTEL_HTTP_PORT" <$> deref (otp_Port (ot_HTTP (spec_OpenTelemetry spec)))
  | ETCDCAFileEnv => Value etcdCAFileEnv
  | ETCDInsecureEnv => Value etcdInsecureEnv
  | ETCDTargetsEnv => Value etcdTargetsEnv
  | ControlPlaneCAFileEnv => Value controlPlaneCAFileEnv
  | RestClientHostAllowlistEnv => Value restClientHostAllowlistEnv
  | CrdMonitoring => Value None
  end.
Definition build (envVar : AgentEnvVar) : or_panic (option EnvVar) :=
  if useSecretMounts && isSecret envVar then Value None else build_switch envVar.

(** The user's variables, in the order the map is visited. *)
Definition getUserProvidedEnvs `{MapRange} : list EnvVar :=
  (fun '(name, value) => env_value name value) <$> range (default ∅ (ag_Env ag)).

Fixpoint buildAll (envVars : list AgentEnvVar) (allEnvVars : list EnvVar) : or_panic (list EnvVar) :=
  match envVars with
  | [] => Value allEnvVars
  | envVar :: envVars =>
      builtEnvVar ← build envVar;
      buildAll envVars (match builtEnvVar with
                        | Some v => allEnvVars ++ [v]
                        | None => allEnvVars
                        end)
  end.
Definition EnvBuilder_Build `{MapRange} (envVars : list AgentEnvVar) : or_panic (list EnvVar) :=
  buildAll envVars getUserProvidedEnvs.
End EnvBuilder.

(** ** Facts *)
Section EnvFacts.
Context (agent : InstanaAgent) (zone : option Zone).

(** Names the secret variables are built with. *)
Definition secret_env_names : list string :=
  ["INSTANA_AGENT_KEY"; "AGENT_KEY"; "INSTANA_DOWNLOAD_KEY"; "INSTANA_AGENT_PROXY_USER";
   "INSTANA_AGENT_PROXY_PASSWORD"; "HTTPS_PROXY"; "AGENT_RELEASE_REPOSITORY_MIRROR_USERNAME";
   "AGENT_RELEASE_REPOSITORY_MIRROR_PASSWORD"; "INSTANA_SHARED_REPOSITORY_MIRROR_USERNAME";
   "INSTANA_SHARED_REPOSITORY_MIRROR_PASSWORD"].
Definition from_secret (ev : EnvVar) : bool :=
  match ev_ValueFrom ev with
  | Some src => match evs_SecretKeyRef src with Some _ => true | None => false end
  | None => false
  end.

Lemma stringToEnvVar_Some n v e : stringToEnvVar n v = Some e → e = env_value n v.
Proof. unfold stringToEnvVar. destruct (String.eqb v ""); naive_solver. Qed.
Lemma boolToEnvVar_Some n b e : boolToEnvVar n b = Some e → e = env_value n (FormatBool b).
Proof. unfold boolToEnvVar. destruct b; naive_solver. Qed.

(** Only secret variables are named like one or read a secret. *)
Lemma build_switch_secret v e :
  build_switch agent zone v = Value (Some e) → isSecret v = false →
  ev_Name e ∉ secret_env_names ∧ from_secret e = false.
Proof.
  assert (Hn : ∀ n x, bool_decide (n ∈ secret_env_names) = false →
    ev_Name (env_value n x) ∉ secret_env_names ∧ from_secret (env_value n x) = false).
  { intros n x Hb. split; [|done]. by apply bool_decide_eq_false in Hb. }
  assert (Hf : ∀ n x, bool_decide (n ∈ secret_env_names) = false →
    ev_Name (envWithObjectFieldSelector n x) ∉ secret_env_names ∧
    from_secret (envWithObjectFieldSelector n x) = false).
  { intros n x Hb. split; [|done]. by apply bool_decide_eq_false in Hb. }
  destruct v; try discriminate 2; intros E _; simpl in E;
    unfold agentModeEnv, zoneNameEnv, etcdCAFileEnv, etcdInsecureEnv, etcdTargetsEnv,
      controlPlaneCAFileEnv, restClientHostAllowlistEnv, deref in E;
    repeat match type of E with context [match ?x with _ => _ end] => destruct x end;
    simpl in E; try discriminate E;
    try (injection E as E'); try (apply stringToEnvVar_Some in E'); try (apply boolToEnvVar_Some in E');
    subst e; try first [by apply Hn|by apply Hf].
  split; [|done]. change (ev_Name (backendEnv agent)) with "BACKEND".
  apply (bool_decide_eq_false ("BACKEND" ∈ secret_env_names)). reflexivity.
Qed.

(** Only the variable of the custom resource's targets is named like it. *)
Lemma build_targets_name v e :
  build agent zone v = Value (Some e) → ev_Name e = "ETCD_TARGETS" → v = ETCDTargetsEnv.
Proof.
  unfold build. destruct (_ && _); [done|]. intros E Hn.
  destruct v; try done; exfalso; simpl in E;
    unfold agentModeEnv, zoneNameEnv, etcdCAFileEnv, etcdInsecureEnv, httpsProxyEnv,
      controlPlaneCAFileEnv, restClientHostAllowlistEnv, deref in E;
    repeat match type of E with context [match ?x with _ => _ end] => destruct x end;
    simpl in E; try discriminate E; injection E as E';
    try (apply stringToEnvVar_Some in E'); try (apply boolToEnvVar_Some in E');
    subst e; discriminate Hn.
Qed.
Lemma buildAll_elem vs acc l e :
  buildAll agent zone vs acc = Value l → e ∈ l →
  e ∈ acc ∨ ∃ v, v ∈ vs ∧ build agent zone v = Value (Some e).
Proof.
  revert acc. induction vs as [|v vs IH]; intros acc; simpl; [intros [= <-]; by left|].
  destruct (build agent zone v) as [o|p] eqn:Eb; simpl; [|done].
  intros El He. destruct (IH _ El He) as [Ha|(w & ? & ?)]; [|right; exists w; set_solver].
  destruct o as [e'|]; [|by left]. apply elem_of_app in Ha as [|Ha]; [by left|].
  apply list_elem_of_singleton in Ha as ->. right. exists v. set_solver.
Qed.

Lemma buildAll_prefix vs acc l : buildAll agent zone vs acc = Value l → ∃ r, l = acc ++ r.
Proof.
  revert acc. induction vs as [|v vs IH]; intros acc; simpl.
  { intros [= <-]. exists []. by rewrite app_nil_r. }
  destruct (build agent zone v) as [[e'|]|p]; simpl; [|apply IH|done].
  intros [r ->]%IH. exists (e' :: r). by rewrite <- app_assoc.
Qed.
Lemma buildAll_acc vs acc l e : buildAll agent zone vs acc = Value l → e ∈ acc → e ∈ l.
Proof. intros [r ->]%buildAll_prefix. set_solver. Qed.
Lemma buildAll_built vs acc l v e :
  buildAll agent zone vs acc = Value l → v ∈ vs → build agent zone v = Value (Some e) → e ∈ l.
Proof.
  revert acc. induction vs as [|w vs IH]; intros acc; simpl; [set_solver|].
  intros El [->|Hv]%elem_of_cons Hb.
  - rewrite Hb in El. simpl in El. eapply buildAll_acc; [exact El|set_solver].
  - destruct (build agent zone w) as [o|p]; simpl in El; [by eapply IH|done].
Qed.

(** The variables that read a pointer the user may leave nil. *)
Definition may_panic (v : AgentEnvVar) : bool :=
  let otel := spec_OpenTelemetry (agent_Spec agent) in
  let nil {A} (o : option A) := match o with None => true | Some _ => false end in
  match v with
  | InstanaOpenTelemetryGRPCEnabled => nil (otp_Enabled (ot_GRPC otel))
  | InstanaOpenTelemetryGRPCPort => nil (otp_Port (ot_GRPC otel))
  | InstanaOpenTelemetryHTTPEnabled => nil (otp_Enabled (ot_HTTP otel))
  | InstanaOpenTelemetryHTTPPort => nil (otp_Port (ot_HTTP otel))
  | _ => false
  end.
Lemma build_panics v :
  (∃ p, build agent zone v = Panics p) ↔ may_panic v = true.
Proof.
  unfold build, build_switch, may_panic, deref.
  destruct v; simpl; rewrite ?andb_false_r, ?andb_true_r;
    repeat match goal with |- context [match ?x with _ => _ end] => destruct x end;
    simpl; naive_solver.
Qed.
Lemma buildAll_returns vs acc :
  Forall (fun v => may_panic v = false) vs → ∃ l, buildAll agent zone vs acc = Value l.
Proof.
  intros Hv. revert acc. induction Hv as [|v vs Hv _ IH]; intros acc; simpl; [eauto|].
  destruct (build agent zone v) as [o|p] eqn:E; [apply IH|].
  assert (may_panic v = true) by (apply build_panics; eauto). congruence.
Qed.
End EnvFacts.

(** ** Variables collected by name

    The agent's and the remote agent's builders write the variables into a map
    keyed by name and sort what the map holds. *)

(** [envVarMap[envVar.Name] = envVar] for each variable in turn. *)
Definition addEnvVars (envs : list EnvVar) (m : gmap string EnvVar) : gmap string EnvVar :=
  foldl (fun m envVar => <[ev_Name envVar := envVar]> m) m envs.

(** The last variable of the name. *)
Definition last_named (name : string) (l : list EnvVar) : option EnvVar :=
  last (filter (fun e => ev_Name e = name) l).

Lemma addEnvVars_lookup l m name :
  addEnvVars l m !! name = match last_named name l with Some e => Some e | None => m !! name end.
Proof.
  unfold addEnvVars, last_named. induction l as [|e l IH] using rev_ind; [done|].
  rewrite foldl_app, filter_app. cbn [foldl]. destruct (decide (ev_Name e = name)) as [<-|Hn].
  - by rewrite lookup_insert_eq, filter_cons_True, filter_nil, last_snoc.
  - by rewrite lookup_insert_ne, filter_cons_False, filter_nil, app_nil_r.
Qed.
Lemma last_named_app name l1 l2 :
  last_named name (l1 ++ l2) =
  match last_named name l2 with Some e => Some e | None => last_named name l1 end.
Proof. unfold last_named. rewrite filter_app. apply last_app. Qed.
Lemma last_named_elem name l e : last_named name l = Some e → e ∈ l.
Proof.
  unfold last_named. intros Hl%last_Some_elem_of. by apply list_elem_of_filter in Hl as [_ ?].
Qed.
Lemma last_named_name name l e : last_named name l = Some e → ev_Name e = name.
Proof.
  unfold last_named. intros Hl%last_Some_elem_of. by apply list_elem_of_filter in Hl as [? _].
Qed.

Section Collected.
Context (sources : list EnvVar).
Notation m := (addEnvVars sources ∅).

Lemma collected_lookup name : m !! name = last_named name sources.
Proof. rewrite addEnvVars_lookup, lookup_empty. by destruct (last_named name sources). Qed.
Lemma collected_elem e : e ∈ (snd <$> map_to_list m) ↔ last_named (ev_Name e) sources = Some e.
Proof.
  rewrite list_elem_of_fmap. split.
  - intros ([n e'] & -> & Hl%elem_of_map_to_list). simpl. rewrite collected_lookup in Hl.
    by rewrite (last_named_name _ _ _ Hl).
  - intros Hl. exists (ev_Name e, e). by rewrite elem_of_map_to_list, collected_lookup.
Qed.
Lemma collected_names : NoDup (ev_Name <$> (snd <$> map_to_list m)).
Proof.
  rewrite <- list_fmap_compose.
  rewrite (list_fmap_ext _ fst _); [apply NoDup_fst_map_to_list|].
  intros i [n e] Hl%list_elem_of_lookup_2%elem_of_map_to_list. simpl.
  rewrite collected_lookup in Hl. by eapply last_named_name.
Qed.
(** Sorted by distinct names; each name has the value given last. *)
Lemma collected_env_vars :
  let envs := SortEnvVarsByName (snd <$> map_to_list m) in
  StronglySorted env_le envs ∧ NoDup (ev_Name <$> envs) ∧
  ∀ e, e ∈ envs ↔ last_named (ev_Name e) sources = Some e.
Proof.
  intros envs. split; [apply SortEnvVarsByName_sorted|]. split.
  - unfold envs. rewrite SortEnvVarsByName_perm. apply collected_names.
  - intros e. unfold envs. by rewrite SortEnvVarsByName_perm, collected_elem.
Qed.
End Collected.

(** ** Properties *)

(** C33: with secret mounts in use, no variable the operator adds is named like
    a secret or reads one: every such variable of the result is the user's. *)
Theorem EnvBuilder_no_secrets `{MapRangeLaws} agent zone vs envs e :
  useSecretMounts agent = true →
  EnvBuilder_Build agent zone vs = Value envs → e ∈ envs →
  (∃ value, e = env_value (ev_Name e) value ∧
            default ∅ (ag_Env (spec_Agent (agent_Spec agent))) !! ev_Name e = Some value) ∨
  (ev_Name e ∉ secret_env_names ∧ from_secret e = false).
Proof.
  intros Hs Eb He. destruct (buildAll_elem agent zone _ _ _ _ Eb He) as [Hu|(v & _ & Ev)].
  - left. unfold getUserProvidedEnvs in Hu. apply list_elem_of_fmap in Hu as ([n x] & -> & Hx).
    rewrite range_perm in Hx. apply elem_of_map_to_list in Hx. exists x. done.
  - right. unfold build in Ev. rewrite Hs in Ev. simpl in Ev.
    destruct (isSecret v) eqn:Ei; [done|]. by eapply build_switch_secret.
Qed.

Lemma EnvBuilder_no_secrets_witness :
  let vs := [InstanaAgentKeyEnv; ClusterNameEnv; DownloadKeyEnv] in
  let envs := [env_value "INSTANA_KUBERNETES_CLUSTER_NAME" "c"] in
  EnvBuilder_Build example_agent None vs = Value envs ∧
  ∀ e, e ∈ envs →
  (∃ value, e = env_value (ev_Name e) value ∧
     default ∅ (ag_Env (spec_Agent (agent_Spec example_agent))) !! ev_Name e = Some value) ∨
  (ev_Name e ∉ secret_env_names ∧ from_secret e = false).
Proof.
  intros vs envs. assert (EnvBuilder_Build example_agent None vs = Value envs) as E
    by (vm_compute; reflexivity).
  split; [exact E|]. intros e He.
  exact (EnvBuilder_no_secrets example_agent None vs envs e eq_refl E He).
Defined.
