(* ===== verification/VolumeBuilder.v ===== *)
(** * Volumes of the agent's and the k8sensor's pods: common/volume/volume_builder.go

    Each symbolic volume of the source is translated to a pod volume and its
    mount, or to nothing when the custom resource or the platform does not
    call for it. *)
From S2P Require Import Prelude GoStd Errors K8sTypes ApiTypes Effects Cluster Transformations.
From S2P Require Import Helpers.

Inductive AgentVolume :=
  | DevVolume | RunVolume | VarRunVolume | VarRunKuboVolume | VarRunContainerdVolume
  | VarContainerdConfigVolume | SysVolume | VarLogVolume | VarLibInstanaVolume
  | VarDataVolume | MachineIdVolume | ConfigVolume | TlsVolume | RepoVolume
  | NamespacesDetailsVolume | SecretsVolume | K8SensorSecretsVolume
  | ETCDCAVolume | ETCDClientCertVolume | ControlPlaneCAVolume.
#[export] Instance AgentVolume_eq_dec : EqDecision AgentVolume.
Proof. solve_decision. Defined.

Record volumeBuilder := {
  vb_instanaAgent : InstanaAgent; vb_isOpenShift : bool; vb_backendResourceSuffix : string }.
Definition NewVolumeBuilder (agent : InstanaAgent) (isOpenShift : bool) : volumeBuilder :=
  {| vb_instanaAgent := agent; vb_isOpenShift := isOpenShift; vb_backendResourceSuffix := "" |}.
Definition WithBackendResourceSuffix (suffix : string) (v : volumeBuilder) : volumeBuilder :=
  {| vb_instanaAgent := vb_instanaAgent v; vb_isOpenShift := vb_isOpenShift v;
     vb_backendResourceSuffix := suffix |}.

(** File modes, octal in the source. *)
Definition mode_0440 : Z := 288.
Definition mode_0400 : Z := 256.
Definition MountPropagationHostToContainer := "HostToContainer".
Definition HostPathDirectoryOrCreate := "DirectoryOrCreate".

(** A pair of nilable pointers, as every builder returns. *)
Notation volume_and_mount := (option K8sTypes.Volume * option VolumeMount)%type.

Definition volume (name : string) (source : VolumeSource) : option K8sTypes.Volume :=
  Some {| vol_Name := name; vol_Source := source |}.
Definition volumeMount (name path : string) (readOnly : bool) : option VolumeMount :=
  Some (Mount name path None readOnly).

Definition hostVolumeWithMount (name path : string)
    (mountPropagationMode hostPathType : option string) : volume_and_mount :=
  (volume name (HostPathSource path hostPathType),
   Some (Mount name path mountPropagationMode false)).
Definition hostVolumeWithMountLiteralWhenCondition (condition : bool) (name path : string)
    (mountPropagationMode hostPathType : option string) : volume_and_mount :=
  if condition then hostVolumeWithMount name path mountPropagationMode hostPathType
  else (None, None).

Section VolumeBuilder.
Context (v : volumeBuilder).
Let instanaAgent := vb_instanaAgent v.
Let ag := spec_Agent (agent_Spec instanaAgent).
Let ks := spec_K8sSensor (agent_Spec instanaAgent).

Definition configVolume : volume_and_mount :=
  let volumeName := "config" in
  (volume volumeName (SecretSource (agent_Name instanaAgent +++ "-config") [] (Some mode_0440) None),
   volumeMount volumeName InstanaConfigDirectory false).

Definition namespacesDetailsVolume : volume_and_mount :=
  let volumeName := "namespaces-details" in
  (volume volumeName
     (ConfigMapSource (agent_Name instanaAgent +++ "-namespaces") [] (Some mode_0440)),
   volumeMount volumeName InstanaNamespacesDetailsDirectory false).

Definition tlsVolume : volume_and_mount :=
  if negb (TLSIsEnabled instanaAgent) then (None, None)
  else
    let volumeName := "instana-agent-tls" in
    (volume volumeName (SecretSource (TLSSecretName instanaAgent) [] (Some mode_0440) None),
     volumeMount volumeName "/opt/instana/agent/etc/certs" true).

Definition repoVolume : volume_and_mount :=
  if String.eqb (ag_HostRepository ag) "" then (None, None)
  else
    let volumeName := "repo" in
    (volume volumeName (HostPathSource (ag_HostRepository ag) None),
     volumeMount volumeName "/opt/instana/agent/data/repo" false).

(** [UseSecretMounts] is set to false. *)
Definition secretMountsOff : bool :=
  match spec_UseSecretMounts (agent_Spec instanaAgent) with Some b => negb b | None => false end.
Definition volumeSecretName : string :=
  if String.eqb (ag_KeysSecret ag) "" then agent_Name instanaAgent else ag_KeysSecret ag.

Definition k8sensorSecretsItems : list KeyToPath :=
  let '(agentKeySecretKey, proxySecretKey) :=
    if negb (String.eqb (ag_KeysSecret ag) "")
    then (AgentKey +++ vb_backendResourceSuffix v, SecretKeyHttpsProxy)
    else (SecretFileAgentKey +++ vb_backendResourceSuffix v, SecretFileHttpsProxy) in
  let items :=
    [{| ktp_Key := agentKeySecretKey;
        ktp_Path := SecretFileAgentKey +++ vb_backendResourceSuffix v |}] in
  if negb (String.eqb (ag_ProxyHost ag) "")
  then items ++ [{| ktp_Key := proxySecretKey; ktp_Path := SecretFileHttpsProxy |}]
  else items.
Definition k8sensorSecretsVolume : volume_and_mount :=
  if secretMountsOff then (None, None)
  else
    let volumeName := "instana-secrets" in
    (volume volumeName (SecretSource volumeSecretName k8sensorSecretsItems (Some mode_0400) None),
     volumeMount volumeName InstanaSecretsDirectory true).

Definition secretsVolume : volume_and_mount :=
  if secretMountsOff then (None, None)
  else
    let volumeName := "instana-secrets" in
    let items :=
      if negb (String.eqb (ag_KeysSecret ag) "")
      then [{| ktp_Key := AgentKey +++ vb_backendResourceSuffix v;
               ktp_Path := SecretFileAgentKey |}]
      else [] in
    (volume volumeName (SecretSource volumeSecretName items (Some mode_0400) None),
     volumeMount volumeName InstanaSecretsDirectory true).

Definition etcdCAVolume : volume_and_mount :=
  let ca := etcd_CA (ks_ETCD ks) in
  if String.eqb (ca_SecretName ca) "" then
    if vb_isOpenShift v then
      let volumeName := ETCDCASecretName in
      (volume volumeName
         (ConfigMapSource ETCDMetricsCABundleName
            [{| ktp_Key := ETCDCABundleFileName; ktp_Path := ETCDCABundleFileName |}]
            (Some mode_0440)),
       volumeMount volumeName ETCDMetricsCAMountPath true)
    else (None, None)
  else
    let volumeName := "etcd-ca" in
    let filename := if String.eqb (ca_Filename ca) "" then "ca.crt" else ca_Filename ca in
    (volume volumeName
       (SecretSource (ca_SecretName ca) [{| ktp_Key := filename; ktp_Path := "ca.crt" |}]
          (Some mode_0440) None),
     volumeMount volumeName (ca_MountPath ca) true).

Definition etcdClientCertVolume : volume_and_mount :=
  if negb (vb_isOpenShift v) then (None, None)
  else
    let volumeName := ETCDClientCertSecretName in
    (volume volumeName
       (SecretSource ETCDMetricClientSecretName
          [{| ktp_Key := ETCDClientCertFileName; ktp_Path := ETCDClientCertFileName |};
           {| ktp_Key := ETCDClientKeyFileName; ktp_Path := ETCDClientKeyFileName |}]
          (Some mode_0440) None),
     volumeMount volumeName ETCDClientCertMountPath true).

Definition controlPlaneCAVolume : volume_and_mount :=
  let ca := rc_CA (ks_RestClient ks) in
  if String.eqb (ca_SecretName ca) "" then (None, None)
  else
    let volumeName := "control-plane-ca" in
    let filename := if String.eqb (ca_Filename ca) "" then "ca.crt" else ca_Filename ca in
    (volume volumeName
       (SecretSource (ca_SecretName ca) [{| ktp_Key := filename; ktp_Path := "ca.crt" |}]
          (Some mode_0440) None),
     volumeMount volumeName (ca_MountPath ca) true).

(** The source's default case panics on an unknown number, which no symbolic
    volume is. *)
Definition getBuilder (vol : AgentVolume) : volume_and_mount :=
  let hostToContainer := Some MountPropagationHostToContainer in
  let mkdir := Some HostPathDirectoryOrCreate in
  match vol with
  | DevVolume => hostVolumeWithMount "dev" "/dev" hostToContainer None
  | RunVolume => hostVolumeWithMount "run" "/run" hostToContainer None
  | VarRunVolume => hostVolumeWithMount "var-run" "/var/run" hostToContainer None
  | VarRunKuboVolume =>
      hostVolumeWithMountLiteralWhenCondition (negb (vb_isOpenShift v)) "var-run-kubo"
        "/var/vcap/sys/run/docker" hostToContainer mkdir
  | VarRunContainerdVolume =>
      hostVolumeWithMountLiteralWhenCondition (negb (vb_isOpenShift v)) "var-run-containerd"
        "/var/vcap/sys/run/containerd" hostToContainer mkdir
  | VarContainerdConfigVolume =>
      hostVolumeWithMountLiteralWhenCondition (negb (vb_isOpenShift v)) "var-containerd-config"
        "/var/vcap/jobs/containerd/config" hostToContainer mkdir
  | SysVolume => hostVolumeWithMount "sys" "/sys" hostToContainer None
  | VarLogVolume => hostVolumeWithMount "var-log" "/var/log" hostToContainer None
  | VarLibInstanaVolume =>
      hostVolumeWithMount "var-lib-instana" "/var/lib/instana" hostToContainer mkdir
  | VarDataVolume => hostVolumeWithMount "var-data" "/var/data" hostToContainer mkdir
  | MachineIdVolume => hostVolumeWithMount "machine-id" "/etc/machine-id" None None
  | ConfigVolume => configVolume
  | NamespacesDetailsVolume => namespacesDetailsVolume
  | TlsVolume => tlsVolume
  | RepoVolume => repoVolume
  | SecretsVolume => secretsVolume
  | K8SensorSecretsVolume => k8sensorSecretsVolume
  | ETCDCAVolume => etcdCAVolume
  | ETCDClientCertVolume => etcdClientCertVolume
  | ControlPlaneCAVolume => controlPlaneCAVolume
  end.

Definition append_some {A} (l : list A) (o : option A) : list A :=
  match o with Some x => l ++ [x] | None => l end.
Definition VolumeBuilder_Build (volumes : list AgentVolume) :
    list K8sTypes.Volume * list VolumeMount :=
  foldl (fun acc volumeNumber =>
           let '(volume, volumeMount) := getBuilder volumeNumber in
           (append_some (fst acc) volume, append_some (snd acc) volumeMount))
        ([], []) volumes.

Definition BuildFromUserConfig : list K8sTypes.Volume * list VolumeMount :=
  (pod_Volumes (ag_Pod ag), pod_VolumeMounts (ag_Pod ag)).
End VolumeBuilder.

(** ** Facts *)

(** The pairs of volumes and mounts have one name, and it is this one. *)
Definition volume_name (vol : AgentVolume) : string :=
  match vol with
  | DevVolume => "dev" | RunVolume => "run" | VarRunVolume => "var-run"
  | VarRunKuboVolume => "var-run-kubo" | VarRunContainerdVolume => "var-run-containerd"
  | VarContainerdConfigVolume => "var-containerd-config" | SysVolume => "sys"
  | VarLogVolume => "var-log" | VarLibInstanaVolume => "var-lib-instana"
  | VarDataVolume => "var-data" | MachineIdVolume => "machine-id" | ConfigVolume => "config"
  | TlsVolume => "instana-agent-tls" | RepoVolume => "repo"
  | NamespacesDetailsVolume => "namespaces-details"
  | SecretsVolume | K8SensorSecretsVolume => "instana-secrets"
  | ETCDCAVolume => "etcd-ca" | ETCDClientCertVolume => "etcd-client-cert"
  | ControlPlaneCAVolume => "control-plane-ca"
  end.

Section VolumeFacts.
Context (v : volumeBuilder).

(** Whether [getBuilder] gives a volume. *)
Definition gives_volume (vol : AgentVolume) : bool :=
  match fst (getBuilder v vol) with Some _ => true | None => false end.

Ltac split_builder :=
  repeat match goal with
    | |- context [if ?b then _ else _] => lazymatch type of b with bool => destruct b end
    end.

Lemma getBuilder_names vol :
  match getBuilder v vol with
  | (Some x, Some y) => vol_Name x = volume_name vol ∧ vm_Name y = volume_name vol
  | (None, None) => True
  | _ => False
  end.
Proof.
  destruct vol; simpl;
    unfold hostVolumeWithMountLiteralWhenCondition, tlsVolume, repoVolume, secretsVolume,
      k8sensorSecretsVolume, etcdCAVolume, etcdClientCertVolume, controlPlaneCAVolume;
    split_builder; simpl; done.
Qed.

Lemma append_some_name {A} (f : A → string) (l : list A) (o : option A) :
  f <$> append_some l o = (f <$> l) ++ match o with Some x => [f x] | None => [] end.
Proof. destruct o; simpl; [by rewrite fmap_app|by rewrite app_nil_r]. Qed.

(** The names of what is built, in the order of the request. *)
Lemma VolumeBuilder_Build_names vols :
  vol_Name <$> fst (VolumeBuilder_Build v vols) = volume_name <$> List.filter gives_volume vols ∧
  vm_Name <$> snd (VolumeBuilder_Build v vols) = volume_name <$> List.filter gives_volume vols.
Proof.
  unfold VolumeBuilder_Build. induction vols as [|vol vols IH] using rev_ind; [done|].
  rewrite foldl_app, List.filter_app, fmap_app. cbn [foldl List.filter].
  assert (Hg : gives_volume vol = match fst (getBuilder v vol) with Some _ => true | None => false end)
    by done.
  pose proof (getBuilder_names vol) as Hn. rewrite Hg. clear Hg.
  destruct (getBuilder v vol) as [[x|] [y|]]; try done; cbn [fst snd];
    rewrite !append_some_name; destruct IH as [-> ->]; [|by rewrite !app_nil_r].
  by destruct Hn as [-> ->].
Qed.

Lemma append_some_elem {A} (l : list A) (o : option A) x :
  x ∈ append_some l o ↔ x ∈ l ∨ o = Some x.
Proof. destruct o; simpl; set_solver. Qed.

(** What is built for a volume of the request. *)
Lemma VolumeBuilder_Build_elem vols vol x y :
  vol ∈ vols → getBuilder v vol = (Some x, Some y) →
  x ∈ fst (VolumeBuilder_Build v vols) ∧ y ∈ snd (VolumeBuilder_Build v vols).
Proof.
  intros Hv E. unfold VolumeBuilder_Build. induction vols as [|vol' vols IH] using rev_ind; [set_solver|].
  rewrite foldl_app. cbn [foldl]. apply elem_of_app in Hv as [Hv| ->%list_elem_of_singleton].
  - destruct (getBuilder v vol') as [o o']. cbn [fst snd]. rewrite !append_some_elem.
    destruct (IH Hv). auto.
  - rewrite E. cbn [fst snd]. rewrite !append_some_elem. auto.
Qed.

Lemma volume_name_inj vol vol' :
  volume_name vol = volume_name vol' →
  vol = vol' ∨ (vol = SecretsVolume ∧ vol' = K8SensorSecretsVolume) ∨
  (vol = K8SensorSecretsVolume ∧ vol' = SecretsVolume).
Proof. destruct vol, vol'; intros E; try discriminate E; auto. Qed.

Lemma VolumeBuilder_Build_NoDup vols :
  NoDup vols → ¬ (SecretsVolume ∈ vols ∧ K8SensorSecretsVolume ∈ vols) →
  NoDup (volume_name <$> List.filter gives_volume vols).
Proof.
  intros Hd Hs. apply NoDup_fmap_2_strong.
  - intros x y Hx Hy E.
    apply list_elem_of_In, filter_In in Hx as [Hx%list_elem_of_In _], Hy as [Hy%list_elem_of_In _].
    destruct (volume_name_inj x y E) as [?|[[-> ->]|[-> ->]]]; [done| |]; exfalso; auto.
  - apply NoDup_ListNoDup, List.NoDup_filter, NoDup_ListNoDup, Hd.
Qed.
End VolumeFacts.

(** ** Properties *)

(** For distinct symbolic volumes, not both kinds of secret volumes among
    them, the pod gets volumes of distinct names, and exactly one mount for
    each of them and no other. *)
Theorem VolumeBuilder_Build_consistent v vols :
  NoDup vols → ¬ (SecretsVolume ∈ vols ∧ K8SensorSecretsVolume ∈ vols) →
  let '(volumes, mounts) := VolumeBuilder_Build v vols in
  NoDup (vol_Name <$> volumes) ∧ vm_Name <$> mounts = vol_Name <$> volumes.
Proof.
  intros Hd Hs. pose proof (VolumeBuilder_Build_names v vols) as [Hv Hm].
  destruct (VolumeBuilder_Build v vols) as [volumes mounts]. simpl in *.
  rewrite Hv, Hm. split; [by apply VolumeBuilder_Build_NoDup|done].
Qed.

Lemma VolumeBuilder_Build_consistent_witness :
  let '(volumes, mounts) :=
    VolumeBuilder_Build (NewVolumeBuilder example_agent true) [DevVolume; SecretsVolume; ETCDCAVolume] in
  NoDup (vol_Name <$> volumes) ∧ vm_Name <$> mounts = vol_Name <$> volumes.
Proof.
  apply (VolumeBuilder_Build_consistent (NewVolumeBuilder example_agent true)
           [DevVolume; SecretsVolume; ETCDCAVolume]).
  - apply (bool_decide_eq_true (NoDup [DevVolume; SecretsVolume; ETCDCAVolume])). reflexivity.
  - intros [_ H]. revert H. apply (bool_decide_eq_false _). reflexivity.
Defined.
