(* ===== verification/Secrets.v ===== *)
(** * The agent's secrets: builders/agent/secrets

    keys-secret (agent, download and backend keys, credentials for the file
    mounts), the configuration secret with one sender configuration per
    backend, the image pull secret and the TLS secret.  YAML is written by a
    library outside the repository, a parameter ([Yaml]). *)
From S2P Require Import Prelude GoStd GoEncoding Errors K8sTypes ApiTypes Effects Cluster Client.
From S2P Require Import Transformations Status Helpers VolumeBuilder.

Definition SecretTypeOpaque := "Opaque".
Definition SecretTypeDockerConfigJson := "kubernetes.io/dockerconfigjson".
Definition SecretTypeTLS := "kubernetes.io/tls".
Definition DockerConfigJsonKey := ".dockerconfigjson".
Definition TLSCertKey := "tls.crt".
Definition TLSPrivateKeyKey := "tls.key".
Notation secret_data := (gmap string bytes).

(** ** gopkg.in/yaml.v3 *)
Inductive yaml_value :=
  | YBool (b : bool) | YMap (l : list (string * yaml_value))
  | YOpenTelemetry (o : OpenTelemetry) | YNamespacesDetails (d : NamespacesDetails).
Class Yaml := yaml_Marshal : yaml_value → bytes * option error.

(** A printer of YAML flow style for the examples. *)
Fixpoint print_yaml (y : yaml_value) : string :=
  match y with
  | YBool b => if b then "true" else "false"
  | YMap l => "{" +++ foldr (fun '(k, v) rest => k +++ ": " +++ print_yaml v +++ "," +++ rest) "}" l
  | YOpenTelemetry _ => "{}"
  | YNamespacesDetails _ => "{}"
  end.
#[export] Instance flow_yaml : Yaml := fun y => (print_yaml y, None).

Definition newSecret (name namespace type : string) (data : secret_data) : Secret :=
  {| sec_Meta := NewObjectMeta name namespace; sec_Type := type; sec_Data := Some data |}.
Definition secret_lookup (s : Secret) (key : string) : option bytes := default ∅ (sec_Data s) !! key.

(** ** keys-secret/secret.go *)
(** An entry that is a file to mount, when secrets are mounted. *)
Definition addFile (mounts : bool) (name value : string) (data : secret_data) : secret_data :=
  if mounts then <[name := value]> data else data.
(** [optional.Of(value).IfPresent]: the value is added as a file to mount. *)
Definition addFileIfPresent (mounts : bool) (name value : string) (data : secret_data) :
    secret_data :=
  Optional.IfPresent (Optional.Of value) (addFile mounts name) data.
Definition addBackendKey (mounts : bool) (data : secret_data) (backend : K8SensorBackend) :
    secret_data :=
  Optional.IfPresent (Optional.Of (kb_EndpointKey backend)) (fun key data =>
    addFile mounts (SecretFileAgentKey +++ kb_ResourceSuffix backend) key
      (<[AgentKey +++ kb_ResourceSuffix backend := key]> data)) data.

Section KeysSecret.
Context (agent : InstanaAgent).
Let ag := spec_Agent (agent_Spec agent).

(** [UseSecretMounts] is set, and to true. *)
Definition secretMountsOn : bool :=
  match spec_UseSecretMounts (agent_Spec agent) with Some b => b | None => false end.
Definition proxyURL : URL :=
  {| url_Scheme := Optional.GetOrDefault (Optional.Of (ag_ProxyProtocol ag)) "http";
     url_Host := ag_ProxyHost ag +++ ":" +++
                 Optional.GetOrDefault (Optional.Of (ag_ProxyPort ag)) "80";
     url_User := if negb (String.eqb (ag_ProxyUser ag) "") && negb (String.eqb (ag_ProxyPassword ag) "")
                 then Some (ag_ProxyUser ag, ag_ProxyPassword ag) else None |}.

Definition getData (backends : list K8SensorBackend) : secret_data :=
  let mounts := secretMountsOn in
  let data := Optional.IfPresent (Optional.Of (ag_DownloadKey ag)) (fun downloadKey data =>
    addFile mounts SecretFileDownloadKey downloadKey (<[DownloadKey := downloadKey]> data)) ∅ in
  let data := addFileIfPresent mounts SecretFileProxyUser (ag_ProxyUser ag) data in
  let data := addFileIfPresent mounts SecretFileProxyPassword (ag_ProxyPassword ag) data in
  let data := addFileIfPresent mounts SecretFileMirrorReleaseRepoUsername
                (ag_MirrorReleaseRepoUsername ag) data in
  let data := addFileIfPresent mounts SecretFileMirrorReleaseRepoPassword
                (ag_MirrorReleaseRepoPassword ag) data in
  let data := addFileIfPresent mounts SecretFileMirrorSharedRepoUsername
                (ag_MirrorSharedRepoUsername ag) data in
  let data := addFileIfPresent mounts SecretFileMirrorSharedRepoPassword
                (ag_MirrorSharedRepoPassword ag) data in
  let data := if negb (String.eqb (ag_ProxyHost ag) "")
              then addFile mounts SecretFileHttpsProxy (URL_String proxyURL) data else data in
  foldl (addBackendKey mounts) data backends.

Definition buildKeysSecret (backends : list K8SensorBackend) : Secret :=
  newSecret (agent_Name agent) (agent_Namespace agent) SecretTypeOpaque (getData backends).
Definition NewKeysSecretBuilder {W X} (backends : list K8SensorBackend) : ObjectBuilder W X :=
  {| Build := mret (if String.eqb (ag_KeysSecret ag) ""
                    then Some (OSecret (buildKeysSecret backends)) else None);
     ComponentName := ComponentInstanaAgent; IsNamespaced := true |}.
End KeysSecret.

(** ** config.go *)
Definition toInlineVariable (key value : string) (fallback : option string) : string :=
  match fallback with
  | Some f => if String.eqb value "" then key +++ "=" +++ f else key +++ "=" +++ value
  | None => key +++ "=" +++ value
  end.
(** Entries of the second map win. *)
Definition mergeMaps (map1 map2 : secret_data) : secret_data := map2 ∪ map1.

Definition newline : string := String "010" "".

Section ConfigSecret.
Context (agent : InstanaAgent).
Let ag := spec_Agent (agent_Spec agent).

(** The lines of one sender configuration. *)
Definition backendLines (backend : K8SensorBackend) (backendKey : string) : list string :=
  [toInlineVariable "host" (kb_EndpointHost backend) None;
   toInlineVariable "port" (kb_EndpointPort backend) (Some "443");
   toInlineVariable "protocol" "HTTP/2" None;
   toInlineVariable "key" backendKey None] ++
  (if negb (String.eqb (ag_ProxyHost ag) "")
   then [toInlineVariable "proxy.type" (ag_ProxyProtocol ag) (Some "HTTP");
         toInlineVariable "proxy.host" (ag_ProxyHost ag) None;
         toInlineVariable "proxy.port" (ag_ProxyPort ag) (Some "80")] else []) ++
  (if ag_ProxyUseDNS ag then [toInlineVariable "proxy.dns" "true" None] else []) ++
  (if negb (String.eqb (ag_ProxyUser ag) "") && negb (String.eqb (ag_ProxyPassword ag) "")
   then [toInlineVariable "proxy.user" (ag_ProxyUser ag) None;
         toInlineVariable "proxy.password" (ag_ProxyPassword ag) None] else []).

(** The key of a backend: the secret's entry wins over the custom resource's. *)
Definition backendKey (keysSecret : Secret) (backend : K8SensorBackend) : string :=
  match secret_lookup keysSecret ("key" +++ kb_ResourceSuffix backend) with
  | Some key => key
  | None => kb_EndpointKey backend
  end.
Definition backendFile (i : nat) : string :=
  "com.instana.agent.main.sender.Backend-" +++ itoa (Z.of_nat i + 1) +++ ".cfg".

Definition backendConfig_step (keysSecret : Secret) (config : secret_data)
    (i : nat) (backend : K8SensorBackend) : secret_data :=
  if (String.eqb (om_Name (sec_Meta keysSecret)) "" && String.eqb (kb_EndpointKey backend) "")
     || String.eqb (kb_EndpointHost backend) "" then config
  else if String.eqb (backendKey keysSecret backend) "" then config
  else <[backendFile i :=
          Join (backendLines backend (backendKey keysSecret backend)) newline +++ newline]> config.
Fixpoint backendConfig_from (keysSecret : option Secret) (i : nat)
    (backends : list K8SensorBackend) (config : secret_data) : or_panic secret_data :=
  match backends with
  | [] => Value config
  | backend :: backends =>
      match keysSecret with
      | None => Panics nil_dereference
      | Some s => backendConfig_from keysSecret (S i) backends (backendConfig_step s config i backend)
      end
  end.
(** The error of the source's result is always nil. *)
Definition backendConfig (keysSecret : option Secret) (backends : list K8SensorBackend) :
    or_panic secret_data := backendConfig_from keysSecret 0 backends ∅.

Definition configData `{Yaml} (keysSecret : option Secret) (backends : list K8SensorBackend) :
    or_panic secret_data :=
  let spec := agent_Spec agent in
  let data := ∅ in
  let data := if negb (String.eqb (spec_Cluster spec) "")
              then <["cluster_name" := spec_Cluster spec]> data else data in
  let data := if negb (String.eqb (ag_ConfigurationYaml ag) "")
              then <["configuration.yaml" := ag_ConfigurationYaml ag]> data else data in
  let mrshl := fst (yaml_Marshal (YMap [("com.instana.plugin.opentelemetry",
                                         YOpenTelemetry (spec_OpenTelemetry spec))])) in
  let data := <["configuration-opentelemetry.yaml" := mrshl]> data in
  let data :=
    if Pointer.DerefOrEmpty (spec_PrometheusRemoteWrite spec) then
      let mrshl := fst (yaml_Marshal (YMap [("com.instana.plugin.prometheus",
                     YMap [("remote_write", YMap [("enabled", YBool true)])])])) in
      <["configuration-prometheus-remote-write.yaml" := mrshl]> data
    else data in
  let mrshl := fst (yaml_Marshal (YMap [("com.instana.plugin.kubernetes",
                                         YMap [("enabled", YBool false)])])) in
  let data := <["configuration-disable-kubernetes-sensor.yaml" := mrshl]> data in
  mergeMaps data <$> backendConfig keysSecret backends.

Definition configSecretKey : ObjectKey := Key (agent_Namespace agent) (agent_Name agent +++ "-config").
Definition NewConfigBuilder {W} `{Yaml} (keysSecret : option Secret)
    (backends : list K8SensorBackend) : ObjectBuilder W agentStatusManager :=
  {| Build :=
       data ← lift (configData keysSecret backends);
       let secret := newSecret (agent_Name agent +++ "-config") (agent_Namespace agent)
                       SecretTypeOpaque data in
       _ ← modifyLocal (SetAgentSecretConfig configSecretKey);
       mret (Some (OSecret secret));
     ComponentName := ComponentInstanaAgent; IsNamespaced := true |}.
End ConfigSecret.

(** ** container.go *)
Section ContainerSecret.
Context (agent : InstanaAgent) (keysSecret : option Secret).
Let ag := spec_Agent (agent_Spec agent).

Definition downloadKey : option string :=
  let ofSpec :=
    if negb (String.eqb (ag_DownloadKey ag) "") then Some (ag_DownloadKey ag)
    else if negb (String.eqb (ag_Key ag) "") then Some (ag_Key ag) else None in
  match keysSecret with
  | Some s =>
      match secret_lookup s "downloadKey" with
      | Some key => Some key
      | None => match secret_lookup s "key" with Some key => Some key | None => ofSpec end
      end
  | None => ofSpec
  end.

Definition dquoted (s : string) : string := String "034" "" +++ s +++ String "034" "".
(** [json.Marshal] of a [dockerConfig]; it cannot fail. *)
Definition marshalJSON (downloadKey : string) : bytes :=
  "{" +++ dquoted "auths" +++ ":{" +++ dquoted ContainersInstanaIORegistry +++ ":{" +++
  dquoted "auth" +++ ":" +++ dquoted (base64_encode ("_:" +++ downloadKey)) +++ "}}}".

(** A nil secret makes the optional empty. *)
Definition buildContainerSecret : option Secret :=
  downloadKey ← downloadKey;
  Some (newSecret (ContainersSecretName agent) (agent_Namespace agent) SecretTypeDockerConfigJson
          {[ DockerConfigJsonKey := marshalJSON downloadKey ]}).
Definition NewContainerBuilder {W X} : ObjectBuilder W X :=
  {| Build := mret (if UseContainersSecret agent then OSecret <$> buildContainerSecret else None);
     ComponentName := ComponentInstanaAgent; IsNamespaced := true |}.
End ContainerSecret.

(** ** tls-secret/secret.go *)
Section TLSSecret.
Context (agent : InstanaAgent).
Let tls := ag_Tls (spec_Agent (agent_Spec agent)).

Definition buildTLSSecret : Secret :=
  newSecret (TLSSecretName agent) (agent_Namespace agent) SecretTypeTLS
    (<[TLSPrivateKeyKey := tls_Key tls]> {[ TLSCertKey := tls_Certificate tls ]}).
Definition NewTLSSecretBuilder {W X} : ObjectBuilder W X :=
  {| Build := mret (if String.eqb (tls_SecretName tls) "" &&
                       (0 <? String.length (tls_Key tls)) &&
                       (0 <? String.length (tls_Certificate tls))
                    then Some (OSecret buildTLSSecret) else None);
     ComponentName := ComponentInstanaAgent; IsNamespaced := true |}.
End TLSSecret.

(** ** Facts *)
Section KeysFacts.
Context (mounts : bool).
Implicit Types (data : secret_data) (b : K8SensorBackend).

Lemma file_key_ne (a b : string) : SecretFileAgentKey +++ a ≠ AgentKey +++ b.
Proof. intros E. discriminate E. Qed.

Lemma addBackendKey_file data b :
  mounts = true → kb_EndpointKey b ≠ "" →
  addBackendKey mounts data b !! (SecretFileAgentKey +++ kb_ResourceSuffix b) =
  Some (kb_EndpointKey b).
Proof.
  intros Hm Hk. apply String.eqb_neq in Hk.
  unfold addBackendKey, Optional.IfPresent, Optional.IsPresent, Optional.IsNotPresent.
  simpl. rewrite Hk. simpl. unfold addFile. rewrite Hm. by rewrite lookup_insert_eq.
Qed.

Lemma addBackendKey_key data b :
  kb_EndpointKey b ≠ "" →
  addBackendKey mounts data b !! (AgentKey +++ kb_ResourceSuffix b) = Some (kb_EndpointKey b).
Proof.
  intros Hk. apply String.eqb_neq in Hk.
  unfold addBackendKey, Optional.IfPresent, Optional.IsPresent, Optional.IsNotPresent.
  simpl. rewrite Hk. simpl. unfold addFile. destruct mounts;
    rewrite ?lookup_insert_ne by apply file_key_ne; by rewrite lookup_insert_eq.
Qed.

Lemma addBackendKey_other data b key :
  key ≠ SecretFileAgentKey +++ kb_ResourceSuffix b → key ≠ AgentKey +++ kb_ResourceSuffix b →
  addBackendKey mounts data b !! key = data !! key.
Proof.
  intros H1 H2. unfold addBackendKey, Optional.IfPresent, addFile.
  destruct (Optional.IsPresent _); [|done]. destruct mounts;
    rewrite ?lookup_insert_ne by congruence; done.
Qed.

Lemma addBackendKeys_other bs data key :
  Forall (fun b => key ≠ SecretFileAgentKey +++ kb_ResourceSuffix b ∧
                   key ≠ AgentKey +++ kb_ResourceSuffix b) bs →
  foldl (addBackendKey mounts) data bs !! key = data !! key.
Proof.
  intros H. revert data. induction H as [|b bs [H1 H2] _ IH]; intros data; [done|].
  simpl. rewrite IH. by apply addBackendKey_other.
Qed.

(** An entry of one backend, whose suffix no other backend has. *)
Lemma addBackendKeys_backend (prefix : string) bs b data :
  prefix = SecretFileAgentKey ∧ mounts = true ∨ prefix = AgentKey →
  (∀ i j b1 b2, bs !! i = Some b1 → bs !! j = Some b2 →
     kb_ResourceSuffix b1 = kb_ResourceSuffix b2 → i = j) →
  b ∈ bs → kb_EndpointKey b ≠ "" →
  foldl (addBackendKey mounts) data bs !! (prefix +++ kb_ResourceSuffix b) = Some (kb_EndpointKey b).
Proof.
  intros Hp Hu [i Hi]%list_elem_of_lookup Hk.
  rewrite <- (take_drop_middle bs i b Hi), foldl_app. cbn [foldl].
  rewrite addBackendKeys_other.
  - destruct Hp as [[-> Hm]| -> ]; [by apply addBackendKey_file|by apply addBackendKey_key].
  - rewrite Forall_lookup. intros j b' Hj. rewrite lookup_drop in Hj.
    assert (Hs : kb_ResourceSuffix b ≠ kb_ResourceSuffix b') by (intros E; pose proof (Hu _ _ _ _ Hi Hj E); lia).
    destruct Hp as [[-> _]| -> ]; split; try apply file_key_ne; try apply not_eq_sym, file_key_ne;
      intros E%string_app_inj_l; done.
Qed.

(** An entry of a name no backend has: neither a key nor its file. *)
Lemma addBackendKeys_credential bs data key :
  HasPrefix key SecretFileAgentKey = false → HasPrefix key AgentKey = false →
  foldl (addBackendKey mounts) data bs !! key = data !! key.
Proof.
  intros Hf Hk. apply addBackendKeys_other, Forall_forall. intros b _.
  split; intros ->; [rewrite HasPrefix_app in Hf; done|rewrite HasPrefix_app in Hk; done].
Qed.
End KeysFacts.

Lemma getData_proxy agent a :
  secretMountsOn agent = true → ag_ProxyHost (spec_Agent (agent_Spec agent)) ≠ "" →
  getData agent (sensorBackends a) !! SecretFileHttpsProxy = Some (URL_String (proxyURL agent)).
Proof.
  intros Hm Hp. apply String.eqb_neq in Hp. unfold getData.
  rewrite addBackendKeys_credential by reflexivity.
  rewrite Hp. cbn [negb]. unfold addFile at 1. rewrite Hm. apply lookup_insert_eq.
Qed.

(** *** Sender configurations *)
Section ConfigFacts.
Context (agent : InstanaAgent).

Lemma backendFile_inj i j : backendFile i = backendFile j → i = j.
Proof.
  intros E%string_app_inj_l%string_app_inj_r. apply (inj (pretty (A:=Z))) in E. lia.
Qed.

(** The text of the configuration the backend gets, if it gets one. *)
Definition sender (s : Secret) (b : K8SensorBackend) (text : bytes) : Prop :=
  kb_EndpointHost b ≠ "" ∧ backendKey s b ≠ "" ∧
  (om_Name (sec_Meta s) ≠ "" ∨ kb_EndpointKey b ≠ "") ∧
  text = Join (backendLines agent b (backendKey s b)) newline +++ newline.

Lemma backendConfig_step_lookup s config i b text :
  config !! backendFile i = None →
  backendConfig_step agent s config i b !! backendFile i = Some text ↔ sender s b text.
Proof.
  intros Hn. unfold backendConfig_step, sender.
  destruct (String.eqb_spec (kb_EndpointHost b) ""), (String.eqb_spec (om_Name (sec_Meta s)) ""),
    (String.eqb_spec (kb_EndpointKey b) ""), (String.eqb_spec (backendKey s b) "");
    simpl; rewrite ?lookup_insert_eq, ?Hn; naive_solver.
Qed.
Lemma backendConfig_step_other s config i b name :
  name ≠ backendFile i → backendConfig_step agent s config i b !! name = config !! name.
Proof.
  intros Hn. unfold backendConfig_step. do 2 (destruct (_ : bool); [done|]).
  by rewrite lookup_insert_ne.
Qed.

Lemma backendConfig_from_spec s bs i config :
  (∀ j, (i ≤ j)%nat → config !! backendFile j = None) →
  ∃ c, backendConfig_from agent (Some s) i bs config = Value c ∧
    (∀ j text, c !! backendFile (i + j) = Some text ↔ ∃ b, bs !! j = Some b ∧ sender s b text) ∧
    (∀ name, (∀ j, (j < length bs)%nat → name ≠ backendFile (i + j)) → c !! name = config !! name).
Proof.
  revert i config. induction bs as [|b bs IH]; intros i config Hn; cbn [backendConfig_from].
  { exists config. split_and!; [done| |done]. intros j text. rewrite Hn by lia.
    rewrite lookup_nil. naive_solver. }
  destruct (IH (S i) (backendConfig_step agent s config i b)) as (c & -> & Hc & Ho).
  { intros j Hj. rewrite backendConfig_step_other; [apply Hn; lia|].
    intros E%backendFile_inj. lia. }
  exists c. split_and!; [done| |].
  - intros [|j] text.
    + rewrite Nat.add_0_r, Ho by (intros j _ E%backendFile_inj; lia).
      rewrite backendConfig_step_lookup by auto. simpl. naive_solver.
    + rewrite <- Nat.add_succ_comm. apply Hc.
  - intros name Hne. rewrite Ho.
    + apply backendConfig_step_other. specialize (Hne 0%nat). rewrite Nat.add_0_r in Hne.
      apply Hne. simpl. lia.
    + intros j Hj. rewrite Nat.add_succ_comm. apply Hne. simpl. lia.
Qed.
End ConfigFacts.

Lemma k8sensorSecretsItems_keys agent isOpenShift backend :
  let backends := getK8SensorBackends agent in
  let suffix := kb_ResourceSuffix backend in
  let secret := buildKeysSecret agent backends in
  let items := k8sensorSecretsItems
    (WithBackendResourceSuffix suffix (NewVolumeBuilder agent isOpenShift)) in
  secretMountsOn agent = true → ag_KeysSecret (spec_Agent (agent_Spec agent)) = "" →
  backend ∈ backends → kb_EndpointKey backend ≠ "" →
  (∀ item, item ∈ items → is_Some (secret_lookup secret (ktp_Key item))) ∧
  (∃ item, item ∈ items ∧ ktp_Path item = SecretFileAgentKey +++ suffix ∧
     secret_lookup secret (ktp_Key item) = Some (kb_EndpointKey backend)).
Proof.
  intros backends suffix secret items Hm Hs Hb Hk.
  assert (Hf : secret_lookup secret (SecretFileAgentKey +++ suffix) = Some (kb_EndpointKey backend))
    by (apply addBackendKeys_backend; [by left|intros *; apply sensorBackends_suffix_inj|done|done]).
  assert (Hp : ag_ProxyHost (spec_Agent (agent_Spec agent)) ≠ "" →
    is_Some (secret_lookup secret SecretFileHttpsProxy))
    by (intros Hp; exists (URL_String (proxyURL agent)); by apply getData_proxy).
  unfold items, k8sensorSecretsItems.
  cbn [vb_instanaAgent vb_backendResourceSuffix WithBackendResourceSuffix NewVolumeBuilder].
  rewrite Hs. cbn [String.eqb negb].
  destruct (String.eqb_spec (ag_ProxyHost (spec_Agent (agent_Spec agent))) "") as [E|E]; cbn [negb];
    (split; [intros item; rewrite ?elem_of_app, !list_elem_of_singleton
            |eexists; split; [rewrite ?elem_of_app, list_elem_of_singleton; auto|done]]).
  - intros ->. by eexists.
  - intros [->| ->]; [by eexists|by apply Hp].
Qed.

(** ** Properties *)

(** The secret volume of the deployment for a backend asks for existing
    entries of the keys secret the operator builds (a missing one would keep
    the pod from starting), and the file it reads its key from holds the key
    of that backend. *)
Theorem k8sensorSecretsVolume_keys (a : InstanaAgent) isOpenShift backend vol :
  let agent := Default a in
  let backends := getK8SensorBackends agent in
  let suffix := kb_ResourceSuffix backend in
  ag_KeysSecret (spec_Agent (agent_Spec agent)) = "" →
  backend ∈ backends → kb_EndpointKey backend ≠ "" →
  fst (k8sensorSecretsVolume (WithBackendResourceSuffix suffix (NewVolumeBuilder agent isOpenShift)))
    = Some vol →
  ∃ items mode, vol_Source vol = SecretSource (om_Name (sec_Meta (buildKeysSecret agent backends))) items mode None ∧
    (∀ item, item ∈ items →
       is_Some (secret_lookup (buildKeysSecret agent backends) (ktp_Key item))) ∧
    (∃ item, item ∈ items ∧ ktp_Path item = SecretFileAgentKey +++ suffix ∧
       secret_lookup (buildKeysSecret agent backends) (ktp_Key item) = Some (kb_EndpointKey backend)).
Proof.
  intros agent backends suffix Hs Hb Hk. unfold k8sensorSecretsVolume.
  destruct (secretMountsOff _) eqn:Hm; [discriminate 1|]. intros [= <-].
  unfold volumeSecretName. cbn [vol_Source vb_instanaAgent WithBackendResourceSuffix NewVolumeBuilder].
  rewrite Hs. do 2 eexists. split; [reflexivity|].
  apply (k8sensorSecretsItems_keys agent isOpenShift); [|done..].
  revert Hm. unfold secretMountsOff, secretMountsOn, agent, Default. simpl.
  by destruct (spec_UseSecretMounts _) as [[]|].
Qed.

Definition two_backends_agent : InstanaAgent :=
  example_agent <| agent_Spec ::= fun s => s <| spec_Agent ::= fun a =>
    a <| ag_ProxyHost := "proxy" |>
      <| ag_AdditionalBackends :=
           [{| be_EndpointHost := "h"; be_EndpointPort := "1"; be_Key := "k1" |}] |> |> |>.
Definition second_backend : K8SensorBackend :=
  additionalBackend 0 {| be_EndpointHost := "h"; be_EndpointPort := "1"; be_Key := "k1" |}.

Lemma k8sensorSecretsVolume_keys_witness :
  let suffix := kb_ResourceSuffix second_backend in
  let agent := Default two_backends_agent in
  let secret := buildKeysSecret agent (getK8SensorBackends agent) in
  ∃ vol items mode, vol_Source vol = SecretSource (om_Name (sec_Meta secret)) items mode None ∧
    (∀ item, item ∈ items → is_Some (secret_lookup secret (ktp_Key item))) ∧
    (∃ item, item ∈ items ∧ ktp_Path item = SecretFileAgentKey +++ suffix ∧
       secret_lookup secret (ktp_Key item) = Some (kb_EndpointKey second_backend)).
Proof.
  intros suffix agent secret.
  set (vol := fst (k8sensorSecretsVolume
    (WithBackendResourceSuffix suffix (NewVolumeBuilder agent true)))).
  destruct vol as [x|] eqn:E; [exists x|exfalso; revert E; vm_compute; discriminate 1].
  apply (k8sensorSecretsVolume_keys two_backends_agent true second_backend x); [vm_compute; reflexivity| | |exact E].
  - apply list_elem_of_lookup. exists 1%nat. vm_compute. reflexivity.
  - vm_compute. discriminate 1.
Defined.

(** The sender configurations of the configuration secret: backend [i]
    gets the file number [i + 1], exactly when it has a host and a key, the
    key found in the user's secret winning over the custom resource's; there
    is no other file. *)
Theorem backendConfig_spec agent keysSecret backends :
  ∃ config, backendConfig agent (Some keysSecret) backends = Value config ∧
    (∀ i text, config !! backendFile i = Some text ↔
       ∃ b, backends !! i = Some b ∧ sender agent keysSecret b text) ∧
    (∀ name, is_Some (config !! name) → ∃ i, (i < length backends)%nat ∧ name = backendFile i).
Proof.
  destruct (backendConfig_from_spec agent keysSecret backends 0 ∅) as (c & Hc & Hf & Ho);
    [intros; apply lookup_empty|].
  exists c. split_and!; [done|done|]. intros name [text Hn].
  destruct (decide (name ∈ backendFile <$> seq 0 (length backends))) as [He|He].
  - apply list_elem_of_fmap in He as (i & -> & Hi%elem_of_seq). exists i. split; [lia|done].
  - exfalso. rewrite Ho, lookup_empty in Hn; [done|]. intros j Hj ->.
    apply He, list_elem_of_fmap_2, elem_of_seq. lia.
Qed.
