(* ===== verification/AgentObjects.v ===== *)
(** * The agent's services, service account, rbac objects and namespaces map

    builders/agent: headless-service, service, serviceaccount, rbac and
    configmap/namespaces-configmap. *)
From S2P Require Import Prelude GoStd Errors K8sTypes ApiTypes Effects Cluster Client.
From S2P Require Import Transformations Status Helpers Secrets.

Definition ClusterIPNone := "None".
Definition ServiceInternalTrafficPolicyLocal := "Local".
Definition rbacApiGroup := "rbac.authorization.k8s.io".
Definition roleKind := "ClusterRole".
Definition subjectKind := "ServiceAccount".

(** A rule without resource names and URLs. *)
Definition rule (groups resources verbs : list string) : PolicyRule :=
  {| pr_NonResourceURLs := []; pr_APIGroups := groups; pr_Resources := resources;
     pr_ResourceNames := []; pr_Verbs := verbs |}.
Definition urlRule (urls verbs : list string) : PolicyRule :=
  {| pr_NonResourceURLs := urls; pr_APIGroups := []; pr_Resources := [];
     pr_ResourceNames := []; pr_Verbs := verbs |}.
Definition sccRule : PolicyRule :=
  {| pr_NonResourceURLs := []; pr_APIGroups := ["security.openshift.io"];
     pr_Resources := ["securitycontextconstraints"]; pr_ResourceNames := ["privileged"];
     pr_Verbs := ["use"] |}.
Definition roleBinding (name namespace kind role : string) (subject : Subject) : RoleBinding :=
  {| rb_Meta := NewObjectMeta name namespace;
     rb_RoleRef := {| rr_APIGroup := rbacApiGroup; rr_Kind := kind; rr_Name := role |};
     rb_Subjects := [subject] |}.

Section AgentObjects.
Context (agent : InstanaAgent) {W X : Type}.
Let spec := agent_Spec agent.

(** A builder of the agent's component that does not fail. *)
Definition agentBuilder (namespaced : bool) (o : option object) : ObjectBuilder W X :=
  {| Build := mret o; ComponentName := ComponentInstanaAgent; IsNamespaced := namespaced |}.

(** ** headless-service.go *)
Definition buildHeadlessService : or_panic Service :=
  ports ← GetServicePorts (spec_OpenTelemetry spec);
  mret {| svc_Meta := NewObjectMeta (HeadlessServiceName agent) (agent_Namespace agent);
          svc_ClusterIP := ClusterIPNone;
          svc_Selector := Some (GetPodSelectorLabels (agent_Name agent) ComponentInstanaAgent None);
          svc_Ports := ports; svc_InternalTrafficPolicy := None |}.
Definition NewHeadlessServiceBuilder : ObjectBuilder W X :=
  {| Build := service ← lift buildHeadlessService; mret (Some (OService service));
     ComponentName := ComponentInstanaAgent; IsNamespaced := true |}.

(** ** service.go *)
Definition buildService : or_panic Service :=
  ports ← GetServicePorts (spec_OpenTelemetry spec);
  mret {| svc_Meta := NewObjectMeta (agent_Name agent) (agent_Namespace agent);
          svc_ClusterIP := "";
          svc_Selector := Some (GetPodSelectorLabels (agent_Name agent) ComponentInstanaAgent None);
          svc_Ports := ports;
          svc_InternalTrafficPolicy := Some ServiceInternalTrafficPolicyLocal |}.
(** The cases of the switch, in order; the last dereferences a pointer. *)
Definition serviceIsNeeded : or_panic bool :=
  if Pointer.DerefOrEmpty (spec_ServiceCreate spec) then Value true
  else if Pointer.DerefOrEmpty (spec_PrometheusRemoteWrite spec) then Value true
  else deref (ot_Enabled (spec_OpenTelemetry spec)).
Definition NewServiceBuilder : ObjectBuilder W X :=
  {| Build :=
       needed ← lift serviceIsNeeded;
       if needed : bool then service ← lift buildService; mret (Some (OService service))
       else mret None;
     ComponentName := ComponentInstanaAgent; IsNamespaced := true |}.

(** ** serviceaccount.go *)
Definition buildServiceAccount : ServiceAccount :=
  {| sa_Meta := (NewObjectMeta (ServiceAccountName agent) (agent_Namespace agent))
       <| om_Annotations := sas_Annotations (spec_ServiceAccount spec) |> |}.
Definition NewServiceAccountBuilder : ObjectBuilder W X :=
  agentBuilder true
    (if Pointer.DerefOrEmpty (sas_Create (spec_ServiceAccount spec))
     then Some (OServiceAccount buildServiceAccount) else None).

(** ** rbac *)
Definition buildClusterRole : Role :=
  {| role_Meta := NewObjectMeta (ServiceAccountName agent) "";
     role_Rules :=
       [urlRule ["/version"; "/healthz"; "/metrics"; "/stats/summary"; "/metrics/cadvisor"] ["get"];
        rule [""] ["nodes"; "nodes/stats"; "nodes/metrics"; "nodes/proxy"; "pods"] ReaderVerbs;
        sccRule] |}.
Definition NewClusterRoleBuilder : ObjectBuilder W X :=
  agentBuilder false (Some (OClusterRole buildClusterRole)).

Definition buildClusterRoleBinding : RoleBinding :=
  roleBinding (ServiceAccountName agent) "" roleKind (ServiceAccountName agent)
    {| sub_Kind := subjectKind; sub_Name := ServiceAccountName agent;
       sub_Namespace := agent_Namespace agent |}.
Definition NewClusterRoleBindingBuilder : ObjectBuilder W X :=
  agentBuilder false (Some (OClusterRoleBinding buildClusterRoleBinding)).
End AgentObjects.

(** ** namespaces-configmap/configmap.go *)
Definition yamlOrDie `{Yaml} (obj : yaml_value) : or_panic string :=
  let '(res, err) := yaml_Marshal obj in ResultOrDie res err.
Definition namespacesData `{Yaml} (namespacesDetails : NamespacesDetails) : or_panic smap :=
  text ← yamlOrDie (YNamespacesDetails namespacesDetails);
  mret {[ InstanaNamespacesDetailsFileName := text ]}.
(** The deferred call of the source runs after the object is built. *)
Definition NewNamespacesConfigMapBuilder {W} `{Yaml} (agent : InstanaAgent)
    (namespacesDetails : NamespacesDetails) : ObjectBuilder W agentStatusManager :=
  {| Build :=
       data ← lift (namespacesData namespacesDetails);
       let name := agent_Name agent +++ "-namespaces" in
       let cm := {| cm_Meta := NewObjectMeta name (agent_Namespace agent);
                    cm_Kind := "ConfigMap"; cm_Data := Some data |} in
       _ ← modifyLocal (SetAgentNamespacesConfigMap (Key (agent_Namespace agent) name));
       mret (Some (OConfigMap cm));
     ComponentName := ComponentInstanaAgent; IsNamespaced := true |}.
