(* ===== verification/SensorObjects.v ===== *)
(** * The k8sensor's rbac objects, service account, disruption budget and
    backend map

    builders/k8s-sensor: configmap, poddisruptionbudget, rbac and
    serviceaccount. *)
From S2P Require Import Prelude GoStd Errors K8sTypes ApiTypes Effects Cluster Client.
From S2P Require Import Transformations Status Helpers AgentObjects.

Section SensorObjects.
Context (agent : InstanaAgent) {W X : Type}.
Let sensorName := K8sSensorResourcesName agent.

Definition sensorBuilder (namespaced : bool) (o : option object) : ObjectBuilder W X :=
  {| Build := mret o; ComponentName := ComponentK8Sensor; IsNamespaced := namespaced |}.

(** ** configmap.go *)
Definition getConfigMapData (backends : list K8SensorBackend) : smap :=
  foldl (fun data backend =>
    <[BackendKey +++ kb_ResourceSuffix backend :=
        kb_EndpointHost backend +++ ":" +++ kb_EndpointPort backend]> data) ∅ backends.
Definition buildSensorConfigMap (backends : list K8SensorBackend) : ConfigMap :=
  {| cm_Meta := NewObjectMeta sensorName (agent_Namespace agent); cm_Kind := "ConfigMap";
     cm_Data := Some (getConfigMapData backends) |}.
Definition NewSensorConfigMapBuilder (backends : list K8SensorBackend) : ObjectBuilder W X :=
  sensorBuilder true (Some (OConfigMap (buildSensorConfigMap backends))).

(** ** poddisruptionbudget.go

    The number of replicas is an [int] of the custom resource, cut to 32 bits
    and decremented with wrap-around. *)
Definition sensorReplicas : Z :=
  kd_Replicas (ks_DeploymentSpec (spec_K8sSensor (agent_Spec agent))).
Definition buildPodDisruptionBudget : PodDisruptionBudget :=
  {| pdb_Meta := NewObjectMeta sensorName (agent_Namespace agent);
     pdb_Selector := GetPodSelectorLabels (agent_Name agent) ComponentK8Sensor None;
     pdb_MinAvailable := Some (IntVal (int32 (int32 sensorReplicas - 1))) |}.
Definition NewPodDisruptionBudgetBuilder : ObjectBuilder W X :=
  sensorBuilder true
    (if Pointer.DerefOrEmpty (ks_PodDisruptionBudget (spec_K8sSensor (agent_Spec agent))) &&
        (1 <? sensorReplicas)%Z
     then Some (OPodDisruptionBudget buildPodDisruptionBudget) else None).

(** ** rbac *)
Definition buildSensorClusterRole : Role :=
  {| role_Meta := NewObjectMeta sensorName "";
     role_Rules :=
       [urlRule ["/version"; "/healthz"; "/metrics"; "/metrics/*"] ["get"];
        rule ["apiextensions.k8s.io"] ["customresourcedefinitions"] ReaderVerbs;
        rule ["extensions"] ["deployments"; "replicasets"; "ingresses"] ReaderVerbs;
        rule [""] ["configmaps"; "events"; "services"; "endpoints"; "namespaces"; "nodes";
                   "nodes/metrics"; "nodes/stats"; "nodes/proxy"; "pods"; "pods/log";
                   "replicationcontrollers"; "resourcequotas"; "persistentvolumes";
                   "persistentvolumeclaims"] ReaderVerbs;
        rule ["apps"] ["daemonsets"; "deployments"; "replicasets"; "statefulsets"] ReaderVerbs;
        rule ["batch"] ["cronjobs"; "jobs"] ReaderVerbs;
        rule ["discovery.k8s.io"] ["endpointslices"] ReaderVerbs;
        rule ["networking.k8s.io"] ["ingresses"] ReaderVerbs;
        rule ["autoscaling"] ["horizontalpodautoscalers"] ReaderVerbs;
        rule ["apps.openshift.io"] ["deploymentconfigs"] ReaderVerbs;
        sccRule] |}.
Definition NewSensorClusterRoleBuilder : ObjectBuilder W X :=
  sensorBuilder false (Some (OClusterRole buildSensorClusterRole)).

Definition sensorSubject : Subject :=
  {| sub_Kind := subjectKind; sub_Name := sensorName; sub_Namespace := agent_Namespace agent |}.
Definition buildSensorClusterRoleBinding : RoleBinding :=
  roleBinding sensorName "" roleKind sensorName sensorSubject.
Definition NewSensorClusterRoleBindingBuilder : ObjectBuilder W X :=
  sensorBuilder false (Some (OClusterRoleBinding buildSensorClusterRoleBinding)).

Definition etcdReaderName : string := sensorName +++ "-etcd-reader".
Definition buildSensorRole : Role :=
  {| role_Meta := NewObjectMeta etcdReaderName "kube-system";
     role_Rules := [rule [""] ["services"; "endpoints"] ReaderVerbs] |}.
Definition NewSensorRoleBuilder : ObjectBuilder W X :=
  sensorBuilder true (Some (ORole buildSensorRole)).
Definition buildSensorRoleBinding : RoleBinding :=
  roleBinding etcdReaderName "kube-system" "Role" etcdReaderName sensorSubject.
Definition NewSensorRoleBindingBuilder : ObjectBuilder W X :=
  sensorBuilder true (Some (ORoleBinding buildSensorRoleBinding)).

(** ** serviceaccount.go *)
Definition buildSensorServiceAccount : ServiceAccount :=
  {| sa_Meta := NewObjectMeta sensorName (agent_Namespace agent) |}.
Definition NewSensorServiceAccountBuilder : ObjectBuilder W X :=
  sensorBuilder true (Some (OServiceAccount buildSensorServiceAccount)).
End SensorObjects.

(** ** Properties *)

(** A disruption budget is built exactly when it is enabled for more than
    one replica; within the range of 32-bit integers it then keeps at least
    one pod and always allows one of the deployment's replicas to be evicted. *)
Theorem podDisruptionBudget_bounds {W X} agent (s : St W X) :
  let replicas := sensorReplicas agent in
  ∃ r, Build (NewPodDisruptionBudgetBuilder agent) s = (Ret r, s) ∧
    match r with
    | None => Pointer.DerefOrEmpty (ks_PodDisruptionBudget (spec_K8sSensor (agent_Spec agent))) = false ∨
              (replicas ≤ 1)%Z
    | Some o => (1 < replicas)%Z ∧ ∃ pdb z, o = OPodDisruptionBudget pdb ∧
        pdb_MinAvailable pdb = Some (IntVal z) ∧
        (in_int32 replicas → (1 ≤ z < int32 replicas)%Z ∧ z = (replicas - 1)%Z)
    end.
Proof.
  intros replicas. eexists. split; [reflexivity|].
  destruct (Pointer.DerefOrEmpty _); simpl; [|by left].
  fold replicas. destruct (Z.ltb_spec 1 replicas); simpl; [|by right].
  split; [done|]. do 2 eexists. split_and!; [done|reflexivity|]. intros Hr.
  fold replicas. rewrite (int32_id replicas Hr). rewrite int32_id; [lia|].
  unfold in_int32 in *. lia.
Qed.
