(* ===== verification/DaemonSet.v ===== *)
(** * The agent's daemon set: builders/agent/daemonset/daemonset.go

    One daemon set for the agent, or one for each zone.  The environment is
    collected in a map, later sources overwriting earlier ones, and sorted by
    name; the range order of the map is immaterial since its names are
    distinct ([SortEnvVarsByName_unique]).

    The source writes the agent mode into the map of pod labels of the custom
    resource itself before copying it; whoever reads that map (this builder
    and the k8sensor's) overwrites the entry first, so the labels are passed
    as values here. *)
From S2P Require Import Prelude GoStd Errors K8sTypes ApiTypes Effects Cluster Client.
From S2P Require Import Transformations Status Helpers EnvBuilder VolumeBuilder.

Definition APM := "APM".
Definition DNSClusterFirstWithHostNet := "ClusterFirstWithHostNet".

Record daemonSetBuilder := {
  dsb_agent : InstanaAgent; dsb_isOpenShift : bool; dsb_zone : option Zone;
  dsb_shouldSetPersistHostUniqueIDEnvVar : bool }.

Definition daemonset_env_vars : list AgentEnvVar :=
  [AgentModeEnv; ZoneNameEnv; ClusterNameEnv; AgentEndpointEnv; AgentEndpointPortEnv;
   MavenRepoURLEnv; MavenRepoFeaturesPath; MavenRepoSharedPath;
   MirrorReleaseRepoUrlEnv; MirrorReleaseRepoUsernameEnv; MirrorReleaseRepoPasswordEnv;
   MirrorSharedRepoUrlEnv; MirrorSharedRepoUsernameEnv; MirrorSharedRepoPasswordEnv;
   ProxyHostEnv; ProxyPortEnv; ProxyProtocolEnv; ProxyUserEnv; ProxyPasswordEnv;
   ProxyUseDNSEnv; ListenAddressEnv; RedactK8sSecretsEnv; ConfigPathEnv;
   EntrypointSkipBackendTemplateGeneration; InstanaAgentKeyEnv; DownloadKeyEnv;
   InstanaAgentPodNameEnv; PodIPEnv; NodeNameEnv; K8sServiceDomainEnv;
   EnableAgentSocketEnv; NamespacesDetailsPathEnv].
Definition daemonset_volumes : list AgentVolume :=
  [DevVolume; RunVolume; VarRunVolume; VarRunKuboVolume; VarRunContainerdVolume;
   VarContainerdConfigVolume; SysVolume; VarLogVolume; VarLibInstanaVolume; VarDataVolume;
   MachineIdVolume; ConfigVolume; TlsVolume; RepoVolume; NamespacesDetailsVolume].

Section DaemonSet.
Context (d : daemonSetBuilder) `{MapRange}.
Let agent := dsb_agent d.
Let spec := agent_Spec (dsb_agent d).
Let ag := spec_Agent (agent_Spec (dsb_agent d)).
Let zone := dsb_zone d.

Definition ds_GetPodSelectorLabels : smap :=
  GetPodSelectorLabels (agent_Name agent) ComponentInstanaAgent zone.
Definition ds_getPodTemplateLabels : smap :=
  let podLabels := Optional.GetOrDefault (Optional.Of (pod_Labels (ag_Pod ag))) (Some ∅) in
  let podLabels :=
    <[LabelAgentMode := Optional.GetOrDefault (Optional.Of (ag_Mode ag)) APM]> (default ∅ podLabels) in
  GetPodLabels (agent_Name agent) ComponentInstanaAgent zone (Some podLabels).

Definition persistEnvVars : list EnvVar :=
  [env_value "INSTANA_PERSIST_HOST_UNIQUE_ID" "true";
   env_value "INSTANA_AGENT_ID_FILE_PATH" "/var/lib/instana/instana-agent-id"].
Definition envVarMap (baseEnvVars : list EnvVar) : gmap string EnvVar :=
  let m := addEnvVars baseEnvVars ∅ in
  let m := if dsb_shouldSetPersistHostUniqueIDEnvVar d then addEnvVars persistEnvVars m else m in
  addEnvVars (pod_Env (ag_Pod ag)) m.
Definition ds_getEnvVars : or_panic (list EnvVar) :=
  baseEnvVars ← EnvBuilder_Build agent zone daemonset_env_vars;
  mret (SortEnvVarsByName (snd <$> map_to_list (envVarMap baseEnvVars))).

Definition ds_volumes : list AgentVolume :=
  match spec_UseSecretMounts spec with
  | Some true => daemonset_volumes ++ [SecretsVolume]
  | _ => daemonset_volumes
  end.
Definition ds_getVolumes : list K8sTypes.Volume * list VolumeMount :=
  VolumeBuilder_Build (NewVolumeBuilder agent (dsb_isOpenShift d)) ds_volumes.
Definition ds_getUserVolumes : list K8sTypes.Volume * list VolumeMount :=
  BuildFromUserConfig (NewVolumeBuilder agent (dsb_isOpenShift d)).

Definition ds_getName : string :=
  match zone with
  | None => agent_Name agent
  | Some z => agent_Name agent +++ "-" +++ zone_Name z
  end.
Definition getNonStandardLabels : option smap :=
  match zone with
  | None => None
  | Some z => Some {[ ZoneLabel := zone_Name z ]}
  end.
Definition getAffinity : json :=
  match zone with None => pod_Affinity (ag_Pod ag) | Some z => zone_Affinity z end.
Definition getTolerations : list json :=
  match zone with None => pod_Tolerations (ag_Pod ag) | Some z => zone_Tolerations z end.

Definition getLivenessProbe : Probe :=
  match pod_LivenessProbe (ag_Pod ag) with
  | Some probe => probe
  | None =>
      {| probe_HTTPGet := Some {| hga_Host := "127.0.0.1"; hga_Path := "/status";
                                  hga_Port := IntVal (port_Port InstanaAgentAPIPortConfig) |};
         probe_OtherHandler := GoStd.zero; probe_InitialDelaySeconds := 600;
         probe_TimeoutSeconds := 5; probe_PeriodSeconds := 10;
         probe_SuccessThreshold := 0; probe_FailureThreshold := 6 |}
  end.

Definition buildDaemonSet : or_panic DaemonSet :=
  let '(volumes, volumeMounts) := ds_getVolumes in
  let '(userVolumes, userVolumeMounts) := ds_getUserVolumes in
  envVars ← ds_getEnvVars;
  ports ← GetContainerPorts (spec_OpenTelemetry spec);
  mret
    {| ds_Meta := (NewObjectMeta ds_getName (agent_Namespace agent))
                    <| om_Labels := getNonStandardLabels |>;
       ds_MinReadySeconds := int32 (ag_MinReadySeconds ag);
       ds_Selector := ds_GetPodSelectorLabels;
       ds_Template :=
         {| pt_Labels := ds_getPodTemplateLabels;
            pt_Annotations := pod_Annotations (ag_Pod ag);
            pt_Spec :=
              {| ps_Volumes := volumes ++ userVolumes;
                 ps_ServiceAccountName := ServiceAccountName agent;
                 ps_NodeSelector := pod_NodeSelector (ag_Pod ag);
                 ps_HostNetwork := true; ps_HostPID := true;
                 ps_PriorityClassName := pod_PriorityClassName (ag_Pod ag);
                 ps_DNSPolicy := DNSClusterFirstWithHostNet;
                 ps_ImagePullSecrets := ImagePullSecrets agent;
                 ps_Containers :=
                   [{| ct_Name := "instana-agent"; ct_Image := Image (ag_Image ag);
                       ct_ImagePullPolicy := im_PullPolicy (ag_Image ag);
                       ct_Command := []; ct_Args := []; ct_Env := envVars;
                       ct_VolumeMounts := volumeMounts ++ userVolumeMounts;
                       ct_Resources := ResourceRequirements_GetOrDefault (pod_Resources (ag_Pod ag));
                       ct_Ports := ports; ct_Privileged := Some true;
                       ct_LivenessProbe := Some getLivenessProbe |}];
                 ps_FSGroup := None; ps_Hostname := ""; ps_Tolerations := getTolerations;
                 ps_Affinity := getAffinity |} |};
       ds_UpdateStrategy := ag_UpdateStrategy ag;
       ds_Status := zero_DaemonSetStatus |}.

(** The cases of the switch in [Build]. *)
Definition ds_isIncomplete : bool :=
  (String.eqb (ag_Key ag) "" && String.eqb (ag_KeysSecret ag) "") ||
  match zone with
  | None => String.eqb (spec_Zone spec) "" && String.eqb (spec_Cluster spec) ""
  | Some _ => String.eqb (spec_Cluster spec) ""
  end.
Definition ds_key : ObjectKey := Key (agent_Namespace agent) ds_getName.

Definition NewDaemonSetBuilder {W} : ObjectBuilder W agentStatusManager :=
  {| Build :=
       if ds_isIncomplete then mret None
       else
         ds ← lift buildDaemonSet;
         _ ← modifyLocal (AddAgentDaemonset ds_key);
         mret (Some (ODaemonSet ds));
     ComponentName := ComponentInstanaAgent; IsNamespaced := true |}.
End DaemonSet.

(** ** Facts *)

Section DaemonSetFacts.
Context (d : daemonSetBuilder) `{MapRange}.

(** Where the variables of the daemon set come from, later entries winning. *)
Definition env_sources (base : list EnvVar) : list EnvVar :=
  base ++ (if dsb_shouldSetPersistHostUniqueIDEnvVar d then persistEnvVars else []) ++
  pod_Env (ag_Pod (spec_Agent (agent_Spec (dsb_agent d)))).

Lemma envVarMap_eq base : envVarMap d base = addEnvVars (env_sources base) ∅.
Proof.
  unfold envVarMap, env_sources, addEnvVars. rewrite !foldl_app.
  by destruct (dsb_shouldSetPersistHostUniqueIDEnvVar d).
Qed.

Lemma ds_getEnvVars_returns :
  ∃ base, EnvBuilder_Build (dsb_agent d) (dsb_zone d) daemonset_env_vars = Value base ∧
    ds_getEnvVars d = Value (SortEnvVarsByName (snd <$> map_to_list (envVarMap d base))).
Proof.
  unfold ds_getEnvVars, EnvBuilder_Build.
  destruct (buildAll_returns (dsb_agent d) (dsb_zone d) daemonset_env_vars
             (getUserProvidedEnvs (dsb_agent d))) as [base E].
  { by repeat constructor. }
  exists base. split; [done|]. by rewrite E.
Qed.
End DaemonSetFacts.

(** The whole daemon set of a defaulted custom resource is built. *)
Lemma buildDaemonSet_returns `{MapRange} d a :
  dsb_agent d = Default a →
  ∃ ds envs ports, buildDaemonSet d = Value ds ∧ ds_getEnvVars d = Value envs ∧
    ds_Meta ds = (NewObjectMeta (ds_getName d) (agent_Namespace (Default a)))
                   <| om_Labels := getNonStandardLabels d |> ∧
    ds_Selector ds = ds_GetPodSelectorLabels d ∧
    pt_Labels (ds_Template ds) = ds_getPodTemplateLabels d ∧
    ct_Env <$> ps_Containers (pt_Spec (ds_Template ds)) = [envs] ∧
    ct_Ports <$> ps_Containers (pt_Spec (ds_Template ds)) = [ports].
Proof.
  intros Ha. unfold buildDaemonSet. destruct (ds_getVolumes _), (ds_getUserVolumes _).
  destruct (ds_getEnvVars_returns d) as (base & _ & E). rewrite E, Ha.
  unfold GetContainerPorts. rewrite getPorts_after_Default.
  do 3 eexists. split; [reflexivity|]. done.
Qed.

Lemma AddAgentDaemonset_elem key a : key ∈ agentDaemonsets (AddAgentDaemonset key a).
Proof.
  unfold AddAgentDaemonset. destruct (GoList.Contains (agentDaemonsets a) key) eqn:E.
  - by apply GoList.Contains_spec.
  - simpl. set_solver.
Qed.

(** What the builder makes in a state, for a defaulted custom resource. *)
Lemma NewDaemonSetBuilder_Build `{MapRange} {W} d a (s : St W agentStatusManager) :
  dsb_agent d = Default a →
  if ds_isIncomplete d then Build (NewDaemonSetBuilder d) s = (Ret None, s)
  else ∃ ds, buildDaemonSet d = Value ds ∧
    Build (NewDaemonSetBuilder d) s =
      (Ret (Some (ODaemonSet ds)), MkSt (world s) (trace s) (AddAgentDaemonset (ds_key d) (local s))).
Proof.
  intros Ha. unfold NewDaemonSetBuilder. cbn [Build]. destruct (ds_isIncomplete d); [done|].
  destruct (buildDaemonSet_returns d a Ha) as (ds & _ & _ & E & _). exists ds.
  split; [done|]. rewrite E. reflexivity.
Qed.

(** ** Properties *)

(** The environment of the agent's container: the builder never fails,
    names are distinct and sorted, and the value of a name is the one given
    last, the user's pod.env winning over the persistence flag and that over
    the operator's variables and the user's agent.env. *)
Theorem ds_getEnvVars_spec `{MapRange} d :
  ∃ base envs, EnvBuilder_Build (dsb_agent d) (dsb_zone d) daemonset_env_vars = Value base ∧
    ds_getEnvVars d = Value envs ∧
    StronglySorted env_le envs ∧ NoDup (ev_Name <$> envs) ∧
    ∀ e, e ∈ envs ↔ last_named (ev_Name e) (env_sources d base) = Some e.
Proof.
  destruct (ds_getEnvVars_returns d) as (base & Hb & He). do 2 eexists. split_and!; [done|done| | |];
    rewrite envVarMap_eq; apply collected_env_vars.
Qed.

(** For a defaulted custom resource the builder never fails: it makes
    nothing exactly when the key, or the zone and the cluster's name, are
    missing; otherwise it makes a daemon set whose selector selects the pods
    of its template and registers it with the status manager. *)
Theorem NewDaemonSetBuilder_spec `{MapRange} {W} a isOpenShift zone persist
    (s : St W agentStatusManager) :
  let d := {| dsb_agent := Default a; dsb_isOpenShift := isOpenShift; dsb_zone := zone;
              dsb_shouldSetPersistHostUniqueIDEnvVar := persist |} in
  ∃ r x, Build (NewDaemonSetBuilder d) s = (Ret r, MkSt (world s) (trace s) x) ∧
    match r with
    | None => ds_isIncomplete d = true ∧ x = local s
    | Some o => ds_isIncomplete d = false ∧ ∃ ds, o = ODaemonSet ds ∧
        ds_Selector ds ⊆ pt_Labels (ds_Template ds) ∧
        Key (om_Namespace (ds_Meta ds)) (om_Name (ds_Meta ds)) ∈ agentDaemonsets x
    end.
Proof.
  intros d. pose proof (NewDaemonSetBuilder_Build d a s eq_refl) as Hb.
  destruct (ds_isIncomplete d); [destruct s; by exists None, local|].
  destruct Hb as (ds & Hd & Hb). do 2 eexists. split; [exact Hb|]. split; [done|].
  exists ds. destruct (buildDaemonSet_returns d a eq_refl) as (ds' & _ & _ & Hd' & _ & Hm & Hs & Hp & _).
  rewrite Hd in Hd'. injection Hd' as <-. split_and!; [done| |].
  - rewrite Hs, Hp. apply GetPodSelectorLabels_subseteq.
  - rewrite Hm. apply (AddAgentDaemonset_elem (ds_key d)).
Qed.
