(* ===== verification/K8sDeployment.v ===== *)
(** * The k8sensor's deployments: builders/k8s-sensor/deployment/deployment.go

    One deployment per backend.  As for the daemon set, the label the source
    writes into the custom resource's map of pod labels is overwritten by
    every reader of the map, so labels are passed as values.  Where the
    environment has two variables of one name Go leaves their order open; the
    model keeps the order they were appended in. *)
From S2P Require Import Prelude GoStd GoSha256 Errors K8sTypes ApiTypes Effects Cluster Client.
From S2P Require Import Transformations Status Helpers Etcd EnvBuilder VolumeBuilder Secrets.

Definition KUBERNETES := "KUBERNETES".
Definition LabelHostname := "kubernetes.io/hostname".
Definition DefaultPollRate := "10s".

(** [path.Join] of a clean directory and a file name. *)
Definition path_Join (dir file : string) : string := dir +++ "/" +++ file.

Definition addAppLabel (labels : option smap) : smap :=
  MapDefaulter.SetIfEmpty "app" "k8sensor" (MapDefaulter.New labels).

(** [regexp.MatchString(`^[0-9]+s$`)]: digits, at least one, then an s. *)
Definition is_digit (c : ascii) : bool :=
  (Ascii.N_of_ascii "0" <=? Ascii.N_of_ascii c)%N && (Ascii.N_of_ascii c <=? Ascii.N_of_ascii "9")%N.
Fixpoint digits_then_s (l : list ascii) : bool :=
  match l with
  | [] => false
  | [c] => Ascii.eqb c "s"
  | c :: l => is_digit c && digits_then_s l
  end.
Definition validatePollRate (pollRate : string) : bool :=
  match String.list_ascii_of_string pollRate with
  | c :: l => is_digit c && digits_then_s l
  | [] => false
  end.

Definition sensor_env_vars : list AgentEnvVar :=
  [BackendURLEnv; AgentZoneEnv; PodUIDEnv; PodNamespaceEnv; PodNameEnv; PodIPEnv; NoProxyEnv;
   RedactK8sSecretsEnv; ConfigPathEnv; ETCDInsecureEnv; ETCDTargetsEnv; ControlPlaneCAFileEnv;
   RestClientHostAllowlistEnv; CrdMonitoring].

(** The affinity of the pods unless the custom resource has one. *)
Definition defaultSensorAffinity : json :=
  JObject [("podAntiAffinity", JObject [("preferredDuringSchedulingIgnoredDuringExecution",
    JList [JObject [("weight", JInt 100); ("podAffinityTerm",
      JObject [("labelSelector", JObject [("matchExpressions",
        JList [JObject [("key", JString LabelAgentMode); ("operator", JString "In");
                        ("values", JList [JString KUBERNETES])]])]);
        ("topologyKey", JString LabelHostname)])]])])].

Record deploymentBuilder := {
  db_agent : InstanaAgent; db_isOpenShift : bool; db_backend : K8SensorBackend;
  db_keysSecret : option Secret; db_deploymentContext : option DeploymentContext }.

Section Deployment.
Context (d : deploymentBuilder) `{MapRange}.
Let agent := db_agent d.
Let spec := agent_Spec (db_agent d).
Let ag := spec_Agent (agent_Spec (db_agent d)).
Let ks := spec_K8sSensor (agent_Spec (db_agent d)).
Let suffix := kb_ResourceSuffix (db_backend d).

Definition db_getPodTemplateLabels : smap :=
  let podLabels := Optional.GetOrDefault (Optional.Of (pod_Labels (ag_Pod ag))) (Some ∅) in
  let podLabels := <[LabelAgentMode := KUBERNETES]> (default ∅ podLabels) in
  GetPodLabels (agent_Name agent) ComponentK8Sensor None (Some podLabels).

(** OpenShift, and the etcd resources were copied. *)
Definition etcdResourcesExist : bool :=
  match db_deploymentContext d with
  | Some c => dc_OpenShiftETCDResourcesExist c
  | None => false
  end.
(** [UseSecretMounts] is nil or true. *)
Definition sensorSecretMounts : bool := Pointer.DerefOrDefault (spec_UseSecretMounts spec) true.

Definition openShiftEnvVars : list EnvVar :=
  [env_value EnvETCDMetricsURL GetETCDOCPMetricsURL;
   env_value EnvETCDRequestTimeout "15s";
   env_value EnvETCDCAFile (path_Join ETCDMetricsCAMountPath ETCDCABundleFileName);
   env_value EnvETCDCertFile (path_Join ETCDClientCertMountPath ETCDClientCertFileName);
   env_value EnvETCDKeyFile (path_Join ETCDClientCertMountPath ETCDClientKeyFileName)].
(** The variables of discovered targets, unless the custom resource has some. *)
Definition discoveredEnvVars : list EnvVar :=
  match db_deploymentContext d with
  | None => []
  | Some c =>
      match dc_DiscoveredETCDTargets c, etcd_Targets (ks_ETCD ks) with
      | (_ :: _) as targets, [] =>
          env_value EnvETCDTargets (Join targets ",") ::
          (if negb (String.eqb (dc_ETCDCASecretName c) "")
           then [env_value EnvETCDCAFile (ETCDCAMountPath +++ "/ca.crt")] else [])
      | _, _ => []
      end
  end.
Definition contextEnvVars : list EnvVar :=
  if db_isOpenShift d then (if etcdResourcesExist then openShiftEnvVars else [])
  else discoveredEnvVars.

Definition getAgentKeyEnvVar : EnvVar :=
  {| ev_Name := "AGENT_KEY"; ev_Value := "";
     ev_ValueFrom := Some (env_source None None
       (Some {| ks_Name := Optional.GetOrDefault (Optional.Of (ag_KeysSecret ag)) (agent_Name agent);
                ks_Key := AgentKey +++ suffix; ks_Optional := None |})) |}.
Definition db_backendEnv : EnvVar :=
  {| ev_Name := "BACKEND"; ev_Value := "";
     ev_ValueFrom := Some (env_source None
       (Some {| ks_Name := K8sSensorResourcesName agent; ks_Key := BackendKey +++ suffix;
                ks_Optional := None |}) None) |}.

Definition sensor_envVarsToInclude : list AgentEnvVar :=
  if negb (db_isOpenShift d) || negb etcdResourcesExist
  then sensor_env_vars ++ [ETCDCAFileEnv] else sensor_env_vars.
Definition db_getEnvVars : or_panic (list EnvVar) :=
  envVars ← EnvBuilder_Build agent None sensor_envVarsToInclude;
  secretEnvVars ←
    (if negb sensorSecretMounts
     then (fun l => getAgentKeyEnvVar :: l) <$> EnvBuilder_Build agent None [HTTPSProxyEnv]
     else mret []);
  mret (SortEnvVarsByName (db_backendEnv :: secretEnvVars ++ envVars ++ contextEnvVars)).

Definition volumesToBuild : list AgentVolume :=
  [ConfigVolume; ControlPlaneCAVolume] ++
  (if (db_isOpenShift d && etcdResourcesExist) ||
      negb (String.eqb (ca_SecretName (etcd_CA (ks_ETCD ks))) "") then [ETCDCAVolume] else []) ++
  (if db_isOpenShift d && etcdResourcesExist then [ETCDClientCertVolume] else []) ++
  (if sensorSecretMounts then [K8SensorSecretsVolume] else []).
(** The volume of a discovered CA secret. *)
Definition discoveredCAVolumes : list K8sTypes.Volume * list VolumeMount :=
  match db_deploymentContext d with
  | None => ([], [])
  | Some c =>
      if negb (String.eqb (dc_ETCDCASecretName c) "") &&
         match etcd_Targets (ks_ETCD ks) with [] => true | _ => false end
      then ([{| vol_Name := "etcd-ca";
                vol_Source := SecretSource (dc_ETCDCASecretName c)
                                [{| ktp_Key := "ca.crt"; ktp_Path := "ca.crt" |}] None None |}],
            [Mount "etcd-ca" "/var/run/secrets/etcd" None true])
      else ([], [])
  end.
Definition db_getVolumes : list K8sTypes.Volume * list VolumeMount :=
  let '(volumes, mounts) :=
    VolumeBuilder_Build
      (WithBackendResourceSuffix suffix (NewVolumeBuilder agent (db_isOpenShift d)))
      volumesToBuild in
  (volumes ++ fst discoveredCAVolumes, mounts ++ snd discoveredCAVolumes).

(** The text whose checksum restarts the pods when the backend changes. *)
Definition backendChecksumInput : string :=
  let backend := db_backend d in
  if negb (String.eqb (ag_KeysSecret ag) "") then
    (kb_EndpointHost backend +++ kb_EndpointPort backend) +++
    match db_keysSecret d with
    | Some s => default "" (secret_lookup s ("key" +++ suffix))
    | None => ""
    end
  else kb_EndpointHost backend +++ kb_EndpointPort backend +++ kb_EndpointKey backend.
Definition getPodAnnotationsWithBackendChecksum : smap :=
  <["checksum/backend" := Sha256.sha256_hex backendChecksumInput]>
    (default ∅ (pod_Annotations (ag_Pod ag))).

Definition getK8SensorArgs : list string :=
  let pollRate :=
    if negb (String.eqb (ks_PollRate ks) "") && validatePollRate (ks_PollRate ks)
    then ks_PollRate ks else DefaultPollRate in
  ["-pollrate"; pollRate] ++
  (if sensorSecretMounts then
     ["-agent-key-file"; InstanaSecretsDirectory +++ "/" +++ (SecretFileAgentKey +++ suffix)] ++
     (if negb (String.eqb (ag_ProxyHost ag) "")
      then ["-https-proxy-file"; InstanaSecretsDirectory +++ "/" +++ SecretFileHttpsProxy] else [])
   else []).

Definition sensorPod (env : list EnvVar) : PodSpec :=
  let pod := kd_Pod (ks_DeploymentSpec ks) in
  let '(volumes, mounts) := db_getVolumes in
  {| ps_Volumes := volumes; ps_ServiceAccountName := K8sSensorResourcesName agent;
     ps_NodeSelector := kp_NodeSelector pod; ps_HostNetwork := false; ps_HostPID := false;
     ps_PriorityClassName := kp_PriorityClassName pod; ps_DNSPolicy := "";
     ps_ImagePullSecrets := ImagePullSecrets agent;
     ps_Containers :=
       [{| ct_Name := ContainerK8Sensor; ct_Image := Image (ks_ImageSpec ks);
           ct_ImagePullPolicy := im_PullPolicy (ks_ImageSpec ks);
           ct_Command := ["/ko-app/k8sensor"]; ct_Args := getK8SensorArgs; ct_Env := env;
           ct_VolumeMounts := mounts;
           ct_Resources := ResourceRequirements_GetOrDefault (kp_Resources pod);
           ct_Ports := [AsContainerPort InstanaAgentAPIPortConfig]; ct_Privileged := None;
           ct_LivenessProbe := None |}];
     ps_FSGroup := Some 1000%Z; ps_Hostname := ""; ps_Tolerations := kp_Tolerations pod;
     ps_Affinity := Optional.GetOrDefault (Optional.Of (kp_Affinity pod)) defaultSensorAffinity |}.

Definition db_Name : string := K8sSensorResourcesName agent +++ suffix.
Definition buildDeployment : or_panic Deployment :=
  env ← db_getEnvVars;
  mret
    {| dp_Meta := (NewObjectMeta db_Name (agent_Namespace agent))
                    <| om_Labels := Some (addAppLabel None) |>;
       dp_Replicas := Some (int32 (kd_Replicas (ks_DeploymentSpec ks)));
       dp_MinReadySeconds := int32 (kd_MinReadySeconds (ks_DeploymentSpec ks));
       dp_Selector := addAppLabel (Some (GetPodSelectorLabels (agent_Name agent) ComponentK8Sensor None));
       dp_Template :=
         {| pt_Labels := addAppLabel (Some db_getPodTemplateLabels);
            pt_Annotations := Some getPodAnnotationsWithBackendChecksum;
            pt_Spec := sensorPod env |};
       dp_StrategyType := ""; dp_Status := {| dps_ObservedGeneration := 0; dps_Conditions := [] |} |}.

(** The condition of the switch in [Build]. *)
Definition db_isOmitted : bool :=
  (String.eqb (ag_Key ag) "" && String.eqb (ag_KeysSecret ag) "") ||
  (String.eqb (spec_Zone spec) "" && String.eqb (spec_Cluster spec) "") ||
  negb (Pointer.DerefOrDefault (kd_Enabled (ks_DeploymentSpec ks)) true).
Definition db_key : ObjectKey := Key (agent_Namespace agent) db_Name.

Definition NewDeploymentBuilder {W} : ObjectBuilder W agentStatusManager :=
  {| Build :=
       if db_isOmitted then mret None
       else
         dpl ← lift buildDeployment;
         _ ← modifyLocal (SetK8sSensorDeployment db_key);
         mret (Some (ODeployment dpl));
     ComponentName := ComponentK8Sensor; IsNamespaced := true |}.
End Deployment.

(** ** Facts *)
Section DeploymentFacts.
Context (d : deploymentBuilder) `{MapRange}.

Lemma volumesToBuild_NoDup : NoDup (volumesToBuild d).
Proof.
  unfold volumesToBuild. destruct (_ || _), (_ && _), (sensorSecretMounts d);
    apply (bool_decide_eq_true _); reflexivity.
Qed.
Lemma volumesToBuild_secrets : SecretsVolume ∉ volumesToBuild d.
Proof.
  unfold volumesToBuild. destruct (_ || _), (_ && _), (sensorSecretMounts d);
    apply (bool_decide_eq_false _); reflexivity.
Qed.

(** The variables of the switched off secret mounts. *)
Definition secret_variables (l : list EnvVar) : Prop :=
  if sensorSecretMounts d then l = []
  else ∃ l', EnvBuilder_Build (db_agent d) None [HTTPSProxyEnv] = Value l' ∧
             l = getAgentKeyEnvVar d :: l'.

Lemma secretEnvVars_returns :
  ∃ l, (if negb (sensorSecretMounts d)
        then (fun l => getAgentKeyEnvVar d :: l) <$> EnvBuilder_Build (db_agent d) None [HTTPSProxyEnv]
        else mret []) = Value l ∧ secret_variables l.
Proof.
  unfold secret_variables. destruct (sensorSecretMounts d); cbn [negb]; [by exists []|].
  unfold EnvBuilder_Build.
  destruct (buildAll_returns (db_agent d) None [HTTPSProxyEnv] (getUserProvidedEnvs (db_agent d)))
    as [l E]; [by repeat constructor|]. rewrite E. eexists. split; [reflexivity|]. by exists l.
Qed.

Lemma db_getEnvVars_returns :
  ∃ envVars secretEnvVars,
    EnvBuilder_Build (db_agent d) None (sensor_envVarsToInclude d) = Value envVars ∧
    db_getEnvVars d = Value (SortEnvVarsByName
      (db_backendEnv d :: secretEnvVars ++ envVars ++ contextEnvVars d)) ∧
    secret_variables secretEnvVars.
Proof.
  destruct (buildAll_returns (db_agent d) None (sensor_envVarsToInclude d)
             (getUserProvidedEnvs (db_agent d))) as [l E].
  { unfold sensor_envVarsToInclude. destruct (_ || _); by repeat constructor. }
  destruct secretEnvVars_returns as (l' & E' & Hk). exists l, l'. split; [exact E|].
  split; [|done]. unfold db_getEnvVars. unfold EnvBuilder_Build in *. rewrite E. simpl. simpl in E'. by rewrite E'.
Qed.

(** The deployment is always built. *)
Lemma buildDeployment_returns :
  ∃ envs, db_getEnvVars d = Value envs ∧
    buildDeployment d = Value
      {| dp_Meta := (NewObjectMeta (db_Name d) (agent_Namespace (db_agent d)))
                      <| om_Labels := Some (addAppLabel None) |>;
         dp_Replicas := Some (int32 (kd_Replicas (ks_DeploymentSpec
                          (spec_K8sSensor (agent_Spec (db_agent d))))));
         dp_MinReadySeconds := int32 (kd_MinReadySeconds (ks_DeploymentSpec
                                 (spec_K8sSensor (agent_Spec (db_agent d)))));
         dp_Selector := addAppLabel
           (Some (GetPodSelectorLabels (agent_Name (db_agent d)) ComponentK8Sensor None));
         dp_Template :=
           {| pt_Labels := addAppLabel (Some (db_getPodTemplateLabels d));
              pt_Annotations := Some (getPodAnnotationsWithBackendChecksum d);
              pt_Spec := sensorPod d envs |};
         dp_StrategyType := ""; dp_Status := {| dps_ObservedGeneration := 0; dps_Conditions := [] |} |}.
Proof.
  destruct db_getEnvVars_returns as (e & l & _ & E & _). eexists. split; [exact E|].
  unfold buildDeployment. rewrite E. reflexivity.
Qed.

Lemma NewDeploymentBuilder_Build {W} (s : St W agentStatusManager) :
  if db_isOmitted d then Build (NewDeploymentBuilder d) s = (Ret None, s)
  else ∃ dpl, buildDeployment d = Value dpl ∧
    Build (NewDeploymentBuilder d) s =
      (Ret (Some (ODeployment dpl)),
       MkSt (world s) (trace s) (SetK8sSensorDeployment (db_key d) (local s))).
Proof.
  unfold NewDeploymentBuilder. cbn [Build]. destruct (db_isOmitted d); [done|].
  destruct buildDeployment_returns as (envs & _ & E). eexists. split; [exact E|].
  rewrite E. reflexivity.
Qed.
End DeploymentFacts.

(** After [Default] the file of etcd's CA is always named. *)
Lemma build_ETCDCAFileEnv a :
  build (Default a) None ETCDCAFileEnv = Value (Some (env_value "ETCD_CA_FILE"
    (ca_MountPath (etcd_CA (ks_ETCD (spec_K8sSensor (agent_Spec (Default a))))) +++ "/ca.crt"))).
Proof.
  unfold build. rewrite andb_false_r. cbn [build_switch]. unfold etcdCAFileEnv.
  destruct (String.eqb_spec (ca_MountPath (etcd_CA (ks_ETCD (spec_K8sSensor (agent_Spec (Default a)))))) "")
    as [E|]; [|done].
  exfalso. revert E.
  refine (Optional.ValueOrDefault_nonzero (ca_MountPath (etcd_CA (ks_ETCD (spec_K8sSensor (agent_Spec a)))))
            "/var/run/secrets/kubernetes.io/serviceaccount" _). discriminate.
Qed.

(** The secret volume, when secrets are mounted. *)
Lemma k8sensorSecretsVolume_on d :
  let v := WithBackendResourceSuffix (kb_ResourceSuffix (db_backend d))
             (NewVolumeBuilder (db_agent d) (db_isOpenShift d)) in
  sensorSecretMounts d = true →
  getBuilder v K8SensorSecretsVolume =
    (volume "instana-secrets"
       (SecretSource (volumeSecretName v) (k8sensorSecretsItems v) (Some mode_0400) None),
     volumeMount "instana-secrets" InstanaSecretsDirectory true).
Proof.
  intros v. unfold sensorSecretMounts. cbn [getBuilder]. unfold k8sensorSecretsVolume, secretMountsOff.
  cbn [v vb_instanaAgent WithBackendResourceSuffix NewVolumeBuilder].
  by destruct (spec_UseSecretMounts _) as [[]|].
Qed.

(** The user's label named app. *)
Definition user_app_label (d : deploymentBuilder) : option string :=
  default ∅ (pod_Labels (ag_Pod (spec_Agent (agent_Spec (db_agent d))))) !! "app".

Lemma db_getPodTemplateLabels_app d : db_getPodTemplateLabels d !! "app" = user_app_label d.
Proof.
  unfold db_getPodTemplateLabels, user_app_label.
  rewrite GetPodLabels_user by (apply (bool_decide_eq_false _); reflexivity).
  cbn [default id]. rewrite lookup_insert_ne by done.
  by destruct (pod_Labels _).
Qed.

Lemma addAppLabel_app (m : smap) :
  addAppLabel (Some m) !! "app" =
  Some (match m !! "app" with
        | Some v => if String.eqb v "" then "k8sensor" else v
        | None => "k8sensor"
        end).
Proof. unfold addAppLabel. by rewrite MapDefaulter.SetIfEmpty_same. Qed.
Lemma addAppLabel_other (m : smap) key : key ≠ "app" → addAppLabel (Some m) !! key = m !! key.
Proof. intros. by apply MapDefaulter.SetIfEmpty_other. Qed.

Lemma addAppLabel_subseteq (m m' : smap) :
  m ⊆ m' → m !! "app" = None →
  addAppLabel (Some m) ⊆ addAppLabel (Some m') ↔ m' !! "app" ∈ [None; Some ""; Some "k8sensor"].
Proof.
  intros Hm Ha. rewrite map_subseteq_spec.
  assert (Hs : addAppLabel (Some m) !! "app" = Some "k8sensor") by (by rewrite addAppLabel_app, Ha).
  split.
  - intros Hl. specialize (Hl _ _ Hs). rewrite addAppLabel_app in Hl.
    destruct (m' !! "app") as [v|]; [|set_solver]. destruct (String.eqb_spec v ""); [set_solver|].
    simplify_eq. set_solver.
  - intros Hv key v. destruct (decide (key = "app")) as [->|Hk].
    + rewrite Hs. intros [= <-]. rewrite addAppLabel_app.
      rewrite !elem_of_cons in Hv. destruct Hv as [->|[->|[->|[]%elem_of_nil]]]; done.
    + rewrite !addAppLabel_other by done. rewrite map_subseteq_spec in Hm. apply Hm.
Qed.

(** *** Volumes *)

(** A CA secret was discovered, and the custom resource names no targets. *)
Definition discoveredCA (d : deploymentBuilder) : Prop :=
  match db_deploymentContext d with
  | Some c => dc_ETCDCASecretName c ≠ "" ∧
              etcd_Targets (ks_ETCD (spec_K8sSensor (agent_Spec (db_agent d)))) = []
  | None => False
  end.
(** The CA volume the volume builder makes: that of the custom resource's
    secret, or OpenShift's bundle. *)
Definition configuredCA (d : deploymentBuilder) : Prop :=
  ca_SecretName (etcd_CA (ks_ETCD (spec_K8sSensor (agent_Spec (db_agent d))))) ≠ "" ∨
  (db_isOpenShift d = true ∧ etcdResourcesExist d = true).

Lemma discoveredCAVolumes_names d :
  (discoveredCA d ∧ vol_Name <$> fst (discoveredCAVolumes d) = ["etcd-ca"] ∧
   vm_Name <$> snd (discoveredCAVolumes d) = ["etcd-ca"]) ∨
  (¬ discoveredCA d ∧ discoveredCAVolumes d = ([], [])).
Proof.
  unfold discoveredCA, discoveredCAVolumes. destruct (db_deploymentContext d) as [c|]; [|right; split; [by intros []|done]].
  destruct (String.eqb_spec (dc_ETCDCASecretName c) "") as [E|E]; [right; split; [intros [Hn _]; by destruct Hn|done]|].
  destruct (etcd_Targets _); simpl; [by left|right; split; [intros [_ Hn]; discriminate Hn|done]].
Qed.

Section Volumes.
Context (d : deploymentBuilder).
Let v := WithBackendResourceSuffix (kb_ResourceSuffix (db_backend d))
           (NewVolumeBuilder (db_agent d) (db_isOpenShift d)).

Lemma etcd_ca_built :
  "etcd-ca" ∈ volume_name <$> List.filter (gives_volume v) (volumesToBuild d) ↔ configuredCA d.
Proof.
  transitivity (ETCDCAVolume ∈ volumesToBuild d ∧ gives_volume v ETCDCAVolume = true).
  { rewrite list_elem_of_fmap. split.
    - intros (vol & E & Hv). destruct vol; try discriminate E.
      by apply list_elem_of_In, filter_In in Hv as [?%list_elem_of_In ?].
    - intros [Hv Hg]. exists ETCDCAVolume. split; [done|].
      apply list_elem_of_In, filter_In. by rewrite <- list_elem_of_In. }
  unfold configuredCA, volumesToBuild, gives_volume. cbn [getBuilder]. unfold etcdCAVolume.
  cbn [v WithBackendResourceSuffix NewVolumeBuilder vb_instanaAgent vb_isOpenShift].
  destruct (String.eqb_spec (ca_SecretName (etcd_CA (ks_ETCD (spec_K8sSensor (agent_Spec (db_agent d)))))) "")
    as [E|E], (db_isOpenShift d), (etcdResourcesExist d), (sensorSecretMounts d); simpl;
    rewrite ?E; set_solver.
Qed.
End Volumes.

(** ** Properties *)

(** C38: the selector of the deployment selects the pods of its template, as
    the API server demands, unless the user gave the pods a label named app
    with another value. *)
Theorem deployment_selector_matches_iff `{MapRange} d :
  ∃ dpl, buildDeployment d = Value dpl ∧
    (dp_Selector dpl ⊆ pt_Labels (dp_Template dpl) ↔
     user_app_label d ∈ [None; Some ""; Some "k8sensor"]).
Proof.
  destruct (buildDeployment_returns d) as (envs & _ & E). eexists. split; [exact E|].
  cbn [dp_Selector dp_Template pt_Labels]. rewrite <- db_getPodTemplateLabels_app.
  apply addAppLabel_subseteq; [apply GetPodSelectorLabels_subseteq|done].
Qed.

(** C39: each volume of the deployment is mounted once, and the volumes have
    distinct names unless both the volume builder and discovery give a CA for
    etcd: then two volumes are named etcd-ca, and the API server refuses the
    deployment. *)
Theorem db_getVolumes_distinct_iff d :
  vm_Name <$> snd (db_getVolumes d) = vol_Name <$> fst (db_getVolumes d) ∧
  (NoDup (vol_Name <$> fst (db_getVolumes d)) ↔ ¬ (configuredCA d ∧ discoveredCA d)).
Proof.
  unfold db_getVolumes. pose proof (etcd_ca_built d) as Hca. revert Hca.
  set (v := WithBackendResourceSuffix _ _). intros Hca.
  pose proof (VolumeBuilder_Build_names v (volumesToBuild d)) as [Hv Hm].
  assert (Hd : NoDup (volume_name <$> List.filter (gives_volume v) (volumesToBuild d))).
  { apply VolumeBuilder_Build_NoDup; [apply volumesToBuild_NoDup|].
    intros [Hs _]. by apply volumesToBuild_secrets in Hs. }
  destruct (VolumeBuilder_Build v (volumesToBuild d)) as [volumes mounts]. cbn [fst snd] in *.
  rewrite !fmap_app, Hv, Hm.
  destruct (discoveredCAVolumes_names d) as [(Hc & -> & ->)|[Hc ->]].
  - split; [done|]. rewrite NoDup_app. split.
    + intros (_ & Hn & _) [Hca' _]. apply (Hn "etcd-ca"); [by apply Hca|set_solver].
    + intros Hn. split_and!; [done| |apply NoDup_singleton].
      intros x Hx ->%list_elem_of_singleton. apply Hn. split; [by apply Hca|done].
  - simpl. rewrite !app_nil_r. split; [done|]. tauto.
Qed.

(** How the sensor gets its key.  With secret mounts, the pod mounts the
    secret volume and the files named in the arguments are exactly the ones
    mounted there; without them no file is named and the environment reads
    the key from the secret.  The poll rate is always a number of seconds. *)
Theorem sensor_key_delivery `{MapRange} d :
  ∃ pollRate files envs,
    getK8SensorArgs d = "-pollrate" :: pollRate :: files ∧ validatePollRate pollRate = true ∧
    db_getEnvVars d = Value envs ∧
    if sensorSecretMounts d then
      ∃ vol mount name items mode, vol ∈ fst (db_getVolumes d) ∧ mount ∈ snd (db_getVolumes d) ∧
        vm_Name mount = vol_Name vol ∧ vol_Source vol = SecretSource name items mode None ∧
        files = concat (zip_with
          (fun flag item => [flag; vm_MountPath mount +++ "/" +++ ktp_Path item])
          ["-agent-key-file"; "-https-proxy-file"] items)
    else files = [] ∧ getAgentKeyEnvVar d ∈ envs.
Proof.
  unfold getK8SensorArgs.
  destruct (db_getEnvVars_returns d) as (envVars & secretEnvVars & _ & He & Hk).
  eexists _, _, _. split; [reflexivity|]. split; [|split; [exact He|]].
  { destruct (negb _); [|done]. by destruct (validatePollRate (ks_PollRate _)) eqn:E. }
  destruct (sensorSecretMounts d) eqn:Em.
  - set (v := WithBackendResourceSuffix (kb_ResourceSuffix (db_backend d))
                (NewVolumeBuilder (db_agent d) (db_isOpenShift d))).
    do 2 eexists. exists (volumeSecretName v), (k8sensorSecretsItems v), (Some mode_0400).
    assert (Hb : getBuilder v K8SensorSecretsVolume =
      (volume "instana-secrets" (SecretSource (volumeSecretName v) (k8sensorSecretsItems v) (Some mode_0400) None),
       volumeMount "instana-secrets" InstanaSecretsDirectory true)) by apply (k8sensorSecretsVolume_on d), Em.
    apply (VolumeBuilder_Build_elem v (volumesToBuild d)) in Hb as [Hv Hm];
      [|unfold volumesToBuild; rewrite Em; set_solver].
    unfold db_getVolumes. fold v. destruct (VolumeBuilder_Build v _). cbn [fst snd] in *.
    split; [apply elem_of_app; by left; exact Hv|]. split; [apply elem_of_app; left; exact Hm|].
    split_and!; [done|done|]. unfold k8sensorSecretsItems. cbn.
    destruct (negb (String.eqb (ag_KeysSecret _) "")), (negb (String.eqb (ag_ProxyHost _) "")); reflexivity.
  - split; [done|]. rewrite SortEnvVarsByName_perm. right. apply elem_of_app. left.
    unfold secret_variables in Hk. rewrite Em in Hk. destruct Hk as (l & _ & ->). by left.
Qed.

(** Two variables of one name, of which the server-side apply of the
    deployment sees two entries with one key: with the secret mounts switched
    off every variable the user gives the agent is added twice; and on a
    cluster other than OpenShift, when discovery found etcd and a CA for it,
    so is ETCD_CA_FILE, with the path of the custom resource and the one of
    the discovered secret. *)
Theorem sensor_variables_twice `{MapRange} d envs :
  db_getEnvVars d = Value envs →
  (sensorSecretMounts d = false →
     ∃ rest, envs ≡ₚ getUserProvidedEnvs (db_agent d) ++ getUserProvidedEnvs (db_agent d) ++ rest) ∧
  (∀ a c, db_agent d = Default a → db_isOpenShift d = false → db_deploymentContext d = Some c →
     dc_DiscoveredETCDTargets c ≠ [] → discoveredCA d →
     ∃ rest path, envs ≡ₚ env_value "ETCD_CA_FILE" path ::
                          env_value "ETCD_CA_FILE" "/var/run/secrets/etcd/ca.crt" :: rest).
Proof.
  destruct (db_getEnvVars_returns d) as (envVars & secretEnvVars & Hb & He & Hs).
  rewrite He. intros [= <-]. split.
  - intros Em. unfold secret_variables in Hs. rewrite Em in Hs. destruct Hs as (l & Hl & ->).
    apply buildAll_prefix in Hl as [r ->]. apply buildAll_prefix in Hb as [r' ->].
    eexists (db_backendEnv d :: getAgentKeyEnvVar d :: r ++ r' ++ contextEnvVars d).
    rewrite SortEnvVarsByName_perm. solve_Permutation.
  - intros a c Ha Ho Hc Ht Hca.
    assert (Hin : ∃ path, env_value "ETCD_CA_FILE" path ∈ envVars).
    { unfold sensor_envVarsToInclude in Hb. rewrite Ho in Hb. cbn [negb orb] in Hb. eexists.
      eapply (buildAll_built _ _ _ _ _ ETCDCAFileEnv); [exact Hb|set_solver|].
      rewrite Ha. apply build_ETCDCAFileEnv. }
    destruct Hin as [path [rest Hrest]%elem_of_Permutation].
    assert (Hd : env_value "ETCD_CA_FILE" "/var/run/secrets/etcd/ca.crt" ∈ contextEnvVars d).
    { unfold contextEnvVars, discoveredEnvVars. rewrite Ho. unfold discoveredCA in Hca.
      rewrite Hc in *. destruct Hca as [Hn ->]. destruct (dc_DiscoveredETCDTargets c); [done|].
      destruct (String.eqb_spec (dc_ETCDCASecretName c) ""); [done|]. right. by left. }
    apply elem_of_Permutation in Hd as [rest' Hrest'].
    exists (db_backendEnv d :: secretEnvVars ++ rest ++ rest'), path.
    rewrite SortEnvVarsByName_perm, Hrest, Hrest'. solve_Permutation.
Qed.

Definition discovered_CA_builder : deploymentBuilder :=
  {| db_agent := Default example_agent; db_isOpenShift := false;
     db_backend := additionalBackend 0 {| be_EndpointHost := "h"; be_EndpointPort := "1"; be_Key := "k1" |};
     db_keysSecret := None;
     db_deploymentContext := Some {| dc_DiscoveredETCDTargets := ["https://10.0.0.1:2379/metrics"];
       dc_ETCDCASecretName := ETCDCASecretName; dc_OpenShiftETCDResourcesExist := false |} |}.

Lemma sensor_variables_twice_witness :
  ∃ envs, db_getEnvVars discovered_CA_builder = Value envs ∧
    ∃ rest path, envs ≡ₚ env_value "ETCD_CA_FILE" path ::
                         env_value "ETCD_CA_FILE" "/var/run/secrets/etcd/ca.crt" :: rest.
Proof.
  eexists. split; [vm_compute; reflexivity|].
  refine (proj2 (sensor_variables_twice discovered_CA_builder _ _) example_agent _ _ _ _ _ _).
  - vm_compute. reflexivity.
  - reflexivity.
  - reflexivity.
  - reflexivity.
  - discriminate 1.
  - split; [discriminate 1|reflexivity].
Defined.

(** The builder of a deployment never fails: it makes nothing exactly when
    the key, or the zone and the cluster's name, are missing or the sensor is
    disabled; otherwise it makes a deployment named after its backend and
    tells the status manager to watch this one, instead of any other. *)
Theorem NewDeploymentBuilder_spec `{MapRange} {W} d (s : St W agentStatusManager) :
  ∃ r x, Build (NewDeploymentBuilder d) s = (Ret r, MkSt (world s) (trace s) x) ∧
    match r with
    | None => db_isOmitted d = true ∧ x = local s
    | Some o => db_isOmitted d = false ∧
        object_meta o = (NewObjectMeta (K8sSensorResourcesName (db_agent d) +++
                                        kb_ResourceSuffix (db_backend d)) (agent_Namespace (db_agent d)))
                        <| om_Labels := Some {[ "app" := "k8sensor" ]} |> ∧
        k8sSensorDeployment x = Key (om_Namespace (object_meta o)) (om_Name (object_meta o))
    end.
Proof.
  pose proof (NewDeploymentBuilder_Build d s) as Hb.
  destruct (db_isOmitted d); [destruct s; by exists None, local|].
  destruct Hb as (dpl & Hd & Hb). do 2 eexists. split; [exact Hb|]. split; [done|].
  destruct (buildDeployment_returns d) as (envs & _ & Hd'). rewrite Hd in Hd'.
  injection Hd' as ->. by split.
Qed.
