(* ===== verification/EtcdRoundTrip.v ===== *)
(** * Discovered etcd targets through a reconciliation

    Discovery finds the targets, the deployment of the k8sensor lists them in
    its environment, and the next reconciliation compares the deployment with
    what it discovers.  Here the two ends, Etcd.v and K8sDeployment.v, meet. *)
From S2P Require Import Prelude GoStd Errors K8sTypes ApiTypes Effects Cluster Client.
From S2P Require Import Transformations Helpers Etcd EnvBuilder VolumeBuilder Secrets K8sDeployment.

(** The targets a deployment is built to list: the context's. *)
Definition contextTargets (d : deploymentBuilder) : list string :=
  match db_deploymentContext d with Some c => dc_DiscoveredETCDTargets c | None => [] end.

(** ** Facts *)

(** The first element that passes a test only one does. *)
Lemma find_unique {A} (p : A → bool) l e :
  e ∈ l → p e = true → (∀ e', e' ∈ l → p e' = true → e' = e) → List.find p l = Some e.
Proof.
  induction l as [|x l IH]; [set_solver|]. intros He Hp Hu. cbn [List.find].
  destruct (p x) eqn:E; [by rewrite (Hu x) by set_solver|].
  apply IH; [|done|set_solver]. apply elem_of_cons in He as [->|]; [congruence|done].
Qed.
Lemma find_absent {A} (p : A → bool) l : (∀ e, e ∈ l → p e = false) → List.find p l = None.
Proof.
  induction l as [|x l IH]; [done|]. intros Hp. cbn [List.find].
  rewrite (Hp x) by set_solver. apply IH. set_solver.
Qed.

Section Listed.
Context (d : deploymentBuilder) `{MapRangeLaws}.
Let ag := spec_Agent (agent_Spec (db_agent d)).
(** A vanilla cluster, a custom resource without targets of its own, and no
    variable of the user that passes for the list. *)
Record discovers : Prop := {
  vanilla : db_isOpenShift d = false;
  no_targets : etcd_Targets (ks_ETCD (spec_K8sSensor (agent_Spec (db_agent d)))) = [];
  no_variable : default ∅ (ag_Env ag) !! EnvETCDTargets = None }.
Context (Hd : discovers).

Lemma built_not_targets zone vs l e :
  EnvBuilder_Build (db_agent d) zone vs = Value l → e ∈ l → ev_Name e ≠ EnvETCDTargets.
Proof.
  intros Hb He Hn. apply (buildAll_elem _ _ _ _ _ _ Hb) in He as [Hu|(v & _ & Hv)].
  - unfold getUserProvidedEnvs in Hu. apply list_elem_of_fmap in Hu as ([n x] & -> & Hx).
    rewrite range_perm in Hx. apply elem_of_map_to_list in Hx. simpl in Hn. subst n.
    pose proof (no_variable Hd) as Hnone. unfold ag in Hnone. congruence.
  - pose proof (build_targets_name _ _ _ _ Hv Hn) as ->. unfold build in Hv.
    destruct (_ && _); [done|]. cbn [build_switch] in Hv. unfold etcdTargetsEnv in Hv.
    by rewrite (no_targets Hd) in Hv.
Qed.

(** The variables of the context: the list of targets is at most one of them. *)
Lemma contextEnvVars_targets e :
  e ∈ contextEnvVars d → ev_Name e = EnvETCDTargets →
  e = env_value EnvETCDTargets (Join (contextTargets d) ",").
Proof.
  unfold contextEnvVars, discoveredEnvVars, contextTargets. rewrite (vanilla Hd).
  destruct (db_deploymentContext d) as [c|]; [|set_solver]. rewrite (no_targets Hd).
  destruct (dc_DiscoveredETCDTargets c); [set_solver|].
  destruct (negb _); rewrite ?elem_of_cons, elem_of_nil; naive_solver.
Qed.
Lemma contextEnvVars_listed :
  contextTargets d ≠ [] →
  env_value EnvETCDTargets (Join (contextTargets d) ",") ∈ contextEnvVars d.
Proof.
  unfold contextEnvVars, discoveredEnvVars, contextTargets. rewrite (vanilla Hd).
  destruct (db_deploymentContext d) as [c|]; [|done]. rewrite (no_targets Hd).
  destruct (dc_DiscoveredETCDTargets c); [done|]. intros _. by left.
Qed.
Lemma contextEnvVars_nil : contextTargets d = [] → contextEnvVars d = [].
Proof.
  unfold contextEnvVars, discoveredEnvVars, contextTargets. rewrite (vanilla Hd).
  destruct (db_deploymentContext d) as [c|]; [|done]. by intros ->.
Qed.

(** The environment names the list only through the context. *)
Lemma sensor_env_targets envs e :
  db_getEnvVars d = Value envs → ev_Name e = EnvETCDTargets → e ∈ envs → e ∈ contextEnvVars d.
Proof.
  destruct (db_getEnvVars_returns d) as (envVars & secretEnvVars & Hb & He & Hs).
  rewrite He. intros [= <-] Hn. rewrite SortEnvVarsByName_perm, elem_of_cons, !elem_of_app.
  intros [->|[Hin|[Hin|Hin]]]; [done| | |done]; exfalso.
  - unfold secret_variables in Hs. destruct (sensorSecretMounts d); [subst; set_solver|].
    destruct Hs as (l & Hl & ->). apply elem_of_cons in Hin as [->|Hin]; [done|].
    by apply (built_not_targets _ _ _ _ Hl Hin).
  - by apply (built_not_targets _ _ _ _ Hb Hin).
Qed.

(** What the comparison finds in the deployment that was built. *)
Lemma buildDeployment_currentTargets dpl :
  buildDeployment d = Value dpl →
  currentETCDTargets (ps_Containers (pt_Spec (dp_Template dpl))) = Join (contextTargets d) ",".
Proof.
  destruct (buildDeployment_returns d) as (envs & He & Hb). rewrite Hb. intros [= <-].
  cbn [dp_Template pt_Spec]. unfold sensorPod. destruct (db_getVolumes d) as [volumes mounts].
  cbn [ps_Containers]. unfold currentETCDTargets. cbn [List.find ct_Name ct_Env].
  rewrite String.eqb_refl. cbn [ct_Env].
  destruct (decide (contextTargets d = [])) as [Hnil|Hne].
  - rewrite find_absent; [by rewrite Hnil|]. intros e Hin. apply String.eqb_neq. intros Hn.
    pose proof (sensor_env_targets _ _ He Hn Hin) as Hc. rewrite contextEnvVars_nil in Hc by done.
    set_solver.
  - rewrite (find_unique _ _ (env_value EnvETCDTargets (Join (contextTargets d) ","))); [done| |done|].
    + destruct (db_getEnvVars_returns d) as (envVars & secretEnvVars & _ & He' & _).
      rewrite He in He'. injection He' as ->. rewrite SortEnvVarsByName_perm, elem_of_cons, !elem_of_app.
      do 3 right. by apply contextEnvVars_listed.
    + intros e Hin Hn%String.eqb_eq. apply contextEnvVars_targets; [|done].
      by apply (sensor_env_targets envs).
Qed.
End Listed.

(** ** Properties *)

(** C37: what is written for the discovered etcd targets is read back: the
    deployment built for a context needs no update exactly for the targets of
    the context, in any order; and then, when the cluster holds it and the
    same targets are discovered again, [CreateDeploymentContext] gives no
    context.  So the deployment applied next, built without one, lists no
    targets and does need an update: the two deployments take turns. *)
Theorem etcd_targets_roundtrip {W X} `{K8sApi W} `{ApiErrors} `{Env} `{MapRangeLaws}
    d dpl (found : DiscoveredETCDTargets) :
  let targets := det_Targets found in
  discovers d → buildDeployment d = Value dpl → targets ≠ [] →
  Forall listable targets → Forall listable (contextTargets d) →
  (compareAndUpdateETCDTargets dpl targets = false ↔ targets ≡ₚ contextTargets d) ∧
  (targets ≡ₚ contextTargets d → ∀ (s s1 : St W X) w agent,
     DiscoverETCDEndpoints agent s = (Ret (inl (Some found)), s1) →
     k8sGet KDeployment (Key (agent_Namespace agent) (K8sSensorResourcesName agent)) (world s1) =
       (inl dpl, w) →
     ∃ s2, CreateDeploymentContext agent false s = (Ret None, s2)).
Proof.
  intros targets Hd Hb Hne Hl Hc.
  assert (Hiff : compareAndUpdateETCDTargets dpl targets = false ↔ targets ≡ₚ contextTargets d).
  { rewrite compareAndUpdateETCDTargets_spec, (buildDeployment_currentTargets d Hd dpl Hb) by done.
    apply Forall_and in Hc as [Hcomma Hnonempty].
    destruct (decide (contextTargets d = [])) as [->|Hn].
    - split; [by intros []|]. by intros Hp%Permutation_nil_r.
    - rewrite Split_Join by done. split; [by intros [_ ->]|]. intros Hp. split; [|done].
      intros E. pose proof (Split_Join _ "," Hn Hcomma) as Hs. change (String "," "") with "," in Hs.
      rewrite E in Hs. rewrite <- Hs in Hnonempty. by apply Forall_inv in Hnonempty. }
  split; [exact Hiff|]. intros Hp s s1 w agent Hdis Hget.
  by eapply CreateDeploymentContext_unchanged; [exact Hdis|exact Hget|apply Hiff].
Qed.

(** A deployment built for the targets that the cluster of Etcd.v exposes. *)
Definition listing_builder : deploymentBuilder :=
  {| db_agent := Default example_agent; db_isOpenShift := false;
     db_backend := additionalBackend 0 {| be_EndpointHost := "h"; be_EndpointPort := "1"; be_Key := "k1" |};
     db_keysSecret := None;
     db_deploymentContext := Some {| dc_DiscoveredETCDTargets := etcd_targets;
       dc_ETCDCASecretName := ""; dc_OpenShiftETCDResourcesExist := false |} |}.

Lemma etcd_targets_roundtrip_witness :
  let found := {| det_Targets := rev etcd_targets; det_CAFound := false |} in
  ∃ dpl, buildDeployment listing_builder = Value dpl ∧
    (compareAndUpdateETCDTargets dpl (det_Targets found) = false ↔
     det_Targets found ≡ₚ contextTargets listing_builder).
Proof.
  eexists. split; [vm_compute; reflexivity|].
  refine (proj1 (etcd_targets_roundtrip (W := cluster) (X := unit) listing_builder _
    {| det_Targets := rev etcd_targets; det_CAFound := false |} _ _ _ _ _)).
  - split; reflexivity.
  - vm_compute. reflexivity.
  - discriminate 1.
  - repeat constructor; discriminate 1.
  - repeat constructor; discriminate 1.
Defined.
