(* ===== verification/Behaves.v ===== *)
(** * Computations that end

    The shape every part of a reconciliation has: it returns or panics, and
    leaves alone what its caller observes of the local state.  Stated for any
    status manager, so that the reconcilers of the agent and of the remote
    agent share it. *)
From S2P Require Import Prelude GoStd Errors K8sTypes ApiTypes Effects Cluster Client.
From S2P Require Import Transformations Lifecycle RemoteLifecycle OperatorUtils.

Create HintDb behaves.

(** ** Computations that end

    [behaves m]: the computation returns or panics, only appends to the trace,
    and does not touch what is observed of the local state: the custom
    resource the status manager reports on. *)
Class Observed (X : Type) := { observation : Type; observed : X → observation }.

Section Behaves.
Context {W X : Type} `{Observed X}.
Notation M := (M W X).

Record behaved (s s' : St W X) : Prop := {
  bh_trace : trace s `prefix_of` trace s';
  bh_old : observed (local s') = observed (local s)
}.
Definition behaves {A} (m : M A) : Prop :=
  ∀ s, fst (m s) ≠ OutOfFuel ∧ behaved s (snd (m s)).

Lemma behaved_refl s : behaved s s.
Proof. by split. Qed.
Lemma behaves_ret {A} (a : A) : behaves (mret a).
Proof. intros s. split; [done|apply behaved_refl]. Qed.
Lemma behaves_bind {A B} (m : M A) (k : A → M B) :
  behaves m → (∀ a, behaves (k a)) → behaves (m ≫= k).
Proof.
  intros Hm Hk s. destruct (Hm s) as [Ho Hl]. unfold mbind, M_bind.
  destruct (m s) as [[a|p|] s']; simpl in *; [|done..].
  destruct (Hk a s') as [? Hl']. split; [done|]. split.
  - etrans; [apply Hl|apply Hl'].
  - etrans; [apply Hl'|apply Hl].
Qed.
Lemma behaves_call {A} (f : W → A * W) ev : behaves (call f ev).
Proof.
  intros s. unfold call. destruct (f (world s)). split; [done|]. split; [by eexists|done].
Qed.
Lemma behaves_panic {A} p : behaves (panic p : M A).
Proof. intros s. split; [done|apply behaved_refl]. Qed.
Lemma behaves_lift {A} (r : or_panic A) : behaves (lift r).
Proof. destruct r; intros s; (split; [done|apply behaved_refl]). Qed.
Lemma behaves_modifyLocal f :
  (∀ a, observed (f a) = observed a) → behaves (modifyLocal f).
Proof. intros Hf s. split; [done|]. by split; [|apply Hf]. Qed.
Lemma behaves_now `{K8sApi W} : behaves now.
Proof. intros s. split; [done|apply behaved_refl]. Qed.
Lemma behaves_ctxErr `{K8sApi W} : behaves ctxErr.
Proof. intros s. split; [done|apply behaved_refl]. Qed.
Lemma behaves_foldM {A B} (f : B → A → M B) b l :
  (∀ x b, x ∈ l → behaves (f b x)) → behaves (foldM f b l).
Proof.
  revert b. induction l as [|x l IH]; intros b Hf; simpl; [apply behaves_ret|].
  apply behaves_bind; [apply Hf; by left|]. intros b'. apply IH. intros y b'' Hy. apply Hf. by right.
Qed.
Lemma behaves_retry `{K8sApi W} attempts sleep fn : behaves fn → behaves (retry attempts sleep fn).
Proof.
  intros Hfn. unfold retry. generalize 0%Z. induction (Z.to_nat attempts) as [|n IH]; intros i; simpl;
    [apply behaves_ret|].
  apply behaves_bind; [done|]. intros [b e]. destruct b; [apply behaves_ret|].
  apply behaves_bind; [|intros _; apply IH].
  destruct (i <? attempts - 1)%Z; [apply behaves_call|apply behaves_ret].
Qed.
Lemma runs_behaves `{ClockLaws W} {A} (m : M A) R :
  runs m → emits m R → keeps_local m → behaves m.
Proof.
  intros Hr He Hl s. destruct (Hr s) as (a & s' & E & _). specialize (Hl s).
  destruct (He s) as (t & Ht & _). rewrite E in *. simpl in *. split; [done|].
  split; [by exists t|by rewrite Hl].
Qed.
End Behaves.

Ltac behaves_auto :=
  repeat (intros; lazymatch goal with
  | |- behaves (mret _) => apply behaves_ret
  | |- behaves (mbind _ _) => apply behaves_bind
  | |- behaves (call _ _) => apply behaves_call
  | |- behaves (doGet _ _) => apply behaves_call
  | |- behaves (doWrite _) => apply behaves_call
  | |- behaves (doSleep _) => apply behaves_call
  | |- behaves (panic _) => apply behaves_panic
  | |- behaves (lift _) => apply behaves_lift
  | |- behaves now => apply behaves_now
  | |- behaves ctxErr => apply behaves_ctxErr
  | |- behaves (modifyLocal _) => apply behaves_modifyLocal
  | |- behaves (foldM _ _ _) => apply behaves_foldM
  | |- behaves (retry _ _ _) => apply behaves_retry
  | |- behaves (match ?x with _ => _ end) => destruct x
  | |- behaves (let '_ := ?x in _) => destruct x
  | |- behaves _ => solve [eauto with behaves]
  end).

Section Calls.
Context {W X : Type} `{ClockLaws W} `{Observed X} `{ApiErrors} `{Env} `{MapRange} `{DependentsCodec}.
Notation M := (M W X).

(** *** The client *)
Lemma objectsExist_local objects : keeps_local (objectsExist objects : M _).
Proof.
  unfold objectsExist, Exists, GetAsResult. keeps_local_auto.
Qed.
Lemma verifyDeletion_local fuel deadline objects waitTime :
  keeps_local (verifyDeletion fuel deadline objects waitTime : M _).
Proof.
  induction fuel as [|fuel IH]; simpl; [by intros s|]. apply keeps_local_bind.
  { unfold ctxDone. apply keeps_local_bind; [by intros s|]. intros [e|]; keeps_local_auto. }
  intros [e|]; [keeps_local_auto|]. apply keeps_local_bind; [apply objectsExist_local|].
  intros rs. destruct (GoList.All rs doNotExist); [keeps_local_auto|].
  apply keeps_local_bind; [apply keeps_local_call|done].
Qed.
Lemma deleteAll_local objects : keeps_local (deleteAll objects : M _).
Proof.
  unfold deleteAll, Delete. keeps_local_auto.
Qed.
Lemma DeleteAllInTimeLimit_behaves objects timeout waitTime :
  (0 < waitTime)%Z → (0 ≤ timeout)%Z →
  behaves (DeleteAllInTimeLimit objects timeout waitTime : M _).
Proof.
  intros Hw Ht. eapply runs_behaves; [by apply DeleteAllInTimeLimit_runs|apply DeleteAllInTimeLimit_emits|].
  pose proof deleteAll_local. pose proof verifyDeletion_local.
  unfold DeleteAllInTimeLimit, deleteAllInTimeLimit. keeps_local_auto; auto.
Qed.

Lemma Apply_behaves obj dryRun : behaves (Apply obj dryRun : M _).
Proof. unfold Apply. behaves_auto. Qed.
#[local] Hint Resolve Apply_behaves : behaves.

(** *** Lifecycle and operator utilities *)
Lemma UpdateDependentLifecycleInfo_behaves d objects :
  behaves (UpdateDependentLifecycleInfo d objects : M _).
Proof.
  unfold UpdateDependentLifecycleInfo, updateAttempt, getOrInitializeLifecycleCm,
    getLifecycleConfigMap. behaves_auto.
Qed.
Lemma CleanupDependents_behaves d objects : behaves (CleanupDependents d objects : M _).
Proof.
  unfold CleanupDependents, cleanupAttempt, cleanupOnce, getLifecycleConfigMap. behaves_auto.
  unfold cleanupEntry, deleteAllDependents. destruct x, b. behaves_auto.
  by apply DeleteAllInTimeLimit_behaves.
Qed.
#[local] Hint Resolve UpdateDependentLifecycleInfo_behaves CleanupDependents_behaves : behaves.

Lemma ApplyAll_behaves (o : operatorUtils W X) bs :
  (∀ objects, behaves (dlm_Update (ou_manager o) objects)) →
  (∀ objects, behaves (dlm_Cleanup (ou_manager o) objects)) →
  (∀ b, b ∈ bs → behaves (Build b)) → behaves (ApplyAll o bs).
Proof.
  intros Hu Hc Hbs. assert (Hb : behaves (buildObjects o bs)).
  { unfold buildObjects, BuilderTransformer_Apply. behaves_auto; auto. }
  unfold ApplyAll, applyAll. behaves_auto; auto with behaves.
Qed.
Lemma agent_ApplyAll_behaves agent bs :
  (∀ b, b ∈ bs → behaves (Build b)) → behaves (ApplyAll (NewOperatorUtils agent : operatorUtils W _) bs).
Proof. apply ApplyAll_behaves; intros objects; simpl; auto with behaves. Qed.

(** *** The manager of the remote agent *)
Lemma cleanupOnce_behaves d objects : behaves (cleanupOnce d objects : M _).
Proof.
  unfold cleanupOnce, getLifecycleConfigMap. behaves_auto.
  unfold cleanupEntry, deleteAllDependents. destruct x, b. behaves_auto.
  by apply DeleteAllInTimeLimit_behaves.
Qed.
Lemma behaves_same {A} (m m' : M A) : same m m' → behaves m' → behaves m.
Proof. intros Hm Hb s. rewrite (Hm s). apply Hb. Qed.
Lemma RemoteUpdateDependentLifecycleInfo_behaves d objects :
  behaves (RemoteUpdateDependentLifecycleInfo d objects : M _).
Proof.
  apply (behaves_same _ _ (RemoteUpdate_same d objects)).
  unfold getOrInitializeLifecycleCm, getLifecycleConfigMap. behaves_auto.
Qed.
Lemma RemoteCleanupDependents_behaves d objects : behaves (RemoteCleanupDependents d objects : M _).
Proof. apply (behaves_same _ _ (RemoteCleanup_same d objects)), cleanupOnce_behaves. Qed.
#[local] Hint Resolve RemoteUpdateDependentLifecycleInfo_behaves RemoteCleanupDependents_behaves : behaves.
Lemma remote_ApplyAll_behaves agent bs :
  (∀ b, b ∈ bs → behaves (Build b)) →
  behaves (ApplyAll (NewRemoteOperatorUtils agent : operatorUtils W _) bs).
Proof. apply ApplyAll_behaves; intros objects; simpl; auto with behaves. Qed.
End Calls.
#[export] Hint Resolve Apply_behaves UpdateDependentLifecycleInfo_behaves CleanupDependents_behaves
  RemoteUpdateDependentLifecycleInfo_behaves RemoteCleanupDependents_behaves : behaves.
