(* ===== verification/Deferring.v ===== *)
(** * The deferred functions of the reconcilers

    instanaagent_controller.go and remoteagent_controller.go end [Reconcile]
    in the same way: the status manager is told how the reconciliation ended,
    then a panic is recovered.  The section is generic in the manager's
    [UpdateAgentStatus]. *)
From S2P Require Import Prelude GoStd Errors K8sTypes ApiTypes Effects Cluster Client.
From S2P Require Import Transformations Lifecycle OperatorUtils Reconcile.

Section Deferring.
Context {W X : Type} `{Debug} (UpdateAgentStatus : option error → M W X (option error)).
Notation M := (M W X).

(** The two deferred functions, which run last to first:
    [UpdateAgentStatus] is called with the error the function has set when it
    returned, nil when it panicked, and its own error is added to that; then
    a panic is recovered and becomes the error. *)
Definition statusError (reconcileErr : option error) : M (option error) :=
  err ← UpdateAgentStatus reconcileErr;
  mret match err with
       | Some _ => MultiErrorBuilder.Build (MultiErrorBuilder.New [reconcileErr; err])
       | None => reconcileErr
       end.
Definition deferring (m : M (ctrlResult * option error)) : M (ctrlResult * option error) := fun s =>
  let '(res, reconcileErr, panicked, s') :=
    match m s with
    | (Ret (res, err), s') => (res, err, Some None, s')
    | (Panic p, s') => (noRequeue, None, Some (Some p), s')
    | (OutOfFuel, s') => (noRequeue, None, None, s')
    end in
  match panicked with
  | None => (OutOfFuel, s')
  | Some panicked =>
      match statusError reconcileErr s' with
      | (Ret err, s'') => (Ret (res, Catch debug_stack panicked err), s'')
      | (Panic p, s'') => (Ret (res, Catch debug_stack (Some p) reconcileErr), s'')
      | (OutOfFuel, s'') => (OutOfFuel, s'')
      end
  end.

(** ** Facts *)

(** The error that comes of a status update: the one it was told is kept, and
    none is added when the update worked. *)
Lemma statusError_run e s r s' :
  UpdateAgentStatus e s = (Ret r, s') →
  ∃ err, statusError e s = (Ret err, s') ∧ (e ≠ None → err ≠ None) ∧
    (err = None → r = None).
Proof.
  intros E. unfold statusError. rewrite (bind_Ret _ _ _ _ _ E). eexists. split; [reflexivity|].
  destruct r as [r|]; [|by split]. split.
  - intros He Hn. by destruct e.
  - intros Hn. by destruct e.
Qed.

(** How a deferring computation ends, when the status update returns. *)
Lemma deferring_run m s o s2 :
  m s = (o, s2) → o ≠ OutOfFuel →
  (∀ e, ∃ r s', UpdateAgentStatus e s2 = (Ret r, s')) →
  ∃ res err s' told r, deferring m s = (Ret (res, err), s') ∧
    UpdateAgentStatus told s2 = (Ret r, s') ∧
    match o with
    | Ret (res', e) => res = res' ∧ told = e ∧ (e ≠ None → err ≠ None) ∧ (err = None → r = None)
    | _ => res = noRequeue ∧ told = None ∧ err ≠ None
    end.
Proof.
  intros E Hf Hu. unfold deferring. rewrite E. destruct o as [[res e]|p|]; [..|done].
  - destruct (Hu e) as (r & s' & Er). destruct (statusError_run e s2 r s' Er) as (err & -> & He & Hn).
    by exists res, err, s', e, r.
  - destruct (Hu None) as (r & s' & Er). destruct (statusError_run None s2 r s' Er) as (err & -> & _ & _).
    destruct (Catch_panic debug_stack p err) as [e Hc]. eexists _, _, s', None, r.
    split; [reflexivity|]. rewrite Hc. done.
Qed.
End Deferring.
