(* ===== verification/Controllers.v ===== *)
(** * The reconciliation of an InstanaAgent

    controllers/instanaagent_controller.go and apply.go: which objects a
    custom resource asks for, the order in which a reconciliation looks at the
    cluster and applies them, and how [Reconcile] reports the outcome. *)
From S2P Require Import Prelude GoStd Errors K8sTypes ApiTypes Effects Cluster Client.
From S2P Require Import Transformations Lifecycle OperatorUtils Status Helpers Reconcile Etcd.
From S2P Require Import VolumeBuilder Secrets AgentObjects SensorObjects DaemonSet K8sDeployment Deferring.

(** ** apply.go *)
Section Builders.
Context {W : Type} `{K8sApi W} `{ApiErrors} `{Env} `{MapRange} `{Yaml}.
Notation M := (M W agentStatusManager).
Notation Builder := (ObjectBuilder W agentStatusManager).

(** The answers for the zones, or the first result that ends the
    reconciliation. *)
Fixpoint zoneSettings (agent : InstanaAgent) (zones : list Zone) :
    M (list bool + reconcileReturn) :=
  match zones with
  | [] => mret (inl [])
  | zone :: zones =>
      r ← shouldSetPersistHostUniqueIDEnvVar agent (Some zone);
      let '(shouldSetForZone, shouldSetRes) := r in
      if suppliesReconcileResult shouldSetRes then mret (inr shouldSetRes)
      else
        rest ← zoneSettings agent zones;
        mret match rest with
             | inl settings => inl (shouldSetForZone :: settings)
             | inr res => inr res
             end
  end.

Definition daemonSetBuilderOf (agent : InstanaAgent) (isOpenShift : bool) (zone : option Zone)
    (shouldSet : bool) : daemonSetBuilder :=
  {| dsb_agent := agent; dsb_isOpenShift := isOpenShift; dsb_zone := zone;
     dsb_shouldSetPersistHostUniqueIDEnvVar := shouldSet |}.
Definition getDaemonSetBuilders (agent : InstanaAgent) (isOpenShift shouldSet : bool) :
    M (list daemonSetBuilder * reconcileReturn) :=
  match spec_Zones (agent_Spec agent) with
  | [] => mret ([daemonSetBuilderOf agent isOpenShift None shouldSet], reconcileContinue)
  | zones =>
      settings ← zoneSettings agent zones;
      mret match settings with
           | inr res => ([], res)
           | inl settings =>
               (zip_with (fun zone => daemonSetBuilderOf agent isOpenShift (Some zone)) zones settings,
                reconcileContinue)
           end
  end.

Definition deploymentBuilderOf (agent : InstanaAgent) (isOpenShift : bool) (keysSecret : Secret)
    (context : option DeploymentContext) (backend : K8SensorBackend) : deploymentBuilder :=
  {| db_agent := agent; db_isOpenShift := isOpenShift; db_backend := backend;
     db_keysSecret := Some keysSecret; db_deploymentContext := context |}.
Definition getK8sSensorDeployments (agent : InstanaAgent) (isOpenShift : bool)
    (backends : list K8SensorBackend) (keysSecret : Secret) (context : option DeploymentContext) :
    list deploymentBuilder :=
  deploymentBuilderOf agent isOpenShift keysSecret context <$> backends.

(** The builders whose order is fixed. *)
Definition fixedBuilders (agent : InstanaAgent) (keysSecret : Secret)
    (backends : list K8SensorBackend) (namespacesDetails : NamespacesDetails) : list Builder :=
  [NewHeadlessServiceBuilder agent;
   NewConfigBuilder agent (Some keysSecret) backends;
   NewContainerBuilder agent (Some keysSecret);
   NewTLSSecretBuilder agent;
   NewServiceBuilder agent;
   NewClusterRoleBuilder agent;
   NewClusterRoleBindingBuilder agent;
   NewServiceAccountBuilder agent;
   NewPodDisruptionBudgetBuilder agent;
   NewSensorClusterRoleBuilder agent;
   NewSensorClusterRoleBindingBuilder agent;
   NewSensorRoleBuilder agent;
   NewSensorRoleBindingBuilder agent;
   NewSensorServiceAccountBuilder agent;
   NewSensorConfigMapBuilder agent backends;
   NewKeysSecretBuilder agent backends;
   NewNamespacesConfigMapBuilder agent namespacesDetails].
Definition allBuilders (daemonSets : list daemonSetBuilder) (agent : InstanaAgent)
    (isOpenShift : bool) (keysSecret : Secret) (backends : list K8SensorBackend)
    (namespacesDetails : NamespacesDetails) (context : option DeploymentContext) : list Builder :=
  ((fun d => NewDaemonSetBuilder d) <$> daemonSets) ++
  fixedBuilders agent keysSecret backends namespacesDetails ++
  ((fun d => NewDeploymentBuilder d) <$>
     getK8sSensorDeployments agent isOpenShift backends keysSecret context).

Definition applyResources (agent : InstanaAgent) (isOpenShift shouldSet : bool)
    (o : operatorUtils W agentStatusManager) (keysSecret : Secret)
    (backends : list K8SensorBackend) (namespacesDetails : NamespacesDetails) :
    M reconcileReturn :=
  deploymentContext ← CreateDeploymentContext agent isOpenShift;
  r ← getDaemonSetBuilders agent isOpenShift shouldSet;
  let '(daemonSetBuilders, daemonSetBuildersRes) := r in
  if suppliesReconcileResult daemonSetBuildersRes then mret daemonSetBuildersRes
  else
    err ← ApplyAll o (allBuilders daemonSetBuilders agent isOpenShift keysSecret backends
                        namespacesDetails deploymentContext);
    mret match err with
         | Some _ => reconcileFailure err
         | None => reconcileContinue
         end.
End Builders.

(** ** instanaagent_controller.go *)
Section Controller.
Context {W : Type} `{K8sApi W} `{ApiErrors} `{Env} `{MapRange} `{Yaml} `{DependentsCodec}.
Context `{Finalizers} `{HelmErrors} `{Debug} `{Semver} `{StatusConditions}.
Notation M := (M W agentStatusManager).

(** The secret the user names, or an empty one. *)
Definition getKeysSecret (agent : InstanaAgent) : M Secret :=
  let name := ag_KeysSecret (spec_Agent (agent_Spec agent)) in
  if negb (String.eqb name "") then
    r ← doGet KSecret (Key (agent_Namespace agent) name);
    mret (value_of zero_Secret r)
  else mret zero_Secret.

(** What follows [isOpenShift] in [reconcile]. *)
Definition reconcileResources (agent : InstanaAgent) (o : operatorUtils W agentStatusManager)
    (isOpenShift : bool) : M reconcileReturn :=
  r ← match spec_Zones (agent_Spec agent) with
      | [] => shouldSetPersistHostUniqueIDEnvVar agent None
      | _ => mret (false, reconcileContinue)
      end;
  let '(shouldSet, shouldSetRes) := r in
  if suppliesReconcileResult shouldSetRes then mret shouldSetRes
  else
    keysSecret ← getKeysSecret agent;
    namespaces ← GetNamespacesWithLabels;
    res ← applyResources agent isOpenShift shouldSet o keysSecret (getK8SensorBackends agent)
            (fst namespaces);
    if suppliesReconcileResult res then mret res else mret (reconcileSuccess noRequeue).

(** [reconcile] once the custom resource was read; the source defaults it in
    place, after the status manager has copied it. *)
Definition reconcileAgent (agent : InstanaAgent) : M reconcileReturn :=
  _ ← modifyLocal (SetAgentOld agent);
  let agent := Default agent in
  let o := NewOperatorUtils agent in
  handleDeletionRes ← handleDeletion o agent;
  if suppliesReconcileResult handleDeletionRes then mret handleDeletionRes
  else
    addFinalizerRes ← addOrUpdateFinalizers agent;
    if suppliesReconcileResult addFinalizerRes then mret addFinalizerRes
    else
      r ← isOpenShift agent;
      let '(openShift, isOpenShiftRes) := r in
      if suppliesReconcileResult isOpenShiftRes then mret isOpenShiftRes
      else reconcileResources agent o openShift.

Definition reconcile (key : ObjectKey) : M reconcileReturn :=
  r ← getAgent key;
  let '(agent, getAgentRes) := r in
  if suppliesReconcileResult getAgentRes then mret getAgentRes
  else
    match agent with
    | Some agent => reconcileAgent agent
    | None => panic nil_dereference
    end.

Definition Reconcile (key : ObjectKey) : M (ctrlResult * option error) :=
  r ← doGet KInstanaAgent key;
  let notFound := match r with inr e => IsNotFound (Some e) | inl _ => false end in
  if notFound then mret (noRequeue, None)
  else
    _ ← modifyLocal (fun _ => NewAgentStatusManager);
    deferring UpdateAgentStatus (ret ← reconcile key; lift (reconcileResult ret)).
End Controller.
