(* ===== verification/ControllerProofs.v ===== *)
(** * What a reconciliation guarantees

    Termination and panic safety of [Reconcile], what it reports in the status
    of the custom resource, and the objects it applies. *)
From S2P Require Import Prelude GoStd Errors K8sTypes ApiTypes Effects Cluster Client.
From S2P Require Import Transformations Lifecycle OperatorUtils StatusHelpers Status Helpers Reconcile Etcd.
From S2P Require Import VolumeBuilder Secrets AgentObjects SensorObjects DaemonSet K8sDeployment.
From S2P Require Import EnvBuilder Deferring Controllers Behaves.

#[export] Instance agentStatusManager_observed : Observed agentStatusManager :=
  {| observation := option InstanaAgent; observed := agentOld |}.

Section Calls.
Context {W : Type} `{ClockLaws W} `{ApiErrors} `{Env} `{MapRange} `{Yaml} `{DependentsCodec}.
Context `{Finalizers} `{HelmErrors} `{Debug} `{Semver} `{StatusConditions}.
Notation M := (M W agentStatusManager).

(** *** Steps of the reconciliation *)
Lemma updateAgent_behaves old new : behaves (updateAgent old new : M _).
Proof. unfold updateAgent. behaves_auto. Qed.
#[local] Hint Resolve updateAgent_behaves : behaves.
Lemma cleanupHelmChart_behaves agent : behaves (cleanupHelmChart agent : M _).
Proof. unfold cleanupHelmChart, NewHelmReconciliation, helmDelete. behaves_auto. Qed.
#[local] Hint Resolve cleanupHelmChart_behaves : behaves.
Lemma handleDeletion_behaves agent agent' :
  behaves (handleDeletion (NewOperatorUtils agent) agent' : M _).
Proof.
  unfold handleDeletion, cleanupNodeLabels, cleanupDependents, DeleteAll.
  cbn [NewOperatorUtils ou_manager agentManager dlm_Cleanup]. behaves_auto.
Qed.
Lemma addOrUpdateFinalizers_behaves agent : behaves (addOrUpdateFinalizers agent : M _).
Proof. unfold addOrUpdateFinalizers. behaves_auto. Qed.
Lemma isOpenShift_behaves agent : behaves (isOpenShift agent : M _).
Proof. unfold isOpenShift, ClusterIsOpenShift, Exists, GetAsResult. behaves_auto. Qed.
Lemma shouldSetPersistHostUniqueIDEnvVar_behaves agent zone :
  behaves (shouldSetPersistHostUniqueIDEnvVar agent zone : M _).
Proof. unfold shouldSetPersistHostUniqueIDEnvVar. behaves_auto. Qed.
#[local] Hint Resolve handleDeletion_behaves addOrUpdateFinalizers_behaves isOpenShift_behaves
  shouldSetPersistHostUniqueIDEnvVar_behaves : behaves.

Lemma CreateDeploymentContext_behaves agent openShift :
  behaves (CreateDeploymentContext agent openShift : M _).
Proof.
  assert (Hg : ∀ name, behaves (GetServiceByName name : M _)) by (unfold GetServiceByName; behaves_auto).
  assert (Hl : ∀ name k v, behaves (GetServiceWithLabel name k v : M _))
    by (intros; unfold GetServiceWithLabel; behaves_auto; auto).
  unfold CreateDeploymentContext, setupOpenShiftETCDMonitoring, copyETCDResourcesToNamespace,
    cleanupCopiedETCDResources, Delete, DiscoverETCDEndpoints, ShouldSkipDiscovery, FindETCDService,
    BuildTargetsFromEndpoints, BuildTargetsFromLegacyEndpoints, CheckCASecretExists.
  cbn [firstService]. behaves_auto; auto.
Qed.
Lemma zoneSettings_behaves agent zones : behaves (zoneSettings agent zones : M _).
Proof. induction zones; simpl; behaves_auto; auto. Qed.
Lemma getDaemonSetBuilders_behaves agent openShift shouldSet :
  behaves (getDaemonSetBuilders agent openShift shouldSet : M _).
Proof. pose proof zoneSettings_behaves. unfold getDaemonSetBuilders. behaves_auto; auto. Qed.
#[local] Hint Resolve CreateDeploymentContext_behaves getDaemonSetBuilders_behaves : behaves.

Lemma AddAgentDaemonset_old key a : agentOld (AddAgentDaemonset key a) = agentOld a.
Proof. unfold AddAgentDaemonset. by destruct (GoList.Contains (agentDaemonsets a) key). Qed.
Lemma allBuilders_behave daemonSets agent openShift keysSecret backends details context b :
  b ∈ allBuilders (W:=W) daemonSets agent openShift keysSecret backends details context →
  behaves (Build b).
Proof.
  unfold allBuilders. rewrite !elem_of_app, !list_elem_of_fmap.
  intros [(d & -> & _)|[Hb|(d & -> & _)]].
  - unfold NewDaemonSetBuilder. cbn [Build]. behaves_auto; auto using AddAgentDaemonset_old.
  - unfold fixedBuilders in Hb. rewrite !elem_of_cons in Hb.
    repeat destruct Hb as [->|Hb]; [..|by apply elem_of_nil in Hb]; cbn [Build NewHeadlessServiceBuilder
      NewConfigBuilder NewContainerBuilder NewTLSSecretBuilder NewServiceBuilder NewClusterRoleBuilder
      NewClusterRoleBindingBuilder NewServiceAccountBuilder NewPodDisruptionBudgetBuilder
      NewSensorClusterRoleBuilder NewSensorClusterRoleBindingBuilder NewSensorRoleBuilder
      NewSensorRoleBindingBuilder NewSensorServiceAccountBuilder NewSensorConfigMapBuilder
      NewKeysSecretBuilder NewNamespacesConfigMapBuilder agentBuilder sensorBuilder];
      behaves_auto; done.
  - unfold NewDeploymentBuilder. cbn [Build]. by behaves_auto.
Qed.

Lemma applyResources_behaves agent agent' openShift shouldSet keysSecret backends details :
  behaves (applyResources agent openShift shouldSet (NewOperatorUtils agent') keysSecret backends
             details : M _).
Proof.
  unfold applyResources. behaves_auto. apply agent_ApplyAll_behaves. intros b. apply allBuilders_behave.
Qed.
#[local] Hint Resolve applyResources_behaves : behaves.
Lemma reconcileResources_behaves agent agent' openShift :
  behaves (reconcileResources agent (NewOperatorUtils agent') openShift : M _).
Proof. unfold reconcileResources, getKeysSecret, GetNamespacesWithLabels. behaves_auto. Qed.
#[local] Hint Resolve reconcileResources_behaves : behaves.

(** *** Reconcile *)

(** What runs once the custom resource was read. *)
Definition reconcileBody (agent : InstanaAgent) : M (ctrlResult * option error) :=
  ret ← reconcileAgent agent; lift (reconcileResult ret).

Lemma reconcileBody_ends agent s :
  fst (reconcileBody agent s) ≠ OutOfFuel ∧
  trace s `prefix_of` trace (snd (reconcileBody agent s)) ∧
  agentOld (local (snd (reconcileBody agent s))) = Some agent.
Proof.
  assert (Hb : behaves (ret ← (
    handleDeletionRes ← handleDeletion (NewOperatorUtils (Default agent)) (Default agent);
    if suppliesReconcileResult handleDeletionRes then mret handleDeletionRes
    else
      addFinalizerRes ← addOrUpdateFinalizers (Default agent);
      if suppliesReconcileResult addFinalizerRes then mret addFinalizerRes
      else
        r ← isOpenShift (Default agent);
        let '(openShift, isOpenShiftRes) := r in
        if suppliesReconcileResult isOpenShiftRes then mret isOpenShiftRes
        else reconcileResources (Default agent) (NewOperatorUtils (Default agent)) openShift);
    lift (reconcileResult ret) : M _)) by behaves_auto.
  destruct (Hb (MkSt (world s) (trace s) (SetAgentOld agent (local s)))) as [Ho [Ht Hl]].
  split; [exact Ho|]. split; [exact Ht|exact Hl].
Qed.
End Calls.

Section ReconcileRun.
Context {W : Type} `{ClockLaws W} `{ApiErrors} `{Env} `{MapRange} `{Yaml} `{DependentsCodec}.
Context `{Finalizers} `{HelmErrors} `{Debug} `{Semver} `{StatusConditionsLaws}.
Notation M := (M W agentStatusManager).

(** How the computation ends once the status manager has a custom resource. *)
Lemma agent_deferring_run (m : M (ctrlResult * option error)) s o s2 old :
  m s = (o, s2) → o ≠ OutOfFuel → agentOld (local s2) = Some old →
  ∃ res err s' t new w told, deferring UpdateAgentStatus m s = (Ret (res, err), s') ∧
    trace s' = trace s2 ++ t ++ [EWrite (RPatchAgentStatus new old) w] ∧
    Forall status_event t ∧ reports (local s2) old told t new ∧
    match o with
    | Ret (r, e) => res = r ∧ told = e ∧ (e ≠ None → err ≠ None) ∧
                    (err = None → reads_ok t ∧ IgnoreNotFound w = None)
    | _ => res = noRequeue ∧ told = None ∧ err ≠ None
    end.
Proof.
  intros E Hf Ho. destruct (deferring_run UpdateAgentStatus m s o s2 E Hf)
    as (res & err & s' & told & r & Ed & Eu & Hc).
  { intros e. destruct (UpdateAgentStatus_run e s2 old Ho) as (r & s' & _ & _ & _ & Er & _). eauto. }
  destruct (UpdateAgentStatus_run told s2 old Ho) as (r' & s'' & t & new & w & Er & _ & Ht & Hev & Hr & Hn).
  rewrite Eu in Er. injection Er as <- <-. exists res, err, s', t, new, w, told.
  split_and!; [done..|]. destruct o as [[r' e]|p|]; [|done..].
  destruct Hc as (? & ? & ? & Hok). split_and!; [done..|]. intros He. destruct (Hn (Hok He)) as (? & _ & ?).
  done.
Qed.

(** What [reconcile] does with the answer to its read of the custom resource. *)
Lemma reconcile_read key s :
  let '(r, w) := k8sGet KInstanaAgent key (world s) in
  let s1 := MkSt w (trace s ++ [EGet KInstanaAgent key r]) (local s) in
  (ret ← reconcile key; lift (reconcileResult ret)) s =
  match r with
  | inl agent => reconcileBody agent s1
  | inr e => (Ret (noRequeue, if IsNotFound (Some e) then None else Some e), s1)
  end.
Proof.
  unfold reconcile, getAgent, doGet, call. unfold mbind, M_bind.
  destruct (k8sGet KInstanaAgent key (world s)) as [[agent|e] w]; simpl; [done|].
  by destruct (IsNotFound (Some e)).
Qed.

Lemma deferring_no_agent (m : M (ctrlResult * option error)) s r e s2 :
  m s = (Ret (r, e), s2) → agentOld (local s2) = None → deferring UpdateAgentStatus m s = (Ret (r, e), s2).
Proof.
  intros E Ho. unfold deferring. rewrite E. unfold statusError, UpdateAgentStatus, catching, getLocal.
  unfold mbind, M_bind. simpl. rewrite Ho. reflexivity.
Qed.

(** What [Reconcile] tells the user and its caller about the run of
    [reconcileBody] on the custom resource [old]. *)
Definition told (old : InstanaAgent) (o : outcome (ctrlResult * option error))
    (s2 s' : St W agentStatusManager) (res : ctrlResult) (err : option error) : Prop :=
  ∃ t new w reconcileErr,
    trace s' = trace s2 ++ t ++ [EWrite (RPatchAgentStatus new old) w] ∧
    Forall status_event t ∧ reports (local s2) old reconcileErr t new ∧
    match o with
    | Ret (r, e) => res = r ∧ reconcileErr = e ∧ (e ≠ None → err ≠ None) ∧
                    (err = None → reads_ok t ∧ IgnoreNotFound w = None)
    | Panic _ => res = noRequeue ∧ reconcileErr = None ∧ err ≠ None
    | OutOfFuel => False
    end.

Lemma Reconcile_run key s :
  ∃ res err s' r1, Reconcile key s = (Ret (res, err), s') ∧
    let t1 := trace s ++ [EGet KInstanaAgent key r1] in
    if match r1 with inr e => IsNotFound (Some e) | inl _ => false end
    then trace s' = t1 ∧ res = noRequeue ∧ err = None
    else ∃ r2, let t2 := t1 ++ [EGet KInstanaAgent key r2] in
      match r2 with
      | inr e => trace s' = t2 ∧ res = noRequeue ∧ err = if IsNotFound (Some e) then None else Some e
      | inl old => ∃ s1 s2 o, trace s1 = t2 ∧ local s1 = NewAgentStatusManager ∧
          reconcileBody old s1 = (o, s2) ∧ t2 `prefix_of` trace s2 ∧ told old o s2 s' res err
      end.
Proof.
  unfold Reconcile, doGet, call. unfold mbind at 1, M_bind at 1.
  destruct (k8sGet KInstanaAgent key (world s)) as [r1 w1] eqn:E1.
  destruct (match r1 with inr e => IsNotFound (Some e) | inl _ => false end) eqn:En.
  { do 4 eexists. split; [reflexivity|]. by rewrite En. }
  unfold mbind at 1, M_bind at 1. unfold modifyLocal. cbn [world trace local].
  set (s0 := MkSt w1 _ NewAgentStatusManager). pose proof (reconcile_read key s0) as Hr.
  destruct (k8sGet KInstanaAgent key (world s0)) as [r2 w2].
  set (m := ret ← reconcile key; lift (reconcileResult ret)) in *.
  destruct r2 as [old|e].
  - set (s1 := MkSt w2 _ _) in Hr. destruct (reconcileBody_ends old s1) as (Hf & Hp & Ho).
    destruct (reconcileBody old s1) as [o s2] eqn:Eb. cbn [fst snd] in *.
    rewrite Eb in Hr. destruct (agent_deferring_run m s0 o s2 old Hr Hf Ho)
      as (res & err & s' & t & new & w & e & Ed & Ht & Hev & Hrep & Hcase).
    exists res, err, s', r1. split; [exact Ed|]. rewrite En. exists (inl old), s1, s2, o.
    split_and!; [done|done|done|exact Hp|]. exists t, new, w, e. split_and!; [done..|].
    destruct o as [[r e']|p|]; [..|done]; done.
  - exists noRequeue, (if IsNotFound (Some e) then None else Some e). do 2 eexists.
    split; [by apply (deferring_no_agent m)|]. cbn zeta. rewrite En. by exists (inr e).
Qed.
End ReconcileRun.

(** ** Properties *)

Definition managed_agent : InstanaAgent :=
  example_agent <| agent_Meta ::= fun m => m <| om_Finalizers := [finalizerV3] |> |>.
Definition agent_cluster : cluster := empty_cluster <| c_agent := Some managed_agent |>.
Definition agent_key : ObjectKey := Key "ns" "agent".
Definition agent_start : St cluster agentStatusManager := start agent_cluster NewAgentStatusManager.

(** C12: [Reconcile] always returns: whatever the cluster answers, no loop runs
    for ever and no panic escapes. *)
Theorem Reconcile_returns {W} `{ClockLaws W} `{ApiErrors} `{Env} `{MapRange} `{Yaml}
    `{DependentsCodec} `{Finalizers} `{HelmErrors} `{Debug} `{Semver} `{StatusConditionsLaws}
    key (s : St W agentStatusManager) :
  ∃ res err s', Reconcile key s = (Ret (res, err), s') ∧ trace s `prefix_of` trace s'.
Proof.
  destruct (Reconcile_run key s) as (res & err & s' & r1 & E & Hc). exists res, err, s'.
  split; [done|]. cbn zeta in Hc. revert Hc. case_match.
  - intros (-> & _). by eexists.
  - intros [[old|e] Hc]; cbn zeta in Hc.
    + destruct Hc as (s1 & s2 & o & _ & _ & _ & Hp & t & new & w & e & -> & _).
      apply prefix_app_r. etrans; [|exact Hp]. rewrite <- app_assoc. by eexists.
    + destruct Hc as (-> & _). rewrite <- app_assoc. by eexists.
Qed.

Lemma Reconcile_returns_witness :
  ∃ res err s', Reconcile agent_key agent_start = (Ret (res, err), s') ∧
    trace agent_start `prefix_of` trace s'.
Proof. exact (Reconcile_returns agent_key agent_start). Defined.

Definition resource_read (key : ObjectKey) (ev : event) : Prop := ∃ r, ev = EGet KInstanaAgent key r.

(** C1: what [Reconcile] reports.  Either it read the custom resource, ran its
    body on it and then wrote its status once, at the very end: the status
    tells the error of the body, which is never dropped from the result, and
    nil is returned only when the body, every read of the update and the patch
    worked; but after a panic, which is returned as an error, the status tells
    a success.  Or it only tried to read the resource, and nil means that it
    does not exist. *)
Theorem Reconcile_reports {W} `{ClockLaws W} `{ApiErrors} `{Env} `{MapRange} `{Yaml}
    `{DependentsCodec} `{Finalizers} `{HelmErrors} `{Debug} `{Semver} `{StatusConditionsLaws}
    key (s : St W agentStatusManager) res err s' :
  Reconcile key s = (Ret (res, err), s') →
  (∃ old o s1 s2, local s1 = NewAgentStatusManager ∧ EGet KInstanaAgent key (inl old) ∈ trace s1 ∧
     reconcileBody old s1 = (o, s2) ∧ trace s1 `prefix_of` trace s2 ∧ told old o s2 s' res err) ∨
  (∃ t, trace s' = trace s ++ t ∧ Forall (resource_read key) t ∧
     (err = None → ∃ e, EGet KInstanaAgent key (inr e) ∈ t ∧ IsNotFound (Some e) = true)).
Proof.
  intros E. destruct (Reconcile_run key s) as (res' & err' & s'' & r1 & E' & Hc).
  rewrite E in E'. injection E' as <- <- <-. cbn zeta in Hc. revert Hc. case_match eqn:En.
  - intros (-> & -> & ->). right. destruct r1 as [?|e]; [done|]. eexists. split; [done|].
    split; [by repeat constructor; eexists|]. intros _. exists e. split; [by left|done].
  - intros [[old|e] Hc]; cbn zeta in Hc.
    + destruct Hc as (s1 & s2 & o & Ht & Hl & Hb & Hp & Htold). left. exists old, o, s1, s2.
      rewrite Ht in *. split_and!; [done|set_solver|done|done|done].
    + destruct Hc as (-> & -> & ->). right. exists [EGet KInstanaAgent key r1; EGet KInstanaAgent key (inr e)].
      rewrite <- app_assoc. split; [done|]. split; [repeat constructor; by eexists|].
      destruct (IsNotFound (Some e)) eqn:Ee; [|done]. intros _. exists e. split; [set_solver|done].
Qed.

Lemma Reconcile_reports_witness :
  match Reconcile agent_key agent_start with
  | (Ret (res, err), s') =>
      (∃ old o s1 s2, local s1 = NewAgentStatusManager ∧
         EGet KInstanaAgent agent_key (inl old) ∈ trace s1 ∧
         reconcileBody old s1 = (o, s2) ∧ trace s1 `prefix_of` trace s2 ∧ told old o s2 s' res err) ∨
      (∃ t, trace s' = trace agent_start ++ t ∧ Forall (resource_read agent_key) t ∧
         (err = None → ∃ e, EGet KInstanaAgent agent_key (inr e) ∈ t ∧ IsNotFound (Some e) = true))
  | _ => False
  end.
Proof.
  assert (Hr : match fst (Reconcile agent_key agent_start) with Ret _ => true | _ => false end = true)
    by (vm_compute; reflexivity).
  destruct (Reconcile agent_key agent_start) as [[[res err]|p|] s'] eqn:E;
    [|discriminate Hr|discriminate Hr].
  exact (Reconcile_reports agent_key agent_start res err s' E).
Defined.
