(* ===== verification/Resources.v ===== *)
(** * The objects a custom resource asks for

    Every builder makes its object whatever the cluster holds, for a custom
    resource with defaults; the objects have distinct identities, so none is
    applied over another; and [applyResources] applies them as [ApplyAll]
    specifies. *)
From S2P Require Import Prelude GoStd Errors K8sTypes ApiTypes Effects Cluster Client.
From S2P Require Import Transformations Lifecycle OperatorUtils StatusHelpers Status Helpers Reconcile Etcd.
From S2P Require Import VolumeBuilder Secrets AgentObjects SensorObjects DaemonSet K8sDeployment.
From S2P Require Import EnvBuilder Controllers.

(** What the API server tells objects apart by. *)
Definition identity (o : object) : GroupVersionKind * ObjectKey := (object_gvk o, object_key o).
(** The object says of which kind it is; only a config map may not. *)
Definition typed (o : object) : Prop :=
  match o with OConfigMap cm => cm_Kind cm = "ConfigMap" | _ => True end.

Lemma identity_map_meta f o :
  om_Name (f (object_meta o)) = om_Name (object_meta o) →
  om_Namespace (f (object_meta o)) = om_Namespace (object_meta o) →
  identity (map_meta f o) = identity o.
Proof.
  intros. unfold identity, object_key, object_name, object_namespace.
  destruct o; simpl in *; congruence.
Qed.
Lemma identity_transform `{Env} t component namespaced o :
  identity (transform t component namespaced o) = identity o.
Proof.
  unfold transform, AddOwnerReference, AddCommonLabels.
  destruct namespaced; by rewrite !identity_map_meta.
Qed.

(** ** What a builder makes *)
Section Made.
Context {W X : Type} `{K8sApi W} `{ApiErrors} `{Env}.
Notation Builder := (ObjectBuilder W X).

(** The builder makes an object of this identity, or none, in every state. *)
Definition makes (b : Builder) (k : GroupVersionKind * ObjectKey) : Prop :=
  ∃ v, Builds b v ∧ ∀ o, v = Some o → identity o = k.

Lemma makes_ret (v : option object) b k :
  Build b = mret v → (∀ o, v = Some o → identity o = k) → makes b k.
Proof.
  intros Hb Hk. exists v. split; [|done]. intros [w t x]. rewrite Hb. by exists x.
Qed.

(** A builder that computes its object, which may panic but does not here. *)
Lemma makes_lift {A} (r : or_panic A) (f : A → object) (b : Builder) k :
  (∀ a s, r = Value a → ∃ x, Build b s = (Ret (Some (f a)), MkSt (world s) (trace s) x)) →
  (∃ a, r = Value a) → (∀ a, r = Value a → identity (f a) = k) → makes b k.
Proof.
  intros Hb (a & Ha) Hk. exists (Some (f a)). split; [intros s; by apply Hb|].
  intros o [= <-]. by apply Hk.
Qed.
Lemma makes_all o bs ks :
  Forall2 makes bs ks →
  ∃ vs, Forall2 Builds bs vs ∧ identity <$> transformedAll o bs vs `sublist_of` ks.
Proof.
  induction 1 as [|b k bs ks (v & Hv & Hk) _ (vs & Hvs & Hs)]; [by exists []|].
  exists (v :: vs). split; [by constructor|]. unfold transformedAll. cbn [zip_with omap list_omap].
  destruct v as [obj|]; cbn; [|by apply sublist_cons].
  rewrite identity_transform, (Hk obj eq_refl). by apply sublist_skip.
Qed.

End Made.

Section Builders.
Context {W : Type} `{K8sApi W} `{ApiErrors} `{Env} `{MapRange} `{Yaml}.
Notation Builder := (ObjectBuilder W agentStatusManager).
#[local] Notation makes := (makes (W:=W) (X:=agentStatusManager)).

(** *** Identities of the objects, in the order of the builders *)
Section Identities.
Context (agent : InstanaAgent).
Let namespaced (group version kind name : string) : GroupVersionKind * ObjectKey :=
  (GVK group version kind, Key (agent_Namespace agent) (agent_Name agent +++ name)).
Let rbac (kind namespace name : string) : GroupVersionKind * ObjectKey :=
  (GVK rbacApiGroup "v1" kind, Key namespace name).

Definition fixedIdentities : list (GroupVersionKind * ObjectKey) :=
  [namespaced "" "v1" "Service" "-headless";
   namespaced "" "v1" "Secret" "-config";
   namespaced "" "v1" "Secret" "-containers-instana-io";
   namespaced "" "v1" "Secret" "-tls";
   namespaced "" "v1" "Service" "";
   rbac "ClusterRole" "" (ServiceAccountName agent);
   rbac "ClusterRoleBinding" "" (ServiceAccountName agent);
   (GVK "" "v1" "ServiceAccount", Key (agent_Namespace agent) (ServiceAccountName agent));
   namespaced "policy" "v1" "PodDisruptionBudget" "-k8sensor";
   rbac "ClusterRole" "" (K8sSensorResourcesName agent);
   rbac "ClusterRoleBinding" "" (K8sSensorResourcesName agent);
   rbac "Role" "kube-system" (etcdReaderName agent);
   rbac "RoleBinding" "kube-system" (etcdReaderName agent);
   (GVK "" "v1" "ServiceAccount", Key (agent_Namespace agent) (K8sSensorResourcesName agent));
   namespaced "" "v1" "ConfigMap" "-k8sensor";
   namespaced "" "v1" "Secret" "";
   namespaced "" "v1" "ConfigMap" "-namespaces"].
Definition daemonSetIdentity (d : daemonSetBuilder) : GroupVersionKind * ObjectKey :=
  (GVK "apps" "v1" "DaemonSet", ds_key d).
Definition deploymentIdentity (d : deploymentBuilder) : GroupVersionKind * ObjectKey :=
  (GVK "apps" "v1" "Deployment", db_key d).
End Identities.

Lemma NewDaemonSetBuilder_makes d a :
  dsb_agent d = Default a → makes (NewDaemonSetBuilder d) (daemonSetIdentity d).
Proof.
  intros Ha. assert (Hd : ∀ s : St W agentStatusManager, _) by (intros s; exact (NewDaemonSetBuilder_Build d a s Ha)).
  destruct (ds_isIncomplete d).
  - exists None. split; [|done]. intros [w t x]. exists x. apply Hd.
  - destruct (buildDaemonSet_returns d a Ha) as (ds & _ & _ & E & _ & Hm & _).
    exists (Some (ODaemonSet ds)). split.
    + intros s. destruct (Hd s) as (ds' & E' & ->). rewrite E in E'. injection E' as <-. by eexists.
    + intros o [= <-]. unfold identity, object_key, object_name, object_namespace, daemonSetIdentity, ds_key.
      cbn [object_gvk object_meta]. by rewrite Hm, Ha.
Qed.
Lemma NewDeploymentBuilder_makes d : makes (NewDeploymentBuilder d) (deploymentIdentity d).
Proof.
  pose proof (NewDeploymentBuilder_Build (W:=W) d) as Hd. destruct (db_isOmitted d).
  - exists None. split; [|done]. intros [w t x]. exists x. apply Hd.
  - destruct (buildDeployment_returns d) as (envs & _ & E).
    eexists (Some (ODeployment _)). split.
    + intros s. destruct (Hd s) as (dpl & E' & ->). rewrite E in E'. injection E' as <-. by eexists.
    + intros o [= <-]. done.
Qed.

Lemma backendConfig_from_returns agent s i bs config :
  ∃ c, backendConfig_from agent (Some s) i bs config = Value c.
Proof. revert i config. induction bs as [|b bs IH]; intros i config; simpl; [by eexists|apply IH]. Qed.

Ltac run_builder :=
  intros ? [w t l] Hr; cbn [Build NewHeadlessServiceBuilder NewConfigBuilder NewNamespacesConfigMapBuilder];
  rewrite Hr; by eexists.

Lemma GetServicePorts_returns a :
  ∃ ports, GetServicePorts (spec_OpenTelemetry (agent_Spec (Default a))) = Value ports.
Proof. unfold GetServicePorts. rewrite getPorts_after_Default. by eexists. Qed.

Lemma NewHeadlessServiceBuilder_makes a :
  makes (NewHeadlessServiceBuilder (Default a))
    (GVK "" "v1" "Service", Key (agent_Namespace (Default a)) (agent_Name (Default a) +++ "-headless")).
Proof.
  apply (makes_lift (buildHeadlessService (Default a)) OService); [run_builder| |].
  - unfold buildHeadlessService. destruct (GetServicePorts_returns a) as [ports ->]. by eexists.
  - intros svc. unfold buildHeadlessService. destruct (GetServicePorts_returns a) as [ports ->].
    by intros [= <-].
Qed.
Lemma NewServiceBuilder_makes a :
  makes (NewServiceBuilder (Default a))
    (GVK "" "v1" "Service", Key (agent_Namespace (Default a)) (agent_Name (Default a) +++ "")).
Proof.
  assert (Hs : ∃ svc, buildService (Default a) = Value svc ∧ identity (OService svc) =
    (GVK "" "v1" "Service", Key (agent_Namespace (Default a)) (agent_Name (Default a) +++ ""))).
  { unfold buildService. destruct (GetServicePorts_returns a) as [ports ->].
    eexists. split; [reflexivity|]. rewrite string_app_nil_r. done. }
  destruct Hs as (svc & Hb & Hi).
  assert (Hn : ∃ b, serviceIsNeeded (Default a) = Value b).
  { assert (Ho : ∃ b, ot_Enabled (spec_OpenTelemetry (agent_Spec (Default a))) = Some b).
    { unfold Default. cbn. destruct (ot_Enabled (spec_OpenTelemetry (agent_Spec a))); by eexists. }
    destruct Ho as [b Ho]. unfold serviceIsNeeded. rewrite Ho.
    repeat case_match; by eexists. }
  destruct Hn as [b Hn]. exists (if b then Some (OService svc) else None). split.
  - intros [w t x]. unfold NewServiceBuilder. cbn [Build]. rewrite Hn, Hb. exists x. by destruct b.
  - intros o. by destruct b; [intros [= <-]|].
Qed.
Lemma NewConfigBuilder_makes agent s backends :
  makes (NewConfigBuilder agent (Some s) backends)
    (GVK "" "v1" "Secret", Key (agent_Namespace agent) (agent_Name agent +++ "-config")).
Proof.
  apply (makes_lift (configData agent (Some s) backends)
    (fun data => OSecret (newSecret (agent_Name agent +++ "-config") (agent_Namespace agent)
                            SecretTypeOpaque data))); [run_builder| |done].
  unfold configData, backendConfig. destruct (backendConfig_from_returns agent s 0 backends ∅) as [c ->].
  by eexists.
Qed.
Lemma NewNamespacesConfigMapBuilder_makes agent details :
  snd (yaml_Marshal (YNamespacesDetails details)) = None →
  makes (NewNamespacesConfigMapBuilder agent details)
    (GVK "" "v1" "ConfigMap", Key (agent_Namespace agent) (agent_Name agent +++ "-namespaces")).
Proof.
  intros Hy. apply (makes_lift (namespacesData details)
    (fun data => OConfigMap {| cm_Meta := NewObjectMeta (agent_Name agent +++ "-namespaces")
                                            (agent_Namespace agent);
                               cm_Kind := "ConfigMap"; cm_Data := Some data |}));
    [run_builder| |done].
  unfold namespacesData, yamlOrDie. destruct (yaml_Marshal _) as [text err]. simpl in Hy. subst.
  by eexists.
Qed.

(** The other builders make a fixed object, or none. *)
Ltac makes_fixed :=
  eapply makes_ret; [reflexivity|]; intros ? Hsome;
  repeat match type of Hsome with context [if ?b then _ else _] => destruct b end;
  try discriminate Hsome; injection Hsome as <-; rewrite ?string_app_nil_r; reflexivity.

Lemma NewContainerBuilder_makes agent s :
  makes (NewContainerBuilder agent s)
    (GVK "" "v1" "Secret", Key (agent_Namespace agent) (agent_Name agent +++ "-containers-instana-io")).
Proof.
  eapply makes_ret; [reflexivity|]. intros o. unfold buildContainerSecret.
  destruct (UseContainersSecret agent); [|done]. destruct (downloadKey agent s); [|done].
  by intros [= <-].
Qed.
Lemma NewTLSSecretBuilder_makes agent :
  makes (NewTLSSecretBuilder agent)
    (GVK "" "v1" "Secret", Key (agent_Namespace agent) (agent_Name agent +++ "-tls")).
Proof.
  eapply makes_ret; [reflexivity|]. intros o.
  destruct (String.eqb_spec (tls_SecretName (ag_Tls (spec_Agent (agent_Spec agent)))) "") as [E|]; [|done].
  case_match; [|done]. intros [= <-]. unfold identity, object_key, object_name, object_namespace.
  simpl. unfold TLSSecretName, tlsSecretName. rewrite E. reflexivity.
Qed.

Lemma fixedBuilders_make a keysSecret backends details :
  snd (yaml_Marshal (YNamespacesDetails details)) = None →
  Forall2 makes (fixedBuilders (Default a) keysSecret backends details) (fixedIdentities (Default a)).
Proof.
  intros Hy. unfold fixedBuilders, fixedIdentities. cbv zeta.
  repeat constructor; try (by makes_fixed).
  - apply NewHeadlessServiceBuilder_makes.
  - apply NewConfigBuilder_makes.
  - apply NewContainerBuilder_makes.
  - apply NewTLSSecretBuilder_makes.
  - apply NewServiceBuilder_makes.
  - by apply NewNamespacesConfigMapBuilder_makes.
Qed.

(** *** All builders of a reconciliation *)
Lemma fixedIdentities_kinds agent :
  Forall (fun k => gvk_Kind (fst k) ≠ "DaemonSet" ∧ gvk_Kind (fst k) ≠ "Deployment")
    (fixedIdentities agent).
Proof. repeat constructor; discriminate. Qed.

Lemma fixedIdentities_NoDup agent :
  ServiceAccountName agent ≠ K8sSensorResourcesName agent → NoDup (fixedIdentities agent).
Proof.
  intros Hsa. unfold fixedIdentities. cbv zeta.
  repeat (apply NoDup_cons; split); [..|apply NoDup_nil_2];
    rewrite ?not_elem_of_cons; split_and?; try (by apply not_elem_of_nil);
    intros E; injection E; try discriminate; try congruence;
    intros; match goal with E : _ +++ _ = _ +++ _ |- _ => apply string_app_inj_l in E; discriminate E end.
Qed.

Lemma deploymentIdentities_NoDup agent openShift keysSecret context :
  NoDup (deploymentIdentity <$>
    getK8sSensorDeployments agent openShift (getK8SensorBackends agent) keysSecret context).
Proof.
  apply NoDup_alt. intros i j k. unfold getK8sSensorDeployments. rewrite !list_lookup_fmap.
  intros (d & (b & Hb & ->)%fmap_Some & ->)%fmap_Some (d' & (b' & Hb' & ->)%fmap_Some & E)%fmap_Some.
  unfold deploymentIdentity, db_key, db_Name in E. cbn in E. injection E as E.
  apply string_app_inj_l in E. eapply sensorBackends_suffix_inj; [exact Hb|exact Hb'|done].
Qed.

(** The daemon sets of the zones. *)
Lemma daemonSetIdentities_NoDup agent openShift zones settings :
  NoDup (zone_Name <$> zones) →
  NoDup (daemonSetIdentity <$>
    zip_with (fun zone => daemonSetBuilderOf agent openShift (Some zone)) zones settings).
Proof.
  intros Hz. apply NoDup_alt. intros i j k. rewrite !list_lookup_fmap.
  intros (d & Hd & ->)%fmap_Some (d' & Hd' & E)%fmap_Some.
  apply lookup_zip_with_Some in Hd as (z & b & -> & Hi & _), Hd' as (z' & b' & -> & Hj & _).
  unfold daemonSetIdentity, ds_key, ds_getName in E. cbn in E. injection E as E.
  apply string_app_inj_l, (string_app_inj_l "-") in E. rewrite NoDup_alt in Hz.
  eapply Hz; rewrite list_lookup_fmap; [by rewrite Hi|rewrite Hj; simpl; by rewrite E].
Qed.

Lemma getDaemonSetBuilders_result agent openShift shouldSet (s : St W agentStatusManager) ds res s' :
  getDaemonSetBuilders agent openShift shouldSet s = (Ret (ds, res), s') →
  Forall (fun d => dsb_agent d = agent) ds ∧
  (NoDup (zone_Name <$> spec_Zones (agent_Spec agent)) → NoDup (daemonSetIdentity <$> ds)).
Proof.
  unfold getDaemonSetBuilders. destruct (spec_Zones (agent_Spec agent)) as [|z zs] eqn:Ez.
  { intros [= <- <- <-]. split; [by repeat constructor|]. intros _. apply NoDup_singleton. }
  rewrite <- Ez. clear Ez. unfold mbind, M_bind.
  destruct (zoneSettings _ _ s) as [[[settings|res']|p|] s1]; intros [= <- <- <-];
    [|by split; [constructor|intros _; constructor]].
  split; [|apply daemonSetIdentities_NoDup].
  apply Forall_forall. intros d Hd%list_elem_of_lookup. destruct Hd as [i Hd].
  by apply lookup_zip_with_Some in Hd as (z' & b & -> & _).
Qed.

Lemma allBuilders_make a ds openShift keysSecret details context :
  snd (yaml_Marshal (YNamespacesDetails details)) = None →
  Forall (fun d => dsb_agent d = Default a) ds →
  Forall2 makes
    (allBuilders ds (Default a) openShift keysSecret (getK8SensorBackends (Default a)) details context)
    ((daemonSetIdentity <$> ds) ++ fixedIdentities (Default a) ++ (deploymentIdentity <$>
       getK8sSensorDeployments (Default a) openShift (getK8SensorBackends (Default a)) keysSecret context)).
Proof.
  intros Hy Hds. unfold allBuilders. apply Forall2_app; [|apply Forall2_app].
  - induction Hds as [|d ds Hd _ IH]; [constructor|]. simpl.
    constructor; [by eapply NewDaemonSetBuilder_makes|done].
  - by apply fixedBuilders_make.
  - induction (getK8sSensorDeployments _ _ _ _ _); simpl; constructor; [apply NewDeploymentBuilder_makes|done].
Qed.

Lemma allIdentities_NoDup agent ds openShift keysSecret context :
  NoDup (daemonSetIdentity <$> ds) → ServiceAccountName agent ≠ K8sSensorResourcesName agent →
  NoDup ((daemonSetIdentity <$> ds) ++ fixedIdentities agent ++ (deploymentIdentity <$>
     getK8sSensorDeployments agent openShift (getK8SensorBackends agent) keysSecret context)).
Proof.
  intros Hds Hsa. pose proof (fixedIdentities_kinds agent) as Hk. rewrite Forall_forall in Hk.
  rewrite !NoDup_app. split_and!; [done| |by apply fixedIdentities_NoDup| |apply deploymentIdentities_NoDup].
  - intros k (d & -> & _)%list_elem_of_fmap. rewrite not_elem_of_app. split.
    + intros Hf%Hk. by destruct Hf.
    + intros (d' & E & _)%list_elem_of_fmap. discriminate E.
  - intros k Hf%Hk (d' & -> & _)%list_elem_of_fmap. by destruct Hf.
Qed.
End Builders.

(** ** Computations that never panic *)
Section Returns.
Context {W X : Type}.
Definition returns {A} (m : M W X A) : Prop := ∀ s, ∃ a s', m s = (Ret a, s').

Lemma returns_ret {A} (a : A) : returns (mret a).
Proof. intros s. by eexists _, _. Qed.
Lemma returns_bind {A B} (m : M W X A) (k : A → M W X B) :
  returns m → (∀ a, returns (k a)) → returns (m ≫= k).
Proof. intros Hm Hk s. destruct (Hm s) as (a & s' & E). rewrite (bind_Ret _ _ _ _ _ E). apply Hk. Qed.
Lemma returns_call {A} (f : W → A * W) ev : returns (call f ev).
Proof. intros s. unfold call. destruct (f (world s)). by eexists _, _. Qed.
End Returns.

Ltac returns_auto :=
  repeat (intros; lazymatch goal with
  | |- returns (mret _) => apply returns_ret
  | |- returns (mbind _ _) => apply returns_bind
  | |- returns (call _ _) => apply returns_call
  | |- returns (doGet _ _) => apply returns_call
  | |- returns (doWrite _) => apply returns_call
  | |- returns (match ?x with _ => _ end) => destruct x
  | |- returns (let '_ := ?x in _) => destruct x
  | |- returns _ => solve [eauto]
  end).

Section Preparation.
Context {W : Type} `{K8sApi W} `{ApiErrors}.
Notation M := (M W agentStatusManager).

Lemma CreateDeploymentContext_returns `{Env} agent openShift :
  returns (CreateDeploymentContext agent openShift : M _).
Proof.
  assert (Hg : ∀ name, returns (GetServiceByName name : M _)) by (unfold GetServiceByName; returns_auto).
  assert (Hl : ∀ name k v, returns (GetServiceWithLabel name k v : M _))
    by (intros; unfold GetServiceWithLabel; returns_auto).
  unfold CreateDeploymentContext, setupOpenShiftETCDMonitoring, copyETCDResourcesToNamespace,
    cleanupCopiedETCDResources, Apply, Delete, DiscoverETCDEndpoints, ShouldSkipDiscovery, isOpenShift,
    ClusterIsOpenShift, Exists, GetAsResult, FindETCDService,
    BuildTargetsFromEndpoints, BuildTargetsFromLegacyEndpoints, CheckCASecretExists.
  cbn [firstService]. returns_auto.
Qed.
Lemma getDaemonSetBuilders_returns agent openShift shouldSet :
  returns (getDaemonSetBuilders agent openShift shouldSet : M _).
Proof.
  assert (Hz : ∀ zones, returns (zoneSettings agent zones : M _)).
  { intros zones. induction zones; simpl; unfold shouldSetPersistHostUniqueIDEnvVar; returns_auto. }
  unfold getDaemonSetBuilders. returns_auto.
Qed.
End Preparation.

(** ** Properties *)

(** Two zones of one name ask for the same daemon set. *)
Example zones_collide :
  let zone mode := {| zone_Name := "a"; zone_Tolerations := []; zone_Affinity := GoStd.zero; zone_Mode := mode |} in
  let agent := example_agent <| agent_Spec ::= fun s => s <| spec_Zones := [zone "APM"; zone "KUBERNETES"] |> |> in
  match getDaemonSetBuilders (Default agent) false false (start empty_cluster NewAgentStatusManager) with
  | (Ret (ds, _), _) =>
      daemonSetIdentity <$> ds = replicate 2 (GVK "apps" "v1" "DaemonSet", Key "ns" "agent-a")
  | _ => False
  end.
Proof. vm_compute. reflexivity. Qed.

(** C8: the objects a defaulted custom resource asks for have distinct
    identities (group, kind, namespace and name), so that none is applied over
    another, when the agent's service account is not named like the sensor's
    resources and its zones have distinct names. *)
Theorem applied_objects_distinct {W} `{K8sApi W} `{ApiErrors} `{Env} `{MapRange} `{Yaml} `{DependentsCodec}
    a openShift shouldSet keysSecret details context (s : St W agentStatusManager) ds res s' :
  let agent := Default a in
  let builders := allBuilders ds agent openShift keysSecret (getK8SensorBackends agent) details context in
  getDaemonSetBuilders agent openShift shouldSet s = (Ret (ds, res), s') →
  snd (yaml_Marshal (YNamespacesDetails details)) = None →
  ServiceAccountName agent ≠ K8sSensorResourcesName agent →
  NoDup (zone_Name <$> spec_Zones (agent_Spec agent)) →
  ∃ vs, Forall2 Builds builders vs ∧
    NoDup (identity <$> transformedAll (NewOperatorUtils agent) builders vs).
Proof.
  intros agent builders [Ha Hd]%getDaemonSetBuilders_result Hy Hsa Hz.
  destruct (makes_all (NewOperatorUtils agent) builders _
              (allBuilders_make a ds openShift keysSecret details context Hy Ha)) as (vs & Hvs & Hsub).
  exists vs. split; [done|]. eapply sublist_NoDup; [|exact Hsub]. by apply allIdentities_NoDup; [apply Hd|].
Qed.

Definition zoned_agent : InstanaAgent :=
  example_agent <| agent_Spec ::= fun s => s <| spec_Zones :=
    [{| zone_Name := "a"; zone_Tolerations := []; zone_Affinity := GoStd.zero; zone_Mode := "APM" |};
     {| zone_Name := "b"; zone_Tolerations := []; zone_Affinity := GoStd.zero; zone_Mode := "APM" |}] |> |>.
Definition resources_start : St cluster agentStatusManager := start empty_cluster NewAgentStatusManager.
Definition zoned_builders : list daemonSetBuilder :=
  match getDaemonSetBuilders (Default zoned_agent) false false resources_start with
  | (Ret (ds, _), _) => ds
  | _ => []
  end.

Lemma applied_objects_distinct_witness :
  length zoned_builders = 2%nat ∧
  ∃ vs, Forall2 Builds
      (allBuilders (W:=cluster) zoned_builders (Default zoned_agent) false zero_Secret
         (getK8SensorBackends (Default zoned_agent)) zero_NamespacesDetails None) vs ∧
    NoDup (identity <$> transformedAll (NewOperatorUtils (Default zoned_agent))
      (allBuilders zoned_builders (Default zoned_agent) false zero_Secret
         (getK8SensorBackends (Default zoned_agent)) zero_NamespacesDetails None) vs).
Proof.
  split; [vm_compute; reflexivity|].
  assert (E : ∃ res s', getDaemonSetBuilders (Default zoned_agent) false false resources_start =
    (Ret (zoned_builders, res), s')).
  { destruct (getDaemonSetBuilders_returns (Default zoned_agent) false false resources_start)
      as ([ds res] & s' & E).
    exists res, s'. unfold zoned_builders. by rewrite E. }
  destruct E as (res & s' & E).
  apply (applied_objects_distinct zoned_agent false false zero_Secret zero_NamespacesDetails None
           resources_start zoned_builders res s' E).
  - reflexivity.
  - vm_compute. discriminate 1.
  - change (NoDup ["a"; "b"]). apply (bool_decide_eq_true (NoDup ["a"; "b"])). reflexivity.
Defined.

(** C18: [applyResources] never fails by a panic: it prepares the deployment's
    context and the daemon sets, stops with the result of a question it could
    not answer, and otherwise runs the phases of [apply_run] on the objects of
    the custom resource: dry run, registration in the config map
    <name>-dependents, application, clean-up.  It reports what the phase it
    stopped in reports, and goes on with the reconciliation when that is nil. *)
Theorem applyResources_applies {W} `{ClockLaws W} `{ApiErrors} `{Env} `{MapRangeLaws} `{Yaml}
    `{DependentsCodec} a openShift shouldSet keysSecret details (s : St W agentStatusManager) :
  let agent := Default a in
  let backends := getK8SensorBackends agent in
  let o := NewOperatorUtils agent in
  snd (yaml_Marshal (YNamespacesDetails details)) = None →
  ∃ context s1 ds res s2 r s',
    CreateDeploymentContext agent openShift s = (Ret context, s1) ∧
    getDaemonSetBuilders agent openShift shouldSet s1 = (Ret (ds, res), s2) ∧
    applyResources agent openShift shouldSet o keysSecret backends details s = (Ret r, s') ∧
    if suppliesReconcileResult res then r = res ∧ s' = s2
    else
      let builders := allBuilders ds agent openShift keysSecret backends details context in
      ∃ vs err t, Forall2 Builds builders vs ∧ trace s' = trace s2 ++ t ∧
        apply_run (record_key (NewDependentLifecycleManager agent)) (transformedAll o builders vs) err t ∧
        r = match err with Some _ => reconcileFailure err | None => reconcileContinue end.
Proof.
  intros agent backends o Hy.
  destruct (CreateDeploymentContext_returns agent openShift s) as (context & s1 & Ec).
  destruct (getDaemonSetBuilders_returns agent openShift shouldSet s1) as ([ds res] & s2 & Ed).
  exists context, s1, ds, res, s2. unfold applyResources.
  rewrite (bind_Ret _ _ _ _ _ Ec), (bind_Ret _ _ _ _ _ Ed).
  destruct (suppliesReconcileResult res); [by exists res, s2|].
  set (builders := allBuilders ds agent openShift keysSecret backends details context).
  destruct (getDaemonSetBuilders_result _ _ _ _ _ _ _ Ed) as [Ha _].
  destruct (makes_all o builders _ (allBuilders_make a ds openShift keysSecret details context Hy Ha))
    as (vs & Hvs & _).
  destruct (ApplyAll_runs o builders vs Hvs s2) as (err & s' & E & _).
  destruct (emits_run _ _ _ _ _ (ApplyAll_emits o builders vs Hvs) E) as (t & Ht & Hr).
  rewrite (bind_Ret _ _ _ _ _ E). do 2 eexists. split_and!; [done..|]. by exists vs, err, t.
Qed.

Lemma applyResources_applies_witness :
  ∃ context s1 ds res s2 r s',
    CreateDeploymentContext (Default example_agent) false resources_start = (Ret context, s1) ∧
    getDaemonSetBuilders (Default example_agent) false true s1 = (Ret (ds, res), s2) ∧
    applyResources (Default example_agent) false true (NewOperatorUtils (Default example_agent))
      zero_Secret (getK8SensorBackends (Default example_agent)) zero_NamespacesDetails
      resources_start = (Ret r, s') ∧
    if suppliesReconcileResult res then r = res ∧ s' = s2
    else
      let builders := allBuilders ds (Default example_agent) false zero_Secret
                        (getK8SensorBackends (Default example_agent)) zero_NamespacesDetails context in
      ∃ vs err t, Forall2 Builds builders vs ∧ trace s' = trace s2 ++ t ∧
        apply_run (Key "ns" "agent-dependents") (transformedAll (NewOperatorUtils (Default example_agent)) builders vs) err t ∧
        r = match err with Some _ => reconcileFailure err | None => reconcileContinue end.
Proof.
  apply (applyResources_applies example_agent false true zero_Secret zero_NamespacesDetails resources_start).
  reflexivity.
Defined.
