(* ===== verification/RemoteStatus.v ===== *)
(** * The status of a remote agent: remote_agent_status_manager.go

    As the agent's status manager, with deployments in place of daemon sets,
    two conditions, and a patch whose every error is reported. *)
From S2P Require Import Prelude GoStd Errors K8sTypes ApiTypes Effects Cluster Client.
From S2P Require Import Transformations StatusHelpers.

Record instanaAgentRemoteStatusManager := {
  remote_agentOld : option InstanaAgentRemote;
  remote_agentDeployments : list ObjectKey;
  remote_agentSecretConfig : ObjectKey }.
#[export] Instance eta_instanaAgentRemoteStatusManager : Settable instanaAgentRemoteStatusManager :=
  fun a => Build_instanaAgentRemoteStatusManager (remote_agentOld a) (remote_agentDeployments a)
             (remote_agentSecretConfig a).
Definition NewInstanaAgentRemoteStatusManager : instanaAgentRemoteStatusManager :=
  {| remote_agentOld := None; remote_agentDeployments := []; remote_agentSecretConfig := zero_key |}.

Definition AddAgentDeployment (key : ObjectKey) (a : instanaAgentRemoteStatusManager) :
    instanaAgentRemoteStatusManager :=
  if GoList.Contains (remote_agentDeployments a) key then a
  else a <| remote_agentDeployments ::= fun l => l ++ [key] |>.
Definition remote_SetAgentOld (agent : InstanaAgentRemote) (a : instanaAgentRemoteStatusManager) :
    instanaAgentRemoteStatusManager :=
  a <| remote_agentOld := Some agent |>.
Definition remote_SetAgentSecretConfig (key : ObjectKey) (a : instanaAgentRemoteStatusManager) :
    instanaAgentRemoteStatusManager :=
  a <| remote_agentSecretConfig := key |>.

Definition remote_Generation (agent : InstanaAgentRemote) : Z := om_Generation (remote_Meta agent).

Section RemoteStatusManager.
Context {W : Type} `{K8sApi W} `{ApiErrors} `{Env} `{Debug} `{Semver} `{StatusConditions}.
Notation M := (M W instanaAgentRemoteStatusManager).

(** The methods below read the manager's fields only, except for the agent,
    which the caller has found not nil. *)
Section Methods.
Context (a : instanaAgentRemoteStatusManager) (agentOld : InstanaAgentRemote).

Definition remote_getDeployment : M (Result.t ResourceInfo) :=
  match remote_agentDeployments a with
  | [key] =>
      deployment ← GetAsResult KDeployment key zero_Deployment;
      mret (Result.Map deployment (fun d => toResourceInfo (dp_Meta d)))
  | _ => mret (Result.OfSuccess zero_ResourceInfo)
  end.
Definition remote_getConfigSecret : M (Result.t ResourceInfo) :=
  if objectKeyHasNoName (remote_agentSecretConfig a) then mret (Result.OfSuccess zero_ResourceInfo)
  else
    cm ← GetAsResult KSecret (remote_agentSecretConfig a) zero_Secret;
    mret (Result.Map cm (fun s => toResourceInfo (sec_Meta s))).

Definition remote_setConditionAndFireEvent (agentNew : InstanaAgentRemote) (condition : Condition) :
    M InstanaAgentRemote :=
  t ← now;
  _ ← record (eventTypeFromCondition condition) (cond_Reason condition) (cond_Message condition);
  mret (agentNew <| remote_Status ::= fun s =>
          s <| rst_Conditions ::= fun l => Some (SetStatusCondition t condition (default [] l)) |> |>).

#[local] Notation NewCondition := (NewCondition (remote_Generation agentOld)).

Definition remote_getReconcileSucceededCondition (reconcileErr : option error) : Condition :=
  match reconcileErr with
  | None =>
      NewCondition ConditionTypeReconcileSucceeded ConditionTrue "ReconcileSucceeded"
        "most recent reconcile of instana agent remote CR completed without issue"
  | Some e =>
      NewCondition ConditionTypeReconcileSucceeded ConditionFalse "ReconcileFailed"
        (truncateMessage (ErrorMsg e))
  end.

Definition deployment_unavailable (key : ObjectKey) (err : error) : Condition :=
  NewCondition ConditionTypeAllAgentsAvailable ConditionUnknown "AgentDeploymentInfoUnavailable"
    (truncateMessage ("failed to retrieve status of Instana Agent Remote Deployment: " +++
       key_Name key +++ " due to error: " +++ ErrorMsg err)).
Definition remote_getAllAgentsAvailableCondition : M (Result.t Condition) :=
  r ← readAll KDeployment zero_Deployment deployment_unavailable (remote_agentDeployments a) [];
  mret match r with
       | inr res => res
       | inl deployments =>
           Result.OfSuccess
             (if GoList.All deployments deploymentIsAvailableAndComplete &&
                 (0 <? length deployments) then
                NewCondition ConditionTypeAllAgentsAvailable ConditionTrue
                  "AllDesiredAgentsAvailable"
                  "All desired Instana Agent Remote are available and using up-to-date configuration"
              else
                NewCondition ConditionTypeAllAgentsAvailable ConditionFalse
                  "NotAllDesiredAgentsAvailable"
                  "Not all desired Instana Agent Remote are available or some Agents are not using up-to-date configuration")
       end.

(** The fields set without asking the cluster. *)
Definition remote_withNewStatus (agentNew : InstanaAgentRemote) : InstanaAgentRemote :=
  let agentNew :=
    agentNew <| remote_Status ::= fun s =>
      s <| rst_ObservedGeneration := Some (remote_Generation agentOld) |> |> in
  let agentNew :=
    match NewVersion GetOperatorVersion with
    | Some version => setStatusDotOperatorVersionRemote version agentNew
    | None => agentNew
    end in
  agentNew <| remote_Status ::= fun s =>
    s <| rst_Conditions ::= fun l => Some (default [] l) |> |>.

Definition InstanaAgentRemoteWithUpdatedStatus (reconcileErr : option error) :
    M (Result.t InstanaAgentRemote) :=
  let errBuilder := MultiErrorBuilder.New [] in
  let agentNew := agentOld in
  secret ← remote_getConfigSecret;
  let agentNew := Result.OnSuccess secret setStatusDotConfigSecretRemote agentNew in
  let errBuilder := Result.OnFailure secret MultiErrorBuilder.AddSingle errBuilder in
  deployment ← remote_getDeployment;
  let agentNew := Result.OnSuccess deployment setStatusDotDeployment agentNew in
  let errBuilder := Result.OnFailure deployment MultiErrorBuilder.AddSingle errBuilder in
  let agentNew := remote_withNewStatus agentNew in
  agentNew ← remote_setConditionAndFireEvent agentNew
               (remote_getReconcileSucceededCondition reconcileErr);
  agents ← remote_getAllAgentsAvailableCondition;
  let errBuilder := Result.OnFailure agents MultiErrorBuilder.AddSingle errBuilder in
  agentNew ← remote_setConditionAndFireEvent agentNew (Result.res agents);
  mret (Result.Of agentNew (MultiErrorBuilder.Build errBuilder)).
End Methods.

Definition remote_UpdateAgentStatus (reconcileErr : option error) : M (option error) :=
  catching (
    a ← getLocal;
    match remote_agentOld a with
    | None => mret None
    | Some old =>
        let errBuilder := MultiErrorBuilder.New [] in
        res ← InstanaAgentRemoteWithUpdatedStatus a old reconcileErr;
        let errBuilder := Result.OnFailure res MultiErrorBuilder.AddSingle errBuilder in
        err ← doWrite (RPatchRemoteStatus (Result.res res) old);
        let errBuilder :=
          match err with
          | Some _ => MultiErrorBuilder.AddSingle err errBuilder
          | None => errBuilder
          end in
        mret (MultiErrorBuilder.Build errBuilder)
    end).
End RemoteStatusManager.

(** ** Facts *)

Section StatusFacts.
Context {W : Type} `{K8sApi W} `{ApiErrors} `{Env} `{Debug} `{Semver} `{StatusConditionsLaws}.
Notation M := (M W instanaAgentRemoteStatusManager).
Implicit Types (t : list event) (a : instanaAgentRemoteStatusManager) (old : InstanaAgentRemote).

Lemma remote_getDeployment_emits a :
  emits (remote_getDeployment a : M _) (post reading (fun _ _ => False)).
Proof. unfold remote_getDeployment. destruct (remote_agentDeployments a) as [|key []]; read_info_step. Qed.
Lemma remote_getConfigSecret_emits a :
  emits (remote_getConfigSecret a : M _) (post reading (fun _ _ => False)).
Proof. unfold remote_getConfigSecret. destruct (objectKeyHasNoName _); read_info_step. Qed.

(** All the deployments were read and are available, and there is one. *)
Definition deployments_seen a t : Prop :=
  remote_agentDeployments a ≠ [] ∧
  ∀ key, key ∈ remote_agentDeployments a → deployment_seen t key.

(** What AllAgentsAvailable says of them. *)
Definition remote_agents_told a (generation : Z) t : Condition → Prop :=
  condition_of generation ConditionTypeAllAgentsAvailable (deployments_seen a t)
    (remote_agentDeployments a = [] ∨
     ∃ key, key ∈ remote_agentDeployments a ∧ deployment_lacking t key)
    (∃ key, key ∈ remote_agentDeployments a ∧ read_failed KDeployment t key).

Lemma remote_getAllAgentsAvailableCondition_emits a old :
  emits (remote_getAllAgentsAvailableCondition a old : M _) (post (fun r t => reading r t ∧
    remote_agents_told a (remote_Generation old) t (Result.res r)) (fun _ _ => False)).
Proof.
  unfold remote_getAllAgentsAvailableCondition.
  eapply emits_seq; [by apply (readAll_all KDeployment _ _ _ deploymentIsAvailableAndComplete)| |done|done].
  intros [ds|res] t [Ht Hr]; emits_step; simpl; rewrite app_nil_r.
  - destruct Hr as (Hok & Hlen & Hall & Hno). split; [by split|]. unfold denote in *.
    destruct (GoList.All ds deploymentIsAvailableAndComplete) eqn:E; [destruct ds as [|d ds]|]; simpl;
      (split; [done|split; [done|]]).
    + right; left. split; [done|]. left. by destruct (remote_agentDeployments a).
    + left. split; [done|]. split; [|exact (Hall eq_refl)]. by destruct (remote_agentDeployments a).
    + right; left. split; [done|]. right. destruct (Hno eq_refl) as (key & d & ? & ? & ?).
      exists key. split; [done|]. by exists d.
  - destruct Hr as (key & err & ? & ? & ->). split; [by split|]. split; [done|]. split; [done|].
    right; right. split; [done|]. exists key. split; [done|]. by exists err.
Qed.

(** *** The agent that is patched *)
Definition remote_same_resource (new old : InstanaAgentRemote) : Prop :=
  remote_APIVersion new = remote_APIVersion old ∧ remote_Kind new = remote_Kind old ∧
  remote_Meta new = remote_Meta old ∧ remote_Spec new = remote_Spec old.
Definition remote_condition_in (type : string) (agent : InstanaAgentRemote) : option Condition :=
  find_condition type (default [] (rst_Conditions (remote_Status agent))).
Definition remote_with_condition (time : Z) (c : Condition) (agent : InstanaAgentRemote) :
    InstanaAgentRemote :=
  agent <| remote_Status ::= fun s =>
    s <| rst_Conditions ::= fun l => Some (SetStatusCondition time c (default [] l)) |> |>.

(** What the status of [new] says after the events [t]. *)
Record remote_reports a old (reconcileErr : option error) t (new : InstanaAgentRemote) : Prop := {
  rrp_fields : remote_same_resource new old ∧
    rst_ObservedGeneration (remote_Status new) = Some (remote_Generation old);
  rrp_reconcile : ∃ c, remote_condition_in ConditionTypeReconcileSucceeded new = Some c ∧
    reconcile_told (remote_Generation old) reconcileErr c;
  rrp_agents : ∃ c, remote_condition_in ConditionTypeAllAgentsAvailable new = Some c ∧
    remote_agents_told a (remote_Generation old) t c
}.

Lemma remote_setConditionAndFireEvent_emits c new :
  emits (remote_setConditionAndFireEvent new c : M _) (post (fun new' t =>
    t = [fired c] ∧ ∃ time, new' = remote_with_condition time c new) (fun _ _ => False)).
Proof.
  unfold remote_setConditionAndFireEvent. do 5 emits_step. simpl. split; [done|]. by exists z.
Qed.

Lemma remote_reconcile_told_content old e c :
  same_content c (remote_getReconcileSucceededCondition old e) →
  reconcile_told (remote_Generation old) e c.
Proof. unfold reconcile_told. intros (_ & -> & -> & _ & ->). by destruct e. Qed.

(** The two conditions set in turn on an agent that has the other fields. *)
Lemma remote_reports_conditions a old e (r1 r2 : Result.t ResourceInfo) c2 z1 z2 t0 t1 t2 :
  remote_agents_told a (remote_Generation old) t1 c2 →
  remote_reports a old e (t0 ++ t1 ++ t2)
    (remote_with_condition z2 c2
      (remote_with_condition z1 (remote_getReconcileSucceededCondition old e)
        (remote_withNewStatus old
          (Result.OnSuccess r2 setStatusDotDeployment
            (Result.OnSuccess r1 setStatusDotConfigSecretRemote old))))).
Proof.
  intros Hc2. set (c1 := remote_getReconcileSucceededCondition old e).
  set (new := remote_withNewStatus _ _).
  assert (T1 : cond_Type c1 = ConditionTypeReconcileSucceeded) by (subst c1; by destruct e).
  assert (T2 : cond_Type c2 = ConditionTypeAllAgentsAvailable) by apply Hc2.
  assert (Hnew : remote_same_resource new old ∧
    rst_ObservedGeneration (remote_Status new) = Some (remote_Generation old)).
  { unfold new, remote_withNewStatus, Result.OnSuccess.
    by destruct (Result.IsSuccess r1), (Result.IsSuccess r2), (NewVersion GetOperatorVersion). }
  split; [done| |].
  - destruct (set_condition_same z1 c1 (default [] (rst_Conditions (remote_Status new))))
      as (c & Hc & Hcc). exists c. split; [|by apply remote_reconcile_told_content].
    unfold remote_condition_in. cbn [remote_with_condition]. rewrite <- T1.
    rewrite <- Hc. apply set_condition_other. by rewrite T1, T2.
  - destruct (set_condition_same z2 c2 (default [] (rst_Conditions (remote_Status
      (remote_with_condition z1 c1 new))))) as (c & Hc & Hcc). exists c. rewrite T2 in Hc.
    split; [done|]. eapply condition_of_content; [done|]. eapply condition_of_mono; [..|exact Hc2].
    + intros [Hn Hk]. split; [done|]. intros key (d & ? & ?)%Hk. exists d. set_solver.
    + intros [?|(key & ? & d & ? & ?)]; [by left|right]. exists key. split; [done|]. exists d. set_solver.
    + intros (key & ? & err & ?). exists key. split; [done|]. exists err. set_solver.
Qed.

(** *** The whole update *)
Lemma InstanaAgentRemoteWithUpdatedStatus_emits a old e :
  emits (InstanaAgentRemoteWithUpdatedStatus a old e : M _) (post (fun res t =>
    Forall status_event t ∧ remote_reports a old e t (Result.res res) ∧
    (Result.err res = None → reads_ok t)) (fun _ _ => False)).
Proof.
  unfold InstanaAgentRemoteWithUpdatedStatus.
  eapply emits_seq; [apply remote_getConfigSecret_emits| |done|done]. intros r1 t1 [Ht1 Hr1].
  eapply emits_seq; [apply remote_getDeployment_emits| |done|done]. intros r2 t2 [Ht2 Hr2].
  eapply emits_seq; [apply remote_setConditionAndFireEvent_emits| |done|done]. intros n1 t3 [-> [z1 ->]].
  eapply emits_seq; [apply remote_getAllAgentsAvailableCondition_emits| |done|done].
  intros r4 t4 [[Ht4 Hr4] Hc4].
  eapply emits_seq; [apply remote_setConditionAndFireEvent_emits| |done|done]. intros n2 t5 [-> [z2 ->]].
  emits_step. unfold post. cbn [Result.res Result.err].
  assert (Hf1 : ∀ c, Forall status_event [fired c]) by (intros; by repeat constructor).
  assert (Hk1 : ∀ c, reads_ok [fired c]) by (intros; apply record_reads_ok).
  split; [rewrite app_nil_r, !Forall_app; auto 10|]. split.
  - match goal with |- remote_reports _ _ _ ?t _ => replace t with
      ((t1 ++ t2 ++ [fired (remote_getReconcileSucceededCondition old e)]) ++
       t4 ++ [fired (Result.res r4)])
      by (by rewrite app_nil_r, <- !app_assoc) end.
    by apply remote_reports_conditions.
  - rewrite !Result.Build_OnFailure. intros (((_ & E1) & E2) & E4).
    rewrite app_nil_r, !reads_ok_app. auto 15.
Qed.

Lemma InstanaAgentRemoteWithUpdatedStatus_local a old e :
  keeps_local (InstanaAgentRemoteWithUpdatedStatus a old e : M _).
Proof.
  unfold InstanaAgentRemoteWithUpdatedStatus, remote_getDeployment, remote_getConfigSecret,
    remote_setConditionAndFireEvent, remote_getAllAgentsAvailableCondition, GetAsResult.
  keeps_local_auto.
Qed.

Lemma remote_UpdateAgentStatus_run e (s : St W instanaAgentRemoteStatusManager) old :
  remote_agentOld (local s) = Some old →
  ∃ r s' t new w, remote_UpdateAgentStatus e s = (Ret r, s') ∧ local s' = local s ∧
    trace s' = trace s ++ t ++ [EWrite (RPatchRemoteStatus new old) w] ∧
    Forall status_event t ∧ remote_reports (local s) old e t new ∧
    (r = None → reads_ok t ∧ w = None).
Proof.
  intros Ho. unfold remote_UpdateAgentStatus, catching.
  rewrite (bind_Ret getLocal _ s (local s) s) by done. rewrite Ho.
  pose proof (InstanaAgentRemoteWithUpdatedStatus_emits (local s) old e s) as (t & Ht & Hpost).
  pose proof (InstanaAgentRemoteWithUpdatedStatus_local (local s) old e s) as Hl.
  destruct (InstanaAgentRemoteWithUpdatedStatus (local s) old e s) as [[res|p|] s1] eqn:E; [|done..].
  rewrite (bind_Ret _ _ _ _ _ E). simpl in Ht, Hpost, Hl.
  unfold doWrite, call, mbind, M_bind.
  destruct (k8sWrite (RPatchRemoteStatus (Result.res res) old) (world s1)) as [w w'].
  destruct Hpost as (Hev & Hrep & Hok).
  eexists _, _, t, (Result.res res), w. split; [reflexivity|]. simpl. rewrite Ht.
  split; [done|]. split; [by rewrite app_assoc|]. split; [done|]. split; [done|].
  intros Hr. destruct w as [w|].
  - by apply MultiErrorBuilder.Build_AddSingle in Hr as [_ ?].
  - apply Result.Build_OnFailure in Hr as [_ Hr]. auto.
Qed.
End StatusFacts.

(** ** Properties *)

(** At the end of a reconciliation of the remote agent [old] its manager,
    however the cluster answers, reads, fires events, and then patches the
    status exactly once.  The patch changes nothing but the status;
    ReconcileSucceeded reports [reconcileErr], AllAgentsAvailable says True
    when there is a deployment and all were read and are available, False when
    there is none or one was read that is not, Unknown when one could not be
    read; nil is returned only when every read and the patch worked. *)
Theorem remote_UpdateAgentStatus_reports {W} `{K8sApi W} `{ApiErrors} `{Env} `{Debug} `{Semver}
    `{StatusConditionsLaws} reconcileErr (s : St W instanaAgentRemoteStatusManager) old :
  remote_agentOld (local s) = Some old →
  ∃ r s' t new e, remote_UpdateAgentStatus reconcileErr s = (Ret r, s') ∧
    trace s' = trace s ++ t ++ [EWrite (RPatchRemoteStatus new old) e] ∧
    Forall status_event t ∧ remote_reports (local s) old reconcileErr t new ∧
    (r = None → reads_ok t ∧ e = None).
Proof.
  intros Ho. destruct (remote_UpdateAgentStatus_run reconcileErr s old Ho)
    as (r & s' & t & new & w & E & _ & Ht). by exists r, s', t, new, w.
Qed.

Definition example_remote_manager : instanaAgentRemoteStatusManager :=
  remote_SetAgentOld example_remote
    (AddAgentDeployment (Key "ns" "instana-agent-r-remote") NewInstanaAgentRemoteStatusManager).
Definition remote_status_start : St cluster instanaAgentRemoteStatusManager :=
  start (empty_cluster <| c_deployment := Some zero_Deployment |>) example_remote_manager.

Lemma remote_UpdateAgentStatus_reports_witness :
  remote_agentOld (local remote_status_start) = Some example_remote ∧
  ∃ r s' t new e, remote_UpdateAgentStatus None remote_status_start = (Ret r, s') ∧
    trace s' = [] ++ t ++ [EWrite (RPatchRemoteStatus new example_remote) e] ∧
    Forall status_event t ∧ remote_reports (local remote_status_start) example_remote None t new ∧
    (r = None → reads_ok t ∧ e = None).
Proof.
  split; [reflexivity|].
  exact (remote_UpdateAgentStatus_reports None remote_status_start example_remote eq_refl).
Defined.
