(* ===== verification/RemoteVolumeBuilder.v ===== *)
(** * Volumes of the remote agent's pod: common/volume/remote_volume_builder.go

    The remote agent's builder makes four volumes: its configuration, a TLS
    secret, a claim for the repository and the secrets mounted as files. *)
From S2P Require Import Prelude GoStd Errors K8sTypes ApiTypes Effects Cluster Transformations.
From S2P Require Import Helpers VolumeBuilder.

Definition RemoteConfigDirectory := "/opt/instana/agent/etc/remote-config-yml".

Inductive RemoteVolume :=
  | ConfigVolumeRemote | TlsVolumeRemote | RepoVolumeRemote | SecretsVolumeRemote.
#[export] Instance RemoteVolume_eq_dec : EqDecision RemoteVolume.
Proof. solve_decision. Defined.

(** [append] when the condition holds: the entry of the secret and the file. *)
Definition item_when (condition : bool) (key path : string) (items : list KeyToPath) :
    list KeyToPath :=
  if condition then items ++ [{| ktp_Key := key; ktp_Path := path |}] else items.
Definition present (s : string) : bool := negb (String.eqb s "").

Section VolumeBuilderRemote.
Context (remoteAgent : InstanaAgentRemote).
Let spec := remote_Spec remoteAgent.
Let ag := rspec_Agent (remote_Spec remoteAgent).

Definition remote_configVolume : volume_and_mount :=
  let volumeName := "config" in
  (volume volumeName
     (SecretSource ("instana-agent-r-" +++ remote_Name remoteAgent +++ "-config") []
        (Some mode_0440) None),
   volumeMount volumeName RemoteConfigDirectory false).

Definition remote_tlsVolume : volume_and_mount :=
  if negb (RemoteTLSIsEnabled remoteAgent) then (None, None)
  else
    let volumeName := "remote-agent-tls" in
    (volume volumeName (SecretSource (RemoteTLSSecretName remoteAgent) [] (Some mode_0440) None),
     volumeMount volumeName "/opt/instana/agent/etc/certs" true).

(** [UseSecretMounts] is set to false. *)
Definition remote_secretMountsOff : bool :=
  match rspec_UseSecretMounts spec with Some b => negb b | None => false end.
Definition remote_secretsItems : list KeyToPath :=
  let items := [{| ktp_Key := AgentKey; ktp_Path := SecretFileAgentKey |}] in
  let items := item_when (present (ag_DownloadKey ag)) DownloadKey SecretFileDownloadKey items in
  let items :=
    if present (ag_ProxyHost ag) then
      let items := item_when (present (ag_ProxyUser ag))
                     SecretKeyProxyUser SecretFileProxyUser items in
      let items := item_when (present (ag_ProxyPassword ag))
                     SecretKeyProxyPassword SecretFileProxyPassword items in
      items ++ [{| ktp_Key := SecretKeyHttpsProxy; ktp_Path := SecretFileHttpsProxy |}]
    else items in
  let items := item_when (present (ag_MirrorReleaseRepoUsername ag))
    SecretKeyMirrorReleaseRepoUsername SecretFileMirrorReleaseRepoUsername items in
  let items := item_when (present (ag_MirrorReleaseRepoPassword ag))
    SecretKeyMirrorReleaseRepoPassword SecretFileMirrorReleaseRepoPassword items in
  let items := item_when (present (ag_MirrorSharedRepoUsername ag))
    SecretKeyMirrorSharedRepoUsername SecretFileMirrorSharedRepoUsername items in
  item_when (present (ag_MirrorSharedRepoPassword ag))
    SecretKeyMirrorSharedRepoPassword SecretFileMirrorSharedRepoPassword items.
Definition remote_volumeSecretName : string :=
  if String.eqb (ag_KeysSecret ag) "" then remote_Name remoteAgent else ag_KeysSecret ag.
Definition remote_secretsVolume : volume_and_mount :=
  if remote_secretMountsOff then (None, None)
  else
    let volumeName := "instana-secrets" in
    (volume volumeName
       (SecretSource remote_volumeSecretName remote_secretsItems (Some mode_0400) (Some false)),
     volumeMount volumeName InstanaSecretsDirectory true).

Definition remote_repoVolume : volume_and_mount :=
  if String.eqb (ag_HostRepository ag) "" then (None, None)
  else
    let volumeName := "repo" in
    (volume volumeName (ClaimSource (ag_HostRepository ag)),
     volumeMount volumeName "/opt/instana/agent/data/repo" false).

(** The source's default case panics on an unknown number, which no symbolic
    volume is. *)
Definition remote_getBuilder (vol : RemoteVolume) : volume_and_mount :=
  match vol with
  | ConfigVolumeRemote => remote_configVolume
  | TlsVolumeRemote => remote_tlsVolume
  | RepoVolumeRemote => remote_repoVolume
  | SecretsVolumeRemote => remote_secretsVolume
  end.
Definition VolumeBuilderRemote_Build (volumes : list RemoteVolume) :
    list K8sTypes.Volume * list VolumeMount :=
  foldl (fun acc volumeNumber =>
           let '(volume, volumeMount) := remote_getBuilder volumeNumber in
           (append_some (fst acc) volume, append_some (snd acc) volumeMount))
        ([], []) volumes.
Definition remote_BuildFromUserConfig : list K8sTypes.Volume * list VolumeMount :=
  (pod_Volumes (ag_Pod ag), pod_VolumeMounts (ag_Pod ag)).
End VolumeBuilderRemote.

(** ** Facts *)

(** Where an item of the secret volume comes from. *)
Lemma item_when_elem condition key path items x :
  x ∈ item_when condition key path items ↔
  x ∈ items ∨ (condition = true ∧ x = {| ktp_Key := key; ktp_Path := path |}).
Proof. unfold item_when. destruct condition; set_solver. Qed.

Section Facts.
Context (remoteAgent : InstanaAgentRemote).

Lemma remote_getBuilder_both vol :
  match remote_getBuilder remoteAgent vol with
  | (Some x, Some y) => vm_Name y = vol_Name x
  | (None, None) => True
  | _ => False
  end.
Proof.
  destruct vol; simpl; unfold remote_tlsVolume, remote_repoVolume, remote_secretsVolume;
    [done|destruct (negb _)|destruct (String.eqb _ _)|destruct (remote_secretMountsOff _)]; done.
Qed.

(** What is built is what the builders of the request give. *)
Lemma VolumeBuilderRemote_Build_eq vols :
  VolumeBuilderRemote_Build remoteAgent vols =
    (omap (fun vol => fst (remote_getBuilder remoteAgent vol)) vols,
     omap (fun vol => snd (remote_getBuilder remoteAgent vol)) vols).
Proof.
  unfold VolumeBuilderRemote_Build.
  assert (Hacc : ∀ acc, foldl (fun acc volumeNumber =>
      let '(volume, volumeMount) := remote_getBuilder remoteAgent volumeNumber in
      (append_some (fst acc) volume, append_some (snd acc) volumeMount)) acc vols =
    (fst acc ++ omap (fun vol => fst (remote_getBuilder remoteAgent vol)) vols,
     snd acc ++ omap (fun vol => snd (remote_getBuilder remoteAgent vol)) vols)); [|apply Hacc].
  induction vols as [|vol vols IH]; intros [vs ms]; simpl; [by rewrite !app_nil_r|].
  rewrite IH. destruct (remote_getBuilder remoteAgent vol) as [[x|] [y|]]; simpl;
    by rewrite <- ?app_assoc.
Qed.

Lemma VolumeBuilderRemote_Build_mounts vols :
  let '(volumes, mounts) := VolumeBuilderRemote_Build remoteAgent vols in
  vm_Name <$> mounts = vol_Name <$> volumes.
Proof.
  rewrite VolumeBuilderRemote_Build_eq. induction vols as [|vol vols IH]; [done|]. simpl.
  generalize (remote_getBuilder_both vol). revert IH.
  destruct (remote_getBuilder remoteAgent vol) as [[x|] [y|]]; simpl; intros IH Hn; [|done..].
  by f_equal.
Qed.
End Facts.
