(* ===== verification/RemoteEnvBuilder.v ===== *)
(** * Environment of the remote agent's container: common/env/remote_env_builder.go

    [buildRemote] translates one symbolic variable for a custom resource; the
    conversions are the ones of env_builder.go, which the package shares. *)
From S2P Require Import Prelude GoStd Errors K8sTypes ApiTypes Effects Cluster Transformations.
From S2P Require Import Helpers EnvBuilder RemoteVolumeBuilder.

Inductive EnvVarRemote :=
  | AgentModeEnvRemote | ZoneNameEnvRemote | AgentEndpointEnvRemote | AgentEndpointPortEnvRemote
  | MavenRepoURLEnvRemote | MavenRepoFeaturesPathRemote | MavenRepoSharedPathRemote
  | MirrorReleaseRepoUrlEnvRemote | MirrorReleaseRepoUsernameEnvRemote
  | MirrorReleaseRepoPasswordEnvRemote | MirrorSharedRepoUrlEnvRemote
  | MirrorSharedRepoUsernameEnvRemote | MirrorSharedRepoPasswordEnvRemote
  | ProxyHostEnvRemote | ProxyPortEnvRemote | ProxyProtocolEnvRemote | ProxyUserEnvRemote
  | ProxyPasswordEnvRemote | ProxyUseDNSEnvRemote | ListenAddressEnvRemote
  | RedactK8sSecretsEnvRemote | AgentZoneEnvRemote | HTTPSProxyEnvRemote | BackendURLEnvRemote
  | NoProxyEnvRemote | ConfigPathEnvRemote | EntrypointSkipBackendTemplateGenerationRemote
  | BackendEnvRemote | InstanaAgentKeyEnvRemote | AgentKeyEnvRemote | DownloadKeyEnvRemote
  | InstanaAgentPodNameEnvRemote | PodNameEnvRemote | PodIPEnvRemote | PodUIDEnvRemote
  | PodNamespaceEnvRemote.
#[export] Instance EnvVarRemote_eq_dec : EqDecision EnvVarRemote.
Proof. solve_decision. Defined.

Definition remote_isSecret (envVar : EnvVarRemote) : bool :=
  match envVar with
  | InstanaAgentKeyEnvRemote | AgentKeyEnvRemote | DownloadKeyEnvRemote
  | ProxyUserEnvRemote | ProxyPasswordEnvRemote | HTTPSProxyEnvRemote
  | MirrorReleaseRepoUsernameEnvRemote | MirrorReleaseRepoPasswordEnvRemote
  | MirrorSharedRepoUsernameEnvRemote | MirrorSharedRepoPasswordEnvRemote => true
  | _ => false
  end.

Section EnvBuilderRemote.
Context (agent : InstanaAgentRemote) (zone : option Zone).
Let spec := remote_Spec agent.
Let ag := rspec_Agent (remote_Spec agent).

Definition remote_agentModeEnv : option EnvVar :=
  match zone with
  | Some z => Some (env_value "INSTANA_AGENT_MODE" (zone_Mode z))
  | None => stringToEnvVar "INSTANA_AGENT_MODE" (ag_Mode ag)
  end.
Definition remote_zoneNameEnv : option EnvVar :=
  match zone with
  | Some z => Some (env_value "INSTANA_ZONE" (zone_Name z))
  | None => stringToEnvVar "INSTANA_ZONE" (rspec_Zone spec)
  end.
Definition remote_httpsProxyEnv : option EnvVar :=
  if String.eqb (ag_ProxyHost ag) "" then None
  else
    let protocol := Optional.GetOrDefault (Optional.Of (ag_ProxyProtocol ag)) "http" in
    let port := Optional.GetOrDefault (Optional.Of (ag_ProxyPort ag)) "80" in
    if String.eqb (ag_ProxyUser ag) "" || String.eqb (ag_ProxyPassword ag) ""
    then Some (env_value "HTTPS_PROXY" (protocol +++ "://" +++ ag_ProxyHost ag +++ ":" +++ port))
    else Some (env_value "HTTPS_PROXY"
           (protocol +++ "://" +++ (ag_ProxyUser ag +++ ":" +++ ag_ProxyPassword ag +++ "@")
              +++ ag_ProxyHost ag +++ ":" +++ port)).
Definition remote_backendEnv : EnvVar :=
  {| ev_Name := "BACKEND"; ev_Value := "";
     ev_ValueFrom := Some (env_source None
       (Some {| ks_Name := RemoteResourcesName agent; ks_Key := BackendKey;
                ks_Optional := None |}) None) |}.
Definition remote_keysSecretName : string :=
  Optional.GetOrDefault (Optional.Of (ag_KeysSecret ag)) (remote_Name agent).
Definition remote_agentKeyHelper (name : string) : EnvVar :=
  {| ev_Name := name; ev_Value := "";
     ev_ValueFrom := Some (env_source None None
       (Some {| ks_Name := remote_keysSecretName; ks_Key := AgentKey; ks_Optional := None |})) |}.
Definition remote_downloadKeyEnv : EnvVar :=
  {| ev_Name := "INSTANA_DOWNLOAD_KEY"; ev_Value := "";
     ev_ValueFrom := Some (env_source None None
       (Some {| ks_Name := remote_keysSecretName; ks_Key := DownloadKey;
                ks_Optional := Some true |})) |}.

(** [useSecretMounts]: nil counts as true. *)
Definition remote_useSecretMounts : bool :=
  Pointer.DerefOrDefault (rspec_UseSecretMounts spec) true.

(** The switch of [buildRemote]; its default case panics on an unknown number,
    which no symbolic variable is. *)
Definition buildRemote_switch (envVar : EnvVarRemote) : option EnvVar :=
  match envVar with
  | AgentModeEnvRemote => remote_agentModeEnv
  | ZoneNameEnvRemote => remote_zoneNameEnv
  | AgentEndpointEnvRemote => stringToEnvVar "INSTANA_AGENT_ENDPOINT" (ag_EndpointHost ag)
  | AgentEndpointPortEnvRemote => stringToEnvVar "INSTANA_AGENT_ENDPOINT_PORT" (ag_EndpointPort ag)
  | MavenRepoURLEnvRemote => stringToEnvVar "INSTANA_MVN_REPOSITORY_URL" (ag_MvnRepoUrl ag)
  | MavenRepoFeaturesPathRemote =>
      stringToEnvVar "INSTANA_MVN_REPOSITORY_FEATURES_PATH" (ag_MvnRepoFeaturesPath ag)
  | MavenRepoSharedPathRemote =>
      stringToEnvVar "INSTANA_MVN_REPOSITORY_SHARED_PATH" (ag_MvnRepoSharedPath ag)
  | MirrorReleaseRepoUrlEnvRemote =>
      stringToEnvVar "AGENT_RELEASE_REPOSITORY_MIRROR_URL" (ag_MirrorReleaseRepoUrl ag)
  | MirrorReleaseRepoUsernameEnvRemote =>
      stringToEnvVar "AGENT_RELEASE_REPOSITORY_MIRROR_USERNAME" (ag_MirrorReleaseRepoUsername ag)
  | MirrorSharedRepoUrlEnvRemote =>
      stringToEnvVar "INSTANA_SHARED_REPOSITORY_MIRROR_URL" (ag_MirrorSharedRepoUrl ag)
  | MirrorSharedRepoUsernameEnvRemote =>
      stringToEnvVar "INSTANA_SHARED_REPOSITORY_MIRROR_USERNAME" (ag_MirrorSharedRepoUsername ag)
  | MirrorSharedRepoPasswordEnvRemote =>
      stringToEnvVar "INSTANA_SHARED_REPOSITORY_MIRROR_PASSWORD" (ag_MirrorSharedRepoPassword ag)
  | MirrorReleaseRepoPasswordEnvRemote =>
      stringToEnvVar "AGENT_RELEASE_REPOSITORY_MIRROR_PASSWORD" (ag_MirrorReleaseRepoPassword ag)
  | ProxyHostEnvRemote => stringToEnvVar "INSTANA_AGENT_PROXY_HOST" (ag_ProxyHost ag)
  | ProxyPortEnvRemote => stringToEnvVar "INSTANA_AGENT_PROXY_PORT" (ag_ProxyPort ag)
  | ProxyProtocolEnvRemote => stringToEnvVar "INSTANA_AGENT_PROXY_PROTOCOL" (ag_ProxyProtocol ag)
  | ProxyUserEnvRemote => stringToEnvVar "INSTANA_AGENT_PROXY_USER" (ag_ProxyUser ag)
  | ProxyPasswordEnvRemote => stringToEnvVar "INSTANA_AGENT_PROXY_PASSWORD" (ag_ProxyPassword ag)
  | ProxyUseDNSEnvRemote => boolToEnvVar "INSTANA_AGENT_PROXY_USE_DNS" (ag_ProxyUseDNS ag)
  | ListenAddressEnvRemote => stringToEnvVar "INSTANA_AGENT_HTTP_LISTEN" (ag_ListenAddress ag)
  | RedactK8sSecretsEnvRemote =>
      stringToEnvVar "INSTANA_KUBERNETES_REDACT_SECRETS" (ag_RedactKubernetesSecrets ag)
  | AgentZoneEnvRemote =>
      Some (env_value "AGENT_ZONE"
        (Optional.GetOrDefault (Optional.Of (rspec_Zone spec)) (rspec_Zone spec)))
  | HTTPSProxyEnvRemote => remote_httpsProxyEnv
  | BackendURLEnvRemote => Some (env_value "BACKEND_URL" "https://$(BACKEND)")
  | NoProxyEnvRemote =>
      if String.eqb (ag_ProxyHost ag) "" then None
      else Some (env_value "NO_PROXY" "kubernetes.default.svc")
  | ConfigPathEnvRemote => Some (env_value "CONFIG_PATH" RemoteConfigDirectory)
  | EntrypointSkipBackendTemplateGenerationRemote =>
      Some (env_value "ENTRYPOINT_SKIP_BACKEND_TEMPLATE_GENERATION" "true")
  | BackendEnvRemote => Some remote_backendEnv
  | InstanaAgentKeyEnvRemote => Some (remote_agentKeyHelper "INSTANA_AGENT_KEY")
  | AgentKeyEnvRemote => Some (remote_agentKeyHelper "AGENT_KEY")
  | DownloadKeyEnvRemote => Some remote_downloadKeyEnv
  | InstanaAgentPodNameEnvRemote =>
      Some (envWithObjectFieldSelector "INSTANA_AGENT_POD_NAME" "metadata.name")
  | PodNameEnvRemote => Some (envWithObjectFieldSelector "POD_NAME" "metadata.name")
  | PodIPEnvRemote => Some (envWithObjectFieldSelector "POD_IP" "status.podIP")
  | PodUIDEnvRemote => Some (envWithObjectFieldSelector "POD_UID" "metadata.uid")
  | PodNamespaceEnvRemote => Some (envWithObjectFieldSelector "POD_NAMESPACE" "metadata.namespace")
  end.
Definition buildRemote (envVar : EnvVarRemote) : option EnvVar :=
  if remote_useSecretMounts && remote_isSecret envVar then None else buildRemote_switch envVar.

Definition remote_getUserProvidedEnvs `{MapRange} : list EnvVar :=
  (fun '(name, value) => env_value name value) <$> range (default ∅ (ag_Env ag)).
Definition EnvBuilderRemote_Build `{MapRange} (envVars : list EnvVarRemote) : list EnvVar :=
  foldl (fun allEnvVars envVarNumber =>
           match buildRemote envVarNumber with
           | Some v => allEnvVars ++ [v]
           | None => allEnvVars
           end) remote_getUserProvidedEnvs envVars.
End EnvBuilderRemote.

(** ** Facts *)
Section EnvFacts.
Context (agent : InstanaAgentRemote) (zone : option Zone).

Lemma EnvBuilderRemote_Build_eq `{MapRange} vs :
  EnvBuilderRemote_Build agent zone vs =
    remote_getUserProvidedEnvs agent ++ omap (buildRemote agent zone) vs.
Proof.
  unfold EnvBuilderRemote_Build. generalize (remote_getUserProvidedEnvs agent).
  induction vs as [|v vs IH]; intros acc; simpl; [by rewrite app_nil_r|].
  rewrite IH. destruct (buildRemote agent zone v); [by rewrite <- app_assoc|done].
Qed.

Lemma buildRemote_switch_secret v e :
  buildRemote_switch agent zone v = Some e → remote_isSecret v = false →
  ev_Name e ∉ secret_env_names ∧ from_secret e = false.
Proof.
  assert (Hn : ∀ n x, bool_decide (n ∈ secret_env_names) = false →
    ev_Name (env_value n x) ∉ secret_env_names ∧ from_secret (env_value n x) = false).
  { intros n x Hb. split; [|done]. by apply bool_decide_eq_false in Hb. }
  assert (Hf : ∀ n x, bool_decide (n ∈ secret_env_names) = false →
    ev_Name (envWithObjectFieldSelector n x) ∉ secret_env_names ∧
    from_secret (envWithObjectFieldSelector n x) = false).
  { intros n x Hb. split; [|done]. by apply bool_decide_eq_false in Hb. }
  destruct v; try discriminate 2; intros E _; simpl in E;
    unfold remote_agentModeEnv, remote_zoneNameEnv in E;
    repeat match type of E with context [match ?x with _ => _ end] => destruct x end;
    simpl in E; try discriminate E;
    try (apply stringToEnvVar_Some in E); try (apply boolToEnvVar_Some in E);
    try (injection E as E'); subst e; try first [by apply Hn|by apply Hf].
  split; [|done]. change (ev_Name (remote_backendEnv agent)) with "BACKEND".
  apply (bool_decide_eq_false ("BACKEND" ∈ secret_env_names)). reflexivity.
Qed.

(** With secret mounts the operator adds no secret variable. *)
Lemma buildRemote_no_secrets v e :
  remote_useSecretMounts agent = true → buildRemote agent zone v = Some e →
  ev_Name e ∉ secret_env_names ∧ from_secret e = false.
Proof.
  unfold buildRemote. intros ->. cbn [andb]. destruct (remote_isSecret v) eqn:E; [done|].
  intros Hb. by eapply buildRemote_switch_secret.
Qed.
End EnvFacts.
