(* ===== verification/RemoteObjects.v ===== *)
(** * The remote agent's secrets and service account

    builders/remote-agent/secrets (keys-secret, config.go, container.go,
    tls-secret) and builders/remote-agent/serviceaccount. *)
From S2P Require Import Prelude GoStd GoEncoding Errors K8sTypes ApiTypes Effects Cluster Client.
From S2P Require Import Transformations Helpers VolumeBuilder Secrets RemoteVolumeBuilder RemoteEnvBuilder RemoteStatus.

Definition remote_Namespace (agent : InstanaAgentRemote) : string := om_Namespace (remote_Meta agent).

(** The builders of a remote agent belong to one component. *)
Definition remoteBuilder {W X} (o : option object) : ObjectBuilder W X :=
  {| Build := mret o; ComponentName := ComponentInstanaAgentRemote; IsNamespaced := true |}.

(** ** keys-secret/secret.go *)
Section KeysSecret.
Context (agent : InstanaAgentRemote).
Let ag := rspec_Agent (remote_Spec agent).

Definition remote_proxyURL : URL :=
  {| url_Scheme := Optional.GetOrDefault (Optional.Of (ag_ProxyProtocol ag)) "http";
     url_Host := ag_ProxyHost ag +++ ":" +++
                 Optional.GetOrDefault (Optional.Of (ag_ProxyPort ag)) "80";
     url_User := if negb (String.eqb (ag_ProxyUser ag) "") && negb (String.eqb (ag_ProxyPassword ag) "")
                 then Some (ag_ProxyUser ag, ag_ProxyPassword ag) else None |}.
Definition httpsProxyValue : string :=
  if String.eqb (ag_ProxyHost ag) "" then "" else URL_String remote_proxyURL.

Definition remote_getData (backends : list K8SensorBackend) : secret_data :=
  let mounts := remote_useSecretMounts agent in
  let data := Optional.IfPresent (Optional.Of (ag_DownloadKey ag)) (fun downloadKey data =>
    addFile mounts SecretFileDownloadKey downloadKey (<[DownloadKey := downloadKey]> data)) ∅ in
  let data := addFileIfPresent mounts SecretKeyProxyUser (ag_ProxyUser ag) data in
  let data := addFileIfPresent mounts SecretKeyProxyPassword (ag_ProxyPassword ag) data in
  let data := addFileIfPresent mounts SecretKeyMirrorReleaseRepoUsername
                (ag_MirrorReleaseRepoUsername ag) data in
  let data := addFileIfPresent mounts SecretKeyMirrorReleaseRepoPassword
                (ag_MirrorReleaseRepoPassword ag) data in
  let data := addFileIfPresent mounts SecretKeyMirrorSharedRepoUsername
                (ag_MirrorSharedRepoUsername ag) data in
  let data := addFileIfPresent mounts SecretKeyMirrorSharedRepoPassword
                (ag_MirrorSharedRepoPassword ag) data in
  let data := if negb (String.eqb httpsProxyValue "")
              then addFile mounts SecretKeyHttpsProxy httpsProxyValue data else data in
  foldl (addBackendKey mounts) data backends.

Definition remote_buildKeysSecret (backends : list K8SensorBackend) : Secret :=
  newSecret (remote_Name agent) (remote_Namespace agent) SecretTypeOpaque (remote_getData backends).
Definition NewRemoteKeysSecretBuilder {W X} (backends : list K8SensorBackend) : ObjectBuilder W X :=
  remoteBuilder (if String.eqb (ag_KeysSecret ag) ""
                 then Some (OSecret (remote_buildKeysSecret backends)) else None).
End KeysSecret.

(** ** config.go *)
Section ConfigSecret.
Context (agent : InstanaAgentRemote).
Let ag := rspec_Agent (remote_Spec agent).

(** The lines of one sender configuration. *)
Definition remote_backendLines (backend : K8SensorBackend) (backendKey : string) : list string :=
  [toInlineVariable "host" (kb_EndpointHost backend) None;
   toInlineVariable "port" (kb_EndpointPort backend) (Some "443");
   toInlineVariable "protocol" "HTTP/2" None;
   toInlineVariable "key" backendKey None] ++
  (if negb (String.eqb (ag_ProxyHost ag) "")
   then [toInlineVariable "proxy.type" (ag_ProxyProtocol ag) (Some "HTTP");
         toInlineVariable "proxy.host" (ag_ProxyHost ag) None;
         toInlineVariable "proxy.port" (ag_ProxyPort ag) (Some "80")] else []) ++
  (if ag_ProxyUseDNS ag then [toInlineVariable "proxy.dns" "true" None] else []) ++
  (if negb (String.eqb (ag_ProxyUser ag) "") && negb (String.eqb (ag_ProxyPassword ag) "")
   then [toInlineVariable "proxy.user" (ag_ProxyUser ag) None;
         toInlineVariable "proxy.password" (ag_ProxyPassword ag) None] else []).

Definition remote_backendConfig_step (keysSecret : Secret) (config : secret_data)
    (i : nat) (backend : K8SensorBackend) : secret_data :=
  if (String.eqb (om_Name (sec_Meta keysSecret)) "" && String.eqb (kb_EndpointKey backend) "")
     || String.eqb (kb_EndpointHost backend) "" then config
  else
    let backendKey :=
      match secret_lookup keysSecret ("key" +++ kb_ResourceSuffix backend) with
      | Some keyValueFromSecret => keyValueFromSecret
      | None => if negb (String.eqb (kb_EndpointKey backend) "") then kb_EndpointKey backend else ""
      end in
    if String.eqb backendKey "" then config
    else <["com.instana.agent.main.sender.Backend-" +++ itoa (Z.of_nat i + 1) +++ ".cfg" :=
            Join (remote_backendLines backend backendKey) newline +++ newline]> config.
(** The loop over the backends from the index on; the error of the source's
    result is always nil. *)
Fixpoint remote_backendConfig_from (keysSecret : option Secret) (i : nat)
    (backends : list K8SensorBackend) (config : secret_data) : or_panic secret_data :=
  match backends with
  | [] => Value config
  | backend :: backends =>
      match keysSecret with
      | None => Panics nil_dereference
      | Some s => remote_backendConfig_from keysSecret (S i) backends
                    (remote_backendConfig_step s config i backend)
      end
  end.
Definition remote_backendConfig (keysSecret : option Secret) (backends : list K8SensorBackend) :
    or_panic secret_data := remote_backendConfig_from keysSecret 0 backends ∅.

Definition remote_configData `{Yaml} (keysSecret : option Secret) (backends : list K8SensorBackend) :
    or_panic secret_data :=
  let data := ∅ in
  let data := if negb (String.eqb (ag_ConfigurationYaml ag) "")
              then <["configuration.yaml" := ag_ConfigurationYaml ag]> data else data in
  let mrshl := fst (yaml_Marshal (YMap [("com.instana.plugin.kubernetes",
                                         YMap [("enabled", YBool false)])])) in
  let data := <["configuration-disable-kubernetes-sensor.yaml" := mrshl]> data in
  mergeMaps data <$> remote_backendConfig keysSecret backends.

Definition remote_configName : string := "instana-agent-r-" +++ remote_Name agent +++ "-config".
Definition NewRemoteConfigBuilder {W} `{Yaml} (keysSecret : option Secret)
    (backends : list K8SensorBackend) : ObjectBuilder W instanaAgentRemoteStatusManager :=
  {| Build :=
       data ← lift (remote_configData keysSecret backends);
       let secret := newSecret remote_configName (remote_Namespace agent) SecretTypeOpaque data in
       _ ← modifyLocal (remote_SetAgentSecretConfig (object_key (OSecret secret)));
       mret (Some (OSecret secret));
     ComponentName := ComponentInstanaAgentRemote; IsNamespaced := true |}.
End ConfigSecret.

(** ** container.go *)
Section ContainerSecret.
Context (agent : InstanaAgentRemote) (keysSecret : option Secret).
Let ag := rspec_Agent (remote_Spec agent).

Definition remote_downloadKey : option string :=
  let ofSpec :=
    if negb (String.eqb (ag_DownloadKey ag) "") then Some (ag_DownloadKey ag)
    else if negb (String.eqb (ag_Key ag) "") then Some (ag_Key ag) else None in
  match keysSecret with
  | Some s =>
      match secret_lookup s "downloadKey" with
      | Some key => Some key
      | None => match secret_lookup s "key" with Some key => Some key | None => ofSpec end
      end
  | None => ofSpec
  end.
(** A nil secret makes the optional empty. *)
Definition remote_buildContainerSecret : option Secret :=
  downloadKey ← remote_downloadKey;
  Some (newSecret (RemoteContainersSecretName agent) (remote_Namespace agent)
          SecretTypeDockerConfigJson {[ DockerConfigJsonKey := marshalJSON downloadKey ]}).
Definition NewRemoteContainerBuilder {W X} : ObjectBuilder W X :=
  remoteBuilder (if RemoteUseContainersSecret agent then OSecret <$> remote_buildContainerSecret
                 else None).
End ContainerSecret.

(** ** tls-secret/secret.go *)
Section TLSSecret.
Context (agent : InstanaAgentRemote).
Let tls := ag_Tls (rspec_Agent (remote_Spec agent)).

Definition remote_buildTLSSecret : Secret :=
  newSecret (RemoteTLSSecretName agent) (remote_Namespace agent) SecretTypeTLS
    (<[TLSPrivateKeyKey := tls_Key tls]> {[ TLSCertKey := tls_Certificate tls ]}).
Definition NewRemoteTLSSecretBuilder {W X} : ObjectBuilder W X :=
  remoteBuilder (if String.eqb (tls_SecretName tls) "" &&
                    (0 <? String.length (tls_Key tls)) &&
                    (0 <? String.length (tls_Certificate tls))
                 then Some (OSecret remote_buildTLSSecret) else None).
End TLSSecret.

(** ** serviceaccount/serviceaccount.go *)
Definition RemoteServiceAccount := "instana-agent-remote".
Definition remote_buildServiceAccount (agent : InstanaAgentRemote) : ServiceAccount :=
  {| sa_Meta := (NewObjectMeta RemoteServiceAccount (remote_Namespace agent))
       <| om_Annotations := sas_Annotations (rspec_ServiceAccount (remote_Spec agent)) |> |}.
Definition NewRemoteServiceAccountBuilder {W X} (agent : InstanaAgentRemote) : ObjectBuilder W X :=
  remoteBuilder (if Pointer.DerefOrEmpty (sas_Create (rspec_ServiceAccount (remote_Spec agent)))
                 then Some (OServiceAccount (remote_buildServiceAccount agent)) else None).

(** ** Facts *)

(** *** Entries of the keys secret *)
Lemma addFile_ne mounts name value data key :
  key ≠ name → addFile mounts name value data !! key = data !! key.
Proof. intros Hn. unfold addFile. destruct mounts; [by apply lookup_insert_ne|done]. Qed.
Lemma addFileIfPresent_ne mounts name value data key :
  key ≠ name → addFileIfPresent mounts name value data !! key = data !! key.
Proof.
  intros Hn. unfold addFileIfPresent, Optional.IfPresent.
  destruct (Optional.IsPresent _); [by apply addFile_ne|done].
Qed.
Lemma addFileIfPresent_same name value data :
  value ≠ "" → addFileIfPresent true name value data !! name = Some value.
Proof.
  intros Hv%String.eqb_neq. unfold addFileIfPresent, Optional.IfPresent, Optional.IsPresent,
    Optional.IsNotPresent. simpl. rewrite Hv. simpl. apply lookup_insert_eq.
Qed.
Lemma present_spec s : present s = true ↔ s ≠ "".
Proof. unfold present. by rewrite negb_true_iff, String.eqb_neq. Qed.

Section Mounted.
Context (agent : InstanaAgentRemote).
Let ag := rspec_Agent (remote_Spec agent).

(** What counts only when a proxy is configured. *)
Definition when_proxy (value : string) : string := if present (ag_ProxyHost ag) then value else "".
(** The credentials of a remote agent: the entry of the generated secret, the
    file the pod reads and the value of the custom resource. *)
Definition remote_credentials : list (string * string * string) :=
  [(AgentKey, SecretFileAgentKey, ag_Key ag);
   (DownloadKey, SecretFileDownloadKey, ag_DownloadKey ag);
   (SecretKeyProxyUser, SecretFileProxyUser, when_proxy (ag_ProxyUser ag));
   (SecretKeyProxyPassword, SecretFileProxyPassword, when_proxy (ag_ProxyPassword ag));
   (SecretKeyHttpsProxy, SecretFileHttpsProxy, httpsProxyValue agent);
   (SecretKeyMirrorReleaseRepoUsername, SecretFileMirrorReleaseRepoUsername,
    ag_MirrorReleaseRepoUsername ag);
   (SecretKeyMirrorReleaseRepoPassword, SecretFileMirrorReleaseRepoPassword,
    ag_MirrorReleaseRepoPassword ag);
   (SecretKeyMirrorSharedRepoUsername, SecretFileMirrorSharedRepoUsername,
    ag_MirrorSharedRepoUsername ag);
   (SecretKeyMirrorSharedRepoPassword, SecretFileMirrorSharedRepoPassword,
    ag_MirrorSharedRepoPassword ag)].
Definition given (c : string * string * string) : bool := present (snd c).
Definition as_item (c : string * string * string) : KeyToPath :=
  {| ktp_Key := fst (fst c); ktp_Path := snd (fst c) |}.

Lemma httpsProxyValue_present : present (httpsProxyValue agent) = present (ag_ProxyHost ag).
Proof.
  unfold httpsProxyValue, present. fold ag. destruct (String.eqb (ag_ProxyHost ag) ""); [done|].
  cbn [negb]. apply negb_true_iff, String.eqb_neq. unfold URL_String, remote_proxyURL. cbn [url_Scheme].
  assert (Hs : ValueOrDefault (ag_ProxyProtocol ag) "http" ≠ "")
    by (refine (Optional.ValueOrDefault_nonzero (ag_ProxyProtocol ag) "http" _); discriminate).
  unfold ValueOrDefault in Hs. fold ag. set (scheme := Optional.GetOrDefault _ _) in *.
  destruct (String.eqb_spec scheme "") as [Es|_]; [done|].
  destruct scheme; [done|]. discriminate.
Qed.

Lemma item_when_given k f v items :
  item_when (present v) k f items = items ++ (as_item <$> List.filter given [(k, f, v)]).
Proof. unfold item_when, given. cbn. destruct (present v); [done|]. by rewrite app_nil_r. Qed.

(** The items are the credentials that are given. *)
Lemma remote_secretsItems_eq :
  ag_Key ag ≠ "" → remote_secretsItems agent = as_item <$> List.filter given remote_credentials.
Proof.
  intros Hk%present_spec. unfold remote_secretsItems. fold ag.
  rewrite !item_when_given.
  assert (Ha : [{| ktp_Key := AgentKey; ktp_Path := SecretFileAgentKey |}] =
    as_item <$> List.filter given [(AgentKey, SecretFileAgentKey, ag_Key ag)])
    by (unfold given; cbn; by rewrite Hk).
  rewrite Ha. unfold remote_credentials, when_proxy. pose proof httpsProxyValue_present as Hp.
  destruct (present (ag_ProxyHost ag)).
  - assert (Hh : [{| ktp_Key := SecretKeyHttpsProxy; ktp_Path := SecretFileHttpsProxy |}] =
      as_item <$> List.filter given [(SecretKeyHttpsProxy, SecretFileHttpsProxy, httpsProxyValue agent)])
      by (unfold given; cbn; by rewrite Hp).
    rewrite Hh. rewrite <- !fmap_app, <- !List.filter_app. reflexivity.
  - rewrite <- !fmap_app, <- !List.filter_app. cbn [app List.filter given snd]. unfold given.
    cbn [snd]. by rewrite Hp.
Qed.

(** Each credential that is given is in the secret. *)
Lemma remote_getData_given c :
  remote_useSecretMounts agent = true → c ∈ remote_credentials → given c = true →
  remote_getData agent (getRemoteSensorBackends agent) !! fst (fst c) = Some (snd c).
Proof.
  intros Hm Hc Hg%present_spec. unfold remote_credentials in Hc. rewrite !elem_of_cons in Hc.
  unfold remote_getData. rewrite Hm. fold ag.
  destruct Hc as [->|Hc].
  { cbn [fst snd] in *.
    apply (addBackendKeys_backend true AgentKey (getRemoteSensorBackends agent)
             {| kb_ResourceSuffix := ""; kb_EndpointKey := ag_Key ag; kb_DownloadKey := ag_DownloadKey ag;
                kb_EndpointHost := ag_EndpointHost ag; kb_EndpointPort := ag_EndpointPort ag |}).
    - by right.
    - intros *. apply sensorBackends_suffix_inj.
    - by left.
    - done. }
  assert (Hw : ∀ v, when_proxy v ≠ "" → when_proxy v = v ∧ v ≠ "").
  { intros v. unfold when_proxy. by destruct (present _). }
  destruct (String.eqb_spec (httpsProxyValue agent) "") as [Ep|Ep]; cbn [negb];
  repeat destruct Hc as [->|Hc]; try (by apply elem_of_nil in Hc); cbn [fst snd] in *;
    try (apply Hw in Hg as [-> Hg]); try done;
    rewrite addBackendKeys_credential by reflexivity;
    rewrite ?addFile_ne by discriminate; rewrite ?addFileIfPresent_ne by discriminate;
    try (by apply addFileIfPresent_same); try apply lookup_insert_eq.
  all: apply String.eqb_neq in Hg; unfold Optional.IfPresent, Optional.IsPresent,
    Optional.IsNotPresent; simpl; rewrite Hg; simpl;
    rewrite lookup_insert_ne by discriminate; apply lookup_insert_eq.
Qed.
End Mounted.

(** *** The same configurations as the agent's *)
Lemma remote_backendConfig_step_eq (remote : InstanaAgentRemote) (agent : InstanaAgent) s config i b :
  rspec_Agent (remote_Spec remote) = spec_Agent (agent_Spec agent) →
  remote_backendConfig_step remote s config i b = backendConfig_step agent s config i b.
Proof.
  intros Hs. unfold remote_backendConfig_step, backendConfig_step, backendKey, remote_backendLines,
    backendLines, backendFile. rewrite Hs. cbv zeta. destruct (secret_lookup s _); [done|].
  destruct (String.eqb_spec (kb_EndpointKey b) "") as [E|E]; cbn [negb]; [done|].
  apply String.eqb_neq in E. by rewrite E.
Qed.

(** ** Properties *)

(** With secret mounts (the default), what the pod of a remote agent finds
    in its secret volume: the volume asks for entries of the secret the
    operator generates, every one of which exists, and the files are exactly
    the credentials the custom resource gives, under the names the agent
    reads; proxy user and password count only with a proxy. *)
Theorem remote_secretsVolume_files (agent : InstanaAgentRemote) :
  let ag := rspec_Agent (remote_Spec agent) in
  let secret := remote_buildKeysSecret agent (getRemoteSensorBackends agent) in
  remote_secretMountsOff agent = false → ag_KeysSecret ag = "" → ag_Key ag ≠ "" →
  ∃ vol items, fst (remote_secretsVolume agent) = Some vol ∧
    vol_Source vol =
      SecretSource (om_Name (sec_Meta secret)) items (Some mode_0400) (Some false) ∧
    (fun item => (ktp_Path item, secret_lookup secret (ktp_Key item))) <$> items =
    (fun c => (snd (fst c), Some (snd c))) <$> List.filter given (remote_credentials agent).
Proof.
  intros ag secret Hm Hs Hk. unfold remote_secretsVolume. rewrite Hm.
  do 2 eexists. split; [reflexivity|]. unfold remote_volumeSecretName. fold ag. rewrite Hs.
  split; [reflexivity|]. rewrite remote_secretsItems_eq by done. rewrite <- list_fmap_compose.
  apply list_fmap_ext. intros i c Hc%list_elem_of_lookup_2.
  apply list_elem_of_In, filter_In in Hc as [Hc%list_elem_of_In Hg]. cbn. f_equal.
  apply remote_getData_given; [|done|done]. revert Hm.
  unfold remote_secretMountsOff, remote_useSecretMounts. by destruct (rspec_UseSecretMounts _) as [[]|].
Qed.

Definition proxied_remote : InstanaAgentRemote :=
  example_remote <| remote_Spec ::= fun s => s <| rspec_Agent ::= fun a =>
    a <| ag_ProxyHost := "proxy" |> <| ag_ProxyUser := "me" |> |> |>.
Lemma remote_secretsVolume_files_witness :
  let secret := remote_buildKeysSecret proxied_remote (getRemoteSensorBackends proxied_remote) in
  ∃ vol items, fst (remote_secretsVolume proxied_remote) = Some vol ∧
    vol_Source vol =
      SecretSource (om_Name (sec_Meta secret)) items (Some mode_0400) (Some false) ∧
    (fun item => (ktp_Path item, secret_lookup secret (ktp_Key item))) <$> items =
    (fun c => (snd (fst c), Some (snd c))) <$> List.filter given (remote_credentials proxied_remote).
Proof.
  apply (remote_secretsVolume_files proxied_remote); [reflexivity|reflexivity|discriminate].
Defined.

(** The builders of the remote agent, written a second time in the source,
    agree with the agent's where they do the same: for equal agent
    specifications the sender configurations are equal, panics included, and
    so is the key the images are pulled with. *)
Theorem remote_secrets_equivalent (remote : InstanaAgentRemote) (agent : InstanaAgent) :
  rspec_Agent (remote_Spec remote) = spec_Agent (agent_Spec agent) →
  (∀ keysSecret backends,
     remote_backendConfig remote keysSecret backends = backendConfig agent keysSecret backends) ∧
  (∀ keysSecret, remote_downloadKey remote keysSecret = downloadKey agent keysSecret).
Proof.
  intros Hs. split; intros keysSecret; [|unfold remote_downloadKey, downloadKey; by rewrite Hs].
  intros backends. unfold remote_backendConfig, backendConfig. generalize 0%nat, (∅ : secret_data).
  induction backends as [|b backends IH]; intros i config; [done|]. simpl.
  destruct keysSecret as [s|]; [|done]. by rewrite (remote_backendConfig_step_eq remote agent), IH.
Qed.

Lemma remote_secrets_equivalent_witness :
  let agent := example_agent <| agent_Spec ::= fun s =>
    s <| spec_Agent := rspec_Agent (remote_Spec proxied_remote) |> |> in
  (∀ keysSecret backends,
     remote_backendConfig proxied_remote keysSecret backends = backendConfig agent keysSecret backends) ∧
  (∀ keysSecret, remote_downloadKey proxied_remote keysSecret = downloadKey agent keysSecret).
Proof. intros agent. exact (remote_secrets_equivalent proxied_remote agent eq_refl). Defined.
