(* ===== verification/Hostname.v ===== *)
(** * Host names of the remote agent's pods: sanitizeHostname of
    builders/remote-agent/deployment/deployment.go

    The function works on the runes of a Go string; [decodeRunes] is the
    decoding that [strings.ToLower] and [regexp] share: a byte that starts no
    well-formed UTF-8 sequence counts as one rune, U+FFFD. *)
From S2P Require Import Prelude GoStd.

(** ** unicode/utf8 *)
Definition RuneError : N := 65533.

Section Utf8.
Local Open Scope N_scope.

Definition in_range (lo hi x : N) : bool := (lo <=? x) && (x <=? hi).
(** The second byte admitted after a first byte of a sequence of three or four. *)
Definition second_byte (b0 b1 : N) : bool :=
  if b0 =? 0xE0 then in_range 0xA0 0xBF b1
  else if b0 =? 0xED then in_range 0x80 0x9F b1
  else if b0 =? 0xF0 then in_range 0x90 0xBF b1
  else if b0 =? 0xF4 then in_range 0x80 0x8F b1
  else in_range 0x80 0xBF b1.
Definition continuation (b : N) : bool := in_range 0x80 0xBF b.
Definition six (b : N) : N := b mod 64.

Fixpoint decodeRunes (bytes : list N) : list N :=
  match bytes with
  | [] => []
  | b0 :: l1 =>
      if b0 <? 0x80 then b0 :: decodeRunes l1
      else if in_range 0xC2 0xDF b0 then
        match l1 with
        | b1 :: l2 =>
            if continuation b1 then (b0 mod 32) * 64 + six b1 :: decodeRunes l2
            else RuneError :: decodeRunes l1
        | [] => RuneError :: decodeRunes l1
        end
      else if in_range 0xE0 0xEF b0 then
        match l1 with
        | b1 :: b2 :: l3 =>
            if second_byte b0 b1 && continuation b2
            then (b0 mod 16) * 4096 + six b1 * 64 + six b2 :: decodeRunes l3
            else RuneError :: decodeRunes l1
        | _ => RuneError :: decodeRunes l1
        end
      else if in_range 0xF0 0xF4 b0 then
        match l1 with
        | b1 :: b2 :: b3 :: l4 =>
            if second_byte b0 b1 && continuation b2 && continuation b3
            then (b0 mod 8) * 262144 + six b1 * 4096 + six b2 * 64 + six b3 :: decodeRunes l4
            else RuneError :: decodeRunes l1
        | _ => RuneError :: decodeRunes l1
        end
      else RuneError :: decodeRunes l1
  end.

(** [unicode.ToLower] as far as the result is ASCII: the capital letters,
    U+0130 (to i) and U+212A (to k).  Where Unicode maps a rune to another
    one outside ASCII the identity stands for it: both are replaced next. *)
Definition ToLowerRune (r : N) : N :=
  if in_range 65 90 r then r + 32
  else if r =? 0x130 then 105
  else if r =? 0x212A then 107
  else r.

(** The classes [[a-z0-9]] and [[a-z0-9-]] of the regular expressions. *)
Definition alnum (r : N) : bool := in_range 97 122 r || in_range 48 57 r.
Definition hyphen : N := 45.
Definition hostname_rune (r : N) : bool := alnum r || (r =? hyphen).
End Utf8.

Definition bytes_of (s : string) : list N := N_of_ascii <$> String.list_ascii_of_string s.
Definition of_bytes (l : list N) : string := String.string_of_list_ascii (ascii_of_N <$> l).

(** ** sanitizeHostname *)

(** The first two steps: lower case, and [-] for every other rune. *)
Definition replaceInvalid (hostname : string) : list N :=
  (fun r => if hostname_rune r then r else hyphen) <$> (ToLowerRune <$> decodeRunes (bytes_of hostname)).

Definition starts_alnum (l : list N) : bool := match l with r :: _ => alnum r | [] => false end.
Definition ends_alnum (l : list N) : bool := match last l with Some r => alnum r | None => false end.
Definition rune_a : N := 97.
Definition rune_0 : N := 48.

Definition sanitizeHostname (hostname : string) : string :=
  let hostname := replaceInvalid hostname in
  let hostname :=
    if (0 <? length hostname) && negb (starts_alnum hostname) then rune_a :: hostname else hostname in
  let hostname :=
    if (0 <? length hostname) && negb (ends_alnum hostname) then hostname ++ [rune_0] else hostname in
  let hostname :=
    if 63 <? length hostname then
      let hostname := take 63 hostname in
      if negb (ends_alnum hostname) then take 62 hostname ++ [rune_0] else hostname
    else hostname in
  of_bytes hostname.

Example sanitize_dots : sanitizeHostname "My_Host.example.com." = "my-host-example-com-0".
Proof. reflexivity. Qed.
(** U+212A and a capital umlaut, in UTF-8. *)
Example sanitize_utf8 :
  sanitizeHostname (of_bytes [0xE2; 0x84; 0xAA; 0xC3; 0x84; 0x42]%N) = "k-b".
Proof. reflexivity. Qed.

(** ** DNS labels

    What the API server admits as the host name of a pod (RFC 1123). *)
Definition is_label (s : string) : bool :=
  let l := bytes_of s in
  (0 <? length l) && (length l <=? 63) && forallb hostname_rune l && starts_alnum l && ends_alnum l.

(** ** Facts *)
Lemma alnum_bound r : hostname_rune r = true → (r < 128)%N.
Proof.
  unfold hostname_rune, alnum, in_range, hyphen. rewrite !orb_true_iff, !andb_true_iff, !N.leb_le, N.eqb_eq.
  lia.
Qed.
Lemma hostname_rune_alnum r : alnum r = true → hostname_rune r = true.
Proof. unfold hostname_rune. by intros ->. Qed.

Lemma bytes_of_of_bytes l : Forall (fun r => (r < 256)%N) l → bytes_of (of_bytes l) = l.
Proof.
  intros Hl. unfold bytes_of, of_bytes. rewrite String.list_ascii_of_string_of_list_ascii.
  rewrite <- list_fmap_compose. induction Hl as [|r l Hr _ IH]; [done|]. cbn.
  rewrite N_ascii_embedding by done. f_equal. exact IH.
Qed.
Lemma of_bytes_bytes_of s : of_bytes (bytes_of s) = s.
Proof.
  unfold bytes_of, of_bytes. rewrite <- list_fmap_compose.
  rewrite <- (String.string_of_list_ascii_of_string s) at 2. f_equal.
  induction (String.list_ascii_of_string s) as [|c l IH]; [done|]. cbn. rewrite ascii_N_embedding.
  f_equal. exact IH.
Qed.

Lemma hostname_bytes l : Forall (fun r => hostname_rune r = true) l → bytes_of (of_bytes l) = l.
Proof. intros Hl. apply bytes_of_of_bytes. eapply Forall_impl; [exact Hl|]. intros r Hr%alnum_bound. lia. Qed.

(** A list of runes is a label once it has a good length, runes and ends. *)
Lemma is_label_of_bytes l :
  Forall (fun r => hostname_rune r = true) l →
  is_label (of_bytes l) =
  (0 <? length l) && (length l <=? 63) && starts_alnum l && ends_alnum l.
Proof.
  intros Hl. unfold is_label. rewrite hostname_bytes by done.
  assert (forallb hostname_rune l = true) as ->.
  { apply forallb_forall. rewrite Forall_forall in Hl. intros r Hr. apply Hl. by apply list_elem_of_In. }
  by rewrite andb_true_r.
Qed.

(** ASCII bytes are their own runes. *)
Lemma decodeRunes_ascii l : Forall (fun b => (b < 128)%N) l → decodeRunes l = l.
Proof.
  induction 1 as [|b l Hb _ IH]; [done|]. simpl. rewrite (proj2 (N.ltb_lt b 128)) by done. by rewrite IH.
Qed.
Lemma decodeRunes_nonempty l : l ≠ [] → decodeRunes l ≠ [].
Proof.
  destruct l as [|b0 l]; [done|]. intros _. cbn [decodeRunes].
  repeat case_match; done.
Qed.

Lemma replaceInvalid_runes s : Forall (fun r => hostname_rune r = true) (replaceInvalid s).
Proof.
  unfold replaceInvalid. rewrite Forall_fmap, Forall_forall. intros r _. simpl.
  by destruct (hostname_rune r) eqn:E.
Qed.
Lemma replaceInvalid_nonempty s : s ≠ "" → replaceInvalid s ≠ [].
Proof.
  intros Hs Hr. unfold replaceInvalid in Hr. apply fmap_nil_inv, fmap_nil_inv in Hr.
  apply (decodeRunes_nonempty (bytes_of s)); [|done]. by destruct s.
Qed.
Lemma ToLowerRune_hostname r : hostname_rune r = true → ToLowerRune r = r.
Proof.
  unfold hostname_rune, alnum, ToLowerRune, in_range, hyphen.
  rewrite !orb_true_iff, !andb_true_iff, !N.leb_le, N.eqb_eq. intros Hr.
  destruct (N.leb_spec 65 r), (N.leb_spec r 90); simpl; try lia;
    repeat (case_match; [apply N.eqb_eq in H1 || apply N.eqb_eq in H2 || idtac|]); try done; lia.
Qed.
Lemma replaceInvalid_id s :
  Forall (fun r => hostname_rune r = true) (bytes_of s) → replaceInvalid s = bytes_of s.
Proof.
  intros Hs. unfold replaceInvalid. rewrite decodeRunes_ascii;
    [|eapply Forall_impl; [exact Hs|]; apply alnum_bound].
  rewrite <- list_fmap_compose. induction Hs as [|r l Hr _ IH]; [done|]. cbn.
  rewrite ToLowerRune_hostname, Hr by done. f_equal. exact IH.
Qed.

(** *** The later steps *)
Lemma starts_alnum_app l k : l ≠ [] → starts_alnum (l ++ k) = starts_alnum l.
Proof. by destruct l. Qed.
Lemma starts_alnum_take n l : (0 < n)%nat → starts_alnum (take n l) = starts_alnum l.
Proof. destruct n; [lia|]. by destruct l. Qed.
Lemma ends_alnum_snoc l r : ends_alnum (l ++ [r]) = alnum r.
Proof. unfold ends_alnum. by rewrite last_snoc. Qed.

(** What is kept from step to step. *)
Record label_so_far (start_ok end_ok : bool) (l : list N) : Prop := {
  lf_runes : Forall (fun r => hostname_rune r = true) l;
  lf_nonempty : l ≠ [];
  lf_start : start_ok = true → starts_alnum l = true;
  lf_end : end_ok = true → ends_alnum l = true }.

Lemma fix_start l :
  label_so_far false false l →
  label_so_far true false
    (if (0 <? length l) && negb (starts_alnum l) then rune_a :: l else l).
Proof.
  intros [Hr Hn _ _]. destruct (Nat.ltb_spec 0 (length l)); [|by destruct l; simpl in *; try lia].
  destruct (starts_alnum l) eqn:E; simpl; [by split|]. by split; [constructor|..].
Qed.
Lemma snoc_label l b : label_so_far true b l → label_so_far true true (l ++ [rune_0]).
Proof.
  intros [Hr Hn Hs _]. split.
  - apply Forall_app. split; [done|by repeat constructor].
  - by destruct l.
  - intros _. rewrite starts_alnum_app by done. auto.
  - intros _. by rewrite ends_alnum_snoc.
Qed.
Lemma take_label n l b : (0 < n)%nat → label_so_far true b l → label_so_far true false (take n l).
Proof.
  intros Hp [Hr Hn Hs _]. split; [by apply Forall_take| | |done].
  - destruct n, l; try done; lia.
  - rewrite starts_alnum_take by done. auto.
Qed.
Lemma fix_end l :
  label_so_far true false l →
  label_so_far true true
    (if (0 <? length l) && negb (ends_alnum l) then l ++ [rune_0] else l).
Proof.
  intros Hl. destruct (Nat.ltb_spec 0 (length l)); [|by destruct Hl, l; simpl in *; try lia].
  destruct (ends_alnum l) eqn:E; simpl; [|by eapply snoc_label].
  by destruct Hl; split.
Qed.
Lemma truncate_label l :
  label_so_far true true l →
  let l' := if 63 <? length l then
              if negb (ends_alnum (take 63 l)) then take 62 (take 63 l) ++ [rune_0] else take 63 l
            else l in
  label_so_far true true l' ∧ (length l' ≤ 63)%nat.
Proof.
  intros Hl. cbv zeta. destruct (Nat.ltb_spec 63 (length l)) as [Hlen|Hlen]; [|done].
  pose proof (take_label 63 l true ltac:(lia) Hl) as H63.
  destruct (ends_alnum (take 63 l)) eqn:E; cbn [negb].
  - split; [by destruct H63; split|]. rewrite length_take. lia.
  - split; [|rewrite length_app, !length_take; change (length [rune_0]) with 1%nat; lia].
    eapply snoc_label, take_label; [lia|exact H63].
Qed.

Lemma label_so_far_is_label l :
  label_so_far true true l → (length l ≤ 63)%nat → is_label (of_bytes l) = true.
Proof.
  intros [Hr Hn Hs He] Hl. rewrite is_label_of_bytes by done. rewrite Hs, He by done.
  destruct l; [done|]. rewrite (proj2 (Nat.leb_le _ _) Hl). done.
Qed.
Lemma is_label_so_far s :
  is_label s = true → label_so_far true true (bytes_of s) ∧ (length (bytes_of s) ≤ 63)%nat.
Proof.
  unfold is_label. rewrite !andb_true_iff, Nat.ltb_lt, Nat.leb_le, forallb_forall.
  intros ((((Hn & Hl) & Hr) & Hs) & He). split; [|done]. split; [|by destruct (bytes_of s); simpl in *; [lia|]|done..].
  apply Forall_forall. intros r Hin. apply Hr. by apply list_elem_of_In.
Qed.

Lemma sanitizeHostname_is_label s : is_label (sanitizeHostname s) = negb (String.eqb s "").
Proof.
  destruct (String.eqb_spec s "") as [->|Hs]; [done|]. unfold sanitizeHostname.
  assert (H0 : label_so_far false false (replaceInvalid s))
    by (split; [apply replaceInvalid_runes|by apply replaceInvalid_nonempty|done|done]).
  apply fix_start, fix_end, truncate_label in H0 as [H0 Hl]. by apply label_so_far_is_label.
Qed.

(** ** Properties *)

(** C34: [sanitizeHostname] gives a DNS label (1 to 63 bytes, lower case letters,
    digits and hyphens, ending in no hyphen) for every host name that is not
    empty, whatever bytes it is made of, and leaves labels alone. *)
Theorem sanitizeHostname_label s :
  is_label (sanitizeHostname s) = negb (String.eqb s "") ∧
  (is_label s = true → sanitizeHostname s = s).
Proof.
  split; [apply sanitizeHostname_is_label|].
  intros [[Hr Hn Hs He] Hl]%is_label_so_far. unfold sanitizeHostname.
  rewrite replaceInvalid_id, Hs by done. rewrite andb_false_r. cbn zeta. rewrite He by done.
  rewrite andb_false_r. destruct (Nat.ltb_spec 63 (length (bytes_of s))); [lia|].
  apply of_bytes_bytes_of.
Qed.

Lemma sanitizeHostname_label_witness :
  is_label "my-host" = true ∧
  is_label (sanitizeHostname "my-host") = negb (String.eqb "my-host" "") ∧
  (is_label "my-host" = true → sanitizeHostname "my-host" = "my-host").
Proof. split; [reflexivity|]. exact (sanitizeHostname_label "my-host"). Defined.
