(* ===== verification/RemoteDeployment.v ===== *)
(** * The remote agent's deployment: builders/remote-agent/deployment/deployment.go

    The pod labels are treated as in DaemonSet.v: the source writes the agent
    mode into the map of the custom resource before copying it. *)
From S2P Require Import Prelude GoStd Errors K8sTypes ApiTypes Effects Cluster Client.
From S2P Require Import Transformations Helpers EnvBuilder DaemonSet Hostname RemoteVolumeBuilder RemoteEnvBuilder RemoteStatus RemoteObjects.

Definition RollingUpdateDeploymentStrategyType := "RollingUpdate".

(** The builder's backend and keys secret are never read; they are kept as
    the source keeps them. *)
Record remoteDeploymentBuilder := {
  rdb_agent : InstanaAgentRemote; rdb_backend : K8SensorBackend;
  rdb_keysSecret : option Secret; rdb_zone : option Zone }.

Definition remote_deployment_env_vars : list EnvVarRemote :=
  [AgentModeEnvRemote; ZoneNameEnvRemote; AgentEndpointEnvRemote; AgentEndpointPortEnvRemote;
   MavenRepoURLEnvRemote; MavenRepoFeaturesPathRemote; MavenRepoSharedPathRemote;
   MirrorReleaseRepoUrlEnvRemote; MirrorReleaseRepoUsernameEnvRemote;
   MirrorReleaseRepoPasswordEnvRemote; MirrorSharedRepoUrlEnvRemote;
   MirrorSharedRepoUsernameEnvRemote; MirrorSharedRepoPasswordEnvRemote;
   ProxyHostEnvRemote; ProxyPortEnvRemote; ProxyProtocolEnvRemote; ProxyUserEnvRemote;
   ProxyPasswordEnvRemote; ProxyUseDNSEnvRemote; ListenAddressEnvRemote;
   RedactK8sSecretsEnvRemote; ConfigPathEnvRemote; EntrypointSkipBackendTemplateGenerationRemote;
   InstanaAgentKeyEnvRemote; DownloadKeyEnvRemote; InstanaAgentPodNameEnvRemote; PodIPEnvRemote].
Definition remote_deployment_volumes : list RemoteVolume :=
  [ConfigVolumeRemote; TlsVolumeRemote; RepoVolumeRemote; SecretsVolumeRemote].

Section RemoteDeployment.
Context (d : remoteDeploymentBuilder) `{MapRange}.
Let agent := rdb_agent d.
Let ag := rspec_Agent (remote_Spec (rdb_agent d)).
Let zone := rdb_zone d.

(** [PodSelectorLabelsRemote] passes no zone, [NewEnvBuilderRemote] neither. *)
Definition rd_GetPodSelectorLabels : smap :=
  GetPodSelectorLabelsRemote (remote_Name agent) ComponentInstanaAgentRemote None.
Definition rd_getPodTemplateLabels : smap :=
  let podLabels := Optional.GetOrDefault (Optional.Of (pod_Labels (ag_Pod ag))) (Some ∅) in
  let podLabels :=
    <[LabelAgentMode := Optional.GetOrDefault (Optional.Of (ag_Mode ag)) APM]> (default ∅ podLabels) in
  GetPodLabelsRemote (remote_Name agent) ComponentInstanaAgentRemote None (Some podLabels).

Definition rd_baseEnvVars : list EnvVar := EnvBuilderRemote_Build agent None remote_deployment_env_vars.
Definition rd_envVarMap : gmap string EnvVar :=
  addEnvVars (pod_Env (ag_Pod ag)) (addEnvVars rd_baseEnvVars ∅).
Definition rd_getEnvVars : list EnvVar := SortEnvVarsByName (snd <$> map_to_list rd_envVarMap).

Definition rd_getVolumes : list K8sTypes.Volume * list VolumeMount :=
  VolumeBuilderRemote_Build agent remote_deployment_volumes.
Definition rd_getUserVolumes : list K8sTypes.Volume * list VolumeMount :=
  remote_BuildFromUserConfig agent.

Definition rd_getName : string :=
  match zone with
  | None => remote_Name agent
  | Some z => remote_Name agent +++ "-" +++ zone_Name z
  end.
Definition getHostName : string :=
  let default_name := "instana-agent-r-" +++ rd_getName +++ "-" +++ remote_Namespace agent in
  match rspec_Hostname (remote_Spec agent) with
  | Some name => if negb (String.eqb name "") then sanitizeHostname name else default_name
  | None => default_name
  end.
Definition rd_getNonStandardLabels : option smap :=
  match zone with None => None | Some z => Some {[ ZoneLabel := zone_Name z ]} end.
Definition rd_getAffinity : json :=
  match zone with None => pod_Affinity (ag_Pod ag) | Some z => zone_Affinity z end.
Definition rd_getTolerations : list json :=
  match zone with None => pod_Tolerations (ag_Pod ag) | Some z => zone_Tolerations z end.
Definition rd_getLivenessProbe : Probe :=
  match pod_LivenessProbe (ag_Pod ag) with
  | Some probe => probe
  | None =>
      {| probe_HTTPGet := Some {| hga_Host := "127.0.0.1"; hga_Path := "/status";
                                  hga_Port := IntVal 42699 |};
         probe_OtherHandler := GoStd.zero; probe_InitialDelaySeconds := 600;
         probe_TimeoutSeconds := 5; probe_PeriodSeconds := 10;
         probe_SuccessThreshold := 0; probe_FailureThreshold := 6 |}
  end.

Definition rd_build : Deployment :=
  let '(volumes, volumeMounts) := rd_getVolumes in
  let '(userVolumes, userVolumeMounts) := rd_getUserVolumes in
  {| dp_Meta := (NewObjectMeta ("instana-agent-r-" +++ rd_getName) (remote_Namespace agent))
                  <| om_Labels := rd_getNonStandardLabels |>;
     dp_Replicas := Pointer.To 1%Z; dp_MinReadySeconds := 0;
     dp_Selector := rd_GetPodSelectorLabels;
     dp_Template :=
       {| pt_Labels := rd_getPodTemplateLabels;
          pt_Annotations := pod_Annotations (ag_Pod ag);
          pt_Spec :=
            {| ps_Volumes := volumes ++ userVolumes;
               ps_ServiceAccountName := "instana-agent-remote";
               ps_NodeSelector := pod_NodeSelector (ag_Pod ag);
               ps_HostNetwork := false; ps_HostPID := false;
               ps_PriorityClassName := pod_PriorityClassName (ag_Pod ag);
               ps_DNSPolicy := DNSClusterFirstWithHostNet;
               ps_ImagePullSecrets := RemoteImagePullSecrets agent;
               ps_Containers :=
                 [{| ct_Name := rd_getName; ct_Image := Image (ag_Image ag);
                     ct_ImagePullPolicy := im_PullPolicy (ag_Image ag);
                     ct_Command := []; ct_Args := []; ct_Env := rd_getEnvVars;
                     ct_VolumeMounts := volumeMounts ++ userVolumeMounts;
                     ct_Resources := ResourceRequirements_GetOrDefault (pod_Resources (ag_Pod ag));
                     ct_Ports := []; ct_Privileged := None;
                     ct_LivenessProbe := Some rd_getLivenessProbe |}];
               ps_FSGroup := None; ps_Hostname := getHostName; ps_Tolerations := rd_getTolerations;
               ps_Affinity := rd_getAffinity |} |};
     dp_StrategyType := RollingUpdateDeploymentStrategyType;
     dp_Status := {| dps_ObservedGeneration := 0; dps_Conditions := [] |} |}.

(** The cases of the switch in [Build]. *)
Definition rd_isOmitted : bool :=
  (String.eqb (ag_Key ag) "" && String.eqb (ag_KeysSecret ag) "") ||
  match zone with
  | None => String.eqb (rspec_Zone (remote_Spec agent)) ""
  | Some _ => true
  end.
Definition RemoteDeployment_builder {W} : ObjectBuilder W instanaAgentRemoteStatusManager :=
  {| Build :=
       if rd_isOmitted then mret None
       else
         let dp := ODeployment rd_build in
         _ ← modifyLocal (AddAgentDeployment (object_key dp));
         mret (Some dp);
     ComponentName := ComponentInstanaAgentRemote; IsNamespaced := true |}.
End RemoteDeployment.

Definition NewRemoteDeploymentBuilder (agent : InstanaAgentRemote) (backend : K8SensorBackend)
    (keysSecret : option Secret) : remoteDeploymentBuilder :=
  {| rdb_agent := agent; rdb_backend := backend; rdb_keysSecret := keysSecret; rdb_zone := None |}.

(** ** Facts *)

Lemma GetPodSelectorLabelsRemote_subseteq name component zone user :
  GetPodSelectorLabelsRemote name component zone ⊆ GetPodLabelsRemote name component zone user.
Proof.
  unfold GetPodSelectorLabelsRemote, GetPodLabelsRemote. destruct zone as [z|].
  - apply insert_mono. repeat apply insert_subseteq_l; [..|apply map_empty_subseteq];
      rewrite ?lookup_insert_ne by done; apply lookup_insert_eq.
  - repeat apply insert_subseteq_l; [..|apply map_empty_subseteq];
      rewrite ?lookup_insert_ne by done; apply lookup_insert_eq.
Qed.

Section Facts.
Context (d : remoteDeploymentBuilder) `{MapRange}.

Lemma rd_build_fields :
  dp_Meta (rd_build d) =
    (NewObjectMeta ("instana-agent-r-" +++ rd_getName d) (remote_Namespace (rdb_agent d)))
      <| om_Labels := rd_getNonStandardLabels d |> ∧
  dp_Selector (rd_build d) = rd_GetPodSelectorLabels d ∧
  pt_Labels (dp_Template (rd_build d)) = rd_getPodTemplateLabels d ∧
  ct_Env <$> ps_Containers (pt_Spec (dp_Template (rd_build d))) = [rd_getEnvVars d] ∧
  ps_Hostname (pt_Spec (dp_Template (rd_build d))) = getHostName d.
Proof. unfold rd_build. by destruct (rd_getVolumes d), (rd_getUserVolumes d). Qed.

(** Where the variables come from, later entries winning. *)
Notation rd_env_sources :=
  (rd_baseEnvVars d ++ pod_Env (ag_Pod (rspec_Agent (remote_Spec (rdb_agent d))))).
Lemma rd_getEnvVars_eq :
  rd_getEnvVars d = SortEnvVarsByName (snd <$> map_to_list (addEnvVars rd_env_sources ∅)).
Proof.
  unfold rd_getEnvVars. f_equal. f_equal. f_equal.
  unfold rd_envVarMap, addEnvVars. by rewrite foldl_app.
Qed.
Lemma rd_baseEnvVars_eq :
  rd_baseEnvVars d = EnvBuilderRemote_Build (rdb_agent d) None remote_deployment_env_vars.
Proof. reflexivity. Qed.
Lemma rd_baseEnvVars_elem `{!MapRangeLaws} e :
  remote_useSecretMounts (rdb_agent d) = true → e ∈ rd_baseEnvVars d →
  default ∅ (ag_Env (rspec_Agent (remote_Spec (rdb_agent d)))) !! ev_Name e = Some (ev_Value e) ∨
  ev_Name e ∉ secret_env_names ∧ from_secret e = false.
Proof.
  intros Hm. rewrite rd_baseEnvVars_eq, EnvBuilderRemote_Build_eq. intros He.
  apply elem_of_app in He as [He|He].
  - left. apply list_elem_of_fmap in He as ([n x] & -> & Hx). rewrite range_perm in Hx.
    by apply elem_of_map_to_list in Hx.
  - right. apply list_elem_of_omap in He as (v & _ & Hv). by eapply buildRemote_no_secrets.
Qed.
End Facts.

(** The backend and the keys secret are not used. *)
Lemma RemoteDeployment_backend_unused `{MapRange} {W} agent b1 b2 s1 s2 :
  RemoteDeployment_builder (W:=W) (NewRemoteDeploymentBuilder agent b1 s1) =
  RemoteDeployment_builder (NewRemoteDeploymentBuilder agent b2 s2).
Proof.
  cbv [RemoteDeployment_builder rd_isOmitted rd_build rd_getVolumes rd_getUserVolumes rd_getName
    rd_getNonStandardLabels rd_GetPodSelectorLabels rd_getPodTemplateLabels rd_getEnvVars
    rd_envVarMap rd_baseEnvVars getHostName rd_getTolerations rd_getAffinity rd_getLivenessProbe
    NewRemoteDeploymentBuilder rdb_agent rdb_zone]. reflexivity.
Qed.

Lemma AddAgentDeployment_elem key a : key ∈ remote_agentDeployments (AddAgentDeployment key a).
Proof.
  unfold AddAgentDeployment. destruct (GoList.Contains (remote_agentDeployments a) key) eqn:E.
  - by apply GoList.Contains_spec.
  - simpl. set_solver.
Qed.
Lemma AddAgentDeployment_idemp key a :
  AddAgentDeployment key (AddAgentDeployment key a) = AddAgentDeployment key a.
Proof.
  unfold AddAgentDeployment at 1.
  assert (GoList.Contains (remote_agentDeployments (AddAgentDeployment key a)) key = true) as ->; [|done].
  apply GoList.Contains_spec, AddAgentDeployment_elem.
Qed.

(** The names of the operator's own volumes, which depend on the custom
    resource: the TLS secret, the repository and the secret files are mounted
    when it asks for them. *)
Definition remote_volume_names (agent : InstanaAgentRemote) : list string :=
  let ag := rspec_Agent (remote_Spec agent) in
  ["config"] ++
  (if RemoteTLSIsEnabled agent then ["remote-agent-tls"] else []) ++
  (if decide (ag_HostRepository ag = "") then [] else ["repo"]) ++
  (if decide (rspec_UseSecretMounts (remote_Spec agent) = Some false) then [] else ["instana-secrets"]).

Lemma remote_volume_names_NoDup agent : NoDup (remote_volume_names agent).
Proof.
  unfold remote_volume_names. destruct (RemoteTLSIsEnabled agent); do 2 case_decide;
    apply (bool_decide_unpack _); by vm_compute.
Qed.
Lemma rd_getVolumes_names d :
  vol_Name <$> fst (rd_getVolumes d) = remote_volume_names (rdb_agent d) ∧
  vm_Name <$> snd (rd_getVolumes d) = remote_volume_names (rdb_agent d).
Proof.
  assert (Hv : vol_Name <$> fst (rd_getVolumes d) = remote_volume_names (rdb_agent d)).
  { unfold rd_getVolumes, remote_volume_names. rewrite VolumeBuilderRemote_Build_eq.
    cbn [fst omap list_omap remote_deployment_volumes].
    unfold remote_getBuilder, remote_tlsVolume, remote_repoVolume, remote_secretsVolume,
      remote_secretMountsOff.
    destruct (RemoteTLSIsEnabled _), (String.eqb_spec (ag_HostRepository (rspec_Agent
      (remote_Spec (rdb_agent d)))) ""), (rspec_UseSecretMounts _) as [[]|];
      repeat case_decide; done. }
  split; [done|]. rewrite <- Hv.
  pose proof (VolumeBuilderRemote_Build_mounts (rdb_agent d) remote_deployment_volumes) as Hm.
  unfold rd_getVolumes. by destruct (VolumeBuilderRemote_Build _ _).
Qed.
(** What the pod mounts: the operator's volumes, then the user's. *)
Lemma rd_build_volumes d `{MapRange} :
  let pod := ag_Pod (rspec_Agent (remote_Spec (rdb_agent d))) in
  ps_Volumes (pt_Spec (dp_Template (rd_build d))) = fst (rd_getVolumes d) ++ pod_Volumes pod ∧
  ct_VolumeMounts <$> ps_Containers (pt_Spec (dp_Template (rd_build d))) =
    [snd (rd_getVolumes d) ++ pod_VolumeMounts pod].
Proof. unfold rd_build. by destruct (rd_getVolumes d). Qed.

(** *** The default host name *)
Lemma bytes_of_app s t : bytes_of (s +++ t) = bytes_of s ++ bytes_of t.
Proof.
  unfold bytes_of. induction s as [|c s IH]; [done|]. rewrite string_app_cons. cbn. f_equal. exact IH.
Qed.
Lemma ends_alnum_app l k : k ≠ [] → ends_alnum (l ++ k) = ends_alnum k.
Proof.
  intros Hk. unfold ends_alnum. rewrite last_app. destruct k as [|r k] using rev_ind; [done|].
  by rewrite last_snoc.
Qed.

Lemma default_hostname_label (name namespace : string) :
  is_label ("instana-agent-r-" +++ name +++ "-" +++ namespace) =
  (String.length name + String.length namespace <=? 46) &&
  forallb hostname_rune (bytes_of name ++ bytes_of namespace) && ends_alnum (bytes_of namespace).
Proof.
  assert (Hl : ∀ s, length (bytes_of s) = String.length s).
  { intros s. unfold bytes_of. rewrite length_fmap. induction s as [|c s IH]; [done|]. simpl. by rewrite IH. }
  unfold is_label. rewrite !bytes_of_app.
  change (bytes_of "instana-agent-r-") with
    [105; 110; 115; 116; 97; 110; 97; 45; 97; 103; 101; 110; 116; 45; 114; 45]%N.
  change (bytes_of "-") with [45]%N. rewrite !length_app, !Hl, !forallb_app. cbn [length].
  assert (Hleb : (16 + (String.length name + (1 + String.length namespace)) <=? 63) =
    (String.length name + String.length namespace <=? 46)).
  { apply eq_bool_prop_intro. rewrite !Is_true_true, !Nat.leb_le. lia. }
  rewrite Hleb. rewrite !app_assoc. set (l := _ ++ [45%N]).
  assert (He : ends_alnum (l ++ bytes_of namespace) = ends_alnum (bytes_of namespace)).
  { destruct (bytes_of namespace) as [|r k] eqn:E; [|by apply ends_alnum_app].
    rewrite app_nil_r. unfold l. by rewrite ends_alnum_snoc. }
  rewrite He. cbn. by rewrite andb_true_r.
Qed.

(** ** Properties *)

(** The environment of the remote agent's container: names are distinct
    and sorted, the value of a name is the one given last, the user's pod.env
    winning over the operator's variables and the user's agent.env; and with
    secret mounts a variable named like a secret, or reading one, is one the
    user wrote. *)
Theorem rd_getEnvVars_spec `{MapRangeLaws} d :
  let agent := rdb_agent d in
  let ag := rspec_Agent (remote_Spec agent) in
  let envs := rd_getEnvVars d in
  StronglySorted env_le envs ∧ NoDup (ev_Name <$> envs) ∧
  (∀ e, e ∈ envs ↔ last_named (ev_Name e) (rd_baseEnvVars d ++ pod_Env (ag_Pod ag)) = Some e) ∧
  (remote_useSecretMounts agent = true → ∀ e, e ∈ envs →
     e ∈ pod_Env (ag_Pod ag) ∨ default ∅ (ag_Env ag) !! ev_Name e = Some (ev_Value e) ∨
     ev_Name e ∉ secret_env_names ∧ from_secret e = false).
Proof.
  intros agent ag envs. unfold envs. rewrite rd_getEnvVars_eq.
  destruct (collected_env_vars (rd_baseEnvVars d ++ pod_Env (ag_Pod ag))) as (Hs & Hn & Hl). split_and!; [done..|].
  intros Hm e He%Hl%last_named_elem.
  apply elem_of_app in He as [He|He]; [right; by apply (rd_baseEnvVars_elem d)|by left].
Qed.

Definition example_remote_builder : remoteDeploymentBuilder :=
  NewRemoteDeploymentBuilder example_remote
    (additionalBackend 0 {| be_EndpointHost := "h"; be_EndpointPort := "1"; be_Key := "k1" |}) None.
Lemma rd_getEnvVars_spec_witness :
  let agent := rdb_agent example_remote_builder in
  let ag := rspec_Agent (remote_Spec agent) in
  let envs := rd_getEnvVars example_remote_builder in
  StronglySorted env_le envs ∧ NoDup (ev_Name <$> envs) ∧
  (∀ e, e ∈ envs ↔
     last_named (ev_Name e) (rd_baseEnvVars example_remote_builder ++ pod_Env (ag_Pod ag)) = Some e) ∧
  (remote_useSecretMounts agent = true → ∀ e, e ∈ envs →
     e ∈ pod_Env (ag_Pod ag) ∨ default ∅ (ag_Env ag) !! ev_Name e = Some (ev_Value e) ∨
     ev_Name e ∉ secret_env_names ∧ from_secret e = false).
Proof. exact (rd_getEnvVars_spec example_remote_builder). Defined.

(** C35: the host name of the pod: one the user gives becomes a DNS label; the
    default one is used as it is, and is a label (as the API server demands)
    exactly when the names of the custom resource and its namespace have 46
    bytes together at most and no rune a label lacks, dots among them. *)
Theorem getHostName_label_iff agent backend keysSecret :
  let d := NewRemoteDeploymentBuilder agent backend keysSecret in
  is_label (getHostName d) = true ↔
  (∃ name, rspec_Hostname (remote_Spec agent) = Some name ∧ name ≠ "") ∨
  (rspec_Hostname (remote_Spec agent) ∈ [None; Some ""] ∧
   (String.length (remote_Name agent) + String.length (remote_Namespace agent) ≤ 46)%nat ∧
   forallb hostname_rune (bytes_of (remote_Name agent) ++ bytes_of (remote_Namespace agent)) = true ∧
   ends_alnum (bytes_of (remote_Namespace agent)) = true).
Proof.
  intros d. unfold getHostName. cbn [d rdb_agent NewRemoteDeploymentBuilder rd_getName rdb_zone].
  assert (Hd : is_label ("instana-agent-r-" +++ remote_Name agent +++ "-" +++ remote_Namespace agent) = true ↔
    (String.length (remote_Name agent) + String.length (remote_Namespace agent) ≤ 46)%nat ∧
    forallb hostname_rune (bytes_of (remote_Name agent) ++ bytes_of (remote_Namespace agent)) = true ∧
    ends_alnum (bytes_of (remote_Namespace agent)) = true)
    by (rewrite default_hostname_label, !andb_true_iff, Nat.leb_le; tauto).
  destruct (rspec_Hostname (remote_Spec agent)) as [name|].
  - destruct (String.eqb_spec name "") as [->|Hn]; cbn [negb].
    + rewrite Hd. split; [intros ?; right; split; [set_solver|done]|]. intros [(n & [= <-] & ?)|[_ ?]]; done.
    + rewrite sanitizeHostname_is_label, (proj2 (String.eqb_neq _ _) Hn).
      split; [intros _; left; by exists name|done].
  - rewrite Hd. split; [intros ?; right; split; [set_solver|done]|]. intros [(n & [=] & ?)|[_ ?]]; done.
Qed.

(** C40: the builder of a remote agent's deployment makes nothing exactly when
    the custom resource gives no zone, or neither a key nor a secret with
    keys; otherwise it makes a deployment named after the custom resource,
    whose selector selects the pods of its template, and registers it with the
    status manager.  The pod has the operator's volumes, which have distinct
    names, followed by the user's; its one container mounts each of the
    operator's once, followed by the user's mounts.  All the volumes have
    distinct names exactly when the user's have and none is named like one of
    the operator's.  The deployment is the same for every backend: a second
    one changes neither the object nor the registration. *)
Theorem RemoteDeployment_spec `{MapRange} {W} agent backend keysSecret
    (s : St W instanaAgentRemoteStatusManager) :
  let ag := rspec_Agent (remote_Spec agent) in
  let omitted := (ag_Key ag = "" ∧ ag_KeysSecret ag = "") ∨ rspec_Zone (remote_Spec agent) = "" in
  let names := remote_volume_names agent in
  let userNames := vol_Name <$> pod_Volumes (ag_Pod ag) in
  ∃ r x, Build (RemoteDeployment_builder (NewRemoteDeploymentBuilder agent backend keysSecret)) s =
      (Ret r, MkSt (world s) (trace s) x) ∧
    match r with
    | None => omitted ∧ x = local s
    | Some o => ¬ omitted ∧ ∃ dp container own ownMounts, o = ODeployment dp ∧
        object_key o = Key (remote_Namespace agent) ("instana-agent-r-" +++ remote_Name agent) ∧
        dp_Selector dp ⊆ pt_Labels (dp_Template dp) ∧
        ps_Volumes (pt_Spec (dp_Template dp)) = own ++ pod_Volumes (ag_Pod ag) ∧
        ps_Containers (pt_Spec (dp_Template dp)) = [container] ∧
        ct_VolumeMounts container = ownMounts ++ pod_VolumeMounts (ag_Pod ag) ∧
        vol_Name <$> own = names ∧ vm_Name <$> ownMounts = names ∧ NoDup names ∧
        (NoDup (vol_Name <$> ps_Volumes (pt_Spec (dp_Template dp))) ↔
         NoDup userNames ∧ ∀ name, name ∈ userNames → name ∉ names) ∧
        object_key o ∈ remote_agentDeployments x ∧
        ∀ backend' keysSecret' (w : W) t, Build (RemoteDeployment_builder
          (NewRemoteDeploymentBuilder agent backend' keysSecret')) (MkSt w t x) = (Ret r, MkSt w t x)
    end.
Proof.
  intros ag omitted names userNames. set (d := NewRemoteDeploymentBuilder agent backend keysSecret).
  assert (Ho : rd_isOmitted d = true ↔ omitted).
  { unfold rd_isOmitted, omitted, ag. rewrite orb_true_iff, andb_true_iff. cbn [d NewRemoteDeploymentBuilder rdb_agent rdb_zone].
    by rewrite !String.eqb_eq. }
  unfold RemoteDeployment_builder at 1. cbn [Build].
  destruct (rd_isOmitted d) eqn:Eo; [destruct s; exists None, local; split_and!; [done|by apply Ho|done]|].
  exists (Some (ODeployment (rd_build d))). eexists. split; [reflexivity|].
  split; [by intros ?%Ho|].
  destruct (rd_build_fields d) as (Em & Es & Et & _), (rd_build_volumes d) as [Ev Ec].
  destruct (rd_getVolumes_names d) as [Hv Hm].
  destruct (ps_Containers _) as [|container [|]] eqn:Ecs; try discriminate Ec. injection Ec as Ec.
  exists (rd_build d), container, (fst (rd_getVolumes d)), (snd (rd_getVolumes d)). split_and!; try done.
  - unfold object_key, object_name, object_namespace. cbn [object_meta]. by rewrite Em.
  - rewrite Es, Et. apply GetPodSelectorLabelsRemote_subseteq.
  - apply remote_volume_names_NoDup.
  - rewrite Ev, fmap_app, Hv, NoDup_app.
    pose proof (remote_volume_names_NoDup agent). unfold names, userNames. naive_solver.
  - apply AddAgentDeployment_elem.
  - intros b' k' w t. rewrite (RemoteDeployment_backend_unused agent b' backend k' keysSecret).
    fold d. unfold RemoteDeployment_builder. cbn [Build]. rewrite Eo.
    unfold mbind, M_bind, modifyLocal. simpl. by rewrite AddAgentDeployment_idemp.
Qed.
