(* ===== verification/RemoteControllers.v ===== *)
(** * The reconciliation of an InstanaAgentRemote

    controllers/remoteagent_controller.go, remote_agent.go, remote_apply.go,
    remote_cleanup.go and remote_finalizer.go. *)
From S2P Require Import Prelude GoStd Errors K8sTypes ApiTypes Effects Cluster Client.
From S2P Require Import Transformations Lifecycle RemoteLifecycle OperatorUtils Helpers Reconcile Etcd Secrets.
From S2P Require Import RemoteVolumeBuilder RemoteEnvBuilder RemoteStatus RemoteObjects RemoteDeployment Deferring.

Definition remoteFinalizers (agent : InstanaAgentRemote) : list string :=
  om_Finalizers (remote_Meta agent).
Definition remote_withFinalizers (l : list string) (agent : InstanaAgentRemote) : InstanaAgentRemote :=
  agent <| remote_Meta ::= fun m => m <| om_Finalizers := l |> |>.

Section RemoteReconcile.
Context {W X : Type} `{K8sApi W} `{ApiErrors} `{Finalizers}.
Notation M := (M W X).

(** ** remote_agent.go *)
Definition getInstanaAgentRemote (key : ObjectKey) : M (option InstanaAgentRemote * reconcileReturn) :=
  r ← doGet KInstanaAgentRemote key;
  mret match r with
       | inl agent => (Some agent, reconcileContinue)
       | inr e =>
           if IsNotFound (Some e) then (None, reconcileSuccess noRequeue)
           else (None, reconcileFailure (Some e))
       end.
(** Unlike the agent's, a resource that is gone is a failure. *)
Definition remote_updateAgent (agentOld agentNew : InstanaAgentRemote) : M reconcileReturn :=
  err ← doWrite (RPatchRemote agentNew agentOld);
  mret match err with
       | None => reconcileSuccess requeue
       | Some _ => reconcileFailure err
       end.

(** ** remote_cleanup.go *)
Definition remote_cleanupDependents (o : operatorUtils W X) (agentOld : InstanaAgentRemote) :
    M reconcileReturn :=
  let '(finalizers, removed) := RemoveFinalizer finalizerV3 (remoteFinalizers agentOld) in
  let agentNew := remote_withFinalizers finalizers agentOld in
  if negb removed then mret reconcileContinue
  else
    err ← remote_DeleteAll o;
    match err with
    | Some _ => mret (reconcileFailure err)
    | None => remote_updateAgent agentOld agentNew
    end.
Definition remote_cleanupNodeLabels : M unit :=
  let cmd := "kubectl label node --all pool-" in
  _ ← call (runCommand cmd) (ECommand cmd);
  mret tt.
Definition remote_handleDeletion (o : operatorUtils W X) (agent : InstanaAgentRemote) :
    M reconcileReturn :=
  _ ← remote_cleanupNodeLabels;
  match om_DeletionTimestamp (remote_Meta agent) with
  | None => mret reconcileContinue
  | Some _ =>
      cleanupDependentsRes ← remote_cleanupDependents o agent;
      if suppliesReconcileResult cleanupDependentsRes then mret cleanupDependentsRes
      else mret (reconcileSuccess noRequeue)
  end.

(** ** remote_finalizer.go *)
Definition remote_addOrUpdateFinalizers (agentOld : InstanaAgentRemote) : M reconcileReturn :=
  let '(finalizers, added) := AddFinalizer finalizerV3 (remoteFinalizers agentOld) in
  if added : bool then remote_updateAgent agentOld (remote_withFinalizers finalizers agentOld)
  else mret reconcileContinue.
End RemoteReconcile.

(** ** remote_apply.go *)
Section Builders.
Context {W : Type} `{K8sApi W} `{ApiErrors} `{Env} `{MapRange} `{Yaml}.
Notation M := (M W instanaAgentRemoteStatusManager).
Notation Builder := (ObjectBuilder W instanaAgentRemoteStatusManager).

Definition getInstanaAgentRemoteDeployments (agent : InstanaAgentRemote)
    (additionalBackends : list K8SensorBackend) (keysSecret : Secret) : list Builder :=
  (fun backend => RemoteDeployment_builder (NewRemoteDeploymentBuilder agent backend (Some keysSecret)))
    <$> additionalBackends.
Definition remote_allBuilders (agent : InstanaAgentRemote) (keysSecret : Secret)
    (additionalBackends : list K8SensorBackend) : list Builder :=
  getInstanaAgentRemoteDeployments agent additionalBackends keysSecret ++
  [NewRemoteConfigBuilder agent (Some keysSecret) additionalBackends;
   NewRemoteContainerBuilder agent (Some keysSecret);
   NewRemoteTLSSecretBuilder agent;
   NewRemoteServiceAccountBuilder agent;
   NewRemoteKeysSecretBuilder agent additionalBackends].
Definition remote_applyResources (agent : InstanaAgentRemote)
    (o : operatorUtils W instanaAgentRemoteStatusManager) (keysSecret : Secret)
    (additionalBackends : list K8SensorBackend) : M reconcileReturn :=
  err ← remote_ApplyAll o (remote_allBuilders agent keysSecret additionalBackends);
  mret match err with
       | Some _ => reconcileFailure err
       | None => reconcileContinue
       end.
End Builders.

(** ** remoteagent_controller.go *)
Section Controller.
Context {W : Type} `{K8sApi W} `{ApiErrors} `{Env} `{MapRange} `{Yaml} `{DependentsCodec}.
Context `{Finalizers} `{Debug} `{Semver} `{StatusConditions}.
Notation M := (M W instanaAgentRemoteStatusManager).

(** The secret the user names, or an empty one. *)
Definition remote_getKeysSecret (agent : InstanaAgentRemote) : M Secret :=
  let name := ag_KeysSecret (rspec_Agent (remote_Spec agent)) in
  if negb (String.eqb name "") then
    r ← doGet KSecret (Key (remote_Namespace agent) name);
    mret (value_of zero_Secret r)
  else mret zero_Secret.

(** [reconcile] after the finalizer is in place. *)
Definition remote_reconcileResources (agent : InstanaAgentRemote)
    (o : operatorUtils W instanaAgentRemoteStatusManager) : M reconcileReturn :=
  keysSecret ← remote_getKeysSecret agent;
  res ← remote_applyResources agent o keysSecret (getRemoteSensorBackends agent);
  if suppliesReconcileResult res then mret res else mret (reconcileSuccess noRequeue).
(** [reconcile] once the custom resource was read; the source defaults it in
    place, after the status manager has copied it. *)
Definition reconcileRemote (agent : InstanaAgentRemote) : M reconcileReturn :=
  _ ← modifyLocal (remote_SetAgentOld agent);
  let agent := DefaultRemote agent in
  let o := NewRemoteOperatorUtils agent in
  handleDeletionRes ← remote_handleDeletion o agent;
  if suppliesReconcileResult handleDeletionRes then mret handleDeletionRes
  else
    addFinalizerRes ← remote_addOrUpdateFinalizers agent;
    if suppliesReconcileResult addFinalizerRes then mret addFinalizerRes
    else remote_reconcileResources agent o.
Definition remote_reconcile (key : ObjectKey) : M reconcileReturn :=
  r ← getInstanaAgentRemote key;
  let '(agent, getAgentRes) := r in
  if suppliesReconcileResult getAgentRes then mret getAgentRes
  else
    match agent with
    | Some agent => reconcileRemote agent
    | None => panic nil_dereference
    end.

Definition RemoteReconcile (key : ObjectKey) : M (ctrlResult * option error) :=
  _ ← modifyLocal (fun _ => NewInstanaAgentRemoteStatusManager);
  deferring remote_UpdateAgentStatus (ret ← remote_reconcile key; lift (reconcileResult ret)).
End Controller.

(** ** Facts *)

(** *** Deletion *)
Section DeletionFacts.
Context {W X : Type} `{K8sApi W} `{ApiErrors} `{Env} `{FinalizersLaws} `{DependentsCodec} `{MapRangeLaws}.
Implicit Types (agent : InstanaAgentRemote) (t : list event).

Lemma remote_updateAgent_emits (old new : InstanaAgentRemote) :
  emits (W:=W) (X:=X) (remote_updateAgent old new) (post (fun r t =>
    suppliesReconcileResult r = true ∧ ∃ e, t = [EWrite (RPatchRemote new old) e])
    (fun _ _ => False)).
Proof.
  unfold remote_updateAgent. do 3 emits_step. simpl. split; [by destruct a|by eexists].
Qed.

(** No patch in [t] drops the finalizer of the operator. *)
Definition remote_keeps_finalizer t : Prop :=
  ∀ new old e, EWrite (RPatchRemote new old) e ∈ t → finalizerV3 ∈ remoteFinalizers new.
(** The clean-up of a remote agent: one attempt that reported success. *)
Definition remote_cleanup_done agent t : Prop :=
  ∃ cm data' w t', cleaned_up (commonManager (NewRemoteDependentLifecycleManager agent)) [] None t cm data' w t'.

(** A patch that drops the operator's finalizer is the last event and directly
    follows a clean-up of all dependents that reported success. *)
Definition remote_cleaned_before_drop agent t : Prop :=
  remote_keeps_finalizer t ∨
  ∃ l u new old e, t = l ++ u ++ [EWrite (RPatchRemote new old) e] ∧
    remote_keeps_finalizer (l ++ u) ∧ remote_cleanup_done agent u ∧
    ∀ f, f ∈ remoteFinalizers new ↔ f ≠ finalizerV3 ∧ f ∈ remoteFinalizers agent.

Lemma remote_keeps_finalizer_cleanup d current t :
  cleanup_ok d current t → remote_keeps_finalizer t.
Proof. intros Ht new old e Hin. by specialize (Ht _ Hin). Qed.
Lemma remote_keeps_finalizer_app t u :
  remote_keeps_finalizer t → remote_keeps_finalizer u → remote_keeps_finalizer (t ++ u).
Proof. intros Ht Hu new old e [|]%elem_of_app; eauto. Qed.
Lemma remote_keeps_finalizer_command cmd a : remote_keeps_finalizer [ECommand cmd a].
Proof. intros new old e Hin%list_elem_of_singleton. done. Qed.

Lemma remote_handleDeletion_emits agent :
  finalizerV3 ∈ remoteFinalizers agent →
  emits (W:=W) (X:=X) (remote_handleDeletion (NewRemoteOperatorUtils agent) agent) (fun _ t =>
    remote_cleaned_before_drop agent t ∧
    (om_DeletionTimestamp (remote_Meta agent) = None → remote_keeps_finalizer t)).
Proof.
  intros Hv3. unfold remote_handleDeletion, remote_cleanupNodeLabels. do 4 emits_step.
  assert (Hcmd : remote_keeps_finalizer ([ECommand "kubectl label node --all pool-" a] ++ []))
    by (rewrite app_nil_r; apply remote_keeps_finalizer_command).
  destruct (om_DeletionTimestamp (remote_Meta agent)); [|emits_step; split; [by left|done]].
  unfold remote_cleanupDependents, remote_DeleteAll.
  pose proof (RemoveFinalizer_present _ _ Hv3) as Hrm.
  pose proof (RemoveFinalizer_elem finalizerV3 (remoteFinalizers agent)) as He.
  destruct (RemoveFinalizer finalizerV3 _) as [fs b]. simpl in Hrm, He. subst b. simpl negb. cbv iota.
  emits_step. eapply emits_seq; [apply (emits_same _ _ _ (RemoteCleanup_same _ [])),
    (cleanupOnce_emits (commonManager (NewRemoteDependentLifecycleManager agent)) [])| | |].
  2: intros p t [_ Ht%remote_keeps_finalizer_cleanup].
  3: intros t [_ Ht%remote_keeps_finalizer_cleanup].
  2, 3: split; [left|done]; by apply remote_keeps_finalizer_app.
  intros err u [Hu Hok%remote_keeps_finalizer_cleanup]. destruct err as [err|].
  { emits_step. cbv beta iota delta [suppliesReconcileResult reconcileFailure rr_res].
    emits_step. split; [left|done]. rewrite !app_nil_r. by apply remote_keeps_finalizer_app. }
  eapply emits_mono; [apply remote_updateAgent_emits|]. intros [r'|p|] t Ht; simpl in Ht; [|done..].
  destruct Ht as (Hs & e & ->). cbv beta iota. rewrite Hs. emits_step. split; [right|done].
  exists ([ECommand "kubectl label node --all pool-" a] ++ []), u.
  do 3 eexists. rewrite !app_nil_r. split_and!; [reflexivity|by apply (remote_keeps_finalizer_app [_])|exact Hu|].
  exact He.
Qed.
End DeletionFacts.

(** ** Properties *)

(** C7: handling the deletion of a remote agent, however the cluster answers:
    while it is not deleted no patch drops the operator's finalizer, and once
    it is, the only patch that may drop it is the last step, takes no other
    finalizer along, and directly follows a clean-up of all dependents that
    reported success. *)
Theorem remote_finalizer_dropped_after_cleanup {W X} `{K8sApi W} `{ApiErrors} `{Env}
    `{FinalizersLaws} `{DependentsCodec} `{MapRangeLaws} agent (s : St W X) out s' :
  remote_handleDeletion (NewRemoteOperatorUtils agent) agent s = (out, s') →
  finalizerV3 ∈ remoteFinalizers agent →
  ∃ t, trace s' = trace s ++ t ∧ remote_cleaned_before_drop agent t ∧
    (om_DeletionTimestamp (remote_Meta agent) = None → remote_keeps_finalizer t).
Proof.
  intros E Hv3. destruct (emits_run _ _ _ _ _ (remote_handleDeletion_emits agent Hv3) E)
    as (t & ? & ? & ?). eauto.
Qed.

Definition deleted_remote : InstanaAgentRemote :=
  example_remote <| remote_Meta ::= fun m =>
    m <| om_Finalizers := [finalizerV3] |> <| om_DeletionTimestamp := Some 7%Z |> |>.
Lemma remote_finalizer_dropped_after_cleanup_witness :
  ∃ out s' t, remote_handleDeletion (NewRemoteOperatorUtils deleted_remote) deleted_remote
      (start generation1_cluster tt) = (out, s') ∧ trace s' = [] ++ t ∧
    remote_cleaned_before_drop deleted_remote t ∧
    (om_DeletionTimestamp (remote_Meta deleted_remote) = None → remote_keeps_finalizer t).
Proof.
  destruct (remote_handleDeletion (NewRemoteOperatorUtils deleted_remote) deleted_remote
      (start generation1_cluster tt)) as [out s'] eqn:E.
  exists out, s'.
  destruct (remote_finalizer_dropped_after_cleanup deleted_remote (start generation1_cluster tt)
    out s' E) as (t & Ht & Hc & Hk); [left|].
  exists t. split; [reflexivity|]. split; [exact Ht|]. split; [exact Hc|exact Hk].
Defined.
