(* ===== verification/RemoteControllerProofs.v ===== *)
(** * What a reconciliation of a remote agent guarantees

    Termination and panic safety of its [Reconcile], what it reports, and the
    objects it applies. *)
From S2P Require Import Prelude GoStd Errors K8sTypes ApiTypes Effects Cluster Client.
From S2P Require Import Transformations Lifecycle RemoteLifecycle OperatorUtils StatusHelpers Helpers Reconcile Etcd Secrets.
From S2P Require Import EnvBuilder RemoteVolumeBuilder RemoteEnvBuilder RemoteStatus RemoteObjects RemoteDeployment.
From S2P Require Import Behaves Deferring Resources RemoteControllers.

#[export] Instance remoteStatusManager_observed : Observed instanaAgentRemoteStatusManager :=
  {| observation := option InstanaAgentRemote; observed := remote_agentOld |}.

(** ** Every step ends *)
Section Calls.
Context {W : Type} `{ClockLaws W} `{ApiErrors} `{Env} `{MapRange} `{Yaml} `{DependentsCodec}.
Context `{Finalizers} `{Debug} `{Semver} `{StatusConditions}.
Notation M := (M W instanaAgentRemoteStatusManager).

Lemma remote_updateAgent_behaves old new : behaves (remote_updateAgent old new : M _).
Proof. unfold remote_updateAgent. behaves_auto. Qed.
#[local] Hint Resolve remote_updateAgent_behaves : behaves.
Lemma remote_handleDeletion_behaves agent agent' :
  behaves (remote_handleDeletion (NewRemoteOperatorUtils agent) agent' : M _).
Proof.
  unfold remote_handleDeletion, remote_cleanupNodeLabels, remote_cleanupDependents, remote_DeleteAll.
  cbn [NewRemoteOperatorUtils ou_manager remoteManager dlm_Cleanup]. behaves_auto.
Qed.
Lemma remote_addOrUpdateFinalizers_behaves agent :
  behaves (remote_addOrUpdateFinalizers agent : M _).
Proof. unfold remote_addOrUpdateFinalizers. behaves_auto. Qed.
#[local] Hint Resolve remote_handleDeletion_behaves remote_addOrUpdateFinalizers_behaves : behaves.

Lemma AddAgentDeployment_old key a : remote_agentOld (AddAgentDeployment key a) = remote_agentOld a.
Proof. unfold AddAgentDeployment. by destruct (GoList.Contains (remote_agentDeployments a) key). Qed.
Lemma remote_allBuilders_behave agent keysSecret backends b :
  b ∈ remote_allBuilders (W:=W) agent keysSecret backends → behaves (Build b).
Proof.
  unfold remote_allBuilders, getInstanaAgentRemoteDeployments.
  rewrite elem_of_app, list_elem_of_fmap, !elem_of_cons.
  intros [(backend & -> & _)|[->|[->|[->|[->|[->|[]%elem_of_nil]]]]]];
    unfold RemoteDeployment_builder, NewRemoteConfigBuilder, NewRemoteContainerBuilder,
      NewRemoteTLSSecretBuilder, NewRemoteServiceAccountBuilder, NewRemoteKeysSecretBuilder, remoteBuilder;
    cbn [Build]; behaves_auto; auto using AddAgentDeployment_old.
Qed.
Lemma remote_reconcileResources_behaves agent agent' :
  behaves (remote_reconcileResources agent (NewRemoteOperatorUtils agent') : M _).
Proof.
  unfold remote_reconcileResources, remote_getKeysSecret, remote_applyResources. behaves_auto.
  all: apply remote_ApplyAll_behaves; intros b; apply remote_allBuilders_behave.
Qed.
#[local] Hint Resolve remote_reconcileResources_behaves : behaves.

(** What runs once the custom resource was read. *)
Definition remote_reconcileBody (agent : InstanaAgentRemote) : M (ctrlResult * option error) :=
  ret ← reconcileRemote agent; lift (reconcileResult ret).

Lemma remote_reconcileBody_ends agent s :
  fst (remote_reconcileBody agent s) ≠ OutOfFuel ∧
  trace s `prefix_of` trace (snd (remote_reconcileBody agent s)) ∧
  remote_agentOld (local (snd (remote_reconcileBody agent s))) = Some agent.
Proof.
  assert (Hb : behaves (ret ← (
    handleDeletionRes ← remote_handleDeletion (NewRemoteOperatorUtils (DefaultRemote agent))
                          (DefaultRemote agent);
    if suppliesReconcileResult handleDeletionRes then mret handleDeletionRes
    else
      addFinalizerRes ← remote_addOrUpdateFinalizers (DefaultRemote agent);
      if suppliesReconcileResult addFinalizerRes then mret addFinalizerRes
      else remote_reconcileResources (DefaultRemote agent)
             (NewRemoteOperatorUtils (DefaultRemote agent)));
    lift (reconcileResult ret) : M _)) by behaves_auto.
  destruct (Hb (MkSt (world s) (trace s) (remote_SetAgentOld agent (local s)))) as [Ho [Ht Hl]].
  split; [exact Ho|]. split; [exact Ht|exact Hl].
Qed.
End Calls.

(** ** What [Reconcile] tells *)
Section ReconcileRun.
Context {W : Type} `{ClockLaws W} `{ApiErrors} `{Env} `{MapRange} `{Yaml} `{DependentsCodec}.
Context `{Finalizers} `{Debug} `{Semver} `{StatusConditionsLaws}.
Notation M := (M W instanaAgentRemoteStatusManager).

(** How the outcome [o] of the body run on [old] becomes the status that is
    written last and the result. *)
Definition remote_told (old : InstanaAgentRemote) (o : outcome (ctrlResult * option error))
    (s2 s' : St W instanaAgentRemoteStatusManager) (res : ctrlResult) (err : option error) : Prop :=
  ∃ t new w reconcileErr,
    trace s' = trace s2 ++ t ++ [EWrite (RPatchRemoteStatus new old) w] ∧
    Forall status_event t ∧ remote_reports (local s2) old reconcileErr t new ∧
    match o with
    | Ret (r, e) => res = r ∧ reconcileErr = e ∧ (e ≠ None → err ≠ None) ∧
                    (err = None → reads_ok t ∧ w = None)
    | Panic _ => res = noRequeue ∧ reconcileErr = None ∧ err ≠ None
    | OutOfFuel => False
    end.

Lemma remote_deferring_run (m : M (ctrlResult * option error)) s o s2 old :
  m s = (o, s2) → o ≠ OutOfFuel → remote_agentOld (local s2) = Some old →
  ∃ res err s', deferring remote_UpdateAgentStatus m s = (Ret (res, err), s') ∧
    remote_told old o s2 s' res err.
Proof.
  intros E Hf Ho. destruct (deferring_run remote_UpdateAgentStatus m s o s2 E Hf)
    as (res & err & s' & told & r & Ed & Eu & Hc).
  { intros e. destruct (remote_UpdateAgentStatus_run e s2 old Ho) as (r & s' & _ & _ & _ & Er & _). eauto. }
  destruct (remote_UpdateAgentStatus_run told s2 old Ho)
    as (r' & s'' & t & new & w & Er & _ & Ht & Hev & Hr & Hn).
  rewrite Eu in Er. injection Er as <- <-. exists res, err, s'. split; [done|].
  exists t, new, w, told. split_and!; [done..|]. destruct o as [[r' e]|p|]; [|done..].
  destruct Hc as (? & ? & ? & Hok). split_and!; [done..|]. auto.
Qed.

(** What [reconcile] does with the answer to its read of the custom resource. *)
Lemma remote_reconcile_read key s :
  let '(r, w) := k8sGet KInstanaAgentRemote key (world s) in
  let s1 := MkSt w (trace s ++ [EGet KInstanaAgentRemote key r]) (local s) in
  (ret ← remote_reconcile key; lift (reconcileResult ret)) s =
  match r with
  | inl agent => remote_reconcileBody agent s1
  | inr e => (Ret (noRequeue, if IsNotFound (Some e) then None else Some e), s1)
  end.
Proof.
  unfold remote_reconcile, getInstanaAgentRemote, doGet, call. unfold mbind, M_bind.
  destruct (k8sGet KInstanaAgentRemote key (world s)) as [[agent|e] w]; simpl; [done|].
  by destruct (IsNotFound (Some e)).
Qed.

Lemma remote_deferring_no_agent (m : M (ctrlResult * option error)) s r e s2 :
  m s = (Ret (r, e), s2) → remote_agentOld (local s2) = None →
  deferring remote_UpdateAgentStatus m s = (Ret (r, e), s2).
Proof.
  intros E Ho. unfold deferring. rewrite E. unfold statusError, remote_UpdateAgentStatus, catching, getLocal.
  unfold mbind, M_bind. simpl. rewrite Ho. reflexivity.
Qed.
End ReconcileRun.

(** ** The objects *)
Section Objects.
Context {W : Type} `{K8sApi W} `{ApiErrors} `{Env} `{MapRange} `{Yaml}.
Notation Builder := (ObjectBuilder W instanaAgentRemoteStatusManager).
#[local] Notation makes := (makes (W:=W) (X:=instanaAgentRemoteStatusManager)).
Context (agent : InstanaAgentRemote) (keysSecret : Secret).
Let named (kind name : string) : GroupVersionKind * ObjectKey :=
  (GVK "" "v1" kind, Key (remote_Namespace agent) name).

Definition remote_deploymentIdentity : GroupVersionKind * ObjectKey :=
  (GVK "apps" "v1" "Deployment",
   Key (remote_Namespace agent) ("instana-agent-r-" +++ remote_Name agent)).
(** The identities of the other objects, in the order of the builders. *)
Definition remote_fixedIdentities : list (GroupVersionKind * ObjectKey) :=
  [named "Secret" ("instana-agent-r-" +++ remote_Name agent +++ "-config");
   named "Secret" ("instana-agent-r-" +++ remote_Name agent +++ "-containers-instana-io");
   named "Secret" (remote_Name agent +++ "-tls");
   named "ServiceAccount" RemoteServiceAccount;
   named "Secret" (remote_Name agent)].

Lemma RemoteDeployment_makes backend :
  makes (RemoteDeployment_builder (NewRemoteDeploymentBuilder agent backend (Some keysSecret)))
    remote_deploymentIdentity.
Proof.
  set (d := NewRemoteDeploymentBuilder _ _ _).
  exists (if rd_isOmitted d then None else Some (ODeployment (rd_build d))). split.
  - intros [w t x]. unfold RemoteDeployment_builder. cbn [Build].
    destruct (rd_isOmitted d); [by exists x|]. by eexists.
  - intros o. destruct (rd_isOmitted d); [done|]. intros [= <-].
    unfold identity, object_key, object_name, object_namespace. cbn [object_gvk object_meta].
    by destruct (rd_build_fields d) as (-> & _).
Qed.

Lemma remote_backendConfig_from_returns s i bs config :
  ∃ c, remote_backendConfig_from agent (Some s) i bs config = Value c.
Proof. revert i config. induction bs as [|b bs IH]; intros i config; simpl; [by eexists|apply IH]. Qed.
Lemma NewRemoteConfigBuilder_makes backends :
  makes (NewRemoteConfigBuilder agent (Some keysSecret) backends)
    (named "Secret" ("instana-agent-r-" +++ remote_Name agent +++ "-config")).
Proof.
  apply (makes_lift (remote_configData agent (Some keysSecret) backends)
    (fun data => OSecret (newSecret (remote_configName agent) (remote_Namespace agent)
                            SecretTypeOpaque data))); [| |done].
  - intros data [w t x] E. unfold NewRemoteConfigBuilder. cbn [Build]. rewrite E. by eexists.
  - unfold remote_configData, remote_backendConfig.
    destruct (remote_backendConfig_from_returns keysSecret 0 backends ∅) as [c ->]. by eexists.
Qed.

Lemma remote_fixedBuilders_make backends :
  Forall2 makes
    [NewRemoteConfigBuilder agent (Some keysSecret) backends;
     NewRemoteContainerBuilder agent (Some keysSecret); NewRemoteTLSSecretBuilder agent;
     NewRemoteServiceAccountBuilder agent; NewRemoteKeysSecretBuilder agent backends]
    remote_fixedIdentities.
Proof.
  unfold remote_fixedIdentities. repeat constructor.
  - apply NewRemoteConfigBuilder_makes.
  - eapply makes_ret; [reflexivity|]. intros o. unfold remote_buildContainerSecret.
    destruct (RemoteUseContainersSecret agent); [|done].
    destruct (remote_downloadKey agent (Some keysSecret)); [|done]. by intros [= <-].
  - eapply makes_ret; [reflexivity|]. intros o.
    destruct (String.eqb_spec (tls_SecretName (ag_Tls (rspec_Agent (remote_Spec agent)))) "") as [E|]; [|done].
    case_match; [|done]. intros [= <-]. unfold identity, object_key, object_name, object_namespace.
    simpl. unfold RemoteTLSSecretName, tlsSecretName. rewrite E. reflexivity.
  - eapply makes_ret; [reflexivity|]. intros o. destruct (Pointer.DerefOrEmpty _); [|done].
    by intros [= <-].
  - eapply makes_ret; [reflexivity|]. intros o. destruct (String.eqb _ _); [|done].
    by intros [= <-].
Qed.

(** The names of the secrets differ in length. *)
Lemma remote_identities_NoDup : NoDup (remote_deploymentIdentity :: remote_fixedIdentities).
Proof.
  unfold remote_fixedIdentities, remote_deploymentIdentity, named.
  repeat (apply NoDup_cons; split); [..|apply NoDup_nil_2];
    rewrite ?not_elem_of_cons; split_and?; try (by apply not_elem_of_nil);
    intros E; injection E; clear E; try discriminate; intros E;
    apply (f_equal String.length) in E; rewrite ?string_length_app in E; simpl in E; lia.
Qed.

Lemma remote_allBuilders_make backends :
  Forall2 makes (remote_allBuilders agent keysSecret backends)
    (replicate (length backends) remote_deploymentIdentity ++ remote_fixedIdentities).
Proof.
  unfold remote_allBuilders. apply Forall2_app; [|apply remote_fixedBuilders_make].
  unfold getInstanaAgentRemoteDeployments.
  induction backends as [|b backends IH]; simpl; constructor; [apply RemoteDeployment_makes|done].
Qed.
End Objects.

(** ** Properties *)

Definition managed_remote : InstanaAgentRemote :=
  example_remote <| remote_Meta ::= fun m => m <| om_Finalizers := [finalizerV3] |> |>.
Definition remote_key : ObjectKey := Key "ns" "remote".
Definition remote_start : St cluster instanaAgentRemoteStatusManager :=
  start (empty_cluster <| c_remote := Some managed_remote |>) NewInstanaAgentRemoteStatusManager.

(** C15: the reconciliation of a remote agent always returns, no panic escapes,
    and this is what it reports: it reads the resource; if that fails it says
    so, unless the resource does not exist; otherwise it runs its body and
    then writes the status once, at the very end, telling the error of the
    body, which is never dropped from the result.  Nil is returned only when
    the body, every read of the update and the patch worked: also a resource
    that the patch does not find any more, because its deletion was just
    completed, is an error. *)
Theorem RemoteReconcile_reports {W} `{ClockLaws W} `{ApiErrors} `{Env} `{MapRange} `{Yaml}
    `{DependentsCodec} `{Finalizers} `{Debug} `{Semver} `{StatusConditionsLaws}
    key (s : St W instanaAgentRemoteStatusManager) :
  ∃ res err s' r, RemoteReconcile key s = (Ret (res, err), s') ∧
    let t1 := trace s ++ [EGet KInstanaAgentRemote key r] in
    match r with
    | inr e => trace s' = t1 ∧ res = noRequeue ∧ err = if IsNotFound (Some e) then None else Some e
    | inl old => ∃ s1 s2 o, trace s1 = t1 ∧ local s1 = NewInstanaAgentRemoteStatusManager ∧
        remote_reconcileBody old s1 = (o, s2) ∧ trace s1 `prefix_of` trace s2 ∧
        remote_told old o s2 s' res err
    end.
Proof.
  unfold RemoteReconcile, modifyLocal. unfold mbind at 1, M_bind at 1.
  set (s0 := MkSt (world s) (trace s) NewInstanaAgentRemoteStatusManager).
  pose proof (remote_reconcile_read key s0) as Hr.
  destruct (k8sGet KInstanaAgentRemote key (world s0)) as [r w].
  set (m := ret ← remote_reconcile key; lift (reconcileResult ret)) in *.
  destruct r as [old|e].
  - set (s1 := MkSt w _ _) in Hr. destruct (remote_reconcileBody_ends old s1) as (Hf & Hp & Ho).
    destruct (remote_reconcileBody old s1) as [o s2] eqn:Eb. cbn [fst snd] in *.
    rewrite Eb in Hr. destruct (remote_deferring_run m s0 o s2 old Hr Hf Ho) as (res & err & s' & Ed & Ht).
    exists res, err, s', (inl old). split; [exact Ed|]. by exists s1, s2, o.
  - exists noRequeue, (if IsNotFound (Some e) then None else Some e). eexists _, (inr e).
    split; [by apply (remote_deferring_no_agent m)|]. done.
Qed.

Lemma RemoteReconcile_reports_witness :
  ∃ res err s' r, RemoteReconcile remote_key remote_start = (Ret (res, err), s') ∧
    let t1 := trace remote_start ++ [EGet KInstanaAgentRemote remote_key r] in
    match r with
    | inr e => trace s' = t1 ∧ res = noRequeue ∧ err = if IsNotFound (Some e) then None else Some e
    | inl old => ∃ s1 s2 o, trace s1 = t1 ∧ local s1 = NewInstanaAgentRemoteStatusManager ∧
        remote_reconcileBody old s1 = (o, s2) ∧ trace s1 `prefix_of` trace s2 ∧
        remote_told old o s2 s' res err
    end.
Proof. exact (RemoteReconcile_reports remote_key remote_start). Defined.

(** C19: [applyResources] of a remote agent never fails by a panic and runs the
    phases of [apply_run] on the objects of its builders: dry run, registration
    in the config map <name>-dependents, application, clean-up.  It reports
    what the phase it stopped in reports.  The identities of these objects are distinct but for the
    deployment, which is applied as often as there are backends. *)
Theorem remote_applyResources_applies {W} `{ClockLaws W} `{ApiErrors} `{Env} `{MapRangeLaws} `{Yaml}
    `{DependentsCodec} agent keysSecret (s : St W instanaAgentRemoteStatusManager) :
  let backends := getRemoteSensorBackends agent in
  let o := NewRemoteOperatorUtils agent in
  let builders := remote_allBuilders agent keysSecret backends in
  ∃ vs r s' err t, Forall2 Builds builders vs ∧
    remote_applyResources agent o keysSecret backends s = (Ret r, s') ∧ trace s' = trace s ++ t ∧
    apply_run (record_key (commonManager (NewRemoteDependentLifecycleManager agent)))
      (transformedAll o builders vs) err t ∧
    r = match err with Some _ => reconcileFailure err | None => reconcileContinue end ∧
    ∃ ks, NoDup (remote_deploymentIdentity agent :: ks) ∧
      identity <$> transformedAll o builders vs `sublist_of`
        replicate (length backends) (remote_deploymentIdentity agent) ++ ks.
Proof.
  intros backends o builders.
  destruct (makes_all o builders _ (remote_allBuilders_make agent keysSecret backends))
    as (vs & Hvs & Hsub).
  destruct (ApplyAll_runs o builders vs Hvs s) as (err & s' & E & _).
  destruct (emits_run _ _ _ _ _ (ApplyAll_emits o builders vs Hvs) E) as (t & Ht & Hr).
  unfold remote_applyResources. fold builders. rewrite remote_ApplyAll_eq. rewrite (bind_Ret _ _ _ _ _ E).
  exists vs. do 4 eexists. split_and!; [exact Hvs|done|exact Ht|exact Hr|done|].
  exists (remote_fixedIdentities agent). split; [apply remote_identities_NoDup|exact Hsub].
Qed.

Lemma remote_applyResources_applies_witness :
  let backends := getRemoteSensorBackends managed_remote in
  let o := NewRemoteOperatorUtils managed_remote in
  let builders := remote_allBuilders managed_remote zero_Secret backends in
  ∃ vs r s' err t, Forall2 Builds builders vs ∧
    remote_applyResources managed_remote o zero_Secret backends remote_start = (Ret r, s') ∧
    trace s' = trace remote_start ++ t ∧ apply_run (Key "ns" "remote-dependents") (transformedAll o builders vs) err t ∧
    r = match err with Some _ => reconcileFailure err | None => reconcileContinue end ∧
    ∃ ks, NoDup (remote_deploymentIdentity managed_remote :: ks) ∧
      identity <$> transformedAll o builders vs `sublist_of`
        replicate (length backends) (remote_deploymentIdentity managed_remote) ++ ks.
Proof. exact (remote_applyResources_applies managed_remote zero_Secret remote_start). Defined.

(** A remote agent whose deletion is completed: the finalizer is dropped, the
    resource is gone, and the reconciliation reports an error. *)
Example completed_deletion_is_an_error :
  let c := empty_cluster <| c_remote := Some (managed_remote <| remote_Meta ::= fun m =>
             m <| om_DeletionTimestamp := Some 7%Z |> |>) |>
           <| c_script := [None; None; Some NotFound] |> in
  match RemoteReconcile remote_key (start c NewInstanaAgentRemoteStatusManager) with
  | (Ret (res, Some e), s') => res = requeue ∧ IsNotFound (Some e) = true
  | _ => False
  end.
Proof. vm_compute. split; reflexivity. Qed.

(** Two remote agents of a namespace apply one service account, each as its
    controller. *)
Example service_account_shared :
  let other := example_remote <| remote_Meta ::= fun m => m <| om_Name := "other" |> <| om_UID := "3" |> |> in
  let account (a : InstanaAgentRemote) :=
    transform (NewTransformationsRemote a) ComponentInstanaAgentRemote true
      (OServiceAccount (remote_buildServiceAccount a)) in
  identity (account example_remote) = identity (account other) ∧
  om_OwnerReferences (object_meta (account example_remote)) ≠
  om_OwnerReferences (object_meta (account other)) ∧
  or_Controller <$> (om_OwnerReferences (object_meta (account example_remote)) ++
                     om_OwnerReferences (object_meta (account other))) = [Some true; Some true].
Proof. vm_compute. split; [reflexivity|split; [discriminate|reflexivity]]. Qed.
