(* ===== verification/Watches.v ===== *)
(** * What the controllers watch and what their cache holds

    [Add] of controllers/instanaagent_controller.go, [AddRemote] of
    remoteagent_controller.go and [getCacheOptions] of main.go: the kinds of
    objects whose events trigger a reconciliation, and of which kinds the
    operator sees only the objects that carry its label.  Both are data that
    controller-runtime interprets.  It is not part of the repository: its
    operations are a class, [ControllerRuntime], and what its documentation
    says of them a class of laws; likewise for its cache.  What the data lead
    to for the objects the operator applies is proved for every runtime and
    cache that keep these laws. *)
From S2P Require Import Prelude GoStd Errors K8sTypes ApiTypes Effects Cluster Client.
From S2P Require Import Transformations Lifecycle OperatorUtils StatusHelpers Status EventFilter Helpers Reconcile Etcd.
From S2P Require Import VolumeBuilder Secrets AgentObjects SensorObjects DaemonSet K8sDeployment.
From S2P Require Import Deferring Controllers Resources.
From S2P Require Import RemoteStatus RemoteObjects RemoteDeployment RemoteControllers.

(** ** Objects that are watched *)

(** The Go types given to the builder of a controller and to the cache. *)
Inductive object_type :=
  | TInstanaAgent | TInstanaAgentRemote | TNamespace | TDaemonSet | TDeployment
  | TConfigMap | TSecret | TService | TServiceAccount | TClusterRole
  | TClusterRoleBinding | TRole | TRoleBinding | TPodDisruptionBudget | TUnstructured.
#[export] Instance object_type_eq_dec : EqDecision object_type.
Proof. solve_decision. Defined.

Inductive watched_object :=
  | WatchedAgent (agent : InstanaAgent)
  | WatchedRemote (agent : InstanaAgentRemote)
  | WatchedNamespace (namespace : Namespace)
  | WatchedObject (obj : object).
Definition type_of_object (o : object) : object_type :=
  match o with
  | ODaemonSet _ => TDaemonSet | ODeployment _ => TDeployment
  | OConfigMap _ => TConfigMap | OSecret _ => TSecret
  | OService _ => TService | OServiceAccount _ => TServiceAccount
  | OClusterRole _ => TClusterRole | OClusterRoleBinding _ => TClusterRoleBinding
  | ORole _ => TRole | ORoleBinding _ => TRoleBinding
  | OPodDisruptionBudget _ => TPodDisruptionBudget | OUnstructured _ => TUnstructured
  end.
Definition type_of (w : watched_object) : object_type :=
  match w with
  | WatchedAgent _ => TInstanaAgent | WatchedRemote _ => TInstanaAgentRemote
  | WatchedNamespace _ => TNamespace | WatchedObject o => type_of_object o
  end.
Definition meta_of (w : watched_object) : ObjectMeta :=
  match w with
  | WatchedAgent a => agent_Meta a | WatchedRemote a => remote_Meta a
  | WatchedNamespace n => ns_Meta n | WatchedObject o => object_meta o
  end.
Definition key_of (w : watched_object) : ObjectKey :=
  Key (om_Namespace (meta_of w)) (om_Name (meta_of w)).

Inductive object_event :=
  | OCreate (obj : watched_object)
  | OUpdate (old new : watched_object)
  | ODelete (obj : watched_object) (stateUnknown : bool).
(** The event as the type switches of event_filter.go see it. *)
Definition filtered (w : watched_object) : watched :=
  match w with
  | WatchedAgent a => WInstanaAgent (agent_Meta a)
  | WatchedRemote a => WInstanaAgentRemote (remote_Meta a)
  | _ => WOther (meta_of w)
  end.
Definition filter_event (ev : object_event) : watch_event :=
  match ev with
  | OCreate w => CreateEvent (filtered w)
  | OUpdate old new => UpdateEvent (filtered old) (filtered new)
  | ODelete w unknown => DeleteEvent (filtered w) unknown
  end.
Definition event_objects (ev : object_event) : list watched_object :=
  match ev with OCreate w | ODelete w _ => [w] | OUpdate old new => [old; new] end.

(** ** Controllers *)

(** What a controller is built from: the arguments of [For], [Watches] and
    [Owns], in the order of the calls, and of [WithEventFilter]. *)
Record builder (handler predicate : Type) := {
  b_For : object_type;
  b_Watches : list (object_type * handler * list predicate);
  b_Owns : list object_type;
  b_EventFilter : watch_event → or_panic bool }.
Arguments b_For {_ _} _.
Arguments b_Watches {_ _} _.
Arguments b_Owns {_ _} _.
Arguments b_EventFilter {_ _} _.

(** What the controllers use of controller-runtime, and [metav1.GetControllerOf]
    of apimachinery, on which its documentation rests.  [requests b ev] are the
    objects that the controller built from [b] is asked to reconcile because of
    the event [ev]. *)
Class ControllerRuntime := {
  event_handler : Type;
  watch_predicate : Type;
  EnqueueRequestsFromMapFunc : (watched_object → list ObjectKey) → event_handler;
  LabelChangedPredicate : watch_predicate;
  handle : event_handler → object_event → list ObjectKey;
  passes : watch_predicate → object_event → bool;
  GetControllerOf : list OwnerReference → option OwnerReference;
  requests : builder event_handler watch_predicate → object_event → list ObjectKey }.

(** The group and kind under which api/v1 registers its custom resources. *)
Definition registeredKind (t : object_type) : option (string * string) :=
  match t with
  | TInstanaAgent => Some ("instana.io", "InstanaAgent")
  | TInstanaAgentRemote => Some ("instana.io", "InstanaAgentRemote")
  | _ => None
  end.

Record controller `{ControllerRuntime} (W X : Type) := {
  c_builder : builder event_handler watch_predicate;
  c_Reconcile : ObjectKey → M W X (ctrlResult * option error) }.
Arguments c_builder {_ W X} _.
Arguments c_Reconcile {_ W X} _.

(** The map function of the namespaces: a request for each agent of the list
    it reads; an error is only logged. *)
Definition namespaceRequests (agentList : list InstanaAgent + error) (_ : watched_object) :
    list ObjectKey :=
  match agentList with
  | inr _ => []
  | inl items => (fun agent => Key (agent_Namespace agent) (agent_Name agent)) <$> items
  end.

(** The types given to [Owns]. *)
Definition agentOwned : list object_type :=
  [TDaemonSet; TDeployment; TConfigMap; TSecret; TServiceAccount; TService;
   TPodDisruptionBudget; TClusterRole; TClusterRoleBinding].
Definition remoteOwned : list object_type :=
  [TDeployment; TConfigMap; TSecret; TServiceAccount; TService].

Section Controllers.
Context {W : Type} `{K8sApi W} `{ApiErrors} `{Env} `{MapRange} `{Yaml} `{DependentsCodec}.
Context `{Finalizers} `{HelmErrors} `{Debug} `{Semver} `{StatusConditions} `{ControllerRuntime}.

Definition Add (agentList : list InstanaAgent + error) : controller W agentStatusManager :=
  {| c_builder :=
       {| b_For := TInstanaAgent;
          b_Watches :=
            [(TNamespace, EnqueueRequestsFromMapFunc (namespaceRequests agentList),
              [LabelChangedPredicate])];
          b_Owns := agentOwned;
          b_EventFilter := filterPredicate |};
     c_Reconcile := Reconcile |}.
Definition AddRemote : controller W instanaAgentRemoteStatusManager :=
  {| c_builder :=
       {| b_For := TInstanaAgentRemote; b_Watches := []; b_Owns := remoteOwned;
          b_EventFilter := filterPredicateRemote |};
     c_Reconcile := RemoteReconcile |}.
End Controllers.

(** ** The cache: getCacheOptions *)

(** apimachinery's [labels.Parse]. *)
Class LabelParser := {
  ParsedSelector : Type;
  labels_Parse : string → ParsedSelector + error;
  parsed_Matches : ParsedSelector → smap → bool;
  valid_label : string → string → bool }.
(** Its documentation: [key=value] selects the labels with this value. *)
Class LabelParserLaws `{LabelParser} := {
  Parse_equality key value : valid_label key value = true →
    ∃ sel, labels_Parse (key +++ "=" +++ value) = inl sel ∧
      ∀ labels, parsed_Matches sel labels = true ↔ labels !! key = Some value
}.

(** [cache.Options.ByObject]: the label selector of each type, [None] for one
    that is cached whole. *)
Definition cacheOptions `{LabelParser} : Type := list (object_type * option ParsedSelector).
Definition getCacheOptions `{LabelParser} : cacheOptions + error :=
  match labels_Parse "app.kubernetes.io/managed-by=instana-agent-operator" with
  | inr err => inr err
  | inl managedByOperator => inl
      [(TInstanaAgent, None); (TInstanaAgentRemote, None); (TNamespace, None);
       (TDaemonSet, Some managedByOperator); (TDeployment, Some managedByOperator);
       (TServiceAccount, Some managedByOperator); (TPodDisruptionBudget, Some managedByOperator);
       (TClusterRole, Some managedByOperator); (TClusterRoleBinding, Some managedByOperator);
       (TConfigMap, None); (TSecret, None); (TService, None)]
  end.
(** controller-runtime's cache: what reads through it see of the objects in
    the cluster, once it is in step.  By the documentation of [ByObject], the
    label selector of a type restricts what is kept of it. *)
Class ObjectCache `{LabelParser} :=
  cache_reads : cacheOptions → list watched_object → list watched_object.
Class ObjectCacheLaws `{ObjectCache} :=
  cache_reads_iff options cluster w : NoDup (options.*1) →
    (w ∈ cache_reads options cluster ↔
     w ∈ cluster ∧
     ∀ sel, (type_of w, Some sel) ∈ options →
       parsed_Matches sel (default ∅ (om_Labels (meta_of w))) = true).

(** ** What the documentation of controller-runtime says *)

(** The object that is, or was, in the cluster after the event. *)
Definition event_subject (ev : object_event) : watched_object :=
  match ev with OCreate w | ODelete w _ | OUpdate _ w => w end.
Definition is_controller (ref : OwnerReference) : Prop := or_Controller ref = Some true.

Section Documentation.
Context `{ControllerRuntime}.
Implicit Types (b : builder event_handler watch_predicate) (ev : object_event) (key : ObjectKey).

(** [For]: reconcile the object itself. *)
Definition request_For b ev key : Prop :=
  type_of (event_subject ev) = b_For b ∧ key = key_of (event_subject ev).
(** [Owns]: reconcile the owner of the object, which is the controller of it
    and of the type given to [For]; it is looked for in the object's namespace. *)
Definition request_Owns b ev key : Prop :=
  type_of (event_subject ev) ∈ b_Owns b ∧
  ∃ w ref group kind version, w ∈ event_objects ev ∧ registeredKind (b_For b) = Some (group, kind) ∧
    GetControllerOf (om_OwnerReferences (meta_of w)) = Some ref ∧
    or_APIVersion ref = group +++ "/" +++ version ∧ or_Kind ref = kind ∧
    key = Key (om_Namespace (meta_of w)) (or_Name ref).
(** [Watches]: what the handler makes of the event, if all the predicates let
    it pass. *)
Definition request_Watches b ev key : Prop :=
  ∃ handler predicates,
    (type_of (event_subject ev), handler, predicates) ∈ b_Watches b ∧
    Forall (fun p => passes p ev = true) predicates ∧ key ∈ handle handler ev.

Class ControllerRuntimeLaws := {
  (** [WithEventFilter]: the filter of all the watches of the controller. *)
  requests_iff b ev key :
    key ∈ requests b ev ↔
    b_EventFilter b (filter_event ev) = Value true ∧
    (request_For b ev key ∨ request_Watches b ev key ∨ request_Owns b ev key);
  (** The function is run on the old and on the new object of an update. *)
  handle_MapFunc f ev key :
    key ∈ handle (EnqueueRequestsFromMapFunc f) ev ↔ ∃ w, w ∈ event_objects ev ∧ key ∈ f w;
  (** Updates that change no label are skipped. *)
  passes_LabelChanged ev :
    passes LabelChangedPredicate ev = true ↔
    match ev with
    | OUpdate old new => default ∅ (om_Labels (meta_of old)) ≠ default ∅ (om_Labels (meta_of new))
    | _ => True
    end;
  GetControllerOf_sound refs ref :
    GetControllerOf refs = Some ref → ref ∈ refs ∧ is_controller ref;
  GetControllerOf_none refs :
    GetControllerOf refs = None → Forall (fun ref => ¬ is_controller ref) refs
}.
End Documentation.
(** The event is about versions of this object: the type, the namespace and
    the owners are the same. *)
Definition about (o : object) (ev : object_event) : Prop :=
  Forall (fun w => type_of w = type_of_object o ∧
    om_Namespace (meta_of w) = object_namespace o ∧
    om_OwnerReferences (meta_of w) = om_OwnerReferences (object_meta o)) (event_objects ev).

(** ** Facts *)

(** *** New objects *)
Definition cluster_scoped (t : object_type) : bool :=
  bool_decide (t ∈ [TClusterRole; TClusterRoleBinding]).
(** The objects a controller reconciles when they are changed: those of a
    namespace, but for the rbac of kube-system. *)
Definition restored (t : object_type) : Prop :=
  t ∉ [TClusterRole; TClusterRoleBinding; TRole; TRoleBinding].
#[export] Instance restored_dec t : Decision (restored t).
Proof. unfold restored. apply _. Defined.

(** What a builder of a namespace makes: an object without owners, of a type
    that fits [IsNamespaced]. *)
Definition new_object (namespace : string) (namespaced : bool) (o : object) : Prop :=
  om_OwnerReferences (object_meta o) = [] ∧ is_unstructured o = false ∧
  namespaced = negb (cluster_scoped (type_of_object o)) ∧
  (restored (type_of_object o) → object_namespace o = namespace).
(** Every object the builder makes is a [P]. *)
Definition makes_only {W X} (P : object → Prop) (b : ObjectBuilder W X) : Prop :=
  ∀ s o s', Build b s = (Ret (Some o), s') → P o.
Definition builds_new {W X} (namespace : string) (b : ObjectBuilder W X) : Prop :=
  makes_only (new_object namespace (IsNamespaced b)) b.

Section New.
Context {W X : Type}.
Implicit Types (b : ObjectBuilder W X) (P : object → Prop).

Lemma makes_only_ret P v b :
  Build b = mret v → (∀ o, v = Some o → P o) → makes_only P b.
Proof. intros Hb Hv s o s'. rewrite Hb. intros [= -> _]. by apply Hv. Qed.
(** A builder that computes something, which may panic, and goes on. *)
Lemma makes_only_lift {A} P (r : or_panic A) (k : A → M W X (option object)) b :
  Build b = (lift r ≫= k) →
  (∀ a s o s', r = Value a → k a s = (Ret (Some o), s') → P o) →
  makes_only P b.
Proof.
  intros Hb Hk s o s'. rewrite Hb. destruct r as [a|p]; [|done]. simpl.
  unfold mbind, M_bind. simpl. by apply Hk.
Qed.

(** The transformer makes the custom resource the only owner of a new object
    of a namespace, and leaves the others without owner. *)
Lemma new_object_transform `{Env} namespace t component namespaced o :
  new_object namespace namespaced o →
  om_OwnerReferences (object_meta (transform t component namespaced o)) =
    (if cluster_scoped (type_of_object o) then [] else [t_OwnerReference t]) ∧
  type_of_object (transform t component namespaced o) = type_of_object o ∧
  object_namespace (transform t component namespaced o) = object_namespace o.
Proof.
  intros (Ho & Hu & -> & _). unfold transform, AddOwnerReference, AddCommonLabels, object_namespace.
  destruct o; try discriminate Hu; simpl in *; rewrite ?Ho; by repeat split.
Qed.
End New.

Ltac new_fixed :=
  eapply makes_only_ret; [reflexivity|]; intros ?;
  repeat match goal with |- context [if ?b then _ else _] => destruct b end;
  intros [=]; subst; repeat split; intros Hr; exfalso; apply Hr; set_solver.

Section AgentBuilders.
Context {W : Type} `{K8sApi W} `{ApiErrors} `{Env} `{MapRange} `{Yaml}.
Notation builds_new := (builds_new (W:=W) (X:=agentStatusManager)).

Lemma NewDaemonSetBuilder_new d a :
  dsb_agent d = Default a →
  builds_new (agent_Namespace (Default a)) (NewDaemonSetBuilder d).
Proof.
  intros Ha s o s' Hb. pose proof (NewDaemonSetBuilder_Build d a s Ha) as Hd.
  destruct (ds_isIncomplete d); [congruence|]. destruct Hd as (ds & E & Hs).
  rewrite Hs in Hb. injection Hb as <- _.
  destruct (buildDaemonSet_returns d a Ha) as (ds' & _ & _ & E' & _ & Hm & _).
  rewrite E in E'. injection E' as <-. unfold new_object, object_namespace. simpl. by rewrite Hm.
Qed.
Lemma NewDeploymentBuilder_new d :
  builds_new (agent_Namespace (db_agent d)) (NewDeploymentBuilder d).
Proof.
  intros s o s' Hb. pose proof (NewDeploymentBuilder_Build d s) as Hd.
  destruct (db_isOmitted d); [congruence|]. destruct Hd as (dpl & E & Hs).
  rewrite Hs in Hb. injection Hb as <- _.
  destruct (buildDeployment_returns d) as (envs & _ & E'). rewrite E in E'. by injection E' as ->.
Qed.

Lemma fixedBuilders_new agent keysSecret backends details :
  Forall (builds_new (agent_Namespace agent)) (fixedBuilders agent keysSecret backends details).
Proof.
  unfold fixedBuilders. repeat apply Forall_cons_2; try (by new_fixed); [..|apply Forall_nil_2].
  - eapply makes_only_lift; [reflexivity|]. intros svc s o s' E. intros [= <- _].
    revert E. unfold buildHeadlessService. destruct (GetServicePorts _); intros [= <-]. by repeat split.
  - eapply makes_only_lift; [reflexivity|]. intros data s o s' _. by intros [= <- _].
  - eapply makes_only_ret; [reflexivity|]. intros o. unfold buildContainerSecret.
    destruct (UseContainersSecret agent); [|done]. destruct (downloadKey _ _); [|done]. by intros [= <-].
  - eapply makes_only_lift; [reflexivity|]. intros [] s o s' _; [|done].
    unfold buildService. destruct (GetServicePorts _); [|done]. by intros [= <- _].
  - eapply makes_only_lift; [reflexivity|]. intros data s o s' _. by intros [= <- _].
Qed.

Lemma allBuilders_new a ds openShift keysSecret backends details context :
  Forall (fun d => dsb_agent d = Default a) ds →
  Forall (builds_new (agent_Namespace (Default a)))
    (allBuilders ds (Default a) openShift keysSecret backends details context).
Proof.
  intros Hds. unfold allBuilders. rewrite !Forall_app, !Forall_fmap. split_and!.
  - eapply Forall_impl; [exact Hds|]. intros d. apply NewDaemonSetBuilder_new.
  - apply fixedBuilders_new.
  - unfold getK8sSensorDeployments. rewrite Forall_fmap. apply Forall_true. intros b.
    exact (NewDeploymentBuilder_new (deploymentBuilderOf _ _ _ _ b)).
Qed.
End AgentBuilders.

(** The types of the objects a remote agent asks for, all of its namespace. *)
Definition remote_object (namespace : string) (o : object) : Prop :=
  new_object namespace true o ∧
  bool_decide (type_of_object o ∈ [TDeployment; TSecret; TServiceAccount]) = true.

Lemma remote_allBuilders_new {W} `{K8sApi W} `{ApiErrors} `{Env} `{MapRange} `{Yaml}
    agent keysSecret backends :
  Forall (fun b => IsNamespaced b = true ∧ makes_only (remote_object (remote_Namespace agent)) b)
    (remote_allBuilders (W:=W) agent keysSecret backends).
Proof.
  unfold remote_allBuilders, getInstanaAgentRemoteDeployments. rewrite Forall_app, Forall_fmap. split.
  - apply Forall_true. intros backend. split; [done|]. set (d := NewRemoteDeploymentBuilder _ _ _).
    intros s o s'. unfold RemoteDeployment_builder. cbn [Build]. destruct (rd_isOmitted d); [done|].
    intros [= <- _]. destruct (rd_build_fields d) as (Hm & _).
    unfold remote_object, new_object, object_namespace. simpl. by rewrite Hm.
  - repeat apply Forall_cons_2; try (split; [done|]; by new_fixed); [..|apply Forall_nil_2];
      (split; [done|]).
    + eapply makes_only_lift; [reflexivity|]. intros data s o s' _. by intros [= <- _].
    + eapply makes_only_ret; [reflexivity|]. intros o. unfold remote_buildContainerSecret.
      destruct (RemoteUseContainersSecret agent); [|done]. destruct (remote_downloadKey _ _); [|done].
      by intros [= <-].
Qed.

(** *** Requests *)
Lemma makes_only_Builds {W X} P (b : ObjectBuilder W X) o (s : St W X) :
  makes_only P b → Builds b (Some o) → P o.
Proof. intros Hp Hb. destruct (Hb s) as [x E]. exact (Hp _ _ _ E). Qed.
Lemma type_of_object_other o :
  type_of_object o ∉ [TInstanaAgent; TInstanaAgentRemote; TNamespace].
Proof. destruct o; simpl; set_solver. Qed.
Lemma event_subject_in ev : event_subject ev ∈ event_objects ev.
Proof. destruct ev; simpl; set_solver. Qed.

(** The types of which only changes of the object itself, or what a function
    makes of them, lead to requests. *)
Definition independent (t : object_type) : Prop := t ∈ [TInstanaAgent; TInstanaAgentRemote; TNamespace].

(** The requests an event about [o] leads to: those of the watches of owners,
    as the other watches are for other types. *)
Lemma requests_about `{ControllerRuntimeLaws} b o ev key :
  independent (b_For b) → Forall (fun watch => independent watch.1.1) (b_Watches b) → about o ev →
  (key ∈ requests b ev ↔
   b_EventFilter b (filter_event ev) = Value true ∧ type_of_object o ∈ b_Owns b ∧
   ∃ ref group kind version, registeredKind (b_For b) = Some (group, kind) ∧
     GetControllerOf (om_OwnerReferences (object_meta o)) = Some ref ∧
     or_APIVersion ref = group +++ "/" +++ version ∧ or_Kind ref = kind ∧
     key = Key (object_namespace o) (or_Name ref)).
Proof.
  intros Hf Hw Ha. rewrite requests_iff. apply and_iff_compat_l.
  unfold about in Ha. rewrite Forall_forall in Ha. rewrite Forall_forall in Hw.
  destruct (Ha _ (event_subject_in ev)) as (Et & _).
  pose proof (type_of_object_other o) as Hother. split.
  - intros [[Ht _]|[(h & ps & Hin & _)|(Ht & w & ref & group & kind & version & Hev & ? & Hc & ? & ? & ->)]].
    + by rewrite <- Et, Ht in Hother.
    + by apply Hw in Hin; simpl in Hin; rewrite Et in Hin.
    + destruct (Ha w Hev) as (_ & En & Er). rewrite Er in Hc. rewrite <- Et, <- En.
      split; [done|]. by exists ref, group, kind, version.
  - intros (Ht & ref & group & kind & version & ? & Hc & ? & ? & ->). right; right.
    destruct (Ha _ (event_subject_in ev)) as (_ & En & Er).
    split; [by rewrite Et|]. exists (event_subject ev), ref, group, kind, version.
    rewrite Er, En. split_and!; try done. apply event_subject_in.
Qed.

Lemma remote_types_owned t :
  t ∈ [TDeployment; TSecret; TServiceAccount] → t ∈ remoteOwned ∧ restored t.
Proof.
  unfold remoteOwned, restored. rewrite !elem_of_cons.
  intros [->|[->|[->|Hn%elem_of_nil]]]; [..|done];
    (split; [tauto|]; intros [|[|[|[|?%elem_of_nil]]]]; done).
Qed.

(** An object made for the namespace of its owner, and transformed. *)
Lemma GetControllerOf_only `{ControllerRuntimeLaws} ref :
  is_controller ref → GetControllerOf [ref] = Some ref.
Proof.
  intros Hc. destruct (GetControllerOf [ref]) as [r|] eqn:E.
  - apply GetControllerOf_sound in E as [->%list_elem_of_singleton _]. done.
  - apply GetControllerOf_none in E. by inversion E.
Qed.
Lemma GetControllerOf_nil `{ControllerRuntimeLaws} : GetControllerOf [] = None.
Proof.
  destruct (GetControllerOf []) as [r|] eqn:E; [|done].
  by apply GetControllerOf_sound in E as [?%elem_of_nil _].
Qed.
Lemma transformed_controller `{ControllerRuntimeLaws} `{Env} t component namespace namespaced obj :
  new_object namespace namespaced obj → is_controller (t_OwnerReference t) →
  let o := transform t component namespaced obj in
  type_of_object o = type_of_object obj ∧ object_namespace o = object_namespace obj ∧
  GetControllerOf (om_OwnerReferences (object_meta o)) =
    if cluster_scoped (type_of_object obj) then None else Some (t_OwnerReference t).
Proof.
  intros Hn Hc. cbv zeta. destruct (new_object_transform _ t component _ _ Hn) as (-> & -> & ->).
  split_and!; [done..|]. destruct (cluster_scoped _); [apply GetControllerOf_nil|].
  by apply GetControllerOf_only.
Qed.
Lemma requests_transformed `{ControllerRuntimeLaws} `{Env} b t component namespace namespaced obj ev key :
  independent (b_For b) → Forall (fun watch => independent watch.1.1) (b_Watches b) →
  registeredKind (b_For b) = Some ("instana.io", or_Kind (t_OwnerReference t)) →
  is_controller (t_OwnerReference t) → or_APIVersion (t_OwnerReference t) = "instana.io/v1" →
  new_object namespace namespaced obj → about (transform t component namespaced obj) ev →
  (key ∈ requests b ev ↔
   b_EventFilter b (filter_event ev) = Value true ∧ type_of_object obj ∈ b_Owns b ∧
   cluster_scoped (type_of_object obj) = false ∧
   key = Key (object_namespace obj) (or_Name (t_OwnerReference t))).
Proof.
  intros Hf Hw Hr Hct Hv Hn Hev. rewrite (requests_about b _ ev key Hf Hw Hev).
  destruct (transformed_controller t component _ _ obj Hn Hct) as (-> & -> & ->).
  do 2 apply and_iff_compat_l. split.
  - intros (ref & group & kind & version & _ & E & _ & _ & ->).
    destruct (cluster_scoped _); [done|]. by injection E as ->.
  - intros [-> ->]. by exists (t_OwnerReference t), "instana.io", (or_Kind (t_OwnerReference t)), "v1".
Qed.

Lemma restored_types o :
  is_unstructured o = false → restored (type_of_object o) ↔
  type_of_object o ∈ agentOwned ∧ cluster_scoped (type_of_object o) = false.
Proof.
  intros Hu. unfold restored, cluster_scoped, agentOwned. rewrite bool_decide_eq_false.
  destruct o; try discriminate Hu; simpl; set_solver.
Qed.

Lemma transform_labels `{Env} t component namespaced o :
  is_unstructured o = false →
  ∃ labels, om_Labels (object_meta (transform t component namespaced o)) = Some labels ∧
    labels !! ManagedByLabel = Some tr_managedBy.
Proof.
  intros Hu. unfold transform, AddOwnerReference, AddCommonLabels.
  destruct namespaced; rewrite ?object_meta_map by (by destruct o); eexists; (split; [reflexivity|]);
    unfold commonLabels; rewrite lookup_insert_ne by done; apply lookup_insert_eq.
Qed.

(** What [getCacheOptions] asks for: the operator's label of the types it
    restricts, and nothing of the others. *)
Definition restricted : list object_type :=
  [TDaemonSet; TDeployment; TServiceAccount; TPodDisruptionBudget; TClusterRole; TClusterRoleBinding].
Lemma getCacheOptions_selects `{LabelParserLaws} :
  valid_label "app.kubernetes.io/managed-by" "instana-agent-operator" = true →
  ∃ options sel, getCacheOptions = inl options ∧ NoDup (options.*1) ∧
    (∀ t sel', (t, Some sel') ∈ options ↔ t ∈ restricted ∧ sel' = sel) ∧
    ∀ labels, parsed_Matches sel labels = true ↔
      labels !! "app.kubernetes.io/managed-by" = Some "instana-agent-operator".
Proof.
  intros Hv. destruct (Parse_equality _ _ Hv) as (sel & E & Hs). unfold getCacheOptions.
  change (labels_Parse _) with
    (labels_Parse ("app.kubernetes.io/managed-by" +++ "=" +++ "instana-agent-operator")).
  rewrite E. eexists _, sel. split; [done|]. split.
  { apply (bool_decide_unpack _). by vm_compute. }
  split; [|done]. intros t sel'. unfold restricted. rewrite !elem_of_cons, !elem_of_nil. naive_solver.
Qed.

(** *** Namespaces *)
Lemma lastModifiedBySelf_others mfes : Forall by_other mfes → lastModifiedBySelf mfes = zero_time.
Proof.
  induction 1 as [|mfe mfes Hm _ IH]; [done|]. simpl.
  by rewrite (proj2 (String.eqb_neq _ _) Hm : String.eqb (mfe_Manager mfe) FieldOwnerName = false).
Qed.
Definition is_namespace (w : watched_object) : Prop := ∃ n, w = WatchedNamespace n.

Lemma namespaceRequests_elem agentList w key :
  key ∈ namespaceRequests agentList w ↔
  ∃ agents agent, agentList = inl agents ∧ agent ∈ agents ∧
    key = Key (agent_Namespace agent) (agent_Name agent).
Proof.
  destruct agentList as [agents|e]; simpl; [|rewrite elem_of_nil; naive_solver].
  rewrite list_elem_of_fmap. naive_solver.
Qed.
(** Of the watches of [Add], only the one of namespaces is for them. *)
Lemma namespace_request {W} `{K8sApi W} `{ApiErrors} `{Env} `{MapRange} `{Yaml}
    `{DependentsCodec} `{Finalizers} `{HelmErrors} `{Debug} `{Semver} `{StatusConditions}
    `{ControllerRuntimeLaws} agentList ev key :
  let b := c_builder (Add (W:=W) agentList) in
  Forall is_namespace (event_objects ev) →
  (request_For b ev key ∨ request_Watches b ev key ∨ request_Owns b ev key ↔
   passes LabelChangedPredicate ev = true ∧
   ∃ agents agent, agentList = inl agents ∧ agent ∈ agents ∧
     key = Key (agent_Namespace agent) (agent_Name agent)).
Proof.
  intros b Hns. assert (Et : type_of (event_subject ev) = TNamespace).
  { rewrite Forall_forall in Hns. by destruct (Hns _ (event_subject_in ev)) as [n ->]. }
  unfold request_For, request_Watches, request_Owns. rewrite Et. split.
  - intros [[? _]|[(h & ps & Hin%list_elem_of_singleton & Hp & Hk)|[Ho _]]]; [done| |].
    + injection Hin as -> ->. split; [by inversion Hp|].
      apply handle_MapFunc in Hk as (w & _ & Hk). by apply namespaceRequests_elem in Hk.
    + contradict Ho. change (TNamespace ∉ agentOwned). by apply (bool_decide_unpack _).
  - intros [Hp Ha]. right; left. do 2 eexists. split; [by left|]. split; [by constructor|].
    apply handle_MapFunc. exists (event_subject ev). split; [apply event_subject_in|].
    by apply namespaceRequests_elem.
Qed.

(** ** Properties *)

(** C29: which changes bring a reconciliation of an InstanaAgent about: an
    event about an object the operator applied for it leads to a request for
    it exactly when the filter accepts the event and the object is neither a
    cluster role (binding), which has no owner, nor a role (binding), which no
    controller watches.  controller-runtime keeps what its documentation says
    of [For], [Owns], [Watches] and [WithEventFilter]. *)
Theorem applied_objects_watched {W} `{K8sApi W} `{ApiErrors} `{Env} `{MapRange} `{Yaml}
    `{DependentsCodec} `{Finalizers} `{HelmErrors} `{Debug} `{Semver} `{StatusConditions}
    `{ControllerRuntimeLaws}
    a openShift shouldSet keysSecret backends details context agentList
    (s : St W agentStatusManager) ds res s' vs o ev :
  let agent := Default a in
  let builders := allBuilders ds agent openShift keysSecret backends details context in
  agent_APIVersion a = "instana.io/v1" → agent_Kind a = "InstanaAgent" →
  getDaemonSetBuilders agent openShift shouldSet s = (Ret (ds, res), s') →
  Forall2 Builds builders vs →
  o ∈ transformedAll (NewOperatorUtils agent) builders vs → about o ev →
  (Key (agent_Namespace agent) (agent_Name agent) ∈ requests (c_builder (Add (W:=W) agentList)) ev ↔
   filterPredicate (filter_event ev) = Value true ∧
   type_of_object o ∉ [TClusterRole; TClusterRoleBinding; TRole; TRoleBinding]).
Proof.
  intros agent builders Hv Hk [Ha _]%getDaemonSetBuilders_result Hbs Ho Hev.
  destruct (transformedAll_elem _ _ _ _ Hbs Ho) as (b & obj & Hb & Hobj & ->).
  pose proof (allBuilders_new (W:=W) a ds openShift keysSecret backends details context Ha) as Hn.
  rewrite Forall_forall in Hn.
  pose proof (makes_only_Builds _ _ _ s (Hn b Hb) Hobj) as Hnew.
  change (ou_transformations (NewOperatorUtils agent)) with (NewTransformations agent) in *.
  destruct (new_object_transform _ (NewTransformations agent) (ComponentName b) _ _ Hnew) as (_ & -> & _).
  rewrite (requests_transformed (c_builder (Add (W:=W) agentList)) (NewTransformations agent) _ _ _ obj ev _
    ltac:(by left)
    ltac:(repeat constructor) ltac:(by simpl; f_equal; f_equal) eq_refl Hv Hnew Hev).
  destruct Hnew as (_ & Hu & _ & Hns).
  apply and_iff_compat_l. rewrite (restored_types obj Hu : _ ∉ _ ↔ _). split; [naive_solver|].
  intros [Hin Hcs]. split_and!; [done..|]. rewrite Hns; [done|]. by apply restored_types.
Qed.

(** A runtime and a cache that keep the laws. *)
Fixpoint controllerOf (refs : list OwnerReference) : option OwnerReference :=
  match refs with
  | [] => None
  | ref :: refs =>
      match or_Controller ref with Some true => Some ref | _ => controllerOf refs end
  end.
Definition labels_changed (ev : object_event) : bool :=
  match ev with
  | OUpdate old new =>
      negb (bool_decide (default ∅ (om_Labels (meta_of old)) = default ∅ (om_Labels (meta_of new))))
  | _ => true
  end.
(** The owner of a type, if it is of this group and kind. *)
Definition owner_request (owner : option (string * string)) (w : watched_object) : list ObjectKey :=
  match owner, controllerOf (om_OwnerReferences (meta_of w)) with
  | Some (group, kind), Some ref =>
      if HasPrefix (or_APIVersion ref) (group +++ "/") && String.eqb (or_Kind ref) kind
      then [Key (om_Namespace (meta_of w)) (or_Name ref)] else []
  | _, _ => []
  end.
Definition mapped (f : watched_object → list ObjectKey) (ev : object_event) : list ObjectKey :=
  event_objects ev ≫= f.
Definition watch_request (ev : object_event)
    (watch : object_type * (object_event → list ObjectKey) * list (object_event → bool)) : list ObjectKey :=
  let '(t, handler, predicates) := watch in
  if bool_decide (type_of (event_subject ev) = t) && forallb (fun p => p ev) predicates
  then handler ev else [].
#[export] Instance example_runtime : ControllerRuntime := {|
  event_handler := object_event → list ObjectKey;
  watch_predicate := object_event → bool;
  EnqueueRequestsFromMapFunc := mapped;
  LabelChangedPredicate := labels_changed;
  handle h ev := h ev;
  passes p ev := p ev;
  GetControllerOf := controllerOf;
  requests b ev :=
    match b_EventFilter b (filter_event ev) with
    | Value true =>
        (if bool_decide (type_of (event_subject ev) = b_For b) then [key_of (event_subject ev)] else []) ++
        (b_Watches b ≫= watch_request ev) ++
        (if bool_decide (type_of (event_subject ev) ∈ b_Owns b)
         then event_objects ev ≫= owner_request (registeredKind (b_For b)) else [])
    | _ => []
    end |}.

Lemma controllerOf_spec refs :
  match controllerOf refs with
  | Some ref => ref ∈ refs ∧ is_controller ref
  | None => Forall (fun ref => ¬ is_controller ref) refs
  end.
Proof.
  unfold is_controller. induction refs as [|ref refs IH]; simpl; [constructor|].
  destruct (or_Controller ref) as [[]|] eqn:E; [split; [by left|done]|..];
    (destruct (controllerOf refs); [split; [right|]; apply IH|]; constructor; [by rewrite E|done]).
Qed.
Lemma elem_of_guard {A} (P : Prop) `{Decision P} (x : A) l :
  x ∈ (if bool_decide P then l else []) ↔ P ∧ x ∈ l.
Proof. case_bool_decide; [naive_solver|]. rewrite elem_of_nil. naive_solver. Qed.
Lemma owner_request_spec owner w key :
  key ∈ owner_request owner w ↔
  ∃ ref group kind version, owner = Some (group, kind) ∧
    controllerOf (om_OwnerReferences (meta_of w)) = Some ref ∧
    or_APIVersion ref = group +++ "/" +++ version ∧ or_Kind ref = kind ∧
    key = Key (om_Namespace (meta_of w)) (or_Name ref).
Proof.
  unfold owner_request. destruct owner as [[group kind]|]; [|rewrite elem_of_nil; naive_solver].
  destruct (controllerOf _) as [ref|]; [|rewrite elem_of_nil; naive_solver].
  destruct (HasPrefix _ _ && _) eqn:E.
  - apply andb_true_iff in E as [[r Hr]%HasPrefix_spec Hk%String.eqb_eq].
    rewrite list_elem_of_singleton. rewrite string_app_assoc in Hr. split; [naive_solver|].
    by intros (? & ? & ? & ? & [= <- <-] & [= <-] & _ & _ & ->).
  - rewrite elem_of_nil. split; [done|]. intros (? & ? & ? & v & [= <- <-] & [= <-] & Hv & Hk & _).
    apply andb_false_iff in E as [E|E]; [|by rewrite Hk, String.eqb_refl in E].
    assert (HasPrefix (or_APIVersion ref) (group +++ "/") = true); [|congruence].
    apply HasPrefix_spec. exists v. by rewrite Hv, string_app_assoc.
Qed.
#[export] Instance example_runtime_laws : ControllerRuntimeLaws.
Proof.
  split.
  - intros [t watches owned accepts] ev key. set (b := Build_builder _ _ _ _ _ _).
    cbn [requests example_runtime b_EventFilter b_For b_Watches b_Owns b].
    destruct (accepts (filter_event ev)) as [[]|];
      [|split; [by intros ?%elem_of_nil|by intros [? _]]..].
    rewrite !elem_of_app, !elem_of_guard, list_elem_of_singleton, !list_elem_of_bind.
    assert (Hw : (∃ y, key ∈ watch_request ev y ∧ y ∈ watches) ↔ request_Watches b ev key).
    { unfold request_Watches, watch_request. split.
      - intros ([[t' h] ps] & Hk & Hin). destruct (bool_decide _ && _) eqn:E; [|by apply elem_of_nil in Hk].
        apply andb_true_iff in E as [->%bool_decide_eq_true Hp]. exists h, ps. split; [done|].
        split; [|done]. apply Forall_forall. intros p Hin'.
        exact (proj1 (forallb_forall _ _) Hp p (proj1 (list_elem_of_In _ _) Hin')).
      - intros (h & ps & Hin & Hp & Hk). eexists (_, h, ps). split; [|exact Hin].
        rewrite bool_decide_eq_true_2 by done. rewrite (proj2 (forallb_forall _ _)); [done|].
        intros p Hin'%list_elem_of_In. rewrite Forall_forall in Hp. exact (Hp p Hin'). }
    rewrite Hw. setoid_rewrite owner_request_spec. unfold request_For, request_Owns. naive_solver.
  - intros f ev key. simpl. unfold mapped. rewrite list_elem_of_bind. naive_solver.
  - intros []; simpl; unfold labels_changed; [done| |done].
    by rewrite negb_true_iff, bool_decide_eq_false.
  - intros refs ref E. pose proof (controllerOf_spec refs) as Hs. simpl in E. by rewrite E in Hs.
  - intros refs E. pose proof (controllerOf_spec refs) as Hs. simpl in E. by rewrite E in Hs.
Qed.

(** The service account of the sensor is deleted. *)
Definition sensor_account : object :=
  transform (NewTransformations (Default zoned_agent)) ComponentK8Sensor true
    (OServiceAccount (buildSensorServiceAccount (Default zoned_agent))).
Definition account_deleted : object_event := ODelete (WatchedObject sensor_account) false.
Lemma zoned_builds ds res s' :
  getDaemonSetBuilders (Default zoned_agent) false false resources_start = (Ret (ds, res), s') →
  ∃ vs, Forall2 Builds (allBuilders (W:=cluster) ds (Default zoned_agent) false zero_Secret
      (getK8SensorBackends (Default zoned_agent)) zero_NamespacesDetails None) vs ∧
    sensor_account ∈ transformedAll (NewOperatorUtils (Default zoned_agent))
      (allBuilders ds (Default zoned_agent) false zero_Secret
        (getK8SensorBackends (Default zoned_agent)) zero_NamespacesDetails None) vs.
Proof.
  intros [Ha _]%getDaemonSetBuilders_result.
  assert (Hy : snd (yaml_Marshal (YNamespacesDetails zero_NamespacesDetails)) = None) by reflexivity.
  destruct (makes_all (NewOperatorUtils (Default zoned_agent)) _ _
    (allBuilders_make zoned_agent ds false zero_Secret zero_NamespacesDetails None Hy Ha))
    as (vs & Hvs & _). exists vs. split; [exact Hvs|].
  apply (transformedAll_intro (NewOperatorUtils (Default zoned_agent)) _ _
    (NewSensorServiceAccountBuilder (Default zoned_agent)) _ resources_start Hvs).
  - apply elem_of_app. right. apply elem_of_app. left. do 13 right. left.
  - intros [w t x]. by exists x.
Qed.
Lemma applied_objects_watched_witness :
  Key "ns" "agent" ∈ requests (c_builder (Add (W:=cluster) (inl []))) account_deleted ↔
  filterPredicate (filter_event account_deleted) = Value true ∧
  type_of_object sensor_account ∉ [TClusterRole; TClusterRoleBinding; TRole; TRoleBinding].
Proof.
  destruct (getDaemonSetBuilders_returns (Default zoned_agent) false false resources_start)
    as ([ds res] & s' & E).
  destruct (zoned_builds ds res s' E) as (vs & Hvs & Hin).
  apply (applied_objects_watched zoned_agent false false zero_Secret
    (getK8SensorBackends (Default zoned_agent)) zero_NamespacesDetails None (inl [])
    resources_start ds res s' vs sensor_account account_deleted eq_refl eq_refl E Hvs Hin).
  repeat constructor.
Defined.

(** Every event about an object the operator applied for a remote agent
    that the filter accepts leads to a request for the remote agent. *)
Theorem remote_objects_watched {W} `{K8sApi W} `{ApiErrors} `{Env} `{MapRange} `{Yaml}
    `{DependentsCodec} `{Finalizers} `{Debug} `{Semver} `{StatusConditions}
    `{ControllerRuntimeLaws} agent keysSecret backends (s : St W instanaAgentRemoteStatusManager) vs o ev :
  let builders := remote_allBuilders agent keysSecret backends in
  remote_APIVersion agent = "instana.io/v1" → remote_Kind agent = "InstanaAgentRemote" →
  Forall2 Builds builders vs →
  o ∈ transformedAll (NewRemoteOperatorUtils agent) builders vs → about o ev →
  (Key (remote_Namespace agent) (remote_Name agent) ∈ requests (c_builder (AddRemote (W:=W))) ev ↔
   filterPredicateRemote (filter_event ev) = Value true).
Proof.
  intros builders Hv Hk Hbs Ho Hev.
  destruct (transformedAll_elem _ _ _ _ Hbs Ho) as (b & obj & Hb & Hobj & ->).
  pose proof (remote_allBuilders_new (W:=W) agent keysSecret backends) as Hn.
  rewrite Forall_forall in Hn. destruct (Hn b Hb) as [Hns Hm].
  destruct (makes_only_Builds _ _ _ s Hm Hobj) as [Hnew Ht%bool_decide_eq_true].
  change (ou_transformations (NewRemoteOperatorUtils agent)) with (NewTransformationsRemote agent) in *.
  rewrite Hns in Hev.
  rewrite (requests_transformed (c_builder (AddRemote (W:=W))) (NewTransformationsRemote agent) _ _ _ obj ev _
    ltac:(by right; left)
    ltac:(constructor) ltac:(by simpl; f_equal; f_equal) eq_refl Hv Hnew Hev).
  destruct Hnew as (_ & _ & Hcs & Hnamespace). split; [naive_solver|]. intros Hf.
  split; [done|]. split; [by apply remote_types_owned|].
  split; [by destruct (cluster_scoped _)|].
  rewrite Hnamespace; [done|]. by apply remote_types_owned.
Qed.

(** C30: the operator sees what it applies, and of some types nothing else:
    a read through its cache finds every object of the cluster that it applied
    for an InstanaAgent, and finds only daemon sets, deployments, service
    accounts, disruption budgets, cluster roles and bindings whose label says
    that the operator manages them.  The cache keeps what the documentation of
    [ByObject] says. *)
Theorem applied_objects_cached {W} `{K8sApi W} `{ApiErrors} `{Env} `{MapRange} `{Yaml}
    `{DependentsCodec} `{LabelParserLaws} `{!ObjectCache} `{!ObjectCacheLaws}
    a openShift shouldSet keysSecret backends details context
    (s : St W agentStatusManager) ds res s' vs o :
  let agent := Default a in
  let builders := allBuilders ds agent openShift keysSecret backends details context in
  valid_label "app.kubernetes.io/managed-by" "instana-agent-operator" = true →
  getDaemonSetBuilders agent openShift shouldSet s = (Ret (ds, res), s') →
  Forall2 Builds builders vs →
  o ∈ transformedAll (NewOperatorUtils agent) builders vs →
  ∃ options, getCacheOptions = inl options ∧ ∀ objects,
    (WatchedObject o ∈ objects → WatchedObject o ∈ cache_reads options objects) ∧
    ∀ w, w ∈ cache_reads options objects →
      type_of w ∈ [TDaemonSet; TDeployment; TServiceAccount; TPodDisruptionBudget;
                   TClusterRole; TClusterRoleBinding] →
      w ∈ objects ∧ default ∅ (om_Labels (meta_of w)) !! "app.kubernetes.io/managed-by" =
        Some "instana-agent-operator".
Proof.
  intros agent builders Hl [Ha _]%getDaemonSetBuilders_result Hbs Ho.
  destruct (transformedAll_elem _ _ _ _ Hbs Ho) as (b & obj & Hb & Hobj & ->).
  pose proof (allBuilders_new (W:=W) a ds openShift keysSecret backends details context Ha) as Hn.
  rewrite Forall_forall in Hn.
  destruct (makes_only_Builds _ _ _ s (Hn b Hb) Hobj) as (_ & Hu & _).
  destruct (transform_labels (ou_transformations (NewOperatorUtils (W:=W) (X:=agentStatusManager) agent))
    (ComponentName b) (IsNamespaced b) obj Hu) as (labels & El & Em).
  destruct (getCacheOptions_selects Hl) as (options & sel & Eo & Hd & Hin & Hsel).
  exists options. split; [done|]. intros objects. split.
  - intros Hob. apply cache_reads_iff; [done|]. split; [done|].
    intros sel' [_ ->]%Hin. apply Hsel. cbn [meta_of]. by rewrite El.
  - intros w [Hw Hm]%cache_reads_iff Ht; [|done]. split; [done|]. apply Hsel, Hm, Hin. by split.
Qed.

(** A parser of labels that takes the text apart at the first [=]. *)
Fixpoint split_equality (s : string) : option (string * string) :=
  match s with
  | EmptyString => None
  | String c s =>
      if Ascii.eqb c "=" then Some ("", s)
      else '(k, v) ← split_equality s; Some (String c k, v)
  end.
#[export] Instance equality_parser : LabelParser := {|
  ParsedSelector := string * string;
  labels_Parse s := match split_equality s with Some sel => inl sel | None => inr (Errorf "invalid") end;
  parsed_Matches sel labels := bool_decide (labels !! sel.1 = Some sel.2);
  valid_label k _ := negb (string_in "=" k) |}.
#[export] Instance equality_parser_laws : LabelParserLaws.
Proof.
  split. intros key value Hk. exists (key, value). split; [|intros; apply bool_decide_eq_true].
  cut (split_equality (key +++ "=" +++ value) = Some (key, value)).
  { intros E. unfold labels_Parse, equality_parser. by rewrite E. }
  revert Hk. unfold valid_label, equality_parser. rewrite negb_true_iff.
  induction key as [|c key IH]; [done|]. simpl. rewrite orb_false_iff. intros [Hc Hk].
  by rewrite Hc, (IH Hk).
Qed.

#[export] Instance example_cache : ObjectCache := fun options =>
  List.filter (fun w => forallb (fun '(t, selector) =>
    match selector with
    | Some sel => negb (bool_decide (t = type_of w)) ||
        parsed_Matches sel (default ∅ (om_Labels (meta_of w)))
    | None => true
    end) options).
#[export] Instance example_cache_laws : ObjectCacheLaws.
Proof.
  intros options objects w _. unfold cache_reads, example_cache.
  rewrite !list_elem_of_In, filter_In. apply and_iff_compat_l. rewrite forallb_forall. split.
  - intros Ha sel Hin%list_elem_of_In%Ha. rewrite orb_true_iff, negb_true_iff in Hin.
    destruct Hin as [Hn|]; [|done]. by rewrite bool_decide_eq_true_2 in Hn.
  - intros Ha [t [sel|]] Hin%list_elem_of_In; [|done]. rewrite orb_true_iff, negb_true_iff.
    case_bool_decide; [right|by left]. subst t. by apply Ha.
Qed.

(** The cluster also holds a service account of somebody else. *)
Definition two_accounts : list watched_object :=
  [WatchedObject sensor_account;
   WatchedObject (OServiceAccount {| sa_Meta := NewObjectMeta "default" "ns" |})].
Lemma applied_objects_cached_witness :
  ∃ options, getCacheOptions = inl options ∧
    WatchedObject sensor_account ∈ cache_reads options two_accounts ∧
    ∀ w, w ∈ cache_reads options two_accounts → type_of w = TServiceAccount →
      default ∅ (om_Labels (meta_of w)) !! "app.kubernetes.io/managed-by" = Some "instana-agent-operator".
Proof.
  destruct (getDaemonSetBuilders_returns (Default zoned_agent) false false resources_start)
    as ([ds res] & s' & E).
  destruct (zoned_builds ds res s' E) as (vs & Hvs & Hin).
  assert (Hv : valid_label "app.kubernetes.io/managed-by" "instana-agent-operator" = true) by reflexivity.
  destruct (applied_objects_cached zoned_agent false false zero_Secret
    (getK8SensorBackends (Default zoned_agent)) zero_NamespacesDetails None
    resources_start ds res s' vs sensor_account Hv E Hvs Hin) as (options & Ho & Hc).
  exists options. split; [exact Ho|]. destruct (Hc two_accounts) as [Hs Hw].
  split; [apply Hs; left|]. intros w H1 H2. apply (Hw w H1). rewrite H2. by do 2 right; left.
Defined.

(** C32: what namespaces trigger: when the operator never wrote a namespace,
    a change of its labels and its deletion lead to a request for every agent
    the map function reads; its creation, labelled or not, to none. *)
Theorem namespaces_watched {W} `{K8sApi W} `{ApiErrors} `{Env} `{MapRange} `{Yaml}
    `{DependentsCodec} `{Finalizers} `{HelmErrors} `{Debug} `{Semver} `{StatusConditions}
    `{ControllerRuntimeLaws} agentList ev key :
  Forall is_namespace (event_objects ev) →
  Forall (fun w => Forall by_other (om_ManagedFields (meta_of w))) (event_objects ev) →
  (key ∈ requests (c_builder (Add (W:=W) agentList)) ev ↔
   match ev with
   | OCreate _ => False
   | OUpdate old new => default ∅ (om_Labels (meta_of old)) ≠ default ∅ (om_Labels (meta_of new))
   | ODelete _ _ => True
   end ∧
   ∃ agents agent, agentList = inl agents ∧ agent ∈ agents ∧
     key = Key (agent_Namespace agent) (agent_Name agent)).
Proof.
  intros Hns Hby. rewrite Forall_forall in Hns. rewrite Forall_forall in Hby.
  rewrite requests_iff. cbn [Add c_builder b_EventFilter].
  rewrite (namespace_request agentList ev key), passes_LabelChanged by by rewrite Forall_forall.
  destruct ev as [w|old new|w unknown]; simpl in *.
  - destruct (Hns w) as [n ->]; [by left|]. simpl. naive_solver.
  - destruct (Hns old) as [n ->]; [by left|]. destruct (Hns new) as [n' ->]; [by right; left|]. simpl.
    unfold wasModifiedByOther. rewrite lastModifiedBySelf_others; [naive_solver|].
    exact (Hby (WatchedNamespace n') ltac:(by right; left)).
  - destruct (Hns w) as [n ->]; [by left|]. simpl. naive_solver.
Qed.

(** A label is added to a namespace. *)
Definition labelled_namespace : watched_object :=
  WatchedNamespace {| ns_Meta := (NewObjectMeta "shop" "") <| om_Labels := Some {[ "a" := "b" ]} |> |}.
Definition namespace_labelled : object_event :=
  OUpdate (WatchedNamespace {| ns_Meta := NewObjectMeta "shop" "" |}) labelled_namespace.
Lemma namespaces_watched_witness :
  Key "ns" "agent" ∈ requests (c_builder (Add (W:=cluster) (inl [example_agent]))) namespace_labelled ↔
  (∅ : smap) ≠ {[ "a" := "b" ]} ∧
  ∃ agents agent, inl [example_agent] = (inl agents : list InstanaAgent + error) ∧ agent ∈ agents ∧
    Key "ns" "agent" = Key (agent_Namespace agent) (agent_Name agent).
Proof.
  apply (namespaces_watched (W:=cluster) (inl [example_agent]) namespace_labelled (Key "ns" "agent")).
  - repeat constructor; by eexists.
  - repeat constructor.
Defined.
