(* ===== verification/Main.v ===== *)
(** * The start of the operator: main of main.go

    [main] sets up a manager with its cache, health checks and controllers,
    cleans up after an old operator and starts the manager, and exits at the
    first step that fails.  The steps are controller-runtime's and may fail in
    any way or not return, as the start of the manager, which blocks until the
    process is told to stop: a class.  Besides the trace of its calls to the
    cluster, a run keeps the journal of its steps as its local state. *)
From S2P Require Import Prelude GoStd Errors K8sTypes ApiTypes Effects Cluster Client.
From S2P Require Import Transformations Startup Watches.

Definition defaultOperatorNamespace := "instana-agent".

(** The command line, parsed, and what it is when nothing is given. *)
Record flags := { fl_metricsAddr : string; fl_probeAddr : string; fl_enableLeaderElection : bool }.
Definition defaultFlags : flags :=
  {| fl_metricsAddr := ":8080"; fl_probeAddr := ":8081"; fl_enableLeaderElection := false |}.

(** [ctrl.Options], but for the scheme. *)
Record Options `{LabelParser} := {
  o_Cache : cacheOptions; o_BindAddress : string; o_HealthProbeBindAddress : string;
  o_LeaderElection : bool; o_LeaderElectionID : string; o_LeaderElectionNamespace : string }.

(** The calls [main] makes, each of which may report an error, or not return. *)
Inductive setup_step `{LabelParser} :=
  | GetConfigOrDie
  | NewManager (o : Options)
  | AddHealthzCheck (name : string)
  | AddReadyzCheck (name : string)
  | AddAgentController
  | AddRemoteController
  | NewClient
  | Start.
(** The answer of a step, [None] when it does not return. *)
Class ManagerRuntime (W : Type) `{LabelParser} :=
  setup : setup_step → W → option (option error) * W.

(** An entry of the journal: the step, its answer, and the calls made to the
    cluster before it. *)
Record journal_entry `{LabelParser} := {
  je_step : setup_step; je_answer : option (option error); je_before : list event }.

Section Main.
Context {W : Type} `{K8sApi W} `{LabelParser} `{!ManagerRuntime W} `{Env}.
Notation M := (M W (list journal_entry)).

(** A step that does not return leaves [main] without an outcome. *)
Definition take_step (step : setup_step) : M (option error) := fun s =>
  let '(answer, w) := setup step (world s) in
  let s' := MkSt w (trace s)
    (local s ++ [{| je_step := step; je_answer := answer; je_before := trace s |}]) in
  match answer with
  | Some err => (Ret err, s')
  | None => (OutOfFuel, s')
  end.
(** [if err := step; err != nil { os.Exit(1) }]: the code of the process. *)
Definition orExit (step : setup_step) (continue : M Z) : M Z :=
  err ← take_step step;
  match err with Some _ => mret 1%Z | None => continue end.

Definition operatorNamespace : string :=
  if String.eqb (getenv "POD_NAMESPACE") "" then defaultOperatorNamespace
  else getenv "POD_NAMESPACE".
Definition managerOptions (f : flags) (cacheOpts : cacheOptions) : Options :=
  {| o_Cache := cacheOpts; o_BindAddress := fl_metricsAddr f;
     o_HealthProbeBindAddress := fl_probeAddr f;
     o_LeaderElection := fl_enableLeaderElection f;
     o_LeaderElectionID := "819a9291.instana.io";
     o_LeaderElectionNamespace := operatorNamespace |}.

(** The old operator is cleaned up when there is a client to do it. *)
Definition cleanupWithNewClient : M unit :=
  err ← take_step NewClient;
  match err with Some _ => mret tt | None => cleanupOldOperator end.
Definition main (f : flags) : M Z :=
  orExit GetConfigOrDie
    match getCacheOptions with
    | inr _ => mret 1%Z
    | inl cacheOpts =>
        orExit (NewManager (managerOptions f cacheOpts))
        (orExit (AddHealthzCheck "healthz")
        (orExit (AddReadyzCheck "readyz")
        (orExit AddAgentController
        (orExit AddRemoteController
        (_ ← cleanupWithNewClient;
         orExit Start (mret 0%Z))))))
    end.
End Main.

(** ** Facts *)
Section MainFacts.
Context {W : Type} `{K8sApi W} `{LabelParser} `{!ManagerRuntime W} `{Env}.
Notation M := (M W (list journal_entry)).
Implicit Types (steps : list setup_step) (j : list journal_entry) (t : list event).

(** The step returned without an error; it did not return. *)
Definition worked (e : journal_entry) : Prop := je_answer e = Some None.
Definition pending (e : journal_entry) : Prop := je_answer e = None.
(** The journal of steps that all worked. *)
Definition all_worked steps j : Prop := je_step <$> j = steps ∧ Forall worked j.
Definition started j : Prop := Start ∈ (je_step <$> j).

(** From the state [s] the computation has an outcome, or none when a step
    does not return; [R] relates it, what is added to the journal, and what to
    the trace. *)
Definition runs_at {A} (m : M A) s (R : outcome A → list journal_entry → list event → Prop) : Prop :=
  ∃ r s' j t, m s = (r, s') ∧ local s' = local s ++ j ∧ trace s' = trace s ++ t ∧ R r j t.

Lemma runs_at_ret {A} (a : A) s (R : outcome A → list journal_entry → list event → Prop) :
  R (Ret a) [] [] → runs_at (mret a) s R.
Proof. intros HR. exists (Ret a), s, [], []. by rewrite !app_nil_r. Qed.
Definition entry step answer (s : St W (list journal_entry)) : journal_entry :=
  {| je_step := step; je_answer := answer; je_before := trace s |}.
Lemma runs_at_orExit step k s (R : outcome Z → list journal_entry → list event → Prop) :
  (∀ err, R (Ret 1%Z) [entry step (Some (Some err)) s] []) →
  R OutOfFuel [entry step None s] [] →
  (∀ s1, trace s1 = trace s →
     runs_at k s1 (fun r j t => R r (entry step (Some None) s :: j) t)) →
  runs_at (orExit step k) s R.
Proof.
  intros Hf Hn Hk. unfold orExit, take_step, runs_at. unfold mbind, M_bind.
  destruct (setup step (world s)) as [[[err|]|] w].
  - eexists (Ret 1%Z), _, _, []. split; [reflexivity|]. split; [reflexivity|].
    split; [by rewrite app_nil_r|apply Hf].
  - destruct (Hk (MkSt w (trace s) (local s ++ [entry step (Some None) s])) eq_refl)
      as (r & s' & j & t & E & El & Et & HR).
    exists r, s'. do 2 eexists. split; [exact E|]. simpl in *. rewrite <- app_assoc in El. eauto.
  - eexists OutOfFuel, _, _, []. split; [reflexivity|]. split; [reflexivity|].
    split; [by rewrite app_nil_r|done].
Qed.

(** The clean-up takes its one step, and deletes what it is shown of the old
    operator when that worked. *)
Lemma cleanupWithNewClient_at s k (R : outcome Z → list journal_entry → list event → Prop) :
  R OutOfFuel [entry NewClient None s] [] →
  (∀ answer s1 t, (answer = None → deletes_old t) → (answer ≠ None → t = []) →
     trace s1 = trace s ++ t →
     runs_at k s1 (fun r j t' => R r (entry NewClient (Some answer) s :: j) (t ++ t'))) →
  runs_at (_ ← cleanupWithNewClient; k) s R.
Proof.
  intros Hp Hk. unfold cleanupWithNewClient, take_step, runs_at. unfold mbind, M_bind.
  destruct (setup NewClient (world s)) as [[e|] w].
  2: { eexists OutOfFuel, _, _, []. split; [reflexivity|]. split; [reflexivity|].
       split; [by rewrite app_nil_r|done]. }
  set (c := {| je_step := NewClient; je_answer := Some e; je_before := trace s |}).
  set (s1 := MkSt w (trace s) (local s ++ [c])).
  assert (Hs : ∃ s2 t, match e with Some _ => mret tt | None => cleanupOldOperator end s1 = (Ret tt, s2) ∧
    local s2 = local s1 ∧ trace s2 = trace s ++ t ∧ (e = None → deletes_old t) ∧ (e ≠ None → t = [])).
  { destruct e as [err|].
    - exists s1, []. by rewrite app_nil_r.
    - destruct (cleanupOldOperator_emits s1) as (t & Et & Hd).
      pose proof (cleanupOldOperator_keeps_local s1) as Hl.
      destruct (cleanupOldOperator s1) as [[[]|p|] s2]; [|done..]. by exists s2, t. }
  destruct Hs as (s2 & t & -> & Hl & Ht & Hd & Hn).
  destruct (Hk e s2 t Hd Hn Ht) as (r & s' & j & t' & E & El & Et & HR).
  exists r, s', (c :: j), (t ++ t'). rewrite E, El, Et, Ht, Hl. simpl.
  split; [done|]. by rewrite <- !app_assoc.
Qed.

(** What has to work before the old operator is looked for. *)
Definition preparation (f : flags) (cacheOpts : cacheOptions) : list setup_step :=
  [GetConfigOrDie; NewManager (managerOptions f cacheOpts); AddHealthzCheck "healthz";
   AddReadyzCheck "readyz"; AddAgentController; AddRemoteController].

(** What a run from [s] with the outcome [r] has done. *)
Definition main_run (f : flags) (s : St W (list journal_entry)) (r : outcome Z) j t : Prop :=
  (r = Ret 0%Z ∨ r = Ret 1%Z ∨ r = OutOfFuel) ∧
  (r = OutOfFuel ↔ ∃ earlier e, j = earlier ++ [e] ∧ pending e) ∧
  (r = Ret 0%Z ↔ ∃ e, e ∈ j ∧ je_step e = Start ∧ worked e) ∧
  (¬ started j → t = []) ∧
  (started j → ∃ cacheOpts prepared c e, getCacheOptions = inl cacheOpts ∧
     j = prepared ++ [c; e] ∧ all_worked (preparation f cacheOpts) prepared ∧
     je_step c = NewClient ∧ ¬ pending c ∧ je_step e = Start ∧ je_before e = trace s ++ t ∧
     (¬ worked c → t = []) ∧ (worked c → deletes_old t)) ∧
  (∀ e o, e ∈ j → je_step e = NewManager o → o_LeaderElectionNamespace o ≠ "").

Lemma operatorNamespace_named : operatorNamespace ≠ "".
Proof. unfold operatorNamespace. by destruct (String.eqb_spec (getenv "POD_NAMESPACE") ""). Qed.
Lemma last_entry (earlier : list journal_entry) e (P : journal_entry → Prop) :
  (∃ earlier' e', earlier ++ [e] = earlier' ++ [e'] ∧ P e') ↔ P e.
Proof. split; [|by exists earlier, e].
  intros (earlier' & e' & E & HP). apply app_inj_tail in E as [_ ->]. done. Qed.
Lemma preparation_step f opts e :
  e ∈ preparation f opts → e ≠ Start ∧ ∀ o, e = NewManager o → o_LeaderElectionNamespace o ≠ "".
Proof.
  unfold preparation. rewrite !elem_of_cons. intros Hin.
  destruct_or! Hin; subst; [..|by apply elem_of_nil in Hin]; (split; [done|]); try done.
  intros o [= <-]. apply operatorNamespace_named.
Qed.

(** A run that ends without starting the manager, in the step [e]. *)
Lemma main_run_stopped f s r j e opts :
  last j = Some e → Forall (fun e => je_step e ∈ NewClient :: preparation f opts) j →
  r = (if je_answer e then Ret 1%Z else OutOfFuel) → main_run f s r j [].
Proof.
  intros [earlier ->]%last_Some Hs ->. unfold main_run. rewrite last_entry.
  assert (Hsteps : ∀ e', e' ∈ earlier ++ [e] →
    je_step e' ≠ Start ∧ ∀ o, je_step e' = NewManager o → o_LeaderElectionNamespace o ≠ "").
  { rewrite Forall_forall in Hs. intros e' [Hn|Hin]%Hs%elem_of_cons; [by rewrite Hn|].
    by apply (preparation_step f opts). }
  assert (Hst : ¬ started (earlier ++ [e])).
  { intros (e' & Es & Hin)%list_elem_of_fmap. by destruct (Hsteps e' Hin) as [[] _]. }
  unfold pending. split_and!; [destruct (je_answer e); tauto|by destruct (je_answer e)| |done|done|].
  - split; [by destruct (je_answer e)|]. intros (e' & Hin & Hs' & _). by destruct (Hsteps e' Hin).
  - intros e' o Hin. by apply Hsteps.
Qed.
(** A run in which the manager is started. *)
Lemma main_run_started f s r prepared c e opts t :
  getCacheOptions = inl opts → all_worked (preparation f opts) prepared →
  je_step c = NewClient → ¬ pending c → je_step e = Start → je_before e = trace s ++ t →
  r = match je_answer e with Some None => Ret 0%Z | Some _ => Ret 1%Z | None => OutOfFuel end →
  (worked c → deletes_old t) → (¬ worked c → t = []) →
  main_run f s r (prepared ++ [c; e]) t.
Proof.
  intros Ho Hp Hc Hpc He Hb Hr Hd Hn.
  assert (Hst : ∀ e', e' ∈ prepared ++ [c] → je_step e' ≠ Start ∧
    ∀ o, je_step e' = NewManager o → o_LeaderElectionNamespace o ≠ "").
  { intros e' [Hin| ->%list_elem_of_singleton]%elem_of_app; [|by rewrite Hc].
    apply (preparation_step f opts). destruct Hp as [<- _]. by apply list_elem_of_fmap_2. }
  assert (Hin : started (prepared ++ [c; e])).
  { unfold started. rewrite fmap_app, <- He. apply elem_of_app. right. right. left. }
  assert (Hx : prepared ++ [c; e] = (prepared ++ [c]) ++ [e]) by by rewrite <- app_assoc.
  unfold main_run, pending, worked in *. split_and!.
  - destruct (je_answer e) as [[]|]; tauto.
  - rewrite Hx, last_entry, Hr. by destruct (je_answer e) as [[]|].
  - rewrite Hx. split.
    + intros ->. exists e. split; [apply elem_of_app; right; left|]. split; [done|].
      by destruct (je_answer e) as [[]|].
    + intros (e' & [Hin'| ->%list_elem_of_singleton]%elem_of_app & Hs & Ha); [|by rewrite Hr, Ha].
      by destruct (Hst e' Hin').
  - done.
  - intros _. exists opts, prepared, c, e. split_and!; (done || apply Hp).
  - rewrite Hx. intros e' o [Hin'| ->%list_elem_of_singleton]%elem_of_app Hs; [by apply (Hst e')|congruence].
Qed.
End MainFacts.

(** Discharges a run that ends without starting the manager. *)
Ltac stops opts :=
  eapply (main_run_stopped _ _ _ _ _ opts); [reflexivity| |reflexivity];
  repeat (apply Forall_cons_2; [unfold preparation; rewrite !elem_of_cons; simpl; tauto|]);
  apply Forall_nil_2.

(** ** Properties *)

(** C31: [main] starts the manager only after every step of the preparation
    worked, both controllers included, and after it deleted exactly what the
    cluster showed of the old operator, unless it got no client for that;
    otherwise it asks nothing of the cluster.  It exits, with 0 exactly when
    the manager ran and stopped without error and with 1 otherwise, unless the
    last step it took does not return; it never panics, and the lock of the
    leader is always in a named namespace. *)
Theorem main_starts {W} `{K8sApi W} `{LabelParser} `{!ManagerRuntime W} `{Env} f
    (s : St W (list journal_entry)) :
  ∃ r s' j t, main f s = (r, s') ∧ local s' = local s ++ j ∧ trace s' = trace s ++ t ∧
    main_run f s r j t.
Proof.
  apply runs_at_orExit; [intros err; stops (@nil (object_type * option ParsedSelector))|
    stops (@nil (object_type * option ParsedSelector))|intros s1 E1].
  destruct getCacheOptions as [opts|err] eqn:Eo;
    [|apply runs_at_ret; stops (@nil (object_type * option ParsedSelector))].
  do 5 (apply runs_at_orExit; [intros err; stops opts|stops opts|intros ? ?]).
  apply cleanupWithNewClient_at; [stops opts|]. intros answer s7 t Hd Hn Et.
  assert (Et' : trace s7 = trace s ++ t) by congruence.
  match goal with |- runs_at _ _ (fun r j t' => ?R r (?e1 :: ?e2 :: ?e3 :: ?e4 :: ?e5 :: ?e6 :: ?c :: j) _) =>
    assert (Hend : ∀ r e, je_step e = Start → je_before e = trace s7 →
      r = match je_answer e with Some None => Ret 0%Z | Some _ => Ret 1%Z | None => OutOfFuel end →
      main_run f s r ([e1; e2; e3; e4; e5; e6] ++ [c; e]) t) end.
  { intros r e He Hb Hr. apply (main_run_started f s r _ _ e opts t); unfold worked, pending; simpl.
    all: first [done|congruence|by split; [|repeat constructor]|by intros [= ->]; apply Hd|idtac].
    intros Ha. apply Hn. by intros ->. }
  apply runs_at_orExit; [intros err| |intros s8 E8; apply runs_at_ret]; rewrite app_nil_r;
    by apply Hend.
Qed.

(** A start on which only the second controller cannot be added, one on which
    everything works and the manager is stopped, and one on which it runs on. *)
Definition failing_runtime : ManagerRuntime cluster := fun step c =>
  (match step with AddRemoteController => Some (Some Refused) | _ => Some None end, c).
Definition working_runtime : ManagerRuntime cluster := fun _ c => (Some None, c).
Example main_exits :
  let r := @main cluster _ _ failing_runtime _ defaultFlags (start empty_cluster []) in
  fst r = Ret 1%Z ∧ length (local (snd r)) = 6%nat ∧ trace (snd r) = [].
Proof. vm_compute. by repeat split. Qed.
Example main_runs :
  let r := @main cluster _ _ working_runtime _ defaultFlags (start empty_cluster []) in
  fst r = Ret 0%Z ∧ length (local (snd r)) = 8%nat ∧ length (trace (snd r)) = 3%nat.
Proof. vm_compute. by repeat split. Qed.
Definition running_runtime : ManagerRuntime cluster := fun step c =>
  (match step with Start => None | _ => Some None end, c).
Example main_runs_on :
  let r := @main cluster _ _ running_runtime _ defaultFlags (start empty_cluster []) in
  fst r = OutOfFuel ∧ length (local (snd r)) = 8%nat ∧ length (trace (snd r)) = 3%nat.
Proof. vm_compute. by repeat split. Qed.
