(* ===== verification/Obedient.v ===== *)
(** * A cluster that does what it is asked

    What a reconciliation achieves depends on the cluster.  [obedient] says
    what is needed for it to succeed: requests are accepted, what is applied
    is held until it is deleted, reads find what is held.  The steps of the
    operator are followed through such a cluster. *)
From S2P Require Import Prelude GoStd Errors K8sTypes ApiTypes Effects Cluster Client.
From S2P Require Import Transformations Lifecycle RemoteLifecycle OperatorUtils StatusHelpers Status Helpers Reconcile Etcd.
From S2P Require Import VolumeBuilder Secrets AgentObjects SensorObjects DaemonSet K8sDeployment.
From S2P Require Import Controllers Resources.

Definition object_id : Type := GroupVersionKind * ObjectKey.
(** The kinds of objects the status is made from. *)
Definition kind_gvk (k : kind) : option GroupVersionKind :=
  match k with
  | KDaemonSet => Some (GVK "apps" "v1" "DaemonSet")
  | KDeployment => Some (GVK "apps" "v1" "Deployment")
  | KSecret => Some (GVK "" "v1" "Secret")
  | KConfigMap => Some (GVK "" "v1" "ConfigMap")
  | _ => None
  end.
Definition time_limit : Z := 30 * second.

(** The config map of this key. *)
Definition cm_id (k : ObjectKey) : object_id := (GVK "" "v1" "ConfigMap", k).
(** The object a request is about, by its Go type. *)
Definition target (o : object) : object_id :=
  (match o with OConfigMap _ => GVK "" "v1" "ConfigMap" | _ => object_gvk o end, object_key o).
(** What applying [o] makes of the data [d] of the config map of key [k]. *)
Definition applied_data (o : object) (dryRun : bool) (k : ObjectKey) (d : smap) : smap :=
  match o with
  | OConfigMap cm =>
      if dryRun then d else if decide (object_key o = k) then default ∅ (cm_Data cm) else d
  | _ => d
  end.
Lemma target_typed o : typed o → target o = identity o.
Proof. destruct o; try done. unfold target, identity. simpl. by intros ->. Qed.
Lemma applied_data_dry o k d : applied_data o true k d = d.
Proof. by destruct o. Qed.
Lemma applied_data_other o dryRun k d : target o ≠ cm_id k → applied_data o dryRun k d = d.
Proof.
  intros Hi. destruct o; try done. cbn [applied_data]. destruct dryRun; [done|].
  case_decide as Hk; [|done]. destruct Hi. unfold target, cm_id. by rewrite Hk.
Qed.

(** [id] is the identity of an object that an entry of [d] lists. *)
Definition listed `{DependentsCodec} (d : smap) (id : object_id) : Prop :=
  ∃ u, recorded d u ∧ id = identity (asObject u).

(** The object says what it is. *)
Definition complete (o : object) : Prop := object_name o ≠ "" ∧ typed o.

(** The objects of two worlds are the same: [held] tells which there are,
    [data] what the config maps contain. *)
Definition same_objects {W} (held : object_id → W → Prop) (data : ObjectKey → W → smap) (w w' : W) : Prop :=
  (∀ id, held id w' ↔ held id w) ∧ ∀ k, data k w' = data k w.

Lemma same_objects_trans {W} held data (w w1 w2 : W) :
  same_objects held data w w1 → same_objects held data w1 w2 → same_objects held data w w2.
Proof. intros [Hh Hd] [Hh' Hd']. split; intros; [by rewrite Hh', Hh|by rewrite Hd', Hd]. Qed.

(** The worlds [I], in which the cluster [held]s objects and config maps have
    their [data], are those of a cluster that accepts every request about
    objects that say their name and kind. *)
Record obedient {W} `{K8sApi W} `{ApiErrors} `{DependentsCodec} (I : W → Prop)
    (held : object_id → W → Prop) (data : ObjectKey → W → smap) (delay : Z) : Prop := {
  ob_live w : I w → cancelled w = None;
  ob_get k kkey w : I w →
    let w' := snd (k8sGet k kkey w) in
    I w' ∧ same_objects held data w w' ∧ (clock w' ≤ clock w + delay)%Z;
  ob_get_error k kkey w e : I w → fst (k8sGet k kkey w) = inr e → IsNotFound (Some e) = true;
  ob_found k gvk kkey w : I w → kind_gvk k = Some gvk → held (gvk, kkey) w →
    ∃ x, fst (k8sGet k kkey w) = inl x;
  ob_absent gvk kkey w : I w → ¬ held (gvk, kkey) w →
    ∃ e, fst (k8sGet (KUnstructured gvk) kkey w) = inr e;
  ob_configmap kkey w : I w →
    match fst (k8sGet KConfigMap kkey w) with
    | inl cm => typed (OConfigMap cm) ∧ object_key (OConfigMap cm) = kkey ∧ default ∅ (cm_Data cm) = data kkey w
    | inr _ => data kkey w = ∅
    end;
  ob_daemonset kkey ds w : I w → fst (k8sGet KDaemonSet kkey w) = inl ds →
    hasPersistHostUniqueID (ps_Containers (pt_Spec (ds_Template ds))) ≠ None;
  ob_recorded kkey k json w : I w → data kkey w !! k = Some json →
    (Z.of_nat (length (fst (unmarshalUnstructureds json))) * delay < time_limit)%Z;
  ob_apply o dryRun w : I w → complete o →
    let '(e, w') := k8sWrite (RApply o dryRun) w in
    e = None ∧ I w' ∧ (∀ id, held id w' ↔ held id w ∨ dryRun = false ∧ id = identity o) ∧
    ∀ k, data k w' = applied_data o dryRun k (data k w);
  ob_delete o w : I w →
    let '(e, w') := k8sWrite (RDelete o) w in
    IgnoreNotFound e = None ∧ I w' ∧ (∀ id, held id w' ↔ held id w ∧ id ≠ target o) ∧
    (∀ k, cm_id k ≠ target o → data k w' = data k w) ∧ (clock w' ≤ clock w + delay)%Z;
  ob_namespaces label w : I w →
    let w' := snd (k8sListNamespaces label w) in I w' ∧ same_objects held data w w';
  ob_slices namespace labels w : I w →
    let w' := snd (k8sListEndpointSlices namespace labels w) in I w' ∧ same_objects held data w w';
  ob_command cmd w : I w → let w' := snd (runCommand cmd w) in I w' ∧ same_objects held data w w'
}.
Existing Class obedient.

Section Obedient.
Context {W : Type} `{ClockLaws W} `{ApiErrors} `{DependentsCodec}.
Context (I : W → Prop) (held : object_id → W → Prop) (data : ObjectKey → W → smap) (delay : Z).
Context (HI : obedient I held data delay).

Section AnyState.
Context {X : Type}.
Notation M := (M W X).
Notation St := (St W X).

(** From [s] the computation returns, stays in [I], and ends as [Q] says. *)
Definition obeys {A} (m : M A) (s : St) (Q : A → St → Prop) : Prop :=
  ∃ a s', m s = (Ret a, s') ∧ I (world s') ∧ Q a s'.

Lemma obeys_ret {A} (a : A) s (Q : A → St → Prop) : I (world s) → Q a s → obeys (mret a) s Q.
Proof. intros Hs Hq. by exists a, s. Qed.
Lemma obeys_bind {A B} (m : M A) (k : A → M B) s P (Q : B → St → Prop) :
  obeys m s P → (∀ a s', I (world s') → P a s' → obeys (k a) s' Q) → obeys (m ≫= k) s Q.
Proof.
  intros (a & s' & E & Hs' & Hp) Hk. destruct (Hk a s' Hs' Hp) as (b & s2 & E2 & ? & ?).
  exists b, s2. by rewrite (bind_Ret _ _ _ _ _ E).
Qed.
Lemma obeys_mono {A} (m : M A) s (P Q : A → St → Prop) :
  obeys m s P → (∀ a s', I (world s') → P a s' → Q a s') → obeys m s Q.
Proof. intros (a & s' & E & Hs' & Hp) Hq. exists a, s'. eauto. Qed.
(** A call of the world. *)
Lemma obeys_call {A} (f : W → A * W) ev s (Q : A → St → Prop) :
  I (snd (f (world s))) →
  (∀ s', world s' = snd (f (world s)) → local s' = local s → Q (fst (f (world s))) s') →
  obeys (call f ev) s Q.
Proof.
  intros Hi Hq. unfold obeys, call. destruct (f (world s)) as [a w] eqn:E. simpl in *.
  do 2 eexists. split; [reflexivity|]. simpl. auto.
Qed.
Lemma obeys_foldM {A B} (f : B → A → M B) (l : list A) (Inv : list A → B → St → Prop) b s :
  (∀ d x r b s, l = d ++ x :: r → I (world s) → Inv d b s →
     obeys (f b x) s (fun b' s' => Inv (d ++ [x]) b' s')) →
  I (world s) → Inv [] b s → obeys (foldM f b l) s (Inv l).
Proof.
  intros Hf Hs Hb0. cut (∀ k d b s, l = d ++ k → I (world s) → Inv d b s → obeys (foldM f b k) s (Inv l)).
  { intros Hk. by apply (Hk l []). }
  intros k. induction k as [|x k IH]; intros d b' s' -> Hs' Hd; simpl.
  - apply obeys_ret; [done|]. by rewrite app_nil_r in *.
  - eapply obeys_bind; [by eapply Hf|]. intros b2 s2 Hs2 Hinv.
    eapply IH; [|done|exact Hinv]. by rewrite <- app_assoc.
Qed.

(** What a step leaves as it was. *)
Definition unchanged (s s' : St) : Prop :=
  local s' = local s ∧ same_objects held data (world s) (world s').
Lemma unchanged_trans s s' s2 : unchanged s s' → unchanged s' s2 → unchanged s s2.
Proof.
  intros (Hl & Hh & Hd) (Hl' & Hh' & Hd'). split; [congruence|].
  split; intros; [by rewrite Hh', Hh|by rewrite Hd', Hd].
Qed.

(** *** The client *)
Lemma obeys_doGet k kkey s : I (world s) →
  obeys (doGet k kkey) s (fun r s' => r = fst (k8sGet k kkey (world s)) ∧ unchanged s s' ∧
    (clock (world s) ≤ clock (world s') ≤ clock (world s) + delay)%Z).
Proof.
  intros Hs. destruct (ob_get _ _ _ _ HI k kkey _ Hs) as (Hi & Hh & Hc).
  pose proof (clock_get k kkey (world s)).
  apply obeys_call; [done|]. intros s' Ew El. split; [done|]. unfold unchanged. by rewrite Ew.
Qed.
(** A read of an object that is held, and one of an object that is not. *)
Lemma obeys_GetAsResult k kkey z gvk s :
  I (world s) → kind_gvk k = Some gvk → held (gvk, kkey) (world s) →
  obeys (GetAsResult k kkey z) s (fun r s' => Result.err r = None ∧ unchanged s s').
Proof.
  intros Hs Hk Hh. unfold GetAsResult. eapply obeys_bind; [by apply obeys_doGet|].
  intros r s' Hs' (-> & Hu & _). destruct (ob_found _ _ _ _ HI k gvk kkey _ Hs Hk Hh) as [x ->].
  by apply obeys_ret.
Qed.
(** *** Reads for the status *)
(** A step that only reads and has no error. *)
Definition reads {A} (m : M (Result.t A)) (s : St) : Prop :=
  obeys m s (fun r s' => Result.err r = None ∧ unchanged s s').
Lemma reads_info k kkey z gvk (f : denote k → Result.t ResourceInfo) s :
  (∀ v, Result.err (f v) = None) →
  I (world s) → kind_gvk k = Some gvk → held (gvk, kkey) (world s) →
  reads (r ← GetAsResult k kkey z; mret (Result.Map r f)) s.
Proof.
  intros Hf Hs Hk Hh. eapply obeys_bind; [by apply (obeys_GetAsResult k kkey z gvk)|].
  intros [x e] s' Hs' [He Hu]. simpl in He. subst e. apply obeys_ret; [done|]. split; [apply Hf|done].
Qed.
Lemma reads_ret {A} (a : A) s : I (world s) → reads (mret (Result.OfSuccess a)) s.
Proof. intros Hs. by apply obeys_ret. Qed.
Lemma obeys_readAll k gvk z unavailable keys objects (s : St) :
  kind_gvk k = Some gvk → I (world s) → (∀ kkey, kkey ∈ keys → held (gvk, kkey) (world s)) →
  obeys (readAll k z unavailable keys objects) s (fun r s' =>
    (∃ objects', r = inl objects') ∧ unchanged s s').
Proof.
  intros Hk. revert objects s. induction keys as [|kkey keys IH]; intros objects s Hs Hh; simpl.
  { apply obeys_ret; [done|]. split; [by eexists|done]. }
  eapply obeys_bind; [apply (obeys_GetAsResult k kkey z gvk); [done..|apply Hh; by left]|].
  intros [x e] s1 Hs1 [He Hu]. simpl in He. subst e. simpl.
  eapply obeys_mono; [apply IH; [done|]|].
  - intros k' Hk'. apply Hu, Hh. by right.
  - intros r s2 _ [? Hu2]. split; [done|]. by eapply unchanged_trans.
Qed.

(** *** Writes *)
Lemma doWrite_eq r (s : St) e w : k8sWrite r (world s) = (e, w) →
  doWrite r s = (Ret e, MkSt w (trace s ++ [EWrite r e]) (local s)).
Proof. intros E. unfold doWrite, call. by rewrite E. Qed.
Lemma obeys_Apply o dryRun s : I (world s) → complete o →
  obeys (Apply o dryRun) s (fun r s' => Result.err r = None ∧ local s' = local s ∧
    (∀ id, held id (world s') ↔ held id (world s) ∨ dryRun = false ∧ id = identity o) ∧
    ∀ k, data k (world s') = applied_data o dryRun k (data k (world s))).
Proof.
  intros Hs [Hn Ht]. unfold Apply. set (o' := clear_managed_fields o).
  assert (Hi : identity o' = identity o) by (unfold o', clear_managed_fields; by rewrite identity_map_meta).
  assert (Hn' : complete o').
  { split; [|by destruct o]. intros E. apply Hn.
    apply (f_equal (fun id : object_id => key_Name id.2)) in Hi. simpl in Hi. congruence. }
  assert (Hd : ∀ k d, applied_data o' dryRun k d = applied_data o dryRun k d) by (by destruct o).
  pose proof (ob_apply _ _ _ _ HI o' dryRun _ Hs Hn') as Ha.
  eapply (obeys_bind _ _ _ (fun e s' => e = None ∧ local s' = local s ∧
    (∀ id, held id (world s') ↔ held id (world s) ∨ dryRun = false ∧ id = identity o) ∧
    ∀ k, data k (world s') = applied_data o dryRun k (data k (world s)))).
  - destruct (k8sWrite (RApply o' dryRun) (world s)) as [e w'] eqn:E.
    destruct Ha as (-> & Hi' & Hh & Hdata). apply obeys_call; rewrite E; [done|].
    intros s' Ew El. rewrite Ew. simpl. split; [done|]. split; [done|].
    split; intros; [by rewrite Hh, Hi|by rewrite Hdata, Hd].
  - intros e s' Hs' (-> & ?). by apply obeys_ret.
Qed.

(** What deleting [objects] leaves. *)
Definition deleted (objects : list object) (s s' : St) : Prop :=
  local s' = local s ∧ (∀ id, held id (world s') ↔ held id (world s) ∧ id ∉ target <$> objects) ∧
  ∀ k, cm_id k ∉ target <$> objects → data k (world s') = data k (world s).
Lemma deleted_nil s : deleted [] s s.
Proof. split; [done|]. split; [set_solver|done]. Qed.
Lemma deleted_app l k s s1 s2 : deleted l s s1 → deleted k s1 s2 → deleted (l ++ k) s s2.
Proof.
  intros (Hl & Hh & Hd) (Hl' & Hh' & Hd'). split; [congruence|]. setoid_rewrite fmap_app. split.
  - intros id. rewrite Hh', Hh. set_solver.
  - intros i Hi. rewrite Hd', Hd; set_solver.
Qed.
Lemma deleted_unchanged l s s1 s2 : deleted l s s1 → unchanged s1 s2 → deleted l s s2.
Proof.
  intros (Hl & Hh & Hd) (Hl' & Hh' & Hd'). split; [congruence|].
  split; intros; [by rewrite Hh', Hh|by rewrite Hd', Hd].
Qed.

Lemma obeys_Delete o s : I (world s) →
  obeys (Delete o) s (fun e s' => IgnoreNotFound e = None ∧ deleted [o] s s' ∧
    (clock (world s') ≤ clock (world s) + delay)%Z).
Proof.
  intros Hs. pose proof (ob_delete _ _ _ _ HI o _ Hs) as Hd. unfold Delete, doWrite.
  destruct (k8sWrite (RDelete o) (world s)) as [e w'] eqn:E. destruct Hd as (He & Hi & Hh & Hd & Hc).
  apply obeys_call; rewrite E; [done|]. intros s' Ew El. unfold deleted. rewrite Ew. simpl.
  split; [done|]. split; [|done]. split; [done|]. split.
  - intros id. rewrite Hh. set_solver.
  - intros k Hk. apply Hd. set_solver.
Qed.
Lemma obeys_deleteAll objects s : I (world s) →
  obeys (deleteAll objects) s (fun e s' => e = None ∧ deleted objects s s' ∧
    (clock (world s') ≤ clock (world s) + Z.of_nat (length objects) * delay)%Z).
Proof.
  intros Hs. unfold deleteAll.
  set (P := fun l b s' => MultiErrorBuilder.Build b = None ∧ deleted l s s' ∧
    (clock (world s') ≤ clock (world s) + Z.of_nat (length l) * delay)%Z).
  eapply (obeys_bind _ _ _ (P objects)); [|intros b s' Hs' (Hb & ?); by apply obeys_ret].
  apply (obeys_foldM _ objects P); [|done|].
  - intros d o r b s1 _ Hs1 (Hb & Hd & Hc).
    eapply obeys_bind; [by apply obeys_Delete|]. intros e s2 Hs2 (He & Hd2 & Hc2).
    apply obeys_ret; [done|]. split; [by apply (MultiErrorBuilder.Build_AddSingle b (IgnoreNotFound e))|].
    split; [by eapply deleted_app|]. rewrite length_app. simpl. lia.
  - split; [done|]. split; [apply deleted_nil|simpl; lia].
Qed.

Lemma obeys_objectsExist objects s : I (world s) →
  (∀ o, o ∈ objects → ¬ held (identity o) (world s)) →
  obeys (objectsExist objects) s (fun rs s' => GoList.All rs doNotExist = true ∧ unchanged s s').
Proof.
  intros Hs Ho. unfold objectsExist.
  apply (obeys_foldM _ objects (fun d rs s' => GoList.All rs doNotExist = true ∧ unchanged s s')); [|done|done].
  intros d o r rs s1 Ed Hs1 [Hrs Hu]. unfold Exists, GetAsResult.
  assert (Hn : ¬ held (identity o) (world s1)).
  { destruct Hu as (_ & Hh & _). rewrite Hh. apply Ho. rewrite Ed. set_solver. }
  destruct (ob_absent _ _ _ _ HI _ _ _ Hs1 Hn) as [e He].
  pose proof (ob_get_error _ _ _ _ HI _ _ _ _ Hs1 He) as Hnf.
  eapply (obeys_bind _ _ _ (fun r s' => doNotExist r = true ∧ unchanged s1 s')).
  - eapply (obeys_bind _ _ _ (fun (r : Result.t Unstructured) s' =>
      (∃ z, r = Result.Of z (Some e)) ∧ unchanged s1 s')).
    + eapply obeys_bind; [by apply obeys_doGet|]. intros x s' Hs' (-> & Hu' & _). rewrite He.
      apply obeys_ret; [done|]. split; [by eexists|done].
    + intros r' s' Hs' [[z ->] Hu']. apply obeys_ret; [done|]. split; [|done]. simpl.
      unfold ifNotFound, IgnoreNotFound, Result.Recover. cbn. by rewrite Hnf.
  - intros r' s' Hs' [Hr' Hu']. apply obeys_ret; [done|]. split; [|by eapply unchanged_trans].
    rewrite GoList.All_spec, Forall_app, <- GoList.All_spec, Forall_singleton. done.
Qed.

Lemma obeys_DeleteAllInTimeLimit objects waitTime s :
  I (world s) → Forall typed objects → (Z.of_nat (length objects) * delay < time_limit)%Z →
  obeys (DeleteAllInTimeLimit objects time_limit waitTime) s (fun r s' =>
    Result.err r = None ∧ deleted objects s s').
Proof.
  intros Hs Ht Hn. unfold DeleteAllInTimeLimit, deleteAllInTimeLimit.
  eapply (obeys_bind _ _ _ (fun e s' => e = None ∧ deleted objects s s'));
    [|intros e s' Hs' (-> & ?); by apply obeys_ret].
  eapply (obeys_bind _ _ _ (fun t s' => t = clock (world s) ∧ s' = s)); [by exists (clock (world s)), s|].
  intros t s1 _ [-> ->].
  eapply obeys_bind; [by apply obeys_deleteAll|]. intros e s1 Hs1 (-> & Hd & Hc).
  unfold verify_fuel. cbn [verifyDeletion].
  eapply (obeys_bind _ _ _ (fun d s' => d = None ∧ s' = s1)).
  { exists None, s1. split; [|done]. rewrite ctxDone_eq, (ob_live _ _ _ _ HI _ Hs1).
    by destruct (Z.leb_spec (clock (world s) + time_limit) (clock (world s1))); [lia|]. }
  intros d s2 _ [-> ->].
  eapply obeys_bind; [apply obeys_objectsExist; [done|]|].
  { intros o Ho Hheld. apply Hd in Hheld as [_ Hni]. rewrite Forall_forall in Ht.
    rewrite <- (target_typed o (Ht o Ho)) in Hni. by apply Hni, list_elem_of_fmap_2. }
  intros rs s2 Hs2 [-> Hu]. apply obeys_ret; [done|]. split; [done|]. by eapply deleted_unchanged.
Qed.

(** *** The life cycle of the dependents *)
Section LifecycleSteps.
Context `{Env} `{MapRangeLaws} (d : lifecycleManager).

(** The config map that lists the dependents. *)
Notation record_key := (record_key d).
Lemma getConfigMapName_nonempty : getConfigMapName d ≠ "".
Proof. unfold getConfigMapName. by destruct (d_Name d). Qed.
Definition is_record (cm : ConfigMap) : Prop :=
  typed (OConfigMap cm) ∧ object_key (OConfigMap cm) = record_key.
Lemma record_complete cm : is_record cm → complete (OConfigMap cm).
Proof.
  intros [Ht Hk]. split; [|done]. apply (f_equal key_Name) in Hk. simpl in Hk. rewrite Hk.
  apply getConfigMapName_nonempty.
Qed.
Lemma record_identity cm : is_record cm → identity (OConfigMap cm) = cm_id record_key.
Proof. intros [Ht Hk]. rewrite <- target_typed by done. unfold target. by rewrite Hk. Qed.

Lemma obeys_getLifecycleConfigMap s : I (world s) →
  obeys (getLifecycleConfigMap d) s (fun r s' => unchanged s s' ∧
    default ∅ (cm_Data (fst r)) = data record_key (world s) ∧
    match snd r with
    | None => is_record (fst r)
    | Some e => IsNotFound (Some e) = true ∧ ¬ held (cm_id record_key) (world s) ∧
        data record_key (world s) = ∅
    end).
Proof.
  intros Hs. unfold getLifecycleConfigMap. fold record_key.
  eapply obeys_bind; [by apply (obeys_doGet KConfigMap)|].
  intros r s' Hs' (-> & Hu & _). apply obeys_ret; [done|]. split; [done|].
  pose proof (ob_configmap _ _ _ _ HI record_key _ Hs) as Hc.
  pose proof (ob_found _ _ _ _ HI KConfigMap _ record_key _ Hs eq_refl) as Hf.
  destruct (fst (k8sGet KConfigMap record_key (world s))) as [cm|e] eqn:E; simpl.
  - by destruct Hc as (? & ? & ?).
  - split; [done|]. split; [by apply (ob_get_error _ _ _ _ HI KConfigMap record_key (world s))|].
    split; [|done]. intros Hh. by destruct (Hf Hh) as [x ?].
Qed.

Lemma updatedObject_data objects cm k :
  is_record cm → applied_data (updatedObject d objects cm) false record_key k =
    updatedData d (asUnstructureds objects) (default ∅ (cm_Data cm)).
Proof. intros [_ Hk]. unfold object_key in Hk. simpl in Hk. simpl. by rewrite decide_True. Qed.
Lemma updatedObject_identity objects cm :
  is_record cm → complete (updatedObject d objects cm) ∧
    identity (updatedObject d objects cm) = cm_id record_key.
Proof. intros Hr. split; [exact (record_complete cm Hr)|exact (record_identity cm Hr)]. Qed.

(** A computation that succeeds is not tried again. *)
Lemma obeys_retry (fn : M (bool * option error)) s (Q : St → Prop) :
  obeys fn s (fun r s' => r = (true, None) ∧ Q s') →
  obeys (retry 5 (100 * millisecond) fn) s (fun e s' => e = None ∧ Q s').
Proof.
  intros Hfn. unfold retry. change (Z.to_nat 5) with 5%nat. cbn [retry_from].
  eapply obeys_bind; [exact Hfn|]. intros r s1 Hs1 (-> & Hq). by apply obeys_ret.
Qed.

(** From [w] to [w'] the [objects] were registered. *)
Record registered (objects : list object) (w w' : W) : Prop := {
  rg_held id : held id w' ↔ held id w ∨ id = cm_id record_key;
  rg_record : data record_key w' = updatedData d (asUnstructureds objects) (data record_key w);
  rg_others k : k ≠ record_key → data k w' = data k w
}.
Lemma obeys_updateOnce objects s : I (world s) →
  obeys (r ← getOrInitializeLifecycleCm d;
         res ← Apply (updatedObject d objects (fst r)) false;
         mret (Result.err res)) s
    (fun e s' => e = None ∧ local s' = local s ∧ registered objects (world s) (world s')).
Proof.
  intros Hs. unfold getOrInitializeLifecycleCm.
  eapply (obeys_bind _ _ _ (fun r s' => unchanged s s' ∧ is_record (fst r) ∧
    default ∅ (cm_Data (fst r)) = data record_key (world s))).
  - eapply obeys_bind; [by apply obeys_getLifecycleConfigMap|].
    intros [cm e] s' Hs' (Hu & Hd & Hr). apply obeys_ret; [done|]. split; [done|].
    cbn [fst snd] in *. unfold initializeLifecycleCm. destruct e as [e|]; cbn; [|by rewrite Hd].
    by destruct Hr as (-> & _ & ->).
  - intros [cm e] s1 Hs1 ((Hl & Hh & Hdata) & Hr & Hd). cbn [fst] in *.
    destruct (updatedObject_identity objects cm Hr) as [Hc Hi].
    eapply obeys_bind; [by apply obeys_Apply|].
    intros res s2 Hs2 (-> & Hl2 & Hh2 & Hd2). apply obeys_ret; [done|]. split; [done|].
    split; [congruence|]. split.
    + intros id. rewrite Hh2, Hh, Hi. naive_solver.
    + by rewrite Hd2, (updatedObject_data objects cm _ Hr), Hd.
    + intros k Hk. rewrite Hd2, applied_data_other; [apply Hdata|].
      destruct Hc as [_ Ht]. rewrite target_typed, Hi by done. by intros [= E].
Qed.
Lemma obeys_UpdateDependentLifecycleInfo objects s : I (world s) →
  obeys (UpdateDependentLifecycleInfo d objects) s
    (fun e s' => e = None ∧ local s' = local s ∧ registered objects (world s) (world s')).
Proof.
  intros Hs. apply obeys_retry.
  destruct (obeys_updateOnce objects s Hs) as (e & s' & E & Hs' & -> & Hq).
  exists (true, None), s'. split; [|done]. revert E. unfold updateAttempt, mbind, M_bind.
  destruct (getOrInitializeLifecycleCm d s) as [[r|p|] s1]; [|done..].
  destruct (Apply _ _ s1) as [[res|p|] s2]; [|done..]. by intros [= -> ->].
Qed.

(** *** The clean-up *)
Definition unstructured_targets (us : list Unstructured) : list object_id := (identity ∘ asObject) <$> us.
Lemma targets_of us : target <$> GoList.MapTo us asObject = unstructured_targets us.
Proof. rewrite GoList.MapTo_fmap, <- list_fmap_compose. done. Qed.
Lemma identity_asObject u o : identity (asObject u) = identity o ↔ u = asUnstructured o.
Proof.
  destruct u as [gvk name namespace]. unfold identity, object_key, asUnstructured, object_namespace, object_name.
  cbn. split; [intros [= -> -> ->]|intros [= -> -> ->]]; done.
Qed.
(** What an entry lists and the current generation has not. *)
Lemma stale_spec json objects id :
  id ∈ unstructured_targets (deprecatedDependents json (asUnstructureds objects)) ↔
  (∃ u, u ∈ fst (unmarshalUnstructureds json) ∧ id = identity (asObject u)) ∧ id ∉ identity <$> objects.
Proof.
  unfold unstructured_targets, deprecatedDependents. split.
  - intros (u & -> & [Hu Hn]%GoList.Diff_spec)%list_elem_of_fmap. split; [by exists u|].
    intros (o & E & Ho)%list_elem_of_fmap. apply Hn. apply identity_asObject in E as ->.
    unfold asUnstructureds. by apply list_elem_of_fmap_2.
  - intros [(u & Hu & ->) Hn]. apply list_elem_of_fmap. exists u. split; [done|]. apply GoList.Diff_spec. split; [done|].
    intros (o & -> & Ho)%list_elem_of_fmap. apply Hn. apply list_elem_of_fmap. exists o. split; [|done].
    by apply identity_asObject.
Qed.

Lemma obeys_cleanupEntry objects acc b k json s : I (world s) →
  (Z.of_nat (length (fst (unmarshalUnstructureds json))) * delay < time_limit)%Z →
  obeys (cleanupEntry d (asUnstructureds objects) (acc, b) (k, json)) s (fun r s' =>
    r = (if String.eqb k (getCurrentGenKey d) then acc else delete k acc, b) ∧ local s' = local s ∧
    (∀ id, held id (world s') ↔ held id (world s) ∧
      id ∉ unstructured_targets (deprecatedDependents json (asUnstructureds objects))) ∧
    ∀ k', cm_id k' ∉ unstructured_targets (deprecatedDependents json (asUnstructureds objects)) →
      data k' (world s') = data k' (world s)).
Proof.
  intros Hs Hn. unfold cleanupEntry, deleteAllDependents.
  set (stale := deprecatedDependents json (asUnstructureds objects)).
  assert (Hlen : (length stale ≤ length (fst (unmarshalUnstructureds json)))%nat)
    by apply sublist_length, GoList.Filter_sublist.
  eapply obeys_bind; [apply (obeys_DeleteAllInTimeLimit (GoList.MapTo stale asObject)); [done|..]|].
  { rewrite GoList.MapTo_fmap, Forall_fmap. by apply Forall_true. }
  { rewrite GoList.MapTo_fmap, length_fmap. destruct (Z.le_gt_cases 0 delay); [nia|].
    assert (0 < time_limit)%Z by done. nia. }
  rewrite <- targets_of. intros r s' Hs' (-> & Hl & Hh & Hd). apply obeys_ret; [done|].
  split; [done|]. split; [done|]. by split.
Qed.

(** The entries that are left. *)
Definition only_current (acc D : smap) : Prop :=
  ∀ k, acc !! k = if decide (k = getCurrentGenKey d) then D !! k else None.
(** What the loop has done after the entries [l] of [D]. *)
Record cleaned_up objects (D : smap) (s : St) (l : list (string * string))
    (acc : smap * MultiErrorBuilder.t) (s' : St) : Prop := {
  cu_errors : snd acc = MultiErrorBuilder.New [];
  cu_local : local s' = local s;
  cu_entries k : fst acc !! k =
    if decide (k ≠ getCurrentGenKey d ∧ k ∈ fst <$> l) then None else D !! k;
  cu_held id : held id (world s') ↔ held id (world s) ∧
    Forall (fun kv => id ∉ unstructured_targets (deprecatedDependents (snd kv) (asUnstructureds objects))) l;
  cu_others k :
    Forall (fun kv => cm_id k ∉ unstructured_targets (deprecatedDependents (snd kv) (asUnstructureds objects))) l →
    data k (world s') = data k (world s)
}.
Lemma obeys_cleanupEntries objects D s s0 :
  I (world s) → unchanged s0 s → data record_key (world s0) = D → I (world s0) →
  obeys (foldM (cleanupEntry d (asUnstructureds objects)) (D, MultiErrorBuilder.New []) (range D)) s
    (cleaned_up objects D s0 (range D)).
Proof.
  intros Hs (Hl & Hh & Hdata) HD Hs0. apply (obeys_foldM _ _ (cleaned_up objects D s0)); [|done|].
  - intros l [k json] rest [acc b] s1 Er Hs1 [Hb Hl1 He Hh1 Hd1]. simpl in Hb. subst b.
    assert (Hin : (k, json) ∈ range D) by (rewrite Er; set_solver).
    rewrite range_perm in Hin. apply elem_of_map_to_list in Hin.
    eapply obeys_mono; [apply (obeys_cleanupEntry objects); [done|]|].
    { apply (ob_recorded _ _ _ _ HI record_key k json _ Hs0). by rewrite HD. }
    intros r s2 Hs2 (-> & Hl2 & Hh2 & Hd2). split; [done|congruence| | |].
    + intros k'. cbn [fst]. cbn [fst] in He. rewrite fmap_app.
      destruct (String.eqb_spec k (getCurrentGenKey d)) as [Hk|Hk].
      * rewrite He. repeat case_decide; set_solver.
      * destruct (decide (k' = k)) as [->|Hne].
        -- rewrite lookup_delete_eq, decide_True; [done|]. set_solver.
        -- rewrite lookup_delete_ne, He by done. repeat case_decide; set_solver.
    + intros id. rewrite Hh2, Hh1, Forall_app, Forall_singleton. simpl. tauto.
    + intros k'. rewrite Forall_app, Forall_singleton. intros [Hk' Hx]. by rewrite Hd2, Hd1.
  - split; [done|done| | |].
    + intros k. rewrite decide_False; [done|]. set_solver.
    + intros id. rewrite Hh. split; [|tauto]. intros. split; [done|constructor].
    + intros k _. apply Hdata.
Qed.

(** From [w] to [w'] what is recorded and not one of the [objects] was deleted. *)
Record cleaned (objects : list object) (w w' : W) : Prop := {
  cl_held id : held id w' ↔ id = cm_id record_key ∨ held id w ∧
    ¬ (listed (data record_key w) id ∧ id ∉ identity <$> objects);
  cl_record : only_current (data record_key w') (data record_key w);
  cl_others k : k ≠ record_key →
    ¬ (listed (data record_key w) (cm_id k) ∧ cm_id k ∉ identity <$> objects) → data k w' = data k w
}.
Lemma cleaned_same objects w w1 w' w2 :
  same_objects held data w w1 → cleaned objects w1 w' → same_objects held data w' w2 → cleaned objects w w2.
Proof.
  intros [Hh1 Hd1] [Hh Hr Ho] [Hh2 Hd2]. rewrite (Hd1 record_key) in *. split.
  - intros id. by rewrite Hh2, Hh, Hh1.
  - by rewrite Hd2.
  - intros k Hk Hn. by rewrite Hd2, Ho, Hd1.
Qed.
(** The entries from which [id] is not deleted. *)
Lemma not_stale objects D id :
  Forall (fun kv => id ∉ unstructured_targets (deprecatedDependents (snd kv) (asUnstructureds objects)))
    (range D) ↔ ¬ (listed D id ∧ id ∉ identity <$> objects).
Proof.
  rewrite Forall_forall. unfold listed, recorded. setoid_rewrite stale_spec. split.
  - intros Hn [(u & (k & j & Hkj & Hu) & ->) Hni].
    apply (Hn (k, j)); [|split; [by exists u|done]]. rewrite range_perm. by apply elem_of_map_to_list.
  - intros Hn [k j] Hkj [(u & Hu & ->) Hni]. rewrite range_perm in Hkj. apply elem_of_map_to_list in Hkj.
    apply Hn. split; [|done]. exists u. split; [|done]. by exists k, j.
Qed.
Lemma obeys_cleanupOnce objects s : I (world s) → held (cm_id record_key) (world s) →
  obeys (cleanupOnce d objects) s
    (fun e s' => e = None ∧ local s' = local s ∧ cleaned objects (world s) (world s')).
Proof.
  intros Hs Hheld.
  unfold cleanupOnce. eapply obeys_bind; [by apply obeys_getLifecycleConfigMap|].
  intros [cm e] s1 Hs1 (Hu & HD & Hr). cbn [fst snd] in *.
  destruct e as [e|]; [by destruct Hr as (_ & [] & _)|].
  eapply obeys_bind; [apply (obeys_cleanupEntries objects _ s1 s Hs1 Hu (eq_sym HD) Hs)|].
  intros [acc b] s2 Hs2 [Hb Hl2 He Hh2 Hd2]. simpl in Hb, He. subst b. cbn [fst snd].
  assert (Hc : is_record (cleanedCm cm acc)) by exact Hr.
  eapply obeys_bind; [apply obeys_Apply; [done|by apply record_complete]|].
  intros res s3 Hs3 (Hres & Hl3 & Hh3 & Hd3). apply obeys_ret; [done|].
  split; [unfold Result.OnFailure, Result.IsFailure, Result.IsSuccess; by rewrite Hres|].
  split; [congruence|]. split.
  - intros id. rewrite Hh3, (record_identity _ Hc), Hh2, <- HD, not_stale. tauto.
  - rewrite Hd3. destruct Hc as [_ Hk]. unfold object_key in Hk. simpl in Hk. intros k. simpl.
    rewrite decide_True by done. rewrite <- HD.
    assert (Hall : ∀ k, acc !! k = if decide (k = getCurrentGenKey d) then default ∅ (cm_Data cm) !! k else None).
    { intros k'. rewrite He. destruct (decide (k' = getCurrentGenKey d)) as [Ek|Hk'].
      - rewrite decide_False by tauto. done.
      - case_decide as Hin; [done|]. destruct (default ∅ (cm_Data cm) !! k') as [j|] eqn:Ej; [|done].
        destruct Hin. split; [done|]. apply list_elem_of_fmap. exists (k', j). split; [done|].
        rewrite range_perm. by apply elem_of_map_to_list. }
    unfold cleanedCm. destruct (cm_Data cm); simpl; [apply Hall|].
    rewrite lookup_empty. by case_decide.
  - intros k Hk Hn. rewrite Hd3, applied_data_other.
    + apply Hd2, not_stale. by rewrite HD.
    + destruct (record_complete _ Hc) as [_ Ht]. rewrite target_typed, (record_identity _ Hc) by done.
      by intros [= E].
Qed.
Lemma obeys_CleanupDependents objects s : I (world s) → held (cm_id record_key) (world s) →
  obeys (CleanupDependents d objects) s
    (fun e s' => e = None ∧ local s' = local s ∧ cleaned objects (world s) (world s')).
Proof.
  intros Hs Hheld. apply obeys_retry. unfold cleanupAttempt.
  eapply obeys_bind; [by apply obeys_cleanupOnce|]. intros e s1 Hs1 (-> & Hq). by apply obeys_ret.
Qed.
End LifecycleSteps.

(** What a manager promises on such a cluster: it registers and cleans up in
    the record of [d]. *)
Class ObeyingManager `{Env} (mgr : DependentLifecycleManager W X) (d : lifecycleManager) := {
  mgr_update objects s : I (world s) →
    obeys (dlm_Update mgr objects) s
      (fun e s' => e = None ∧ local s' = local s ∧ registered d objects (world s) (world s'));
  mgr_cleanup objects s : I (world s) → held (cm_id (record_key d)) (world s) →
    obeys (dlm_Cleanup mgr objects) s
      (fun e s' => e = None ∧ local s' = local s ∧ cleaned d objects (world s) (world s'))
}.
Lemma obeys_same {A} (m m' : M A) s Q : same m m' → obeys m' s Q → obeys m s Q.
Proof. intros Hm (a & s' & E & ?). exists a, s'. by rewrite Hm. Qed.
#[export] Instance agentManager_obeys `{Env} `{MapRangeLaws} d : ObeyingManager (agentManager d) d.
Proof. split; [apply obeys_UpdateDependentLifecycleInfo|apply obeys_CleanupDependents]. Qed.
#[export] Instance remoteManager_obeys `{Env} `{MapRangeLaws} (rd : remoteDependentLifecycleManager) :
  ObeyingManager (remoteManager rd) (commonManager rd).
Proof.
  split; intros objects s Hs.
  - eapply obeys_same; [apply RemoteUpdate_same|by apply obeys_updateOnce].
  - intros Hh. eapply obeys_same; [apply RemoteCleanup_same|by apply obeys_cleanupOnce].
Qed.

(** *** Applying a generation of objects *)
Section ApplySteps.
Context `{Env} (o : operatorUtils W X) (T : X → Prop).

(** Building keeps what the local state is known to be. *)
Definition keeps_known (b : ObjectBuilder W X) : Prop :=
  ∀ s v s', Build b s = (Ret v, s') → T (local s) → T (local s').

Lemma obeys_buildObjects bs vs s :
  Forall2 Builds bs vs → Forall keeps_known bs → I (world s) → T (local s) →
  obeys (buildObjects o bs) s (fun objects s' =>
    objects = transformedAll o bs vs ∧ world s' = world s ∧ T (local s')).
Proof.
  intros Hbs Hk Hs Ht. unfold buildObjects, transformedAll.
  eapply (obeys_bind _ _ _ (fun acc s' => acc = zip_with (transformed o) bs vs ∧
    world s' = world s ∧ T (local s'))); [|by intros acc s' Hs' (-> & ?); apply obeys_ret].
  cut (∀ acc s, I (world s) → T (local s) → obeys (foldM (fun acc b =>
      opt ← BuilderTransformer_Apply (ou_transformations o) b; mret (acc ++ [opt])) acc bs) s
    (fun acc' s' => acc' = acc ++ zip_with (transformed o) bs vs ∧ world s' = world s ∧ T (local s'))).
  { intros Hf. exact (Hf [] s Hs Ht). }
  clear s Hs Ht. induction Hbs as [|b v bs vs Hb _ IH]; intros acc s Hs Ht; simpl.
  - apply obeys_ret; [done|]. by rewrite app_nil_r.
  - apply Forall_cons in Hk as [Hkb Hk]. destruct (Hb s) as [x E].
    pose proof (Hkb _ _ _ E Ht) as Hx.
    eapply (obeys_bind _ _ _ (fun acc' s' => acc' = acc ++ [transformed o b v] ∧
      world s' = world s ∧ T (local s'))).
    + eexists _, _. split; [|split; [|split; [reflexivity|]]].
      * unfold BuilderTransformer_Apply. unfold mbind, M_bind. rewrite E. by destruct v.
      * done.
      * done.
    + intros acc' s' Hs' (-> & Hw & Ht'). eapply obeys_mono; [apply (IH Hk _ s' Hs' Ht')|].
      intros acc2 s2 _ (-> & Hw2 & ?). split; [by rewrite <- app_assoc|]. split; [congruence|done].
Qed.

Lemma obeys_applyAll objects dryRun s : I (world s) → Forall complete objects →
  obeys (applyAll objects dryRun) s (fun e s' => e = None ∧ local s' = local s ∧
    (∀ id, held id (world s') ↔ held id (world s) ∨ dryRun = false ∧ id ∈ identity <$> objects) ∧
    ∀ k, cm_id k ∉ identity <$> objects → data k (world s') = data k (world s)).
Proof.
  intros Hs Hc. unfold applyAll.
  set (Q := fun (l : list object) (b : MultiErrorBuilder.t) s' => b = MultiErrorBuilder.New [] ∧ local s' = local s ∧
    (∀ id, held id (world s') ↔ held id (world s) ∨ dryRun = false ∧ id ∈ identity <$> l) ∧
    ∀ k, cm_id k ∉ identity <$> l → data k (world s') = data k (world s)).
  eapply (obeys_bind _ _ _ (Q objects)); [|by intros b s' Hs' (-> & ?); apply obeys_ret].
  apply (obeys_foldM _ objects Q); [|done|].
  - intros l x r b s1 Eo Hs1 (-> & Hl & Hh & Hd).
    assert (Hx : complete x) by (rewrite Forall_forall in Hc; apply Hc; rewrite Eo; set_solver).
    eapply obeys_bind; [by apply obeys_Apply|].
    intros res s2 Hs2 (Hr & Hl2 & Hh2 & Hd2). apply obeys_ret; [done|]. split; [|split; [congruence|]].
    + unfold Result.OnFailure, Result.IsFailure, Result.IsSuccess. by rewrite Hr.
    + setoid_rewrite fmap_app. split.
      * intros id. rewrite Hh2, Hh. set_solver.
      * intros k Hk. rewrite Hd2, applied_data_other; [apply Hd; set_solver|].
        destruct Hx as [_ Ht]. rewrite (target_typed x Ht). set_solver.
  - split; [done|]. split; [done|]. split; [set_solver|done].
Qed.

(** What a generation of objects leaves on the cluster: it is there, what was
    recorded and is not part of it is gone, and everything else is as it was. *)
Record applied_generation (d : lifecycleManager) (objects : list object) (w w' : W) : Prop := {
  ag_made obj : obj ∈ objects → held (identity obj) w';
  ag_cleaned id : held id w' → id = cm_id (record_key d) ∨
    (held id w ∨ id ∈ identity <$> objects) ∧
    (listed (updatedData d (asUnstructureds objects) (data (record_key d) w)) id → id ∈ identity <$> objects);
  ag_kept id : held id w →
    ¬ listed (updatedData d (asUnstructureds objects) (data (record_key d) w)) id → held id w';
  ag_record : only_current d (data (record_key d) w')
    (updatedData d (asUnstructureds objects) (data (record_key d) w));
  ag_recorded : held (cm_id (record_key d)) w';
  ag_others k : k ≠ record_key d → cm_id k ∉ identity <$> objects →
    ¬ listed (updatedData d (asUnstructureds objects) (data (record_key d) w)) (cm_id k) →
    data k w' = data k w
}.

(** From [w1] to [w'] a generation was applied: then also from worlds with the
    same objects. *)
Lemma applied_generation_same d objects w w1 w' w2 :
  same_objects held data w w1 → applied_generation d objects w1 w' →
  same_objects held data w' w2 → applied_generation d objects w w2.
Proof.
  intros [Hh1 Hd1] [Hm Hc Hk Hr Hrd Ho] [Hh Hd]. rewrite (Hd1 (record_key d)) in *. split.
  - intros obj Hobj. by apply Hh, Hm.
  - intros id Hid. apply Hh, Hc in Hid. by rewrite Hh1 in Hid.
  - intros id Hid Hn. apply Hh, Hk; [by apply Hh1|done].
  - by rewrite Hd.
  - by apply Hh.
  - intros k ? ? ?. by rewrite Hd, Ho, Hd1.
Qed.

Lemma obeys_ApplyAll d `{!ObeyingManager (ou_manager o) d} bs vs s :
  Forall2 Builds bs vs → Forall keeps_known bs → I (world s) → T (local s) →
  Forall complete (transformedAll o bs vs) →
  cm_id (record_key d) ∉ identity <$> transformedAll o bs vs →
  obeys (ApplyAll o bs) s (fun e s' => e = None ∧ T (local s') ∧
    applied_generation d (transformedAll o bs vs) (world s) (world s')).
Proof.
  intros Hbs Hk Hs Ht Hc Hr. unfold ApplyAll. set (objects := transformedAll o bs vs) in *.
  eapply obeys_bind; [by apply obeys_buildObjects|]. intros l s1 Hs1 (-> & Hw1 & Ht1). fold objects.
  eapply obeys_bind; [by apply obeys_applyAll|]. intros e s2 Hs2 (-> & Hl2 & Hh2 & Hd2).
  eapply obeys_bind; [apply obeys_buildObjects; [done..|congruence]|]. intros l s3 Hs3 (-> & Hw3 & Ht3).
  fold objects. eapply obeys_bind; [by apply mgr_update|].
  intros e s4 Hs4 (-> & Hl4 & [Hh4 Hd4 Ho4]).
  eapply obeys_bind; [by apply obeys_applyAll|]. intros e s5 Hs5 (-> & Hl5 & Hh5 & Hd5).
  pose proof (Hd2 _ Hr) as Hr2. pose proof (Hd5 _ Hr) as Hr5.
  assert (Hrec : held (cm_id (record_key d)) (world s5)) by (apply Hh5; left; apply Hh4; by right).
  eapply obeys_mono; [by apply mgr_cleanup|]. intros e s6 Hs6 (-> & Hl6 & [Hh6 Hd6 Ho6]).
  split; [done|]. split; [congruence|].
  rewrite Hr5, Hd4, Hw3, Hr2, Hw1 in Hd6, Hh6, Ho6.
  assert (Hbefore : ∀ id, held id (world s5) ↔ held id (world s) ∨ id = cm_id (record_key d) ∨ id ∈ identity <$> objects).
  { intros id. rewrite Hh5, Hh4, Hw3, Hh2, Hw1. naive_solver. }
  split; [| | |done| |].
  - intros obj Ho. apply Hh6. right. split; [apply Hbefore; do 2 right; by apply list_elem_of_fmap_2|].
    intros [_ Hn]. by apply Hn, list_elem_of_fmap_2.
  - intros id Hid. apply Hh6 in Hid as [->|[Hid Hn]]; [by left|]. apply Hbefore in Hid.
    destruct Hid as [Hid|[->|Hid]]; [|by left|]; right; (split; [by auto|]); intros Hli;
      (destruct (decide (id ∈ identity <$> objects)) as [?|Hni]; [done|by destruct (Hn (conj Hli Hni))]).
  - intros id Hid Hn. apply Hh6. right. split; [by apply Hbefore; left|tauto].
  - apply Hh6. by left.
  - intros k Hk' Ho Hn. by rewrite Ho6, Hd5, Ho4, Hw3, Hd2, Hw1 by tauto.
Qed.
End ApplySteps.
End AnyState.
End Obedient.
