(* ===== verification/Records.v ===== *)
(** * What the record of the dependents says

    After a generation was applied its record lists the generation and nothing
    else, and nothing was touched but what the record listed and the
    generation itself. *)
From S2P Require Import Prelude GoStd Errors K8sTypes ApiTypes Effects Cluster Client.
From S2P Require Import Transformations Lifecycle RemoteLifecycle OperatorUtils Resources Obedient.

(** ** Entries *)

(** An entry of a record with one entry is not lost when a generation is
    registered. *)
Definition single (D : smap) : Prop := ∀ k k', is_Some (D !! k) → is_Some (D !! k') → k = k'.

Section Entries.
Context `{DependentsCodec} `{Env} (d : lifecycleManager).

Lemma listed_registered us D id : single D → listed D id → listed (updatedData d us D) id.
Proof.
  intros Hs (u & (k & j & Hk & Hu) & ->). exists u. split; [|done].
  destruct (decide (k = getCurrentGenKey d)) as [->|Hne].
  - exists (getCurrentGenKey d +++ "-dirty"), j. by rewrite updatedData_dirty, Hk.
  - exists k, j. split; [|done]. unfold updatedData. rewrite lookup_insert_ne by done.
    destruct (D !! getCurrentGenKey d) as [j'|] eqn:E; [|done].
    destruct Hne. apply Hs; by eexists.
Qed.

Context `{!DependentsCodecLaws}.
(** The objects have a kind. *)
Definition kinded (objects : list object) : Prop := Forall (fun o => gvk_Kind (object_gvk o) ≠ "") objects.

Lemma listed_current objects id :
  kinded objects →
  listed {[ getCurrentGenKey d := marshalUnstructureds (asUnstructureds objects) ]} id ↔ id ∈ identity <$> objects.
Proof.
  intros Hk. rewrite list_elem_of_fmap. split.
  - intros (u & (k & j & [<- <-]%lookup_singleton_Some & Hu) & ->).
    rewrite unmarshal_marshal in Hu by (by apply asUnstructureds_kinds).
    apply list_elem_of_fmap in Hu as (o & -> & Ho). exists o. split; [|done]. by apply identity_asObject.
  - intros (o & -> & Ho). exists (asUnstructured o). split; [|symmetry; by apply identity_asObject].
    eexists _, _. split; [apply lookup_singleton_eq|].
    rewrite unmarshal_marshal by (by apply asUnstructureds_kinds). simpl. by apply list_elem_of_fmap_2.
Qed.
(** Registration adds the generation, and nothing else. *)
Lemma listed_updated objects D id :
  kinded objects → listed (updatedData d (asUnstructureds objects) D) id → listed D id ∨ id ∈ identity <$> objects.
Proof.
  intros Hk (u & (k & j & Hkj & Hu) & ->). unfold updatedData in Hkj.
  apply lookup_insert_Some in Hkj as [[<- <-]|[Hne Hkj]].
  - right. apply (listed_current objects _ Hk). exists u. split; [|done].
    eexists _, _. split; [apply lookup_singleton_eq|done].
  - left. exists u. split; [|done]. destruct (D !! getCurrentGenKey d) as [v|] eqn:E; [|by exists k, j].
    apply lookup_insert_Some in Hkj as [[<- <-]|[_ Hkj]]; [by eexists _, _|by exists k, j].
Qed.
(** What is left of the record after a clean-up. *)
Lemma record_lists objects D D' :
  kinded objects → only_current d D' (updatedData d (asUnstructureds objects) D) →
  single D' ∧ ∀ id, listed D' id ↔ id ∈ identity <$> objects.
Proof.
  intros Hk Hr. assert (E : D' = {[ getCurrentGenKey d := marshalUnstructureds (asUnstructureds objects) ]}).
  { apply map_eq. intros k. rewrite Hr. case_decide as Ek; [subst k|].
    - by rewrite updatedData_current, lookup_singleton_eq.
    - by rewrite lookup_singleton_ne by done. }
  split; [|intros id; rewrite E; by apply listed_current].
  intros k k' [j Hj] [j' Hj']. rewrite E in Hj, Hj'. apply lookup_singleton_Some in Hj as [<- _].
  by apply lookup_singleton_Some in Hj' as [<- _].
Qed.
End Entries.

(** ** What is touched *)
Section Frames.
Context {W : Type} `{DependentsCodecLaws} `{Env}.
Context (held : object_id → W → Prop) (data : ObjectKey → W → smap) (P : object_id → Prop).

(** Between [w] and [w'] only objects in [P] were made, deleted or changed. *)
Definition touches_only (w w' : W) : Prop :=
  (∀ id, ¬ P id → (held id w' ↔ held id w)) ∧ ∀ k, ¬ P (cm_id k) → data k w' = data k w.
(** The record of this key lists only objects in [P]. *)
Definition owns (k : ObjectKey) (w : W) : Prop := ∀ id, listed (data k w) id → P id.

Lemma touches_only_trans w w1 w2 : touches_only w w1 → touches_only w1 w2 → touches_only w w2.
Proof.
  intros [Hh Hd] [Hh' Hd']. split; [intros id Hid; by rewrite Hh', Hh|intros k Hk; by rewrite Hd', Hd].
Qed.

Lemma applied_touches d objects w w' :
  kinded objects → P (cm_id (record_key d)) → Forall (P ∘ identity) objects → owns (record_key d) w →
  applied_generation held data d objects w w' → touches_only w w' ∧ owns (record_key d) w'.
Proof.
  intros Hk Hrec Hp Ho [Hm Hc Hkept Hr _ Hothers].
  assert (Hobj : ∀ id, id ∈ identity <$> objects → P id).
  { intros id (o & -> & Ho')%list_elem_of_fmap. rewrite Forall_forall in Hp. by apply (Hp o). }
  assert (Hl : ∀ id, listed (updatedData d (asUnstructureds objects) (data (record_key d) w)) id → P id).
  { intros id Hid. destruct (listed_updated d objects _ id Hk Hid) as [?|?]; [by apply Ho|by apply Hobj]. }
  split; [split|].
  - intros id Hid. split.
    + intros [->|[[?|?%Hobj] _]]%Hc; [by destruct Hid|done..].
    + intros Hh. apply Hkept; [done|]. by intros ?%Hl.
  - intros k Hid. apply Hothers; [by intros ->|by intros ?%Hobj|by intros ?%Hl].
  - intros id Hid. apply (record_lists d _ _ _ Hk Hr) in Hid. by apply Hobj.
Qed.
End Frames.
