(* ===== verification/Store.v ===== *)
(** * An executable cluster that does what it is asked

    An API server that keeps the identities of its objects, the data of config
    maps and the custom resources, and answers a typed read of an object it
    holds.  It is obedient, and shows that the hypotheses of the theorems
    about the whole can hold. *)
From S2P Require Import Prelude GoStd Errors K8sTypes ApiTypes Effects Cluster Client.
From S2P Require Import Transformations Lifecycle RemoteLifecycle OperatorUtils StatusHelpers Status Helpers Reconcile.
From S2P Require Import RemoteStatus RemoteObjects Resources RemoteControllers Obedient.
From stdpp Require Import functions.

(** What the server knows a custom resource by. *)
Definition resource_key (a : InstanaAgent) : ObjectKey := Key (agent_Namespace a) (agent_Name a).
Definition remote_resource_key (a : InstanaAgentRemote) : ObjectKey := Key (remote_Namespace a) (remote_Name a).

(** The API server lets a resource that is being deleted go with its last
    finalizer. *)
Definition stored (a : InstanaAgent) : option InstanaAgent :=
  match om_DeletionTimestamp (agent_Meta a), agentFinalizers a with
  | Some _, [] => None
  | _, _ => Some a
  end.
Definition remote_stored (a : InstanaAgentRemote) : option InstanaAgentRemote :=
  match om_DeletionTimestamp (remote_Meta a), remoteFinalizers a with
  | Some _, [] => None
  | _, _ => Some a
  end.

Record store := {
  st_time : Z; st_held : list object_id; st_data : ObjectKey → smap;
  st_agents : ObjectKey → option InstanaAgent; st_remotes : ObjectKey → option InstanaAgentRemote }.
#[export] Instance eta_store : Settable store := fun s =>
  Build_store (st_time s) (st_held s) (st_data s) (st_agents s) (st_remotes s).

Definition agent_container : Container :=
  {| ct_Name := "instana-agent"; ct_Image := ""; ct_ImagePullPolicy := ""; ct_Command := []; ct_Args := [];
     ct_Env := []; ct_VolumeMounts := []; ct_Resources := zero_resources; ct_Ports := [];
     ct_Privileged := None; ct_LivenessProbe := None |}.
Definition store_daemonset (key : ObjectKey) : DaemonSet :=
  {| ds_Meta := NewObjectMeta (key_Name key) (key_Namespace key); ds_MinReadySeconds := 0; ds_Selector := ∅;
     ds_Template :=
       {| pt_Labels := ∅; pt_Annotations := None;
          pt_Spec := {| ps_Volumes := []; ps_ServiceAccountName := ""; ps_NodeSelector := None;
            ps_HostNetwork := false; ps_HostPID := false; ps_PriorityClassName := "";
            ps_DNSPolicy := ""; ps_ImagePullSecrets := None; ps_Containers := [agent_container];
            ps_FSGroup := None; ps_Hostname := ""; ps_Tolerations := []; ps_Affinity := zero |} |};
     ds_UpdateStrategy := {| us_Type := ""; us_RollingUpdate := None |};
     ds_Status := zero_DaemonSetStatus |}.
Definition store_configmap (key : ObjectKey) (contents : smap) : ConfigMap :=
  {| cm_Meta := NewObjectMeta (key_Name key) (key_Namespace key); cm_Kind := "ConfigMap";
     cm_Data := Some contents |}.
Definition held_in (s : store) (gvk : GroupVersionKind) {A} (key : ObjectKey) (a : A) : A + error :=
  if decide ((gvk, key) ∈ st_held s) then inl a else inr NotFound.
Definition store_get (k : kind) (key : ObjectKey) (s : store) : (denote k + error) * store :=
  (match k return denote k + error with
   | KInstanaAgent => found (st_agents s key)
   | KInstanaAgentRemote => found (st_remotes s key)
   | KConfigMap => held_in s (GVK "" "v1" "ConfigMap") key (store_configmap key (st_data s key))
   | KDaemonSet => held_in s (GVK "apps" "v1" "DaemonSet") key (store_daemonset key)
   | KDeployment => held_in s (GVK "apps" "v1" "Deployment") key zero_Deployment
   | KSecret => held_in s (GVK "" "v1" "Secret") key zero_Secret
   | KUnstructured gvk =>
       held_in s gvk key (Build_Unstructured gvk (key_Name key) (key_Namespace key))
   | _ => inr NotFound
   end, s).

(** A patch of the custom resource of this key, if there is one. *)
Definition patch_agent (key : ObjectKey) (f : InstanaAgent → option InstanaAgent) (s : store) :
    option error * store :=
  match st_agents s key with
  | Some a => (None, s <| st_agents ::= <[key := f a]> |>)
  | None => (Some NotFound, s)
  end.
Definition patch_remote (key : ObjectKey) (f : InstanaAgentRemote → option InstanaAgentRemote) (s : store) :
    option error * store :=
  match st_remotes s key with
  | Some a => (None, s <| st_remotes ::= <[key := f a]> |>)
  | None => (Some NotFound, s)
  end.
Definition store_write (r : request) (s : store) : option error * store :=
  match r with
  | RApply o false =>
      (None, s <| st_held ::= cons (identity o) |>
               <| st_data ::= fun data k => applied_data o false k (data k) |>)
  | RApply _ true => (None, s)
  | RDelete o =>
      (None, s <| st_held ::= filter (fun id => id ≠ target o) |>
               <| st_data ::= fun data k => if decide (cm_id k = target o) then ∅ else data k |>)
  | RPatchAgent new _ =>
      patch_agent (resource_key new) (fun a => stored (withFinalizers (agentFinalizers new) a)) s
  | RPatchAgentStatus new _ =>
      patch_agent (resource_key new) (fun a => Some (a <| agent_Status := agent_Status new |>)) s
  | RPatchRemote new _ =>
      patch_remote (remote_resource_key new)
        (fun a => remote_stored (remote_withFinalizers (remoteFinalizers new) a)) s
  | RPatchRemoteStatus new _ =>
      patch_remote (remote_resource_key new) (fun a => Some (a <| remote_Status := remote_Status new |>)) s
  end.
#[export] Instance store_api : K8sApi store := {|
  k8sGet := store_get;
  k8sListNamespaces _ s := (inl [], s);
  k8sListEndpointSlices _ _ s := (inl [], s);
  k8sListDeployments _ _ s := (inl [], s);
  k8sWrite := store_write;
  helmInit s := (None, s);
  helmUninstall s := (None, s);
  runCommand _ s := (None, s);
  clock := st_time;
  sleep d s := s <| st_time ::= fun t => (t + Z.max 0 d)%Z |>;
  cancelled _ := None |}.
#[export] Instance store_clock : ClockLaws store.
Proof.
  split.
  - intros d s ?. simpl. lia.
  - intros k key s. simpl. lia.
  - intros r s. destruct r as [? []| | | | |]; simpl; try lia;
      unfold patch_agent, patch_remote; case_match; simpl; lia.
Qed.

Definition has (id : object_id) (s : store) : Prop := id ∈ st_held s.
Notation contents := (fun k s => st_data s k).

(** Custom resources are kept under their names, and a config map that is not
    there has no data. *)
Record sane (s : store) : Prop := {
  sane_agents k a : st_agents s k = Some a → resource_key a = k;
  sane_remotes k a : st_remotes s k = Some a → remote_resource_key a = k;
  sane_data k : ¬ has (cm_id k) s → st_data s k = ∅
}.
(** Both worlds have the same custom resources. *)
Definition same_resources (s s' : store) : Prop := st_agents s' = st_agents s ∧ st_remotes s' = st_remotes s.

Section Obeys.
Context (I : store → Prop) (HI : ∀ s, I s → sane s).
Context (HI' : ∀ s s', I s → sane s' → same_resources s s' → I s').

Lemma apply_of o dryRun s : I s → complete o →
  let '(e, s') := store_write (RApply o dryRun) s in
  e = None ∧ I s' ∧ (∀ id, has id s' ↔ has id s ∨ dryRun = false ∧ id = identity o) ∧
  ∀ k, st_data s' k = applied_data o dryRun k (st_data s k).
Proof.
  intros Hs [_ Ht]. destruct (HI s Hs) as [Ha Hr Hd]. destruct dryRun; simpl.
  - split; [done|]. split; [done|]. split; [naive_solver|]. intros k. by rewrite applied_data_dry.
  - split; [done|]. split; [apply (HI' s); [done| |done]; split; [done..|]|].
    + intros k Hk. unfold has in Hk. simpl in *. rewrite elem_of_cons in Hk.
      rewrite applied_data_other; [apply Hd; unfold has; tauto|]. rewrite (target_typed o Ht). naive_solver.
    + unfold has. simpl. setoid_rewrite elem_of_cons. naive_solver.
Qed.
Lemma delete_of o s : I s →
  let '(e, s') := store_write (RDelete o) s in
  IgnoreNotFound e = None ∧ I s' ∧ (∀ id, has id s' ↔ has id s ∧ id ≠ target o) ∧
  (∀ k, cm_id k ≠ target o → st_data s' k = st_data s k) ∧ (st_time s' ≤ st_time s + 0)%Z.
Proof.
  intros Hs. destruct (HI s Hs) as [Ha Hr Hd]. simpl. split; [done|]. split; [|split; [|split; [|lia]]].
  - apply (HI' s); [done| |done]. split; [done..|]. intros k Hk. unfold has in Hk. simpl in *.
    rewrite list_elem_of_filter in Hk. case_decide; [done|]. apply Hd. unfold has. tauto.
  - intros id. unfold has. simpl. rewrite list_elem_of_filter. tauto.
  - intros k Hk. by rewrite decide_False.
Qed.
Lemma store_obedient : obedient I has contents 0.
Proof.
  split; try done.
  - intros k key w Hw. split; [done|]. split; [done|]. simpl. lia.
  - intros k key w e Hw. simpl. unfold store_get, held_in, found. destruct k; simpl; repeat case_decide;
      try destruct (st_agents w key); try destruct (st_remotes w key); intros E; simplify_eq; reflexivity.
  - intros k gvk key w Hw Hk Hh. destruct k; simpl in Hk; try congruence; injection Hk as <-;
      simpl; unfold held_in; rewrite decide_True by done; by eexists.
  - intros gvk key w Hw Hh. simpl. unfold held_in. rewrite decide_False by done. by eexists.
  - intros key w [_ _ Hd]%HI. simpl. unfold held_in. case_decide; [by destruct key|]. by apply Hd.
  - intros key ds w Hw. simpl. unfold held_in. case_decide; [|done]. by intros [= <-].
  - intros. rewrite Z.mul_0_r. reflexivity.
  - intros o dryRun w. apply apply_of.
  - intros o w. apply delete_of.
Qed.
End Obeys.

(** *** Patches of custom resources *)

(** Nothing but the InstanaAgent, or the remote agent, of this key differs. *)
Definition others_same (key : ObjectKey) (s s' : store) : Prop :=
  (∀ k, k ≠ key → st_agents s' k = st_agents s k) ∧ st_remotes s' = st_remotes s.
Definition remote_others_same (key : ObjectKey) (s s' : store) : Prop :=
  (∀ k, k ≠ key → st_remotes s' k = st_remotes s k) ∧ st_agents s' = st_agents s.

Lemma same_others key s s' : same_resources s s' → others_same key s s' ∧ st_agents s' key = st_agents s key.
Proof. intros [Ea Er]. split; [split; [intros; by rewrite Ea|done]|by rewrite Ea]. Qed.
Lemma same_remote_others key s s' :
  same_resources s s' → remote_others_same key s s' ∧ st_remotes s' key = st_remotes s key.
Proof. intros [Ea Er]. split; [split; [intros; by rewrite Er|done]|by rewrite Er]. Qed.

Lemma patch_agent_of key f s a :
  sane s → st_agents s key = Some a → (∀ a', f a = Some a' → resource_key a' = key) →
  let '(e, s') := patch_agent key f s in
  e = None ∧ sane s' ∧ st_agents s' key = f a ∧ others_same key s s' ∧ same_objects has contents s s'.
Proof.
  intros [Ha Hr Hd] Hk Hf. unfold patch_agent. rewrite Hk. split; [done|]. split; [split; [|done|done]|].
  - intros k a' E. simpl in E. destruct (decide (key = k)) as [->|Hne].
    + rewrite fn_lookup_insert in E. by apply Hf.
    + rewrite fn_lookup_insert_ne in E by done. by apply Ha.
  - split; [apply fn_lookup_insert|]. split; [split; [|done]|done].
    intros k Hne. by apply fn_lookup_insert_ne.
Qed.
Lemma patch_remote_of key f s a :
  sane s → st_remotes s key = Some a → (∀ a', f a = Some a' → remote_resource_key a' = key) →
  let '(e, s') := patch_remote key f s in
  e = None ∧ sane s' ∧ st_remotes s' key = f a ∧ remote_others_same key s s' ∧ same_objects has contents s s'.
Proof.
  intros [Ha Hr Hd] Hk Hf. unfold patch_remote. rewrite Hk. split; [done|]. split; [split; [done| |done]|].
  - intros k a' E. simpl in E. destruct (decide (key = k)) as [->|Hne].
    + rewrite fn_lookup_insert in E. by apply Hf.
    + rewrite fn_lookup_insert_ne in E by done. by apply Hr.
  - split; [apply fn_lookup_insert|]. split; [split; [|done]|done].
    intros k Hne. by apply fn_lookup_insert_ne.
Qed.
Lemma stored_key a a' : stored a = Some a' → resource_key a' = resource_key a.
Proof. unfold stored. repeat case_match; congruence. Qed.
Lemma remote_stored_key a a' : remote_stored a = Some a' → remote_resource_key a' = remote_resource_key a.
Proof. unfold remote_stored. repeat case_match; congruence. Qed.
