(* ===== verification/Convergence.v ===== *)
(** * One reconciliation on a cluster that does what it is asked

    What a reconciliation of an InstanaAgent does on the clusters of
    Obedient.v: with the finalizer in place it succeeds and leaves what
    [generation_applied] says, without it it adds the finalizer, and when the
    resource is being deleted it deletes what is recorded and drops it. *)
From S2P Require Import Prelude GoStd Errors K8sTypes ApiTypes Effects Cluster Client.
From S2P Require Import Transformations Lifecycle RemoteLifecycle OperatorUtils StatusHelpers Status Helpers Reconcile Etcd.
From S2P Require Import VolumeBuilder Secrets AgentObjects SensorObjects DaemonSet K8sDeployment.
From S2P Require Import Deferring Controllers ControllerProofs Resources Watches Obedient.

(** ** What the status manager is told about *)

(** The manager reports on [old], and every object it was told of is one of
    [ids]. *)
Record tracks (old : InstanaAgent) (ids : list object_id) (a : agentStatusManager) : Prop := {
  tr_old : agentOld a = Some old;
  tr_daemonsets k : k ∈ agentDaemonsets a → (GVK "apps" "v1" "DaemonSet", k) ∈ ids;
  tr_deployment : objectKeyHasNoName (k8sSensorDeployment a) = true ∨
    (GVK "apps" "v1" "Deployment", k8sSensorDeployment a) ∈ ids;
  tr_secret : objectKeyHasNoName (agentSecretConfig a) = true ∨
    (GVK "" "v1" "Secret", agentSecretConfig a) ∈ ids;
  tr_configmap : objectKeyHasNoName (agentNamespacesConfigmap a) = true ∨
    (GVK "" "v1" "ConfigMap", agentNamespacesConfigmap a) ∈ ids
}.
Lemma tracks_new old ids : tracks old ids (SetAgentOld old NewAgentStatusManager).
Proof. by split; [|intros ? ?%elem_of_nil|left..]. Qed.

(** A builder tells the manager of nothing but the object it makes. *)
Definition registers {W} (b : ObjectBuilder W agentStatusManager) : Prop :=
  ∀ s v s' old ids, Build b s = (Ret v, s') → (∀ o, v = Some o → identity o ∈ ids) →
    tracks old ids (local s) → tracks old ids (local s').

Section Registers.
Context {W : Type} `{K8sApi W} `{ApiErrors} `{Env} `{MapRange} `{Yaml}.

Lemma registers_pure (b : ObjectBuilder W agentStatusManager) :
  (∀ s, local (snd (Build b s)) = local s) → registers b.
Proof. intros Hb s v s' old ids E _. specialize (Hb s). rewrite E in Hb. simpl in Hb. by rewrite Hb. Qed.

Lemma NewDaemonSetBuilder_registers d a :
  dsb_agent d = Default a → registers (W:=W) (NewDaemonSetBuilder d).
Proof.
  intros Ha s v s' old ids E Hv Ht. pose proof (NewDaemonSetBuilder_Build d a s Ha) as Hd.
  destruct (ds_isIncomplete d); [congruence|]. destruct Hd as (ds & Eb & Hs).
  rewrite Hs in E. injection E as <- <-. specialize (Hv _ eq_refl).
  destruct (buildDaemonSet_returns d a Ha) as (ds' & _ & _ & Eb' & _ & Hm & _).
  rewrite Eb in Eb'. injection Eb' as <-.
  assert (Hid : (GVK "apps" "v1" "DaemonSet", ds_key d) ∈ ids).
  { revert Hv. unfold identity, object_key, object_name, object_namespace, ds_key. simpl.
    by rewrite Hm, Ha. }
  destruct Ht as [Ho Hds Hdp Hsec Hcm]. simpl. unfold AddAgentDaemonset.
  destruct (GoList.Contains (agentDaemonsets (local s)) (ds_key d)); [by split|].
  split; [done| |done..]. intros k [Hk| ->%list_elem_of_singleton]%elem_of_app; auto.
Qed.
Lemma NewDeploymentBuilder_registers d : registers (W:=W) (NewDeploymentBuilder d).
Proof.
  intros s v s' old ids E Hv Ht. pose proof (NewDeploymentBuilder_Build d s) as Hd.
  destruct (db_isOmitted d); [congruence|]. destruct Hd as (dpl & Eb & Hs).
  rewrite Hs in E. injection E as <- <-. specialize (Hv _ eq_refl).
  destruct (buildDeployment_returns d) as (envs & _ & Eb'). rewrite Eb in Eb'. injection Eb' as ->.
  destruct Ht as [Ho Hds Hdp Hsec Hcm]. split; [done|done| |done|done]. right. exact Hv.
Qed.

Lemma fixedBuilders_register agent keysSecret backends details :
  Forall (registers (W:=W)) (fixedBuilders agent keysSecret backends details).
Proof.
  unfold fixedBuilders. repeat apply Forall_cons_2; [..|apply Forall_nil_2];
    try (by apply registers_pure; intros []).
  - apply registers_pure. intros s. unfold NewHeadlessServiceBuilder. cbn [Build].
    by destruct (buildHeadlessService agent).
  - intros s v s' old ids. unfold NewConfigBuilder. cbn [Build].
    destruct (configData _ _ _) as [data|]; [|done]. intros [= <- <-] Hv [Ho Hds Hdp Hsec Hcm].
    split; [done..| |done]. right. exact (Hv _ eq_refl).
  - apply registers_pure. intros s. unfold NewServiceBuilder. cbn [Build].
    destruct (serviceIsNeeded agent) as [[]|]; [|done..]. simpl. by destruct (buildService agent).
  - intros s v s' old ids. unfold NewNamespacesConfigMapBuilder. cbn [Build].
    destruct (namespacesData _) as [data|]; [|done]. intros [= <- <-] Hv [Ho Hds Hdp Hsec Hcm].
    split; [done..|]. right. exact (Hv _ eq_refl).
Qed.
Lemma allBuilders_register a ds openShift keysSecret backends details context :
  Forall (fun d => dsb_agent d = Default a) ds →
  Forall (registers (W:=W)) (allBuilders ds (Default a) openShift keysSecret backends details context).
Proof.
  intros Hds. unfold allBuilders. rewrite !Forall_app, !Forall_fmap. split_and!.
  - eapply Forall_impl; [exact Hds|]. intros d. apply NewDaemonSetBuilder_registers.
  - apply fixedBuilders_register.
  - unfold getK8sSensorDeployments. rewrite Forall_fmap. apply Forall_true. intros b.
    exact (NewDeploymentBuilder_registers (deploymentBuilderOf _ _ _ _ b)).
Qed.

(** So the manager keeps to the objects that are made. *)
Lemma registers_known (o : operatorUtils W agentStatusManager) bs vs old (s : St W agentStatusManager) :
  Forall2 Builds bs vs → Forall registers bs →
  Forall (keeps_known (tracks old (identity <$> transformedAll o bs vs))) bs.
Proof.
  intros Hbs Hr. rewrite Forall_forall in *. intros b Hb s1 v s2 E Ht.
  apply (Hr b Hb s1 v s2 old _ E); [|done]. intros obj ->.
  rewrite <- (identity_transform (ou_transformations o) (ComponentName b) (IsNamespaced b) obj).
  apply list_elem_of_fmap_2, (transformedAll_intro o bs vs b obj s); [done..|].
  by apply (Builds_made bs vs b (Some obj) s1 s2).
Qed.
End Registers.

(** ** What the objects of a generation look like *)
Ltac typed_fixed :=
  eapply makes_only_ret; [reflexivity|]; intros ?;
  repeat match goal with |- context [if ?b then _ else _] => destruct b end;
  intros [=]; subst; done.

Section Shape.
Context {W : Type} `{K8sApi W} `{ApiErrors} `{Env} `{MapRange} `{Yaml}.
Notation makes_typed := (makes_only (W:=W) (X:=agentStatusManager) typed).

Lemma fixedBuilders_typed agent keysSecret backends details :
  Forall makes_typed (fixedBuilders agent keysSecret backends details).
Proof.
  unfold fixedBuilders. repeat apply Forall_cons_2; try (by typed_fixed); [..|apply Forall_nil_2].
  - eapply makes_only_lift; [reflexivity|]. intros svc s o s' _. by intros [= <- _].
  - eapply makes_only_lift; [reflexivity|]. intros data s o s' _. by intros [= <- _].
  - eapply makes_only_ret; [reflexivity|]. intros o. unfold buildContainerSecret.
    destruct (UseContainersSecret agent); [|done]. destruct (downloadKey _ _); [|done]. by intros [= <-].
  - eapply makes_only_lift; [reflexivity|]. intros [] s o s' _; [|done].
    unfold buildService. destruct (GetServicePorts _); [|done]. by intros [= <- _].
  - eapply makes_only_lift; [reflexivity|]. intros data s o s' _. by intros [= <- _].
Qed.
Lemma allBuilders_typed a ds openShift keysSecret backends details context :
  Forall (fun d => dsb_agent d = Default a) ds →
  Forall makes_typed (allBuilders ds (Default a) openShift keysSecret backends details context).
Proof.
  intros Hds. unfold allBuilders. rewrite !Forall_app, !Forall_fmap. split_and!.
  - eapply Forall_impl; [exact Hds|]. intros d Ha s o s' E. pose proof (NewDaemonSetBuilder_Build d a s Ha) as Hd.
    destruct (ds_isIncomplete d); [congruence|]. destruct Hd as (ds' & _ & Hs).
    rewrite Hs in E. by injection E as <- _.
  - apply fixedBuilders_typed.
  - unfold getK8sSensorDeployments. rewrite Forall_fmap. apply Forall_true. intros b s o s' E.
    pose proof (NewDeploymentBuilder_Build (deploymentBuilderOf (Default a) openShift keysSecret context b) s) as Hd.
    destruct (db_isOmitted _); [unfold compose in E; congruence|]. destruct Hd as (dpl & _ & Hs).
    unfold compose in E. rewrite Hs in E. by injection E as <- _.
Qed.

(** The roles and bindings of a custom resource are outside its namespace. *)
Definition rbac_identities (agent : InstanaAgent) : list object_id :=
  let rbac kind namespace name := (GVK rbacApiGroup "v1" kind, Key namespace name) in
  [rbac "ClusterRole" "" (ServiceAccountName agent);
   rbac "ClusterRoleBinding" "" (ServiceAccountName agent);
   rbac "ClusterRole" "" (K8sSensorResourcesName agent);
   rbac "ClusterRoleBinding" "" (K8sSensorResourcesName agent);
   rbac "Role" "kube-system" (etcdReaderName agent);
   rbac "RoleBinding" "kube-system" (etcdReaderName agent)].
(** Everything else is in it. *)
Definition in_namespace (namespace : string) (id : object_id) : Prop :=
  gvk_Group id.1 ≠ rbacApiGroup ∧ key_Namespace id.2 = namespace.
Definition belongs (agent : InstanaAgent) (id : object_id) : Prop :=
  in_namespace (agent_Namespace agent) id ∨ id ∈ rbac_identities agent.

(** No object is the record of the dependents, and each has a name and a kind
    and belongs to the custom resource. *)
Definition dependents_key (agent : InstanaAgent) : ObjectKey := record_key (NewDependentLifecycleManager agent).
Definition proper (agent : InstanaAgent) (id : object_id) : Prop :=
  key_Name id.2 ≠ "" ∧ gvk_Kind id.1 ≠ "" ∧ id ≠ cm_id (dependents_key agent) ∧ belongs agent id.
Lemma nonempty_app a b : a ≠ "" → a +++ b ≠ "".
Proof. by destruct a. Qed.
Lemma allIdentities_proper agent ds openShift keysSecret context :
  agent_Name agent ≠ "" → Forall (fun d => dsb_agent d = agent) ds →
  Forall (proper agent) ((daemonSetIdentity <$> ds) ++ fixedIdentities agent ++ (deploymentIdentity <$>
     getK8sSensorDeployments agent openShift (getK8SensorBackends agent) keysSecret context)).
Proof.
  intros Hn Hds. assert (Hsa : ServiceAccountName agent ≠ "").
  { unfold ServiceAccountName, serviceAccountName. destruct (decide (sas_Name (spec_ServiceAccount (agent_Spec agent)) = ""))
      as [->|Hs]; [|by rewrite Optional.GetOrDefault_nonzero].
    cbn. unfold serviceAccountNameDefault. by destruct (Pointer.DerefOrEmpty _). }
  rewrite !Forall_app. split_and!.
  - rewrite Forall_fmap. eapply Forall_impl; [exact Hds|]. intros d <-. split_and!; [|done|done|by left]. simpl.
    unfold ds_getName. destruct (dsb_zone d); [by apply nonempty_app|done].
  - unfold fixedIdentities. cbv zeta. repeat apply Forall_cons_2; [..|apply Forall_nil_2];
      (split_and!; simpl;
        [first [done|by apply nonempty_app|by do 2 apply nonempty_app]|done| |
         first [by left|right; unfold rbac_identities; cbv zeta;
                repeat first [apply list_elem_of_here|apply list_elem_of_further]]]);
      intros E; injection E; try done; unfold getConfigMapName; intros E'%string_app_inj_l; discriminate E'.
  - unfold getK8sSensorDeployments. rewrite !Forall_fmap. apply Forall_true. intros b.
    split_and!; [|done|done|by left].
    simpl. unfold db_Name, K8sSensorResourcesName. simpl. by do 2 apply nonempty_app.
Qed.
End Shape.

(** The generation's objects, and what applying them leaves. *)
Section Generation.
Context {W : Type} `{K8sApi W} `{ApiErrors} `{DependentsCodec} `{Env} `{MapRange} `{Yaml}.
Context (held : object_id → W → Prop) (data : ObjectKey → W → smap).

(** What the set-up of the etcd monitoring copies into the namespace. *)
Definition etcd_copies (agent : InstanaAgent) : list object_id :=
  [cm_id (Key (agent_Namespace agent) ETCDMetricsCABundleName);
   (GVK "" "v1" "Secret", Key (agent_Namespace agent) ETCDMetricClientSecretName)].
(** Only these may have been made, or deleted. *)
Definition left_alone (agent : InstanaAgent) (w w' : W) : Prop :=
  (∀ id, held id w' → held id w ∨ id ∈ etcd_copies agent) ∧
  (∀ id, held id w → held id w' ∨ id ∈ etcd_copies agent) ∧
  ∀ k, cm_id k ∉ etcd_copies agent → data k w' = data k w.
Lemma left_alone_same agent w w' : same_objects held data w w' → left_alone agent w w'.
Proof. intros [Hh Hd]. split; [|split]; [intros id; rewrite Hh; tauto..|auto]. Qed.
Lemma left_alone_trans agent w w1 w2 : left_alone agent w w1 → left_alone agent w1 w2 → left_alone agent w w2.
Proof.
  intros (Ha & Hb & Hd) (Ha' & Hb' & Hd'). split; [|split].
  - intros id [?|?]%Ha'; [by apply Ha|by right].
  - intros id [?|?]%Hb; [by apply Hb'|by right].
  - intros k Hk. by rewrite Hd', Hd.
Qed.

(** From [w] to [w'] a generation of objects was applied for [agent], after
    some set-up. *)
Definition generation_applied (agent : InstanaAgent) (objects : list object) (w w' : W) : Prop :=
  ∃ w1, left_alone agent w w1 ∧
    applied_generation held data (NewDependentLifecycleManager agent) objects w1 w' ∧
    Forall (proper agent ∘ identity) objects.
Lemma generation_held agent objects w w' obj :
  generation_applied agent objects w w' → obj ∈ objects → held (identity obj) w'.
Proof. intros (w1 & _ & [Hm _ _ _ _ _] & _). apply Hm. Qed.
End Generation.

(** ** The steps of the reconciliation *)
Section Converge.
Context {W : Type} `{ClockLaws W} `{ApiErrors} `{Env} `{MapRangeLaws} `{Yaml} `{DependentsCodec}.
Context `{FinalizersLaws} `{HelmErrors} `{Debug} `{Semver} `{StatusConditionsLaws}.
Context (I : W → Prop) (held : object_id → W → Prop) (data : ObjectKey → W → smap) (delay : Z).
Context (HI : obedient I held data delay).
Context (key : ObjectKey) (old : InstanaAgent).
Context (Hagent : ∀ w, I w → fst (k8sGet KInstanaAgent key w) = inl old).
Notation M := (M W agentStatusManager).
Notation St := (St W agentStatusManager).
Notation obeys := (obeys I).
Notation unchanged := (unchanged held data).
Notation left_alone := (left_alone held data).
Notation reads := (reads I held data).

(** A question to the cluster, whose answer does not matter. *)
Definition asks {A} (m : M A) : Prop := ∀ s, I (world s) → obeys m s (fun _ s' => unchanged s s').
Lemma unchanged_refl (s : St) : unchanged s s.
Proof. by split. Qed.

Lemma asks_ret {A} (a : A) : asks (mret a).
Proof. intros s Hs. apply obeys_ret; [done|]. apply unchanged_refl. Qed.
Lemma asks_bind {A B} (m : M A) (k : A → M B) : asks m → (∀ a, asks (k a)) → asks (m ≫= k).
Proof.
  intros Hm Hk s Hs. eapply obeys_bind; [by apply Hm|]. intros a s' Hs' Hu.
  eapply obeys_mono; [by apply Hk|]. intros b s2 _ Hu2. exact (unchanged_trans _ _ _ _ _ Hu Hu2).
Qed.
Lemma asks_call {A} (f : W → A * W) ev :
  (∀ w, I w → let w' := snd (f w) in I w' ∧ same_objects held data w w') → asks (call f ev).
Proof.
  intros Hf s Hs. destruct (Hf _ Hs) as [Hi Hso]. apply obeys_call; [done|].
  intros s' Ew El. split; [done|]. by rewrite Ew.
Qed.
Lemma asks_doGet k kkey : asks (doGet k kkey).
Proof. apply asks_call. intros w Hw. destruct (ob_get _ _ _ _ HI k kkey w Hw) as (? & ? & _). done. Qed.

Ltac asks_auto :=
  repeat (intros; lazymatch goal with
  | |- asks (mret _) => apply asks_ret
  | |- asks (mbind _ _) => apply asks_bind
  | |- asks (doGet ?k ?kkey) => apply (asks_doGet k kkey)
  | |- asks (call (k8sListNamespaces _) _) => apply asks_call, (ob_namespaces _ _ _ _ HI)
  | |- asks (call (k8sListEndpointSlices _ _) _) => apply asks_call, (ob_slices _ _ _ _ HI)
  | |- asks (call (runCommand _) _) => apply asks_call, (ob_command _ _ _ _ HI)
  | |- asks (match ?x with _ => _ end) => destruct x
  | |- asks (let '_ := ?x in _) => destruct x
  end).

(** A step that makes and deletes nothing but copies for the etcd monitoring. *)
Definition stays {A} (agent : InstanaAgent) (m : M A) : Prop :=
  ∀ s, I (world s) → obeys m s (fun _ s' => local s' = local s ∧ left_alone agent (world s) (world s')).
Lemma stays_asks {A} agent (m : M A) : asks m → stays agent m.
Proof.
  intros Hm s Hs. eapply obeys_mono; [by apply Hm|]. intros a s' _ [Hl Hso].
  split; [done|by apply left_alone_same].
Qed.
Lemma stays_bind {A B} agent (m : M A) (k : A → M B) :
  stays agent m → (∀ a, stays agent (k a)) → stays agent (m ≫= k).
Proof.
  intros Hm Hk s Hs. eapply obeys_bind; [by apply Hm|]. intros a s' Hs' [Hl Ha].
  eapply obeys_mono; [by apply Hk|]. intros b s2 _ [Hl2 Ha2].
  split; [congruence|by eapply left_alone_trans].
Qed.
Lemma stays_Apply agent o dryRun : complete o → identity o ∈ etcd_copies agent → stays agent (Apply o dryRun).
Proof.
  intros Hc Hi s Hs. eapply obeys_mono; [by apply (obeys_Apply _ _ _ _ HI)|].
  intros r s' _ (_ & Hl & Hh & Hd). split; [done|]. split; [|split].
  - intros id. rewrite Hh. naive_solver.
  - intros id. rewrite Hh. naive_solver.
  - intros k Hk. rewrite Hd. apply applied_data_other. destruct Hc as [_ Ht]. rewrite target_typed by done.
    intros E. apply Hk. by rewrite <- E.
Qed.
Lemma stays_Delete agent o : target o ∈ etcd_copies agent → stays agent (Delete o).
Proof.
  intros Ho s Hs. eapply obeys_mono; [by apply (obeys_Delete _ _ _ _ HI)|].
  intros e s' _ (_ & (Hl & Hh & Hd) & _). change (target <$> [o]) with [target o] in *.
  setoid_rewrite list_elem_of_singleton in Hh. setoid_rewrite list_elem_of_singleton in Hd.
  split; [done|]. split; [|split].
  - intros id. rewrite Hh. tauto.
  - intros id Hid. rewrite Hh. destruct (decide (id = target o)) as [->|]; [by right|by left].
  - intros k Hk. apply Hd. intros E. apply Hk. by rewrite E.
Qed.

Lemma asks_ClusterIsOpenShift agent : asks (ClusterIsOpenShift agent).
Proof. unfold ClusterIsOpenShift, Exists, GetAsResult. asks_auto. Qed.
Lemma asks_DiscoverETCDEndpoints agent : asks (DiscoverETCDEndpoints agent).
Proof.
  assert (Hs : ∀ name, asks (GetServiceByName name)) by (intros; unfold GetServiceByName; asks_auto).
  assert (Hl : ∀ name k v, asks (GetServiceWithLabel name k v)).
  { intros. unfold GetServiceWithLabel. apply asks_bind; [apply Hs|]. asks_auto. }
  assert (Hf : asks FindETCDService).
  { unfold FindETCDService. cbn [firstService].
    repeat (apply asks_bind; [auto|]; intros [[|]|]; try apply asks_ret). }
  pose proof (asks_ClusterIsOpenShift agent).
  unfold DiscoverETCDEndpoints, ShouldSkipDiscovery, BuildTargetsFromEndpoints,
    BuildTargetsFromLegacyEndpoints, CheckCASecretExists, isOpenShift.
  asks_auto; auto.
Qed.
Lemma stays_CreateDeploymentContext agent openShift : stays agent (CreateDeploymentContext agent openShift).
Proof.
  unfold CreateDeploymentContext. destruct openShift.
  - apply stays_bind; [|intros; apply stays_asks, asks_ret]. unfold setupOpenShiftETCDMonitoring.
    do 2 (apply stays_bind; [apply stays_asks; asks_auto|]; intros ?).
    assert (Hc : stays agent (_ ← cleanupCopiedETCDResources agent; mret zero_DeploymentContext)).
    { unfold cleanupCopiedETCDResources. apply stays_bind; [|intros; apply stays_asks, asks_ret].
      apply stays_bind; [apply stays_Delete; by left|intros _].
      apply stays_bind; [apply stays_Delete; by right; left|intros _; apply stays_asks, asks_ret]. }
    destruct (validateOpenShiftETCDResources _ _ _ _) as [[] []]; [exact Hc..|].
    apply stays_bind; [|intros; apply stays_asks, asks_ret]. unfold copyETCDResourcesToNamespace.
    apply stays_bind; [apply stays_Apply; [by split|by left]|]. intros res.
    destruct (Result.err res); [apply stays_asks, asks_ret|].
    apply stays_bind; [apply stays_Apply; [by split|by right; left]|]. intros; apply stays_asks; asks_auto.
  - apply stays_asks. apply asks_bind; [apply asks_DiscoverETCDEndpoints|]. asks_auto.
Qed.

(** The questions that could end the reconciliation do not. *)
Lemma obeys_shouldSet agent zone (s : St) : I (world s) →
  obeys (shouldSetPersistHostUniqueIDEnvVar agent zone) s (fun r s' =>
    snd r = reconcileContinue ∧ unchanged s s').
Proof.
  intros Hs. unfold shouldSetPersistHostUniqueIDEnvVar.
  eapply obeys_bind; [by apply (obeys_doGet _ _ _ _ HI KDaemonSet)|].
  intros r s' Hs' (-> & Hl & _). set (kkey := Key _ _).
  destruct (fst (k8sGet KDaemonSet kkey (world s))) as [ds|e] eqn:E.
  - pose proof (ob_daemonset _ _ _ _ HI _ _ _ Hs E) as Hds.
    destruct (hasPersistHostUniqueID _); [|done]. by apply obeys_ret.
  - rewrite (ob_get_error _ _ _ _ HI KDaemonSet _ _ _ Hs E). by apply obeys_ret.
Qed.
Lemma obeys_zoneSettings agent zones (s : St) : I (world s) →
  obeys (zoneSettings agent zones) s (fun r s' =>
    (∃ settings, r = inl settings ∧ length settings = length zones) ∧ unchanged s s').
Proof.
  revert s. induction zones as [|zone zones IH]; intros s Hs; simpl.
  { apply obeys_ret; [done|]. split; [by eexists|apply unchanged_refl]. }
  eapply obeys_bind; [by apply obeys_shouldSet|]. intros [b r] s1 Hs1 [Hr Hl]. simpl in Hr. subst r. simpl.
  eapply obeys_bind; [by apply IH|]. intros rest s2 Hs2 [(settings & -> & El) Hl2].
  apply obeys_ret; [done|]. split; [eexists; split; [reflexivity|simpl; congruence]|].
  exact (unchanged_trans _ _ _ _ _ Hl Hl2).
Qed.
(** One daemon set for each zone, or one without a zone. *)
Definition zones_of (agent : InstanaAgent) : list (option Zone) :=
  match spec_Zones (agent_Spec agent) with [] => [None] | zones => Some <$> zones end.
Lemma obeys_getDaemonSetBuilders agent openShift shouldSet (s : St) : I (world s) →
  obeys (getDaemonSetBuilders agent openShift shouldSet) s (fun r s' =>
    snd r = reconcileContinue ∧ unchanged s s' ∧
    Forall (fun d => dsb_agent d = agent) (fst r) ∧ dsb_zone <$> fst r = zones_of agent).
Proof.
  intros Hs. assert (Ho : obeys (getDaemonSetBuilders agent openShift shouldSet) s (fun r s' =>
    snd r = reconcileContinue ∧ unchanged s s' ∧ dsb_zone <$> fst r = zones_of agent)).
  { unfold getDaemonSetBuilders, zones_of.
    destruct (spec_Zones (agent_Spec agent)) as [|z zs].
    { apply obeys_ret; [done|]. split; [done|]. split; [apply unchanged_refl|done]. }
    eapply obeys_bind; [by apply obeys_zoneSettings|]. intros r s1 Hs1 [(settings & -> & El) Hl].
    apply obeys_ret; [done|]. split; [done|]. split; [done|]. cbn [fst].
    generalize (z :: zs) settings El. clear. induction l as [|z zs IH]; intros [|b bs] E; try done.
    simpl. f_equal. apply IH. by injection E. }
  destruct Ho as ([ds res] & s' & E & Hs' & Hr & Hl & Hz). exists (ds, res), s'. split_and!; try done.
  by apply (getDaemonSetBuilders_result _ _ _ _ _ _ _ E).
Qed.
Lemma obeys_isOpenShift agent (s : St) : I (world s) →
  obeys (isOpenShift agent) s (fun r s' => snd r = reconcileContinue ∧ unchanged s s').
Proof.
  intros Hs. unfold isOpenShift, ClusterIsOpenShift.
  eapply (obeys_bind _ _ _ _ (fun r s' => snd r = None ∧ unchanged s s'));
    [|intros r s' Hs' [-> Hl]; by apply obeys_ret].
  destruct (spec_OpenShift (agent_Spec agent)) as [b|].
  { apply obeys_ret; [done|]. split; [done|apply unchanged_refl]. }
  unfold Exists, GetAsResult. set (crd := KUnstructured CustomResourceDefinition).
  eapply (obeys_bind _ _ _ _ (fun (r : Result.t bool) s' => Result.err r = None ∧ unchanged s s'));
    [|intros r s' Hs' [He Hl]; by apply obeys_ret].
  eapply (obeys_bind _ _ _ _ (fun (r : Result.t Unstructured) s' => IgnoreNotFound (Result.err r) = None ∧
    unchanged s s')).
  - eapply obeys_bind; [by apply (obeys_doGet _ _ _ _ HI crd)|]. intros r s' Hs' (-> & Hl & _).
    apply obeys_ret; [done|]. split; [|done].
    destruct (fst (k8sGet crd _ (world s))) as [x|e] eqn:E; simpl; [by unfold IgnoreNotFound; destruct (IsNotFound _)|].
    unfold IgnoreNotFound. by rewrite (ob_get_error _ _ _ _ HI crd _ _ _ Hs E).
  - intros r s' Hs' [He Hl]. apply obeys_ret; [done|]. split; [|done].
    unfold Result.Recover, Result.Map, ifNotFound in *. destruct r as [x [e|]]; simpl in *; [|done].
    by rewrite He.
Qed.

(** *** Applying what the custom resource asks for *)

(** The objects some generation of builders makes for the defaulted custom
    resource: one daemon set builder for each zone, and all the others. *)
Definition generation_of (agent : InstanaAgent) (objects : list object) : Prop :=
  ∃ ds openShift keysSecret details context vs,
    let builders := allBuilders (W:=W) ds agent openShift keysSecret (getK8SensorBackends agent) details context in
    Forall (fun d => dsb_agent d = agent) ds ∧ dsb_zone <$> ds = zones_of agent ∧ Forall2 Builds builders vs ∧
    objects = transformedAll (NewOperatorUtils agent : operatorUtils W agentStatusManager) builders vs.
(** From [w] to [w'] a generation of objects of [agent] was applied, and the
    manager [x] knows of nothing else. *)
Definition converged (agent : InstanaAgent) (w w' : W) (x : agentStatusManager) : Prop :=
  ∃ objects, generation_of agent objects ∧ tracks old (identity <$> objects) x ∧
    generation_applied held data agent objects w w'.

Lemma obeys_applyResources a openShift shouldSet keysSecret details (s : St) :
  let agent := Default a in
  snd (yaml_Marshal (YNamespacesDetails details)) = None → agent_Name a ≠ "" →
  I (world s) → local s = SetAgentOld old NewAgentStatusManager →
  obeys (applyResources agent openShift shouldSet (NewOperatorUtils agent) keysSecret
           (getK8SensorBackends agent) details) s
    (fun r s' => r = reconcileContinue ∧ converged agent (world s) (world s') (local s')).
Proof.
  intros agent Hy Hn Hs Hl. unfold applyResources.
  eapply obeys_bind; [by apply stays_CreateDeploymentContext|]. intros context s1 Hs1 [Hl1 Ha1].
  eapply obeys_bind; [by apply obeys_getDaemonSetBuilders|].
  intros [ds res] s2 Hs2 (Hr & [Hl2 Ho2] & Hds & Hz). simpl in Hr, Hds, Hz. subst res. simpl.
  set (builders := allBuilders ds agent openShift keysSecret (getK8SensorBackends agent) details context).
  set (o := NewOperatorUtils agent : operatorUtils W agentStatusManager).
  destruct (makes_all o builders _
    (allBuilders_make a ds openShift keysSecret details context Hy Hds)) as (vs & Hvs & Hsub).
  pose proof (allBuilders_register (W:=W) a ds openShift keysSecret (getK8SensorBackends agent) details context Hds)
    as Hreg.
  pose proof (allIdentities_proper agent ds openShift keysSecret context Hn Hds) as Hproper.
  set (objects := transformedAll o builders vs) in *.
  assert (Hp : Forall (proper agent ∘ identity) objects).
  { rewrite Forall_forall in Hproper. rewrite Forall_forall. intros obj Ho. apply Hproper.
    eapply elem_of_sublist; [|exact Hsub]. by apply list_elem_of_fmap_2. }
  assert (Hc : Forall complete objects).
  { rewrite Forall_forall in Hp |- *. intros obj Ho. split; [apply (Hp obj Ho)|].
    destruct (transformedAll_elem _ _ _ _ Hvs Ho) as (b & v & Hb & Hv & ->).
    pose proof (allBuilders_typed (W:=W) a ds openShift keysSecret (getK8SensorBackends agent) details context Hds) as Ht.
    rewrite Forall_forall in Ht. pose proof (makes_only_Builds _ _ _ s (Ht b Hb) Hv) as Hvt.
    unfold transform. by destruct v, (IsNamespaced b). }
  assert (Hrec : cm_id (dependents_key agent) ∉ identity <$> objects).
  { intros (obj & E & Ho)%list_elem_of_fmap. rewrite Forall_forall in Hp. by apply (Hp obj Ho). }
  eapply obeys_bind; [apply (obeys_ApplyAll I held data delay HI o
    _ (NewDependentLifecycleManager agent) builders vs s2 Hvs
    (registers_known o builders vs old s2 Hvs Hreg) Hs2)|].
  { rewrite Hl2, Hl1, Hl. apply tracks_new. }
  { done. } { done. }
  intros e s3 Hs3 (-> & Ht & Hg). apply obeys_ret; [done|]. split; [done|].
  exists objects. split; [by exists ds, openShift, keysSecret, details, context, vs|]. split; [done|].
  exists (world s2). split; [|done]. eapply left_alone_trans; [exact Ha1|by apply left_alone_same].
Qed.

Lemma generation_applied_same agent objects w w1 w' w2 :
  same_objects held data w w1 → generation_applied held data agent objects w1 w' →
  same_objects held data w' w2 → generation_applied held data agent objects w w2.
Proof.
  intros Hso (w3 & Hla & Hg & Hp) Hso'. exists w3. split; [|split; [|done]].
  - eapply left_alone_trans; [by apply left_alone_same|done].
  - by eapply applied_generation_same; [|exact Hg|exact Hso'].
Qed.
Lemma converged_same agent w w1 w' w2 x :
  same_objects held data w w1 → converged agent w1 w' x → same_objects held data w' w2 →
  converged agent w w2 x.
Proof.
  intros Hso (objects & Ho & Ht & Hg) Hso'. exists objects. split; [done|]. split; [done|].
  by eapply generation_applied_same.
Qed.

Lemma obeys_reconcileResources a openShift (s : St) :
  (∀ details, snd (yaml_Marshal (YNamespacesDetails details)) = None) → agent_Name a ≠ "" →
  I (world s) → local s = SetAgentOld old NewAgentStatusManager →
  obeys (reconcileResources (Default a) (NewOperatorUtils (Default a)) openShift) s
    (fun r s' => r = reconcileSuccess noRequeue ∧ converged (Default a) (world s) (world s') (local s')).
Proof.
  intros Hy Hn Hs Hl. unfold reconcileResources.
  eapply (obeys_bind _ _ _ _ (fun r s' => snd r = reconcileContinue ∧ unchanged s s')).
  { destruct (spec_Zones _); [by apply obeys_shouldSet|].
    apply obeys_ret; [done|]. split; [done|apply unchanged_refl]. }
  intros [shouldSet r] s1 Hs1 [Hr Hu1]. simpl in Hr. subst r.
  cbn [suppliesReconcileResult reconcileContinue rr_res].
  assert (Hk : asks (getKeysSecret (Default a))) by (unfold getKeysSecret; asks_auto).
  assert (Hns : asks GetNamespacesWithLabels) by (unfold GetNamespacesWithLabels; asks_auto).
  eapply obeys_bind; [by apply Hk|]. intros keysSecret s2 Hs2 Hu2.
  eapply obeys_bind; [by apply Hns|]. intros namespaces s3 Hs3 Hu3.
  pose proof (unchanged_trans _ _ _ _ _ Hu1 (unchanged_trans _ _ _ _ _ Hu2 Hu3)) as [Hl3 Ho3].
  eapply obeys_bind; [apply obeys_applyResources; [apply Hy|done|done|congruence]|].
  intros res s4 Hs4 [-> Hc]. cbn [suppliesReconcileResult reconcileContinue rr_res].
  apply obeys_ret; [done|]. split; [done|]. by eapply converged_same.
Qed.

(** The finalizer of the operator is there, the one of its predecessor is not,
    and the resource is not being deleted. *)
Definition settled : Prop :=
  finalizerV3 ∈ agentFinalizers old ∧ finalizerV1 ∉ agentFinalizers old ∧
  om_DeletionTimestamp (agent_Meta old) = None.

Lemma asks_cleanupNodeLabels : asks cleanupNodeLabels.
Proof. unfold cleanupNodeLabels. asks_auto. Qed.
Lemma obeys_reconcileAgent (s : St) :
  (∀ details, snd (yaml_Marshal (YNamespacesDetails details)) = None) → agent_Name old ≠ "" →
  settled → I (world s) → local s = NewAgentStatusManager →
  obeys (reconcileAgent old) s (fun r s' =>
    r = reconcileSuccess noRequeue ∧ converged (Default old) (world s) (world s') (local s')).
Proof.
  intros Hy Hn (Hv3 & Hv1 & Hd) Hs Hl. unfold reconcileAgent.
  eapply (obeys_bind _ _ _ _ (fun _ s' => local s' = SetAgentOld old NewAgentStatusManager ∧ world s' = world s)).
  { eexists _, _. split; [reflexivity|]. simpl. by rewrite Hl. }
  intros ? s1 Hs1 [Hl1 Hw1].
  eapply (obeys_bind _ _ _ _ (fun r s' => r = reconcileContinue ∧ unchanged s1 s')).
  { unfold handleDeletion. change (om_DeletionTimestamp (agent_Meta (Default old))) with
      (om_DeletionTimestamp (agent_Meta old)). rewrite Hd.
    eapply obeys_bind; [by apply asks_cleanupNodeLabels|]. intros ? s2 Hs2 Hu2. by apply obeys_ret. }
  intros r s2 Hs2 [-> Hu2]. cbn [suppliesReconcileResult reconcileContinue rr_res].
  eapply (obeys_bind _ _ _ _ (fun r s' => r = reconcileContinue ∧ s' = s2)).
  { unfold addOrUpdateFinalizers. rewrite cleanupHelmChart_absent by done.
    eapply (obeys_bind _ _ _ _ (fun r s' => r = reconcileContinue ∧ s' = s2)); [by apply obeys_ret|].
    intros r s' _ [-> ->]. cbn [suppliesReconcileResult reconcileContinue rr_res].
    change (agentFinalizers (Default old)) with (agentFinalizers old).
    pose proof (AddFinalizer_changed finalizerV3 (agentFinalizers old)) as Ha.
    destruct (AddFinalizer _ _) as [fs [|]]; simpl in Ha; [by destruct Ha as [Ha _]; destruct Ha|].
    by apply obeys_ret. }
  intros r s3 Hs3 [-> ->]. cbn [suppliesReconcileResult reconcileContinue rr_res].
  eapply obeys_bind; [by apply obeys_isOpenShift|]. intros [openShift r] s4 Hs4 [Hr Hu4]. simpl in Hr. subst r.
  cbn [suppliesReconcileResult reconcileContinue rr_res].
  pose proof (unchanged_trans _ _ _ _ _ Hu2 Hu4) as [Hl4 Ho4].
  eapply obeys_mono; [apply obeys_reconcileResources; [done..|congruence]|].
  intros r s5 Hs5 [-> Hc]. split; [done|]. rewrite Hw1 in Ho4. by eapply converged_same.
Qed.
(** *** Telling the status *)
Section StatusSteps.
Context (reported : InstanaAgent) (ids : list object_id) (J : InstanaAgent → W → Prop).
Context (HJ : ∀ new w, same_resource new reported → I w →
  let '(e, w') := k8sWrite (RPatchAgentStatus new reported) w in
  (e = None ∨ IsNotFound e = true) ∧ J new w' ∧ same_objects held data w w').

(** What the status manager knows of is held. *)
Definition known (s : St) : Prop :=
  tracks reported ids (local s) ∧ ∀ id, id ∈ ids → held id (world s).
Lemma known_unchanged s s' : unchanged s s' → known s → known s'.
Proof. intros (Hl & Hh & _) [Ht Hk]. split; [by rewrite Hl|]. intros id Hid. apply Hh. auto. Qed.

Lemma reads_getDaemonSet s : I (world s) → known s → reads (getDaemonSet (local s)) s.
Proof.
  intros Hs [Ht Hk]. unfold getDaemonSet.
  destruct (agentDaemonsets (local s)) as [|k [|]] eqn:E; [by apply reads_ret| |by apply reads_ret].
  apply (reads_info I held data delay HI KDaemonSet k _ _ (fun ds => toResourceInfo (ds_Meta ds)) s (fun _ => eq_refl) Hs eq_refl).
  apply Hk, (tr_daemonsets _ _ _ Ht). rewrite E. by left.
Qed.
Lemma reads_getConfigSecret s : I (world s) → known s → reads (getConfigSecret (local s)) s.
Proof.
  intros Hs [Ht Hk]. unfold getConfigSecret. destruct (tr_secret _ _ _ Ht) as [->|Hid]; [by apply reads_ret|].
  destruct (objectKeyHasNoName _); [by apply reads_ret|].
  apply (reads_info I held data delay HI KSecret _ _ _ (fun x => toResourceInfo (sec_Meta x)) s (fun _ => eq_refl) Hs eq_refl). by apply Hk.
Qed.
Lemma reads_getNamespacesConfigMap s : I (world s) → known s → reads (getNamespacesConfigMap (local s)) s.
Proof.
  intros Hs [Ht Hk]. unfold getNamespacesConfigMap.
  destruct (tr_configmap _ _ _ Ht) as [->|Hid]; [by apply reads_ret|].
  destruct (objectKeyHasNoName _); [by apply reads_ret|].
  apply (reads_info I held data delay HI KConfigMap _ _ _ (fun x => toResourceInfo (cm_Meta x)) s (fun _ => eq_refl) Hs eq_refl). by apply Hk.
Qed.
Lemma reads_getAllAgentsAvailableCondition s : I (world s) → known s →
  reads (getAllAgentsAvailableCondition (local s) reported) s.
Proof.
  intros Hs [Ht Hk]. unfold getAllAgentsAvailableCondition.
  eapply obeys_bind; [apply (obeys_readAll I held data delay HI KDaemonSet (GVK "apps" "v1" "DaemonSet")); [done..|]|].
  - intros k Hin. by apply Hk, (tr_daemonsets _ _ _ Ht).
  - intros r s' Hs' [[objects ->] Hu]. by apply obeys_ret.
Qed.
Lemma reads_getAllK8sSensorsAvailableCondition s : I (world s) → known s → sensor_enabled reported = true →
  reads (getAllK8sSensorsAvailableCondition (local s) reported) s.
Proof.
  intros Hs [Ht Hk] He. unfold getAllK8sSensorsAvailableCondition. unfold sensor_enabled in He. rewrite He.
  simpl. destruct (tr_deployment _ _ _ Ht) as [->|Hid]; [by apply reads_ret|].
  destruct (objectKeyHasNoName _); [by apply reads_ret|].
  eapply obeys_bind; [apply (obeys_GetAsResult _ _ _ _ HI KDeployment _ zero_Deployment
    (GVK "apps" "v1" "Deployment")); [done..|by apply Hk]|].
  intros [x e] s' Hs' [He' Hu]. simpl in He'. subst e. by apply obeys_ret.
Qed.

Lemma obeys_setCondition c new (s : St) : I (world s) →
  obeys (setConditionAndFireEvent c new) s (fun _ s' => unchanged s s').
Proof. intros Hs. eexists _, _. split; [reflexivity|]. by split. Qed.
Lemma OnFailure_none {A} (r : Result.t A) b :
  Result.err r = None → Result.OnFailure r MultiErrorBuilder.AddSingle b = b.
Proof. intros Hr. unfold Result.OnFailure, Result.IsFailure, Result.IsSuccess. by rewrite Hr. Qed.

Lemma reads_agentWithUpdatedStatus s : I (world s) → known s → sensor_enabled reported = true →
  reads (agentWithUpdatedStatus (local s) reported None) s.
Proof.
  intros Hs Hk He. unfold agentWithUpdatedStatus, reads.
  eapply (obeys_bind _ _ _ _ (fun _ s' => unchanged s s')); [by eexists _, s|].
  assert (Hstep : ∀ {A B} (m : agentStatusManager → M (Result.t A)) (k : Result.t A → M B) s1 Q,
    I (world s1) → unchanged s s1 →
    (∀ s, I (world s) → known s → reads (m (local s)) s) →
    (∀ r s2, I (world s2) → unchanged s s2 → Result.err r = None → obeys (k r) s2 Q) →
    obeys (m (local s) ≫= k) s1 Q).
  { intros A B m k s1 Q Hs1 Hu Hm Hkk. rewrite <- (proj1 Hu).
    eapply obeys_bind; [apply Hm; [done|by eapply known_unchanged]|].
    intros r s2 Hs2 [Hr Hu2]. apply Hkk; [done| |done]. by eapply unchanged_trans. }
  assert (Hset : ∀ {B} c new (k : InstanaAgent → M B) s1 Q, I (world s1) → unchanged s s1 →
    (∀ new s2, I (world s2) → unchanged s s2 → obeys (k new) s2 Q) →
    obeys (setConditionAndFireEvent c new ≫= k) s1 Q).
  { intros B c new k s1 Q Hs1 Hu Hkk. eapply obeys_bind; [by apply obeys_setCondition|].
    intros n s2 Hs2 Hu2. apply Hkk; [done|]. by eapply unchanged_trans. }
  intros t s0 Hs0 Hu0. simpl in Hu0.
  apply (Hstep _ _ getDaemonSet); [done..|exact reads_getDaemonSet|]. intros r1 s1 Hs1 Hu1 E1.
  apply (Hstep _ _ getConfigSecret); [done..|exact reads_getConfigSecret|]. intros r2 s2 Hs2 Hu2 E2.
  apply (Hstep _ _ getNamespacesConfigMap); [done..|exact reads_getNamespacesConfigMap|].
  intros r3 s3 Hs3 Hu3 E3.
  apply Hset; [done..|]. intros n4 s4 Hs4 Hu4.
  apply (Hstep _ _ (fun a => getAllAgentsAvailableCondition a reported));
    [done..|exact reads_getAllAgentsAvailableCondition|]. intros r5 s5 Hs5 Hu5 E5.
  apply Hset; [done..|]. intros n6 s6 Hs6 Hu6.
  apply (Hstep _ _ (fun a => getAllK8sSensorsAvailableCondition a reported)); [done..| |].
  { intros s' ? ?. by apply reads_getAllK8sSensorsAvailableCondition. }
  intros r7 s7 Hs7 Hu7 E7. unfold Result.IsSuccess at 1. rewrite E7.
  apply Hset; [done..|]. intros n8 s8 Hs8 Hu8. apply obeys_ret; [done|]. split; [|done].
  cbn [Result.err]. by rewrite !OnFailure_none by done.
Qed.

Lemma UpdateAgentStatus_obeys s : I (world s) → known s → sensor_enabled reported = true →
  ∃ new s', UpdateAgentStatus None s = (Ret None, s') ∧ J new (world s') ∧ unchanged s s'.
Proof.
  intros Hs Hk He.
  destruct (reads_agentWithUpdatedStatus s Hs Hk He) as (res & s1 & E & Hs1 & Hr & [Hl1 Hso1]).
  assert (Hsame : same_resource (Result.res res) reported).
  { destruct (emits_run _ _ _ _ _ (agentWithUpdatedStatus_emits (local s) reported None) E)
      as (t & _ & _ & Hrep & _). apply (rp_fields _ _ _ _ _ Hrep). }
  pose proof (HJ (Result.res res) _ Hsame Hs1) as Hp.
  destruct (k8sWrite (RPatchAgentStatus (Result.res res) reported) (world s1)) as [e w] eqn:Ew.
  destruct Hp as (He' & Hj & Hso).
  exists (Result.res res), (MkSt w (trace s1 ++ [EWrite (RPatchAgentStatus (Result.res res) reported) e]) (local s1)).
  split; [|split; [done|apply (unchanged_trans held data s s1 _ (conj Hl1 Hso1)); by split]].
  - unfold UpdateAgentStatus, catching. rewrite (bind_Ret getLocal _ s _ s eq_refl).
    rewrite (tr_old _ _ _ (proj1 Hk)), (bind_Ret _ _ _ _ _ E), (OnFailure_none res) by done.
    rewrite (bind_Ret _ _ _ _ _ (doWrite_eq _ _ _ _ Ew)).
    destruct e as [e|]; [|done]. destruct He' as [?|He']; [done|]. by rewrite He'.
Qed.
End StatusSteps.
(** *** The whole reconciliation *)
Lemma Reconcile_from res (P Q : St → Prop) (s : St) : I (world s) →
  (∀ s2, I (world s2) → local s2 = NewAgentStatusManager → same_objects held data (world s) (world s2) →
     ∃ s3, reconcileAgent old s2 = (Ret (reconcileSuccess res), s3) ∧ P s3) →
  (∀ s3, P s3 → ∃ s4, UpdateAgentStatus None s3 = (Ret None, s4) ∧ Q s4) →
  ∃ s4, Reconcile key s = (Ret (res, None), s4) ∧ Q s4.
Proof.
  intros Hs Hrun Hstatus.
  destruct (obeys_doGet _ _ _ _ HI KInstanaAgent key s Hs) as (r & s1 & E1 & Hs1 & -> & Hu1 & _).
  rewrite (Hagent _ Hs) in E1.
  set (s2 := MkSt (world s1) (trace s1) NewAgentStatusManager).
  destruct (obeys_doGet _ _ _ _ HI KInstanaAgent key s2 Hs1) as (r & s2' & E2 & Hs2 & -> & [Hl2 Hso2] & _).
  rewrite (Hagent _ (Hs1 : I (world s2))) in E2.
  destruct (Hrun s2' Hs2 Hl2) as (s3 & E3 & Hp).
  { exact (same_objects_trans _ _ _ _ _ (proj2 Hu1) Hso2). } destruct (Hstatus s3 Hp) as (s4 & E4 & Hq).
  exists s4. split; [|done]. unfold Reconcile. rewrite (bind_Ret _ _ _ _ _ E1), (bind_Ret _ _ s1 _ s2 eq_refl).
  assert (Ep : reconcile key s2 = (Ret (reconcileSuccess res), s3)).
  { unfold reconcile, getAgent. rewrite (bind_Ret _ _ s2 (Some old, reconcileContinue) s2'); [exact E3|].
    by rewrite (bind_Ret _ _ _ _ _ E2). }
  unfold deferring. rewrite (bind_Ret _ _ _ _ _ Ep). simpl. unfold statusError.
  by rewrite (bind_Ret _ _ _ _ _ E4).
Qed.

(** The first reconciliation of a new custom resource adds the finalizer. *)
Definition fresh : Prop :=
  finalizerV3 ∉ agentFinalizers old ∧ finalizerV1 ∉ agentFinalizers old ∧
  om_DeletionTimestamp (agent_Meta old) = None.
Lemma reconcileAgent_fresh (J : InstanaAgent → W → Prop) (s : St) :
  (∀ fs w, I w →
     let '(e, w') := k8sWrite (RPatchAgent (withFinalizers fs (Default old)) (Default old)) w in
     e = None ∧ J (withFinalizers fs old) w' ∧ same_objects held data w w') →
  fresh → I (world s) → local s = NewAgentStatusManager →
  ∃ fs s', reconcileAgent old s = (Ret (reconcileSuccess requeue), s') ∧
    finalizerV3 ∈ fs ∧ finalizerV1 ∉ fs ∧ J (withFinalizers fs old) (world s') ∧
    local s' = SetAgentOld old NewAgentStatusManager ∧ same_objects held data (world s) (world s').
Proof.
  intros HJ (Hv3 & Hv1 & Hd) Hs Hl. unfold reconcileAgent.
  set (s1 := MkSt (world s) (trace s) (SetAgentOld old NewAgentStatusManager)).
  rewrite (bind_Ret (modifyLocal (SetAgentOld old)) _ s tt s1) by (unfold modifyLocal; by rewrite Hl).
  destruct (asks_cleanupNodeLabels s1 Hs) as (u & s2 & E2 & Hs2 & [Hl2 Hso2]).
  rewrite (bind_Ret _ _ s1 reconcileContinue s2).
  2: { unfold handleDeletion. rewrite (bind_Ret _ _ _ _ _ E2).
       change (om_DeletionTimestamp (agent_Meta (Default old))) with (om_DeletionTimestamp (agent_Meta old)).
       by rewrite Hd. }
  cbn [suppliesReconcileResult reconcileContinue rr_res].
  pose proof (AddFinalizer_changed finalizerV3 (agentFinalizers old)) as Hc.
  pose proof (AddFinalizer_elem finalizerV3 (agentFinalizers old)) as He.
  destruct (AddFinalizer finalizerV3 (agentFinalizers old)) as [fs added] eqn:Ea. simpl in Hc, He.
  rewrite (proj2 Hc Hv3) in Ea.
  pose proof (HJ fs (world s2) Hs2) as Hp.
  destruct (k8sWrite _ (world s2)) as [e w] eqn:Ew in Hp. destruct Hp as (-> & Hj & Hso).
  apply doWrite_eq in Ew. revert Ew. set (s3 := MkSt w _ _). intros Ew.
  exists fs, s3. split; [|split; [|split; [|split; [exact Hj|split; [exact Hl2|]]]]].
  - unfold addOrUpdateFinalizers. rewrite cleanupHelmChart_absent by done.
    erewrite (bind_Ret _ _ s2 (reconcileSuccess requeue)); [reflexivity|].
    rewrite (bind_Ret (mret reconcileContinue) _ s2 reconcileContinue s2 eq_refl).
    cbn [suppliesReconcileResult reconcileContinue rr_res].
    change (agentFinalizers (Default old)) with (agentFinalizers old). rewrite Ea. unfold updateAgent.
    by rewrite (bind_Ret _ _ _ _ _ Ew).
  - apply He. by left.
  - rewrite He. intros [?|?]; done.
  - exact (same_objects_trans _ _ _ _ _ Hso2 Hso).
Qed.

(** A deletion: what the record lists is deleted, then the finalizer goes. *)
Definition leaving : Prop :=
  finalizerV3 ∈ agentFinalizers old ∧ finalizerV1 ∉ agentFinalizers old ∧
  om_DeletionTimestamp (agent_Meta old) ≠ None.
(** The record and what is held but not listed. *)
Definition cleared (w w' : W) : Prop :=
  ∀ id, held id w' ↔ id = cm_id (dependents_key old) ∨
    held id w ∧ ¬ listed (data (dependents_key old) w) id.
Lemma reconcileAgent_leaving (J : InstanaAgent → W → Prop) (s : St) :
  (∀ fs w, I w →
     let '(e, w') := k8sWrite (RPatchAgent (withFinalizers fs (Default old)) (Default old)) w in
     e = None ∧ J (withFinalizers fs old) w' ∧ same_objects held data w w') →
  leaving → I (world s) → held (cm_id (dependents_key old)) (world s) → local s = NewAgentStatusManager →
  ∃ fs s', reconcileAgent old s = (Ret (reconcileSuccess requeue), s') ∧ finalizerV3 ∉ fs ∧
    J (withFinalizers fs old) (world s') ∧ local s' = SetAgentOld old NewAgentStatusManager ∧
    cleared (world s) (world s').
Proof.
  intros HJ (Hv3 & Hv1 & Hd) Hs Hrec Hl. unfold reconcileAgent.
  set (s1 := MkSt (world s) (trace s) (SetAgentOld old NewAgentStatusManager)).
  rewrite (bind_Ret (modifyLocal (SetAgentOld old)) _ s tt s1) by (unfold modifyLocal; by rewrite Hl).
  destruct (asks_cleanupNodeLabels s1 Hs) as (u & s2 & E2 & Hs2 & [Hl2 [Hh2 Hd2]]).
  set (d := NewDependentLifecycleManager (Default old)).
  assert (Hrec2 : held (cm_id (record_key d)) (world s2)) by (apply Hh2; exact Hrec).
  destruct (obeys_CleanupDependents (X:=agentStatusManager) I held data delay HI d [] s2 Hs2 Hrec2)
    as (e & s3 & E3 & Hs3 & -> & Hl3 & [Hh3 _ _]).
  pose proof (RemoveFinalizer_changed finalizerV3 (agentFinalizers old)) as Hc.
  pose proof (RemoveFinalizer_elem finalizerV3 (agentFinalizers old)) as He.
  destruct (RemoveFinalizer finalizerV3 (agentFinalizers old)) as [fs removed] eqn:Ea. simpl in Hc, He.
  rewrite (proj2 Hc Hv3) in Ea.
  pose proof (HJ fs (world s3) Hs3) as Hp.
  destruct (k8sWrite _ (world s3)) as [e w] eqn:Ew in Hp. destruct Hp as (-> & Hj & [Hh Hd']).
  apply doWrite_eq in Ew. revert Ew. set (s4 := MkSt w _ _). intros Ew.
  exists fs, s4. split; [|split; [|split; [exact Hj|split; [simpl; by rewrite Hl3, Hl2|]]]].
  - erewrite (bind_Ret _ _ s1 (reconcileSuccess requeue)); [reflexivity|].
    unfold handleDeletion. rewrite (bind_Ret _ _ _ _ _ E2).
    change (om_DeletionTimestamp (agent_Meta (Default old))) with (om_DeletionTimestamp (agent_Meta old)).
    destruct (om_DeletionTimestamp (agent_Meta old)) as [ts|]; [|done].
    rewrite cleanupHelmChart_absent by done.
    rewrite (bind_Ret (mret reconcileContinue) _ s2 reconcileContinue s2 eq_refl).
    cbn [suppliesReconcileResult reconcileContinue rr_res].
    erewrite (bind_Ret _ _ s2 (reconcileSuccess requeue)); [reflexivity|].
    unfold cleanupDependents. change (agentFinalizers (Default old)) with (agentFinalizers old). rewrite Ea.
    cbn [negb]. unfold DeleteAll. cbn [NewOperatorUtils ou_manager agentManager dlm_Cleanup].
    rewrite (bind_Ret _ _ _ _ _ E3). unfold updateAgent. by rewrite (bind_Ret _ _ _ _ _ Ew).
  - intros Hin. by apply He in Hin as [? _].
  - intros id. simpl. rewrite Hh, Hh3, Hh2, Hd2. change (record_key d) with (dependents_key old).
    assert (Hnil : id ∉ identity <$> ([] : list object)) by apply not_elem_of_nil. clear -Hnil. tauto.
Qed.
End Converge.
