(* ===== verification/Life.v ===== *)
(** * The life of an InstanaAgent

    Reconciliations of a custom resource from its creation to its deletion, on
    a cluster that does what it is asked: they get to a cluster that holds
    every object the resource asks for, and after the deletion nothing of it
    is left.  The clusters are those of [cooperative], which an executable one
    is shown to be. *)
From S2P Require Import Prelude GoStd Errors K8sTypes ApiTypes Effects Cluster Client.
From S2P Require Import Transformations Lifecycle RemoteLifecycle OperatorUtils StatusHelpers Status Helpers Reconcile Etcd.
From S2P Require Import VolumeBuilder Secrets AgentObjects SensorObjects DaemonSet K8sDeployment.
From S2P Require Import RemoteControllers Deferring Controllers ControllerProofs Resources Watches Obedient Records Store Convergence.

(** ** Reconciliations that follow each other *)

(** A cluster that does what it is asked, whatever the custom resource it has:
    [C (Some agent)] are its worlds with the custom resource [agent], [C None]
    those where it is gone.  Patches of the custom resource change what they
    are for, its finalizers and its status. *)
Record cooperative {W} `{K8sApi W} `{ApiErrors} `{DependentsCodec} (C : option InstanaAgent → W → Prop)
    (held : object_id → W → Prop) (data : ObjectKey → W → smap) (delay : Z) (key : ObjectKey) : Prop := {
  co_obedient oa : obedient (C oa) held data delay;
  co_agent agent w : C (Some agent) w →
    fst (k8sGet KInstanaAgent key w) = inl agent ∧ resource_key agent = key;
  co_finalizers agent fs w : C (Some agent) w →
    let '(e, w') := k8sWrite (RPatchAgent (withFinalizers fs (Default agent)) (Default agent)) w in
    e = None ∧ C (stored (withFinalizers fs agent)) w' ∧ same_objects held data w w';
  co_status oa new old w : C oa w → same_resource new old → resource_key old = key →
    (∀ agent, oa = Some agent → agent_Status old = agent_Status agent) →
    let '(e, w') := k8sWrite (RPatchAgentStatus new old) w in
    match oa with
    | Some agent => e = None ∧ C (Some (agent <| agent_Status := agent_Status new |>)) w'
    | None => IsNotFound e = true ∧ C None w'
    end ∧ same_objects held data w w'
}.

(** The cluster holds every object of a generation of the custom resource. *)
Definition provisioned {W} `{K8sApi W} `{ApiErrors} `{Env} `{MapRange} `{Yaml} `{DependentsCodec}
    (held : object_id → W → Prop) (agent : InstanaAgent) (w : W) : Prop :=
  ∃ objects, generation_of (W:=W) agent objects ∧ ∀ obj, obj ∈ objects → held (identity obj) w.

Section Cooperative.
Context {W : Type} `{ClockLaws W} `{ApiErrors} `{Env} `{MapRangeLaws} `{Yaml} `{DependentsCodec}.
Context `{FinalizersLaws} `{HelmErrors} `{Debug} `{Semver} `{StatusConditionsLaws}.
Context (C : option InstanaAgent → W → Prop) (held : object_id → W → Prop) (data : ObjectKey → W → smap).
Context (delay : Z) (key : ObjectKey) (HC : cooperative C held data delay key).
Context (Hyaml : ∀ details, snd (yaml_Marshal (YNamespacesDetails details)) = None).
Notation M := (M W agentStatusManager).
Notation St := (St W agentStatusManager).

(** [n + 1] reconciliations, and what the last of them answers. *)
Fixpoint reconcileTimes (n : nat) : M (ctrlResult * option error) :=
  match n with
  | O => Reconcile key
  | S n => _ ← Reconcile key; reconcileTimes n
  end.

(** The status in the cluster, if the resource is there, becomes the new one. *)
Definition with_status (oa : option InstanaAgent) (new : InstanaAgent) (w : W) : Prop :=
  C ((fun a : InstanaAgent => a <| agent_Status := agent_Status new |>) <$> oa) w.
Lemma status_law oa reported new w : C oa w → same_resource new reported → resource_key reported = key →
  (∀ a, oa = Some a → agent_Status reported = agent_Status a) →
  let '(e, w') := k8sWrite (RPatchAgentStatus new reported) w in
  (e = None ∨ IsNotFound e = true) ∧ with_status oa new w' ∧ same_objects held data w w'.
Proof.
  intros Hw Hr Hk Hs. pose proof (co_status _ _ _ _ _ HC oa new reported w Hw Hr Hk Hs) as Hp.
  destruct (k8sWrite _ w) as [e w']. destruct oa; destruct Hp as [[? ?] ?]; auto.
Qed.

(** The end of a reconciliation whose status manager knows of [ids]. *)
Lemma UpdateAgentStatus_cooperates oa reported ids (s : St) :
  C oa (world s) → resource_key reported = key →
  (∀ a, oa = Some a → agent_Status reported = agent_Status a) →
  known held reported ids s → sensor_enabled reported = true →
  ∃ new s', UpdateAgentStatus None s = (Ret None, s') ∧ with_status oa new (world s') ∧
    same_objects held data (world s) (world s').
Proof.
  intros Hs Hkey Hst Hk He.
  destruct (UpdateAgentStatus_obeys (C oa) held data delay (co_obedient _ _ _ _ _ HC oa) reported ids (with_status oa)
    (fun new w Hr Hw => status_law oa reported new w Hw Hr Hkey Hst) s Hs Hk He) as (new & s' & E & Hj & _ & Hso).
  by exists new, s'.
Qed.

Lemma Reconcile_settled a (s : St) :
  settled a → agent_Name a ≠ "" → sensor_enabled a = true → C (Some a) (world s) →
  ∃ status s' objects, Reconcile key s = (Ret (noRequeue, None), s') ∧
    C (Some (a <| agent_Status := status |>)) (world s') ∧ generation_of (W:=W) (Default a) objects ∧
    generation_applied held data (Default a) objects (world s) (world s').
Proof.
  intros Hset Hn He Hs. pose proof (co_obedient _ _ _ _ _ HC (Some a)) as HI.
  destruct (Reconcile_from (C (Some a)) held data delay HI key a (fun w Hw => proj1 (co_agent _ _ _ _ _ HC a w Hw)) noRequeue
    (fun s3 => C (Some a) (world s3) ∧ converged held data a (Default a) (world s) (world s3) (local s3))
    (fun s' => ∃ status objects, C (Some (a <| agent_Status := status |>)) (world s') ∧
       generation_of (W:=W) (Default a) objects ∧
       generation_applied held data (Default a) objects (world s) (world s')) s Hs)
    as (s' & E & status & objects & Hc & Hp & Hg); [| |by exists status, s', objects].
  - intros s2 Hs2 Hl2 Hso.
    destruct (obeys_reconcileAgent (C (Some a)) held data delay HI a s2 Hyaml Hn Hset Hs2 Hl2)
      as (r & s3 & E & Hs3 & -> & Hc). exists s3. split; [done|]. split; [done|].
    eapply converged_same; [exact Hso|exact Hc|done].
  - intros s3 [Hs3 (objects & Hgen & Ht & Hg)].
    assert (Hk : known held a (identity <$> objects) s3).
    { split; [exact Ht|]. intros id (obj & -> & Ho)%list_elem_of_fmap. by apply (generation_held _ _ _ _ _ _ _ Hg). }
    destruct (UpdateAgentStatus_cooperates (Some a) a _ s3 Hs3
      (proj2 (co_agent _ _ _ _ _ HC a _ Hs)) ltac:(congruence) Hk He) as (new & s4 & E & Hc & Hso).
    exists s4. split; [done|]. exists (agent_Status new), objects. split; [exact Hc|]. split; [exact Hgen|].
    eapply generation_applied_same; [|exact Hg|exact Hso]. done.
Qed.
(** Then the cluster is provisioned. *)
Lemma generation_provisioned agent objects w w' :
  generation_of (W:=W) agent objects → generation_applied held data agent objects w w' →
  provisioned held agent w'.
Proof. intros Hgen Hg. exists objects. split; [done|]. intros obj. by apply (generation_held _ _ _ _ _ _ _ Hg). Qed.

Lemma Reconcile_fresh a (s : St) : fresh a → sensor_enabled a = true → C (Some a) (world s) →
  ∃ fs status s', Reconcile key s = (Ret (requeue, None), s') ∧ finalizerV3 ∈ fs ∧ finalizerV1 ∉ fs ∧
    C (Some ((withFinalizers fs a) <| agent_Status := status |>)) (world s') ∧
    same_objects held data (world s) (world s').
Proof.
  intros Hf He Hs. pose proof (co_obedient _ _ _ _ _ HC (Some a)) as HI.
  destruct (Reconcile_from (C (Some a)) held data delay HI key a (fun w Hw => proj1 (co_agent _ _ _ _ _ HC a w Hw)) requeue
    (fun s3 => ∃ fs, finalizerV3 ∈ fs ∧ finalizerV1 ∉ fs ∧ C (Some (withFinalizers fs a)) (world s3) ∧
       local s3 = SetAgentOld a NewAgentStatusManager ∧ same_objects held data (world s) (world s3))
    (fun s4 => ∃ fs status, finalizerV3 ∈ fs ∧ finalizerV1 ∉ fs ∧
       C (Some ((withFinalizers fs a) <| agent_Status := status |>)) (world s4) ∧
       same_objects held data (world s) (world s4)) s Hs)
    as (s' & E & fs & status & ? & ? & ? & ?); [| |by exists fs, status, s'].
  - intros s2 Hs2 Hl2 Hso.
    destruct (reconcileAgent_fresh (C (Some a)) held data delay HI a
      (fun a' w => C (stored a') w) s2 (fun fs w => co_finalizers _ _ _ _ _ HC a fs w) Hf Hs2 Hl2)
      as (fs & s3 & E & Hv3 & Hv1 & Hc & Hl & Hso').
    exists s3. split; [done|]. exists fs. split; [done|]. split; [done|].
    assert (Hst : stored (withFinalizers fs a) = Some (withFinalizers fs a)).
    { unfold stored. change (om_DeletionTimestamp (agent_Meta (withFinalizers fs a)))
        with (om_DeletionTimestamp (agent_Meta a)). by rewrite (proj2 (proj2 Hf)). }
    rewrite Hst in Hc. split; [done|]. split; [done|]. by eapply same_objects_trans.
  - intros s3 (fs & Hv3 & Hv1 & Hs3 & Hl & Hso).
    destruct (UpdateAgentStatus_cooperates (Some (withFinalizers fs a)) a [] s3 Hs3
      (proj2 (co_agent _ _ _ _ _ HC a _ Hs))) as (new & s4 & E & Hc & Hso');
      [by intros ? [= <-]| |done|].
    { split; [|by intros ? ?%elem_of_nil]. rewrite Hl. apply tracks_new. }
    exists s4. split; [done|]. exists fs, (agent_Status new). split_and!; [done..|]. by eapply same_objects_trans.
Qed.

Lemma Reconcile_leaving a (s : St) :
  leaving a → sensor_enabled a = true → C (Some a) (world s) → held (cm_id (dependents_key a)) (world s) →
  ∃ oa s', Reconcile key s = (Ret (requeue, None), s') ∧ C oa (world s') ∧
    (∀ a', oa = Some a' → finalizerV3 ∉ agentFinalizers a') ∧ cleared held data a (world s) (world s').
Proof.
  intros Hf He Hs Hrec. pose proof (co_obedient _ _ _ _ _ HC (Some a)) as HI.
  destruct (Reconcile_from (C (Some a)) held data delay HI key a (fun w Hw => proj1 (co_agent _ _ _ _ _ HC a w Hw)) requeue
    (fun s3 => ∃ fs, finalizerV3 ∉ fs ∧ C (stored (withFinalizers fs a)) (world s3) ∧
       local s3 = SetAgentOld a NewAgentStatusManager ∧ cleared held data a (world s) (world s3))
    (fun s4 => ∃ oa, C oa (world s4) ∧ (∀ a', oa = Some a' → finalizerV3 ∉ agentFinalizers a') ∧
       cleared held data a (world s) (world s4)) s Hs)
    as (s' & E & oa & ? & ? & ?); [| |by exists oa, s'].
  - intros s2 Hs2 Hl2 [Hh Hd].
    destruct (reconcileAgent_leaving (C (Some a)) held data delay HI a
      (fun a' w => C (stored a') w) s2 (fun fs w => co_finalizers _ _ _ _ _ HC a fs w) Hf Hs2)
      as (fs & s3 & E & Hv3 & Hc & Hl & Hcl); [by apply Hh|done|].
    exists s3. split; [done|]. exists fs. split_and!; [done..|]. intros id. by rewrite (Hcl id), Hh, Hd.
  - intros s3 (fs & Hv3 & Hs3 & Hl & Hcl).
    assert (Hst : ∀ a', stored (withFinalizers fs a) = Some a' → a' = withFinalizers fs a).
    { unfold stored. intros a'. repeat case_match; congruence. }
    destruct (UpdateAgentStatus_cooperates (stored (withFinalizers fs a)) a [] s3 Hs3
      (proj2 (co_agent _ _ _ _ _ HC a _ Hs)))
      as (new & s4 & E & Hc & [Hh' Hd']); [intros a' Ha'; by rewrite (Hst a' Ha')| |done|].
    { split; [|by intros ? ?%elem_of_nil]. rewrite Hl. apply tracks_new. }
    exists s4. split; [done|]. eexists. split; [exact Hc|]. split.
    + intros a' (a2 & E2 & ->)%fmap_Some. by rewrite (Hst a2 E2).
    + intros id. by rewrite Hh', (Hcl id).
Qed.

(** The status does not matter to either. *)
Lemma settled_status a status : settled a → settled (a <| agent_Status := status |>).
Proof. by intros (? & ? & ?). Qed.
Lemma reconcileTimes_settled n : ∀ a (s : St),
  settled a → agent_Name a ≠ "" → sensor_enabled a = true → C (Some a) (world s) →
  ∃ status s', reconcileTimes n s = (Ret (noRequeue, None), s') ∧
    provisioned held (Default (a <| agent_Status := status |>)) (world s').
Proof.
  induction n as [|n IH]; intros a s Hset Hn He Hs;
    destruct (Reconcile_settled a s Hset Hn He Hs) as (status & s1 & objects & E & Hc & Hgen & Hg);
    pose proof (generation_provisioned _ _ _ _ Hgen Hg) as Hp; simpl.
  - exists (agent_Status a), s1. split; [exact E|]. by destruct a.
  - rewrite (bind_Ret _ _ _ _ _ E).
    destruct (IH _ s1 (settled_status a status Hset) Hn He Hc) as (status' & s2 & E2 & Hp2).
    by exists status', s2.
Qed.

(** ** What a custom resource leaves behind *)

(** What is not recorded: the record itself, and the copies for the etcd
    monitoring. *)
Definition unrecorded (agent : InstanaAgent) : list object_id :=
  cm_id (dependents_key agent) :: etcd_copies agent.
Lemma record_no_copy agent : cm_id (dependents_key agent) ∉ etcd_copies agent.
Proof.
  unfold etcd_copies. rewrite not_elem_of_cons, list_elem_of_singleton. split; [|done].
  unfold cm_id, dependents_key, record_key, getConfigMapName. intros [= E].
  change (d_Name (NewDependentLifecycleManager agent)) with (agent_Name agent) in E.
  revert E. generalize (agent_Name agent). intros n E.
  do 15 (destruct n as [|? n]; [discriminate E|]; simpl in E; try discriminate E; injection E as _ E).
Qed.

(** Whatever is there was made by others ([foreign]), is not recorded, or is
    listed in the record, which has one entry at most. *)
Definition accounted (foreign : object_id → Prop) (agent : InstanaAgent) (w : W) : Prop :=
  single (data (dependents_key agent) w) ∧
  ∀ id, held id w → foreign id ∨ id ∈ unrecorded agent ∨ listed (data (dependents_key agent) w) id.
Lemma proper_kinded agent objects : Forall (proper agent ∘ identity) objects → kinded objects.
Proof. intros Hp. eapply Forall_impl; [exact Hp|]. by intros o (_ & ? & _). Qed.
(** The record after a generation was applied, and what it listed before. *)
Lemma generation_recorded `{!DependentsCodecLaws} agent objects w w' :
  generation_applied held data agent objects w w' →
  (single (data (dependents_key agent) w') ∧
   ∀ id, listed (data (dependents_key agent) w') id ↔ id ∈ identity <$> objects) ∧
  (single (data (dependents_key agent) w) →
   ∀ id, listed (data (dependents_key agent) w) id → held id w' →
     id ∈ unrecorded agent ∨ id ∈ identity <$> objects).
Proof.
  intros (w1 & (Ha & _ & Hd) & [_ Hc _ Hr _ _] & Hp). set (d := NewDependentLifecycleManager agent) in *.
  change (dependents_key agent) with (record_key d).
  split; [exact (record_lists d _ _ _ (proper_kinded _ _ Hp) Hr)|].
  intros Hs id Hl [->|[_ Hid]]%Hc; [left; by left|right]. apply Hid.
  rewrite (Hd (record_key d) (record_no_copy agent)). by apply listed_registered.
Qed.
Lemma accounted_generation `{!DependentsCodecLaws} foreign agent objects w w' :
  accounted foreign agent w → generation_applied held data agent objects w w' → accounted foreign agent w'.
Proof.
  intros [Hs Hw] Hg. destruct (generation_recorded _ _ _ _ Hg) as [[Hs' Hl] Hold]. split; [done|].
  intros id Hid. rewrite Hl. pose proof Hg as (w1 & (Ha & _ & _) & [_ Hc _ _ _ _] & _).
  destruct (Hc id Hid) as [->|[[[Hid'|?]%Ha|?] _]]; [right; left; by left| |by right; left; right|by right; right].
  destruct (Hw id Hid') as [?|[?|Hli]]; [by left|by right; left|].
  right. by apply (Hold Hs).
Qed.

(** The same resource, still settled, after its owner changed it. *)
Definition edited (a a' : InstanaAgent) : Prop :=
  agent_Name a' = agent_Name a ∧ agent_Namespace a' = agent_Namespace a ∧
  agentFinalizers a' = agentFinalizers a ∧ sensor_enabled a' = true.
Context (foreign : object_id → Prop).
(** Others have been at work from [w] to [w']: they make only [foreign]
    objects, delete what they like, and leave the record as it is. *)
Definition others_worked (a : InstanaAgent) (w w' : W) : Prop :=
  (∀ id, held id w' → held id w ∨ foreign id) ∧
  data (dependents_key a) w' = data (dependents_key a) w.

(** The life of a custom resource until it is deleted: it is made on a cluster
    that has no record of it, it is reconciled any number of times, and
    between reconciliations it may be changed and others may work. *)
Inductive lived : InstanaAgent → St → Prop :=
  | lived_new a s :
      fresh a → agent_Name a ≠ "" → sensor_enabled a = true → C (Some a) (world s) →
      data (dependents_key a) (world s) = ∅ → (∀ id, held id (world s) → foreign id) → lived a s
  | lived_reconciled a s r a' s' :
      lived a s → Reconcile key s = (r, s') → C (Some a') (world s') → lived a' s'
  | lived_edited a s a' s' :
      lived a s → edited a a' → om_DeletionTimestamp (agent_Meta a') = None → C (Some a') (world s') →
      others_worked a (world s) (world s') → lived a' s'.

Lemma same_agent a a' w : C (Some a) w → C (Some a') w → a = a'.
Proof. intros [Ha _]%(co_agent _ _ _ _ _ HC) [Ha' _]%(co_agent _ _ _ _ _ HC). congruence. Qed.
Lemma accounted_changed a a' w w' :
  agent_Name a' = agent_Name a → agent_Namespace a' = agent_Namespace a →
  accounted foreign a w → others_worked a w w' → accounted foreign a' w'.
Proof.
  intros Hn Hns [Hs Hw] [Ho Hd]. unfold accounted, unrecorded, etcd_copies.
  assert (Hk : dependents_key a' = dependents_key a).
  { unfold dependents_key, record_key, getConfigMapName. simpl. unfold agent_Name, agent_Namespace in *. congruence. }
  rewrite Hk, Hd, Hns. split; [done|]. intros id [Hid|?]%Ho; [by apply Hw|by left].
Qed.
Record alive (a : InstanaAgent) (w : W) : Prop := {
  al_there : C (Some a) w; al_named : agent_Name a ≠ ""; al_enabled : sensor_enabled a = true;
  al_state : fresh a ∨ settled a; al_accounted : accounted foreign a w
}.
Lemma lived_alive `{!DependentsCodecLaws} a s : lived a s → alive a (world s).
Proof.
  induction 1 as [a s Hf Hn He Hc Hd Hh|a s r a' s' _ [Hc Hn He Hst Ha] E Hc'|a s a' s' _ [Hc Hn He Hst Ha] Hed Hdel Hc' Ho].
  - split; [done..|by left|]. split; [|by left; apply Hh].
    rewrite Hd. intros k k' [x Hx]. by rewrite lookup_empty in Hx.
  - destruct Hst as [Hst|Hst].
    + destruct (Reconcile_fresh a s Hst He Hc) as (fs & status & s1 & E1 & Hv3 & Hv1 & Hc1 & [Hh Hd]).
      rewrite E in E1. injection E1 as -> ->. rewrite <- (same_agent _ _ _ Hc1 Hc'). split; [done..| |].
      { right. by destruct Hst as (_ & _ & ?). }
      apply (accounted_changed a _ (world s)); [done..|]. split; [|apply Hd]. intros id Hid. left. by apply Hh.
    + destruct (Reconcile_settled a s Hst Hn He Hc) as (status & s1 & objects & E1 & Hc1 & _ & Hg).
      rewrite E in E1. injection E1 as -> ->. rewrite <- (same_agent _ _ _ Hc1 Hc'). split; [done..| |].
      { right. by apply settled_status. }
      apply (accounted_changed (Default a) _ (world s1)); [done..| |].
      { apply (accounted_generation foreign (Default a) objects (world s)); [|done].
        apply (accounted_changed a _ (world s)); [done..|]. split; [by left|done]. }
      split; [by left|done].
  - destruct Hed as (Hn' & Hns & Hfs & He'). split; [done|congruence|done| |by eapply accounted_changed].
    unfold fresh, settled in *. rewrite Hfs, Hdel. naive_solver.
Qed.
End Cooperative.

(** ** A cluster that cooperates *)
Section Cooperates.
(** The worlds with this custom resource are closed under what does not
    concern the others. *)
Context (key : ObjectKey) (C : option InstanaAgent → store → Prop).
Context (HC : ∀ oa s, C oa s → sane s ∧ st_agents s key = oa).
Context (HC' : ∀ oa oa' s s', C oa s → sane s' → others_same key s s' → st_agents s' key = oa' → C oa' s').

Lemma patched_agent f s a : C (Some a) s → (∀ a', f a = Some a' → resource_key a' = resource_key a) →
  let '(e, s') := patch_agent key f s in e = None ∧ C (f a) s' ∧ same_objects has contents s s'.
Proof.
  intros Hw Hf. destruct (HC _ _ Hw) as [Hs Ha]. pose proof (sane_agents _ Hs _ _ Ha) as Hk. rewrite Hk in Hf.
  pose proof (patch_agent_of key f s a Hs Ha Hf) as Hq. destruct (patch_agent key f s) as [e s'].
  destruct Hq as (? & ? & ? & Ho & ?). split; [done|]. split; [|done]. by eapply HC'.
Qed.
(** The custom resource is changed. *)
Lemma changed_agent a a' s : C (Some a) s → resource_key a' = resource_key a →
  C (Some a') (s <| st_agents ::= <[key := Some a']> |>).
Proof.
  intros Hw Hk. pose proof (patched_agent (fun _ => Some a') s a Hw) as Hp. revert Hp.
  unfold patch_agent. rewrite (proj2 (HC _ _ Hw)). intros Hp. apply Hp. by intros ? [= <-].
Qed.
Lemma store_cooperative : cooperative C has contents 0 key.
Proof.
  split.
  - intros oa. apply store_obedient; [by intros s [Hs _]%HC|]. intros s s' Hs Hs' Hr.
    destruct (same_others key s s' Hr) as [Ho Hk]. eapply HC'; [done..|]. rewrite Hk. by apply HC.
  - intros a w [Hs Ha]%HC. simpl. rewrite Ha. split; [done|]. exact (sane_agents _ Hs _ _ Ha).
  - intros a fs w Hw. destruct (HC _ _ Hw) as [Hs Ha]. pose proof (sane_agents _ Hs _ _ Ha) as Hk. simpl.
    change (resource_key (withFinalizers fs (Default a))) with (resource_key a). rewrite Hk.
    change (agentFinalizers (withFinalizers fs (Default a))) with fs.
    apply (patched_agent (fun a => stored (withFinalizers fs a))); [done|].
    intros a' E%stored_key. exact E.
  - intros oa new old w Hw (_ & _ & Hm & _) Hk _. simpl.
    assert (Hk' : resource_key new = key) by (rewrite <- Hk; unfold resource_key, agent_Name, agent_Namespace; by rewrite Hm).
    rewrite Hk'. destruct oa as [a|].
    + pose proof (patched_agent (fun a => Some (a <| agent_Status := agent_Status new |>)) w a Hw) as Hp.
      destruct (patch_agent _ _ w) as [e w']. destruct Hp as (? & ? & ?); [by intros a' [= <-]|done].
    + unfold patch_agent. by rewrite (proj2 (HC _ _ Hw)).
Qed.
End Cooperates.

(** ** Properties *)
Lemma flow_yaml_details details : snd (yaml_Marshal (YNamespacesDetails details)) = None.
Proof. reflexivity. Qed.
Definition store_with (a : InstanaAgent) : store :=
  {| st_time := 0; st_held := []; st_data := fun _ => ∅;
     st_agents := fun k => if decide (k = resource_key a) then Some a else None; st_remotes := fun _ => None |}.
Definition one_agent (oa : option InstanaAgent) (s : store) : Prop := sane s ∧ st_agents s agent_key = oa.
Lemma one_closed oa oa' s s' :
  one_agent oa s → sane s' → others_same agent_key s s' → st_agents s' agent_key = oa' → one_agent oa' s'.
Proof. by split. Qed.
Definition one_cooperative : cooperative one_agent has contents 0 agent_key :=
  store_cooperative agent_key one_agent (fun _ _ Hs => Hs) one_closed.
Lemma store_with_one a : resource_key a = agent_key → one_agent (Some a) (store_with a).
Proof.
  intros Hk. split; [split; simpl|].
  - intros k a'. case_decide; [by intros [= <-]|done].
  - done.
  - done.
  - simpl. by rewrite decide_True.
Qed.
Definition store_start (a : InstanaAgent) : St store agentStatusManager :=
  MkSt (store_with a) [] NewAgentStatusManager.
Lemma managed_settled : settled managed_agent.
Proof. split_and!; [by left| |done]. by intros [?|?%elem_of_nil]%elem_of_cons. Qed.
Lemma example_fresh : fresh example_agent.
Proof. split; [|split; [|done]]; by intros ?%elem_of_nil. Qed.

(** C2: on a cluster that does what it is asked, [Reconcile] of an InstanaAgent
    whose k8sensor is enabled, that has a name and the finalizer (and not the
    one of the operator's predecessor) and is not being deleted, asks for no other round
    and has no error, and then the cluster holds every object the builders make
    for the custom resource.  With a disabled k8sensor it would end in an
    error ([UpdateAgentStatus_disabled_sensor]). *)
Theorem Reconcile_converges {W} `{ClockLaws W} `{ApiErrors} `{Env} `{MapRangeLaws} `{Yaml} `{DependentsCodec}
    `{FinalizersLaws} `{HelmErrors} `{Debug} `{Semver} `{StatusConditionsLaws}
    (C : option InstanaAgent → W → Prop) held data delay key agent (s : St W agentStatusManager) :
  cooperative C held data delay key →
  (∀ details, snd (yaml_Marshal (YNamespacesDetails details)) = None) →
  settled agent → agent_Name agent ≠ "" → sensor_enabled agent = true → C (Some agent) (world s) →
  ∃ s', Reconcile key s = (Ret (noRequeue, None), s') ∧ provisioned held (Default agent) (world s').
Proof.
  intros HC Hy Hset Hn He Hs.
  destruct (Reconcile_settled C held data delay key HC Hy agent s Hset Hn He Hs)
    as (status & s' & objects & E & _ & Hgen & Hg).
  exists s'. split; [done|]. by eapply generation_provisioned.
Qed.

Lemma Reconcile_converges_witness :
  ∃ s', Reconcile agent_key (store_start managed_agent) = (Ret (noRequeue, None), s') ∧
    provisioned has (Default managed_agent) (world s').
Proof.
  apply (Reconcile_converges one_agent has contents 0 agent_key managed_agent
    (store_start managed_agent) one_cooperative flow_yaml_details managed_settled);
    [done|done|by apply store_with_one].
Defined.

(** C13: and a new custom resource, named, without finalizers of the operator,
    and whose k8sensor is enabled, gets there: the
    first reconciliation adds the finalizer and asks for another, every later
    one succeeds and leaves the cluster with all objects of the custom
    resource, whose spec is unchanged. *)
Theorem reconciliations_converge {W} `{ClockLaws W} `{ApiErrors} `{Env} `{MapRangeLaws} `{Yaml}
    `{DependentsCodec} `{FinalizersLaws} `{HelmErrors} `{Debug} `{Semver} `{StatusConditionsLaws}
    (C : option InstanaAgent → W → Prop) held data delay key agent (s : St W agentStatusManager) :
  cooperative C held data delay key →
  (∀ details, snd (yaml_Marshal (YNamespacesDetails details)) = None) →
  fresh agent → agent_Name agent ≠ "" → sensor_enabled agent = true → C (Some agent) (world s) →
  ∃ s1, Reconcile key s = (Ret (requeue, None), s1) ∧
    ∀ n, ∃ agent' s2, reconcileTimes key n s1 = (Ret (noRequeue, None), s2) ∧
      agent_Spec agent' = agent_Spec agent ∧ provisioned held (Default agent') (world s2).
Proof.
  intros HC Hy Hf Hn He Hs.
  destruct (Reconcile_fresh C held data delay key HC agent s Hf He Hs)
    as (fs & status & s1 & E & Hv3 & Hv1 & Hc & _).
  exists s1. split; [exact E|]. intros n.
  destruct (reconcileTimes_settled C held data delay key HC Hy n _ s1
    (settled_status (withFinalizers fs agent) status (conj Hv3 (conj Hv1 (proj2 (proj2 Hf))))) Hn He Hc)
    as (status' & s2 & E2 & Hp).
  eexists; exists s2. split; [exact E2|]. split; [|exact Hp]. reflexivity.
Qed.

Lemma reconciliations_converge_witness :
  ∃ s1, Reconcile agent_key (store_start example_agent) = (Ret (requeue, None), s1) ∧
    ∀ n, ∃ agent' s2, reconcileTimes agent_key n s1 = (Ret (noRequeue, None), s2) ∧
      agent_Spec agent' = agent_Spec example_agent ∧ provisioned has (Default agent') (world s2).
Proof.
  apply (reconciliations_converge one_agent has contents 0 agent_key example_agent
    (store_start example_agent) one_cooperative flow_yaml_details example_fresh);
    [done|done|by apply store_with_one].
Defined.

(** C3: nothing is left behind.  An InstanaAgent with an enabled k8sensor is
    made on a cluster without a record of it; then it is reconciled any number
    of times, and in between changed in ways that keep its name, its finalizers
    and the k8sensor enabled, while others make and delete objects but leave
    its record of dependents alone.  When it is deleted with the finalizer, which
    the first reconciliation added, and the record still exists
    ([deletion_without_record] has the other case), on a cluster that does what
    it is asked one reconciliation drops the finalizer, and afterwards every object on the cluster was made by
    others, but for the record and the copies for the etcd monitoring, which
    the custom resource owns. *)
Theorem nothing_left_behind {W} `{ClockLaws W} `{ApiErrors} `{Env} `{MapRangeLaws} `{Yaml}
    `{DependentsCodecLaws} `{FinalizersLaws} `{HelmErrors} `{Debug} `{Semver} `{StatusConditionsLaws}
    (C : option InstanaAgent → W → Prop) held data delay key foreign agent agent'
    (s s' : St W agentStatusManager) :
  cooperative C held data delay key →
  (∀ details, snd (yaml_Marshal (YNamespacesDetails details)) = None) →
  lived C held data key foreign agent s → finalizerV3 ∈ agentFinalizers agent →
  edited agent agent' → om_DeletionTimestamp (agent_Meta agent') ≠ None →
  C (Some agent') (world s') → others_worked held data foreign agent (world s) (world s') →
  held (cm_id (dependents_key agent')) (world s') →
  ∃ left s2, Reconcile key s' = (Ret (requeue, None), s2) ∧ C left (world s2) ∧
    (∀ a, left = Some a → finalizerV3 ∉ agentFinalizers a) ∧
    ∀ id, held id (world s2) → foreign id ∨ id ∈ unrecorded agent'.
Proof.
  intros HC Hy Hlived Hv3 (Hn & Hns & Hfs & He) Hdel Hs' Ho Hrec.
  destruct (lived_alive C held data delay key HC Hy foreign agent s Hlived) as [_ _ _ Hst Ha].
  assert (Hv1 : finalizerV1 ∉ agentFinalizers agent) by (by destruct Hst as [(_ & ? & _)|(_ & ? & _)]).
  apply (accounted_changed held data foreign agent agent' _ _ Hn Hns Ha) in Ho as [_ Hw].
  destruct (Reconcile_leaving C held data delay key HC agent' s') as (left & s2 & E & Hl & Hf & Hcl); [|done..|].
  { unfold leaving. by rewrite Hfs. }
  exists left, s2. split_and!; [done..|]. intros id [->|[Hid Hnl]]%Hcl; [right; by left|].
  destruct (Hw id Hid) as [?|[?|?]]; [by left|by right|done].
Qed.

(** The example is made, reconciled twice and deleted. *)
Definition nobody (_ : object_id) : Prop := False.
Definition delete_agent (a : InstanaAgent) : InstanaAgent :=
  a <| agent_Meta ::= fun m => m <| om_DeletionTimestamp := Some 1%Z |> |>.
Lemma example_life : ∃ agent s, lived one_agent has contents agent_key nobody agent s ∧
  settled agent ∧ sensor_enabled agent = true ∧ one_agent (Some agent) (world s) ∧
  has (cm_id (dependents_key agent)) (world s).
Proof.
  assert (Hnew : lived one_agent has contents agent_key nobody example_agent
    (store_start example_agent)).
  { apply lived_new; [exact example_fresh|done|done|by apply store_with_one|done|by intros id ?%elem_of_nil]. }
  destruct (Reconcile_fresh one_agent has contents 0 agent_key one_cooperative example_agent
    (store_start example_agent) example_fresh eq_refl) as (fs & status & s1 & E1 & Hv3 & Hv1 & Hc1 & _);
    [by apply store_with_one|].
  set (a1 := (withFinalizers fs example_agent) <| agent_Status := status |>) in *.
  assert (Hset : settled a1) by (split; [exact Hv3|by split; [exact Hv1|]]).
  destruct (Reconcile_settled one_agent has contents 0 agent_key one_cooperative flow_yaml_details
    a1 s1 Hset ltac:(done) eq_refl Hc1) as (status2 & s2 & objects & E2 & Hc2 & _ & w & _ & [_ _ _ _ Hrec _] & _).
  exists (a1 <| agent_Status := status2 |>), s2. split_and!; [|done|done|exact Hc2|exact Hrec].
  eapply lived_reconciled; [|exact E2|exact Hc2]. by eapply lived_reconciled; [|exact E1|exact Hc1].
Qed.
Lemma nothing_left_behind_witness :
  ∃ agent s left s2, Reconcile agent_key s = (Ret (requeue, None), s2) ∧ one_agent left (world s2) ∧
    (∀ a, left = Some a → finalizerV3 ∉ agentFinalizers a) ∧
    ∀ id, has id (world s2) → nobody id ∨ id ∈ unrecorded agent.
Proof.
  destruct example_life as (agent & s & Hlived & (Hv3 & Hv1 & Hdel) & He & Ha & Hrec).
  exists (delete_agent agent), (MkSt ((world s) <| st_agents ::= <[agent_key := Some (delete_agent agent)]> |>) []
    NewAgentStatusManager).
  apply (nothing_left_behind one_agent has contents 0 agent_key nobody agent (delete_agent agent) s);
    [exact one_cooperative|exact flow_yaml_details|exact Hlived|exact Hv3|..].
  - done.
  - done.
  - by apply (changed_agent agent_key one_agent (fun _ _ Hs => Hs) one_closed agent).
  - split; [by left|done].
  - exact Hrec.
Defined.

(** The empty config map that a clean-up applies when it gets none. *)
Definition nameless : object := clear_managed_fields (OConfigMap (cleanedCm zero_ConfigMap ∅)).
Lemma CleanupDependents_nameless {W X} `{K8sApi W} `{ApiErrors} `{Env} `{MapRangeLaws} `{DependentsCodec}
    d missing refused (s : St W X) w2 w3 :
  k8sGet KConfigMap (record_key d) (world s) = (inr missing, w2) →
  k8sWrite (RApply nameless false) w2 = (Some refused, w3) →
  let err := MultiErrorBuilder.Build (MultiErrorBuilder.AddSingle (Some refused) (MultiErrorBuilder.New [])) in
  isConflictError err = false →
  CleanupDependents d [] s = (Ret err, MkSt w3
    (trace s ++ [EGet KConfigMap (record_key d) (inr missing); EWrite (RApply nameless false) (Some refused)])
    (local s)).
Proof.
  intros Eg Ew err Hconf.
  set (s2 := MkSt w2 (trace s ++ [EGet KConfigMap (record_key d) (inr missing)]) (local s)).
  set (s3 := MkSt w3 _ _).
  assert (Hr : range ∅ = []) by (apply Permutation_nil_r; rewrite range_perm; by rewrite map_to_list_empty).
  unfold CleanupDependents, retry. change (Z.to_nat 5) with 5%nat. cbn [retry_from].
  rewrite (bind_Ret _ _ s (true, err) s3); [done|].
  unfold cleanupAttempt. rewrite (bind_Ret _ _ s err s3); [by rewrite Hconf|].
  unfold cleanupOnce. rewrite (bind_Ret _ _ s (zero_ConfigMap, Some missing) s2).
  2: { unfold getLifecycleConfigMap. rewrite (bind_Ret (doGet KConfigMap (record_key d)) _ s (inr missing) s2); [done|].
       unfold doGet, call. by rewrite Eg. }
  cbn [fst cm_Data zero_ConfigMap default]. rewrite Hr. cbn [foldM].
  rewrite (bind_Ret (mret (∅, MultiErrorBuilder.New []) : M W X _) _ s2 _ s2 eq_refl).
  cbn [fst snd]. unfold Apply. fold nameless.
  rewrite (bind_Ret _ _ s2 (Result.Of nameless (Some refused)) s3); [done|].
  rewrite (bind_Ret (doWrite (RApply nameless false)) _ s2 (Some refused) s3); [done|].
  unfold doWrite, call. cbn [world s2]. rewrite Ew. unfold s3, s2. cbn [trace local]. by rewrite <- app_assoc.
Qed.

(** C23: a deletion needs the record.  While the config map cannot be read and
    the server refuses objects without a name, handling the deletion ends in an
    error and leaves the finalizer: instead of a config map it did not get, the
    clean-up applies an empty one. *)
Theorem deletion_without_record {W} `{K8sApi W} `{ApiErrors} `{Env} `{MapRangeLaws} `{DependentsCodec}
    `{FinalizersLaws} `{HelmErrors} agent missing refused (s : St W agentStatusManager) :
  leaving agent →
  let read := k8sGet KConfigMap (dependents_key agent)
                (snd (runCommand "kubectl label node --all pool-" (world s))) in
  fst read = inr missing →
  (∀ o, object_name o = "" → fst (k8sWrite (RApply o false) (snd read)) = Some refused) →
  let err := MultiErrorBuilder.Build (MultiErrorBuilder.AddSingle (Some refused) (MultiErrorBuilder.New [])) in
  isConflictError err = false →
  ∃ s' t, handleDeletion (NewOperatorUtils agent) agent s = (Ret (reconcileFailure err), s') ∧
    trace s' = trace s ++ t ∧ ∀ new old e, EWrite (RPatchAgent new old) e ∉ t.
Proof.
  intros (Hv3 & Hv1 & Hdel). set (cmd := "kubectl label node --all pool-").
  destruct (runCommand cmd (world s)) as [ce w1] eqn:Ec. cbn [snd].
  destruct (k8sGet KConfigMap (dependents_key agent) w1) as [answer w2] eqn:Eg. cbn [fst snd].
  intros -> Hw. set (err := MultiErrorBuilder.Build _). intros Hconf.
  pose proof (Hw nameless eq_refl) as He. destruct (k8sWrite (RApply nameless false) w2) as [we w3] eqn:Ew.
  simpl in He. subst we. set (s1 := MkSt w1 (trace s ++ [ECommand cmd ce]) (local s)).
  pose proof (CleanupDependents_nameless (NewDependentLifecycleManager agent) missing refused s1 w2 w3 Eg Ew Hconf)
    as Ecl. eexists _, _. split; [|split].
  - unfold handleDeletion, cleanupNodeLabels. rewrite (bind_Ret _ _ s tt s1).
    2: { rewrite (bind_Ret _ _ s ce s1); [done|]. unfold call. fold cmd. by rewrite Ec. }
    destruct (om_DeletionTimestamp (agent_Meta agent)); [|done]. rewrite cleanupHelmChart_absent by done.
    rewrite (bind_Ret (mret reconcileContinue : M W agentStatusManager _) _ s1 _ s1 eq_refl).
    cbn [suppliesReconcileResult reconcileContinue rr_res]. unfold cleanupDependents.
    pose proof (RemoveFinalizer_present _ _ Hv3) as Hf.
    destruct (RemoveFinalizer finalizerV3 (agentFinalizers agent)) as [fs removed]. simpl in Hf. subst removed.
    cbn [negb]. unfold DeleteAll. cbn [NewOperatorUtils ou_manager agentManager dlm_Cleanup].
    erewrite (bind_Ret _ _ s1 (reconcileFailure err)); [reflexivity|].
    rewrite (bind_Ret _ _ _ _ _ Ecl). reflexivity.
  - cbn [trace s1]. by rewrite <- app_assoc.
  - intros new old e. rewrite elem_of_app, !elem_of_cons, !elem_of_nil. naive_solver.
Qed.

(** The resource is deleted before a reconciliation recorded anything. *)
Definition unrecorded_cluster : cluster :=
  empty_cluster <| c_agent := Some (delete_agent managed_agent) |> <| c_script := [Some Refused] |>.
Lemma managed_leaving : leaving (delete_agent managed_agent).
Proof. split_and!; [by left| |done]. by intros [?|?%elem_of_nil]%elem_of_cons. Qed.
Lemma deletion_without_record_witness :
  ∃ e s' t, handleDeletion (NewOperatorUtils (delete_agent managed_agent)) (delete_agent managed_agent)
      (start unrecorded_cluster NewAgentStatusManager) = (Ret (reconcileFailure (Some e)), s') ∧
    trace s' = [] ++ t ∧ ∀ new old e, EWrite (RPatchAgent new old) e ∉ t.
Proof.
  eexists. by refine (deletion_without_record (delete_agent managed_agent) NotFound Refused
    (start unrecorded_cluster NewAgentStatusManager) managed_leaving _ _ _).
Defined.
