(* ===== verification/RemoteConvergence.v ===== *)
(** * Reconciliations of a remote agent on a cluster that does what it is asked

    As Convergence.v and Life.v do for an InstanaAgent, for an
    InstanaAgentRemote: a reconciliation adds the finalizer, or gets to a
    cluster that holds what the resource asks for, or deletes what is recorded
    and drops the finalizer. *)
From S2P Require Import Prelude GoStd Errors K8sTypes ApiTypes Effects Cluster Client.
From S2P Require Import Transformations Lifecycle RemoteLifecycle OperatorUtils StatusHelpers Helpers Reconcile Etcd Secrets.
From S2P Require Import EnvBuilder RemoteVolumeBuilder RemoteEnvBuilder RemoteStatus RemoteObjects RemoteDeployment.
From S2P Require Import Deferring Resources RemoteControllers RemoteControllerProofs Watches Obedient Store Convergence Life.

Notation remoteManagerOf agent := (commonManager (NewRemoteDependentLifecycleManager agent)).
(** The record of the dependents. *)
Definition remote_dependents_key (agent : InstanaAgentRemote) : ObjectKey := record_key (remoteManagerOf agent).
(** The objects have a name and a kind, are in the namespace of the resource,
    and none is the record. *)
Definition remote_proper (agent : InstanaAgentRemote) (id : object_id) : Prop :=
  key_Name id.2 ≠ "" ∧ gvk_Kind id.1 ≠ "" ∧ id ≠ cm_id (remote_dependents_key agent) ∧
  in_namespace (remote_Namespace agent) id.

(** ** What the status manager is told about *)
Record remote_tracks (old : InstanaAgentRemote) (ids : list object_id)
    (a : instanaAgentRemoteStatusManager) : Prop := {
  rtr_old : remote_agentOld a = Some old;
  rtr_deployments k : k ∈ remote_agentDeployments a → (GVK "apps" "v1" "Deployment", k) ∈ ids;
  rtr_secret : objectKeyHasNoName (remote_agentSecretConfig a) = true ∨
    (GVK "" "v1" "Secret", remote_agentSecretConfig a) ∈ ids
}.
Lemma remote_tracks_new old ids :
  remote_tracks old ids (remote_SetAgentOld old NewInstanaAgentRemoteStatusManager).
Proof. by split; [|intros ? ?%elem_of_nil|left]. Qed.

(** A builder tells the manager of nothing but the object it makes. *)
Definition remote_registers {W} (b : ObjectBuilder W instanaAgentRemoteStatusManager) : Prop :=
  ∀ s v s' old ids, Build b s = (Ret v, s') → (∀ o, v = Some o → identity o ∈ ids) →
    remote_tracks old ids (local s) → remote_tracks old ids (local s').

Section Builders.
Context {W : Type} `{K8sApi W} `{ApiErrors} `{Env} `{MapRange} `{Yaml}.

Lemma remoteBuilder_registers v : remote_registers (W:=W) (remoteBuilder v).
Proof. intros s v' s' old ids [= -> <-] _ Ht. exact Ht. Qed.
Lemma RemoteDeployment_registers d : remote_registers (W:=W) (RemoteDeployment_builder d).
Proof.
  intros s v s' old ids. unfold RemoteDeployment_builder. cbn [Build].
  destruct (rd_isOmitted d); [by intros [= <- <-]|]. intros [= <- <-] Hv [Ho Hds Hsec].
  specialize (Hv _ eq_refl). cbn [local]. unfold AddAgentDeployment. cbn [local] in *.
  destruct (GoList.Contains _ _); [by split|]. split; [done| |done].
  intros k [Hk| ->%list_elem_of_singleton]%elem_of_app; [by apply Hds|exact Hv].
Qed.
Lemma remote_allBuilders_register agent keysSecret backends :
  Forall (remote_registers (W:=W)) (remote_allBuilders agent keysSecret backends).
Proof.
  unfold remote_allBuilders, getInstanaAgentRemoteDeployments. rewrite Forall_app, Forall_fmap. split.
  - apply Forall_true. intros b. apply RemoteDeployment_registers.
  - repeat apply Forall_cons_2; [|apply remoteBuilder_registers..|apply Forall_nil_2].
    intros s v s' old ids. unfold NewRemoteConfigBuilder. cbn [Build].
    destruct (remote_configData _ _ _) as [data|]; [|done]. intros [= <- <-] Hv [Ho Hds Hsec].
    split; [done..|]. right. exact (Hv _ eq_refl).
Qed.
Lemma remote_registers_known (o : operatorUtils W instanaAgentRemoteStatusManager) bs vs old
    (s : St W instanaAgentRemoteStatusManager) :
  Forall2 Builds bs vs → Forall remote_registers bs →
  Forall (keeps_known (remote_tracks old (identity <$> transformedAll o bs vs))) bs.
Proof.
  intros Hbs Hr. rewrite Forall_forall in *. intros b Hb s1 v s2 E Ht.
  apply (Hr b Hb s1 v s2 old _ E); [|done]. intros obj ->.
  rewrite <- (identity_transform (ou_transformations o) (ComponentName b) (IsNamespaced b) obj).
  apply list_elem_of_fmap_2, (transformedAll_intro o bs vs b obj s); [done..|].
  by apply (Builds_made bs vs b (Some obj) s1 s2).
Qed.

(** *** The shape of the objects *)
Ltac remote_fixed :=
  eapply makes_only_ret; [reflexivity|]; intros ?;
  repeat match goal with |- context [if ?b then _ else _] => destruct b end; intros [=]; subst; done.
Lemma remote_allBuilders_typed agent keysSecret backends :
  Forall (makes_only (W:=W) (X:=instanaAgentRemoteStatusManager) typed)
    (remote_allBuilders agent keysSecret backends).
Proof.
  unfold remote_allBuilders, getInstanaAgentRemoteDeployments. rewrite Forall_app, Forall_fmap. split.
  - apply Forall_true. intros b s o s'. unfold compose, RemoteDeployment_builder. cbn [Build].
    destruct (rd_isOmitted _); [done|]. by intros [= <- _].
  - repeat apply Forall_cons_2; try (by remote_fixed); [..|apply Forall_nil_2].
    + eapply makes_only_lift; [reflexivity|]. intros data s o s' _. by intros [= <- _].
    + eapply makes_only_ret; [reflexivity|]. intros o. destruct (RemoteUseContainersSecret agent); [|done].
      destruct (remote_buildContainerSecret _ _); [|done]. by intros [= <-].
Qed.
Lemma remote_identities_proper agent n :
  remote_Name agent ≠ "" →
  Forall (remote_proper agent) (replicate n (remote_deploymentIdentity agent) ++ remote_fixedIdentities agent).
Proof.
  intros Hn. apply Forall_app. split.
  - apply Forall_replicate. by split_and!.
  - unfold remote_fixedIdentities. repeat apply Forall_cons_2; [..|apply Forall_nil_2];
      (split_and!; simpl; [first [done|by apply nonempty_app]|done|discriminate|done]).
Qed.
End Builders.

(** ** A cluster that does what it is asked *)

(** As [cooperative], for a remote agent. *)
Record remote_cooperative {W} `{K8sApi W} `{ApiErrors} `{DependentsCodec}
    (C : option InstanaAgentRemote → W → Prop)
    (held : object_id → W → Prop) (data : ObjectKey → W → smap) (delay : Z) (key : ObjectKey) : Prop := {
  rco_obedient oa : obedient (C oa) held data delay;
  rco_agent agent w : C (Some agent) w →
    fst (k8sGet KInstanaAgentRemote key w) = inl agent ∧ remote_resource_key agent = key;
  rco_finalizers agent fs w : C (Some agent) w →
    let '(e, w') := k8sWrite (RPatchRemote (remote_withFinalizers fs (DefaultRemote agent))
                                (DefaultRemote agent)) w in
    e = None ∧ C (remote_stored (remote_withFinalizers fs agent)) w' ∧ same_objects held data w w';
  rco_status oa new old w : C oa w → remote_same_resource new old → remote_resource_key old = key →
    (∀ agent, oa = Some agent → remote_Status old = remote_Status agent) →
    let '(e, w') := k8sWrite (RPatchRemoteStatus new old) w in
    match oa with
    | Some agent => e = None ∧ C (Some (agent <| remote_Status := remote_Status new |>)) w'
    | None => is_Some e ∧ IsNotFound e = true ∧ C None w'
    end ∧ same_objects held data w w'
}.

(** The objects the builders make for the defaulted custom resource, with some
    secret of keys, and a cluster that holds them. *)
Definition remote_generation_of {W} `{K8sApi W} `{ApiErrors} `{Env} `{MapRange} `{Yaml} `{DependentsCodec}
    (agent : InstanaAgentRemote) (objects : list object) : Prop :=
  ∃ keysSecret vs,
    let builders := remote_allBuilders (W:=W) agent keysSecret (getRemoteSensorBackends agent) in
    Forall2 Builds builders vs ∧ objects = transformedAll (NewRemoteOperatorUtils agent) builders vs.
Definition remote_provisioned {W} `{K8sApi W} `{ApiErrors} `{Env} `{MapRange} `{Yaml} `{DependentsCodec}
    (held : object_id → W → Prop) (agent : InstanaAgentRemote) (w : W) : Prop :=
  ∃ objects, remote_generation_of (W:=W) agent objects ∧ ∀ obj, obj ∈ objects → held (identity obj) w.

Section RemoteConverge.
Context {W : Type} `{ClockLaws W} `{ApiErrors} `{Env} `{MapRangeLaws} `{Yaml} `{DependentsCodec}.
Context `{FinalizersLaws} `{Debug} `{Semver} `{StatusConditionsLaws}.
Context (C : option InstanaAgentRemote → W → Prop) (held : object_id → W → Prop) (data : ObjectKey → W → smap).
Context (delay : Z) (key : ObjectKey) (HC : remote_cooperative C held data delay key).
Notation M := (M W instanaAgentRemoteStatusManager).
Notation St := (St W instanaAgentRemoteStatusManager).
Notation unchanged := (unchanged held data).

(** *** Applying what the custom resource asks for *)
Section Steps.
Context (old : InstanaAgentRemote).
Notation I := (C (Some old)).
#[local] Instance remote_HI : obedient I held data delay := rco_obedient _ _ _ _ _ HC (Some old).
Notation obeys := (obeys I).

(** From [w] to [w'] a generation of objects of [agent] was applied, and the
    manager [x] knows of nothing else. *)
Definition remote_converged (agent : InstanaAgentRemote) (w w' : W) (x : instanaAgentRemoteStatusManager) : Prop :=
  ∃ objects, remote_generation_of (W:=W) agent objects ∧ remote_tracks old (identity <$> objects) x ∧
    applied_generation held data (remoteManagerOf agent) objects w w' ∧
    Forall (remote_proper agent ∘ identity) objects.

Lemma obeys_remote_applyResources agent keysSecret (s : St) :
  remote_Name agent ≠ "" → I (world s) →
  local s = remote_SetAgentOld old NewInstanaAgentRemoteStatusManager →
  obeys (remote_applyResources agent (NewRemoteOperatorUtils agent) keysSecret (getRemoteSensorBackends agent)) s
    (fun r s' => r = reconcileContinue ∧ remote_converged agent (world s) (world s') (local s')).
Proof.
  intros Hn Hs Hl. unfold remote_applyResources. rewrite remote_ApplyAll_eq.
  set (builders := remote_allBuilders agent keysSecret (getRemoteSensorBackends agent)).
  set (o := NewRemoteOperatorUtils agent : operatorUtils W instanaAgentRemoteStatusManager).
  destruct (makes_all o builders _ (remote_allBuilders_make agent keysSecret _)) as (vs & Hvs & Hsub).
  set (objects := transformedAll o builders vs) in *.
  assert (Hp : Forall (remote_proper agent ∘ identity) objects).
  { pose proof (remote_identities_proper agent (length (getRemoteSensorBackends agent)) Hn) as Hp.
    rewrite Forall_forall in Hp. rewrite Forall_forall. intros obj Ho. apply Hp.
    eapply elem_of_sublist; [|exact Hsub]. by apply list_elem_of_fmap_2. }
  assert (Hc : Forall complete objects).
  { rewrite Forall_forall in Hp |- *. intros obj Ho. split; [apply (Hp obj Ho)|].
    destruct (transformedAll_elem _ _ _ _ Hvs Ho) as (b & v & Hb & Hv & ->).
    pose proof (remote_allBuilders_typed (W:=W) agent keysSecret (getRemoteSensorBackends agent)) as Ht.
    rewrite Forall_forall in Ht. pose proof (makes_only_Builds _ _ _ s (Ht b Hb) Hv) as Hvt.
    unfold transform. by destruct v, (IsNamespaced b). }
  assert (Hrec : cm_id (remote_dependents_key agent) ∉ identity <$> objects).
  { intros (obj & E & Ho)%list_elem_of_fmap. rewrite Forall_forall in Hp.
    destruct (Hp obj Ho) as (_ & _ & Hne & _). by apply Hne. }
  eapply obeys_bind; [apply (obeys_ApplyAll I held data delay _ o
    (remote_tracks old (identity <$> objects)) (remoteManagerOf agent) builders vs s Hvs
    (remote_registers_known o builders vs old s Hvs (remote_allBuilders_register _ _ _)) Hs)|].
  { rewrite Hl. apply remote_tracks_new. } { done. } { done. }
  intros e s1 Hs1 (-> & Ht & Hg). apply obeys_ret; [done|]. split; [done|]. exists objects.
  split; [by exists keysSecret, vs|done].
Qed.

Lemma remote_converged_same agent w w1 w' w2 x :
  same_objects held data w w1 → remote_converged agent w1 w' x → same_objects held data w' w2 →
  remote_converged agent w w2 x.
Proof.
  intros Hso (objects & Ho & Ht & Hg & Hp) Hso'. exists objects.
  split_and!; [done..| |done]. by eapply applied_generation_same.
Qed.

Lemma obeys_remote_reconcileResources (s : St) :
  remote_Name old ≠ "" → I (world s) →
  local s = remote_SetAgentOld old NewInstanaAgentRemoteStatusManager →
  obeys (remote_reconcileResources (DefaultRemote old) (NewRemoteOperatorUtils (DefaultRemote old))) s
    (fun r s' => r = reconcileSuccess noRequeue ∧
       remote_converged (DefaultRemote old) (world s) (world s') (local s')).
Proof.
  intros Hn Hs Hl. unfold remote_reconcileResources.
  eapply (obeys_bind _ _ _ _ (fun _ s' => unchanged s s')).
  { unfold remote_getKeysSecret. destruct (negb _); [|by apply obeys_ret].
    eapply obeys_bind; [by apply (obeys_doGet _ _ _ _ _ KSecret)|].
    intros r s1 Hs1 (_ & Hu & _). by apply obeys_ret. }
  intros keysSecret s1 Hs1 [Hl1 Ho1].
  eapply obeys_bind; [apply obeys_remote_applyResources; [done..|congruence]|].
  intros r s2 Hs2 [-> Hc]. cbn [suppliesReconcileResult reconcileContinue rr_res].
  apply obeys_ret; [done|]. split; [done|]. by eapply remote_converged_same.
Qed.

End Steps.

(** *** Telling the status *)
Section Status.
Context (oa : option InstanaAgentRemote) (old : InstanaAgentRemote).
Notation I := (C oa).
#[local] Instance remote_HI' : obedient I held data delay := rco_obedient _ _ _ _ _ HC oa.
Notation obeys := (obeys I).

Lemma reads_remote_status ids (s : St) :
  I (world s) → remote_tracks old ids (local s) → (∀ id, id ∈ ids → held id (world s)) →
  reads I held data (InstanaAgentRemoteWithUpdatedStatus (local s) old None) s.
Proof.
  intros Hs Ht Hk. unfold InstanaAgentRemoteWithUpdatedStatus, reads.
  assert (Hset : ∀ {B} c new (k : InstanaAgentRemote → M B) s1 Q, I (world s1) → unchanged s s1 →
    (∀ new s2, I (world s2) → unchanged s s2 → obeys (k new) s2 Q) →
    obeys (remote_setConditionAndFireEvent new c ≫= k) s1 Q).
  { intros B c new k s1 Q Hs1 Hu Hkk. eapply (obeys_bind _ _ _ _ (fun _ s' => unchanged s1 s')).
    - eexists _, _. split; [reflexivity|]. by split.
    - intros n s2 Hs2 Hu2. apply Hkk; [done|]. by eapply unchanged_trans. }
  eapply (obeys_bind _ _ _ _ (fun r s' => Result.err r = None ∧ unchanged s s')).
  { unfold remote_getConfigSecret. destruct (rtr_secret _ _ _ Ht) as [->|Hid]; [by apply reads_ret|].
    destruct (objectKeyHasNoName _); [by apply reads_ret|].
    apply (reads_info I held data delay _ KSecret _ _ _ (fun x => toResourceInfo (sec_Meta x)) s
      (fun _ => eq_refl) Hs eq_refl). by apply Hk. }
  intros r1 s1 Hs1 [E1 Hu1].
  eapply (obeys_bind _ _ _ _ (fun r s' => Result.err r = None ∧ unchanged s s')).
  { unfold remote_getDeployment. destruct (remote_agentDeployments (local s)) as [|k [|]] eqn:E;
      [by apply obeys_ret| |by apply obeys_ret].
    eapply obeys_mono.
    - apply (reads_info I held data delay _ KDeployment k _ _ (fun d => toResourceInfo (dp_Meta d)) s1
        (fun _ => eq_refl) Hs1 eq_refl).
      apply Hu1, Hk, (rtr_deployments _ _ _ Ht). rewrite E. by left.
    - intros r s' _ [? Hu]. split; [done|]. by eapply unchanged_trans. }
  intros r2 s2 Hs2 [E2 Hu2].
  apply Hset; [done..|]. intros n3 s3 Hs3 Hu3.
  eapply (obeys_bind _ _ _ _ (fun r s' => Result.err r = None ∧ unchanged s s')).
  { unfold remote_getAllAgentsAvailableCondition.
    eapply obeys_bind; [apply (obeys_readAll I held data delay _ KDeployment (GVK "apps" "v1" "Deployment"));
      [done..|]|].
    - intros k Hin. by apply Hu3, Hk, (rtr_deployments _ _ _ Ht).
    - intros r s' Hs' [[objects ->] Hu]. apply obeys_ret; [done|]. split; [done|]. by eapply unchanged_trans. }
  intros r4 s4 Hs4 [E4 Hu4]. apply Hset; [done..|]. intros n5 s5 Hs5 Hu5.
  apply obeys_ret; [done|]. split; [|done]. cbn [Result.err]. by rewrite !OnFailure_none by done.
Qed.

(** The end of a reconciliation: the update has an error only when the resource
    is gone. *)
Lemma remote_UpdateAgentStatus_cooperates ids (s : St) :
  C oa (world s) → remote_resource_key old = key →
  (∀ a, oa = Some a → remote_Status old = remote_Status a) →
  remote_tracks old ids (local s) → (∀ id, id ∈ ids → held id (world s)) →
  ∃ new e s', remote_UpdateAgentStatus None s = (Ret e, s') ∧
    C ((fun a : InstanaAgentRemote => a <| remote_Status := remote_Status new |>) <$> oa) (world s') ∧
    same_objects held data (world s) (world s') ∧ (e = None ↔ oa ≠ None).
Proof.
  intros Hs Hkey Hst Ht Hk.
  destruct (reads_remote_status ids s Hs Ht Hk) as (res & s1 & E & Hs1 & Hr & [Hl1 Hso1]).
  assert (Hsame : remote_same_resource (Result.res res) old).
  { destruct (emits_run _ _ _ _ _ (InstanaAgentRemoteWithUpdatedStatus_emits (local s) old None) E)
      as (t & _ & _ & Hrep & _). apply (rrp_fields _ _ _ _ _ Hrep). }
  pose proof (rco_status _ _ _ _ _ HC oa (Result.res res) old _ Hs1 Hsame Hkey Hst) as Hp.
  destruct (k8sWrite (RPatchRemoteStatus (Result.res res) old) (world s1)) as [e w] eqn:Ew.
  destruct Hp as (Hp & Hso).
  exists (Result.res res). eexists _, (MkSt w _ _). split; [|split; [|split; [exact (same_objects_trans _ _ _ _ _ Hso1 Hso)|]]].
  - unfold remote_UpdateAgentStatus, catching. rewrite (bind_Ret getLocal _ s _ s eq_refl).
    rewrite (rtr_old _ _ _ Ht), (bind_Ret _ _ _ _ _ E), (OnFailure_none res) by done.
    rewrite (bind_Ret _ _ _ _ _ (doWrite_eq _ _ _ _ Ew)). reflexivity.
  - simpl. destruct oa; naive_solver.
  - destruct oa as [a|]; [by destruct Hp as [-> _]|]. by destruct Hp as [[err ->] _].
Qed.
End Status.

(** *** The whole reconciliation *)
Lemma RemoteReconcile_from old res (P : St → Prop) (Q : option error → St → Prop) (s : St) :
  C (Some old) (world s) →
  (∀ s2, C (Some old) (world s2) → local s2 = NewInstanaAgentRemoteStatusManager →
     same_objects held data (world s) (world s2) →
     ∃ s3, reconcileRemote old s2 = (Ret (reconcileSuccess res), s3) ∧ P s3) →
  (∀ s3, P s3 → ∃ e s4, remote_UpdateAgentStatus None s3 = (Ret e, s4) ∧ Q e s4) →
  ∃ err e s4, RemoteReconcile key s = (Ret (res, err), s4) ∧ (err = None ↔ e = None) ∧ Q e s4.
Proof.
  intros Hs Hrun Hstatus. pose proof (rco_obedient _ _ _ _ _ HC (Some old)) as HI.
  set (s1 := MkSt (world s) (trace s) NewInstanaAgentRemoteStatusManager).
  destruct (obeys_doGet _ _ _ _ HI KInstanaAgentRemote key s1 Hs) as (r & s2 & E2 & Hs2 & -> & [Hl2 Hso2] & _).
  rewrite (proj1 (rco_agent _ _ _ _ _ HC old _ (Hs : C (Some old) (world s1)))) in E2.
  destruct (Hrun s2 Hs2 Hl2 Hso2) as (s3 & E3 & Hp). destruct (Hstatus s3 Hp) as (e & s4 & E4 & Hq).
  exists (match e with Some _ => MultiErrorBuilder.Build (MultiErrorBuilder.New [None; e]) | None => None end), e, s4.
  split; [|by destruct e].
  unfold RemoteReconcile. rewrite (bind_Ret (modifyLocal (fun _ => NewInstanaAgentRemoteStatusManager)) _ s tt s1 eq_refl).
  assert (Ep : remote_reconcile key s1 = (Ret (reconcileSuccess res), s3)).
  { unfold remote_reconcile, getInstanaAgentRemote.
    rewrite (bind_Ret _ _ s1 (Some old, reconcileContinue) s2); [exact E3|].
    by rewrite (bind_Ret _ _ _ _ _ E2). }
  unfold deferring. rewrite (bind_Ret _ _ _ _ _ Ep). simpl. unfold statusError.
  rewrite (bind_Ret _ _ _ _ _ E4). by destruct e.
Qed.

(** What follows the setting up of the status manager. *)
Lemma reconcileRemote_eq old (s : St) s1 r s2 :
  local s = NewInstanaAgentRemoteStatusManager →
  s1 = MkSt (world s) (trace s) (remote_SetAgentOld old NewInstanaAgentRemoteStatusManager) →
  remote_handleDeletion (NewRemoteOperatorUtils (DefaultRemote old)) (DefaultRemote old) s1 = (Ret r, s2) →
  reconcileRemote old s =
    (if suppliesReconcileResult r then (Ret r, s2)
     else
      (addFinalizerRes ← remote_addOrUpdateFinalizers (DefaultRemote old);
       if suppliesReconcileResult addFinalizerRes then mret addFinalizerRes
       else remote_reconcileResources (DefaultRemote old) (NewRemoteOperatorUtils (DefaultRemote old))) s2).
Proof.
  intros Hl -> E. unfold reconcileRemote.
  rewrite (bind_Ret (modifyLocal (remote_SetAgentOld old)) _ s tt _ ltac:(unfold modifyLocal; by rewrite Hl)).
  rewrite (bind_Ret _ _ _ _ _ E). by destruct (suppliesReconcileResult r).
Qed.
(** The command the deletion starts with. *)
Lemma remote_command old (s : St) : C (Some old) (world s) →
  ∃ s', remote_cleanupNodeLabels s = (Ret tt, s') ∧ C (Some old) (world s') ∧ unchanged s s'.
Proof.
  intros Hs. pose proof (rco_obedient _ _ _ _ _ HC (Some old)) as HI.
  destruct (ob_command _ _ _ _ HI "kubectl label node --all pool-" _ Hs) as [Hi Hso].
  unfold remote_cleanupNodeLabels. destruct (runCommand _ (world s)) as [e w] eqn:E.
  exists (MkSt w (trace s ++ [ECommand "kubectl label node --all pool-" e]) (local s)).
  split; [|by split]. unfold call, mbind, M_bind. by rewrite E.
Qed.
Lemma remote_handleDeletion_alive old o (s : St) : C (Some old) (world s) →
  om_DeletionTimestamp (remote_Meta old) = None →
  ∃ s', remote_handleDeletion o (DefaultRemote old) s = (Ret reconcileContinue, s') ∧
    C (Some old) (world s') ∧ unchanged s s'.
Proof.
  intros Hs Hd. destruct (remote_command old s Hs) as (s' & E & Hs' & Hu). exists s'.
  unfold remote_handleDeletion. rewrite (bind_Ret _ _ _ _ _ E).
  change (om_DeletionTimestamp (remote_Meta (DefaultRemote old))) with (om_DeletionTimestamp (remote_Meta old)).
  by rewrite Hd.
Qed.

(** The finalizer is there, and the resource is not being deleted. *)
Definition remote_settled (a : InstanaAgentRemote) : Prop :=
  finalizerV3 ∈ remoteFinalizers a ∧ om_DeletionTimestamp (remote_Meta a) = None.
Lemma RemoteReconcile_settled a (s : St) :
  remote_settled a → remote_Name a ≠ "" → C (Some a) (world s) →
  ∃ status s' objects, RemoteReconcile key s = (Ret (noRequeue, None), s') ∧
    C (Some (a <| remote_Status := status |>)) (world s') ∧
    remote_generation_of (W:=W) (DefaultRemote a) objects ∧
    applied_generation held data (remoteManagerOf (DefaultRemote a)) objects (world s) (world s') ∧
    Forall (remote_proper (DefaultRemote a) ∘ identity) objects.
Proof.
  intros [Hv3 Hd] Hn Hs.
  destruct (RemoteReconcile_from a noRequeue
    (fun s3 => C (Some a) (world s3) ∧ remote_converged a (DefaultRemote a) (world s) (world s3) (local s3))
    (fun e s' => e = None ∧ ∃ status objects, C (Some (a <| remote_Status := status |>)) (world s') ∧
       remote_generation_of (W:=W) (DefaultRemote a) objects ∧
       applied_generation held data (remoteManagerOf (DefaultRemote a)) objects (world s) (world s') ∧
       Forall (remote_proper (DefaultRemote a) ∘ identity) objects) s Hs)
    as (err & e & s' & E & He & -> & status & objects & ?).
  - intros s2 Hs2 Hl2 Hso. set (s2' := MkSt (world s2) (trace s2) (remote_SetAgentOld a NewInstanaAgentRemoteStatusManager)).
    destruct (remote_handleDeletion_alive a (NewRemoteOperatorUtils (DefaultRemote a)) s2' Hs2 Hd)
      as (s3 & E3 & Hs3 & [Hl3 Hso3]).
    destruct (obeys_remote_reconcileResources a s3 Hn Hs3 Hl3) as (r & s4 & E4 & Hs4 & -> & Hc).
    exists s4. split; [|split; [done|]].
    + rewrite (reconcileRemote_eq a s2 s2' _ _ Hl2 eq_refl E3). cbn [suppliesReconcileResult reconcileContinue rr_res].
      rewrite (bind_Ret _ _ s3 reconcileContinue s3); [exact E4|]. unfold remote_addOrUpdateFinalizers.
      change (remoteFinalizers (DefaultRemote a)) with (remoteFinalizers a).
      pose proof (AddFinalizer_changed finalizerV3 (remoteFinalizers a)) as Ha.
      destruct (AddFinalizer _ _) as [fs [|]]; simpl in Ha; [by destruct Ha as [Ha _]; destruct Ha|done].
    + eapply remote_converged_same; [exact (same_objects_trans _ _ _ _ _ Hso Hso3)|exact Hc|done].
  - intros s3 [Hs3 (objects & Hgen & Ht & Hg & Hp)].
    destruct (remote_UpdateAgentStatus_cooperates (Some a) a _ s3 Hs3
      (proj2 (rco_agent _ _ _ _ _ HC a _ Hs)) ltac:(congruence) Ht)
      as (new & e & s4 & E & Hc & Hso & He).
    { intros id (obj & -> & Ho)%list_elem_of_fmap. by apply (ag_made _ _ _ _ _ _ Hg). }
    exists e, s4. split; [done|]. split; [by apply He|]. exists (remote_Status new), objects.
    split; [exact Hc|]. split; [exact Hgen|]. split; [|exact Hp].
    eapply applied_generation_same; [|exact Hg|exact Hso]. done.
  - exists status, s', objects. split; [|done]. rewrite E. by destruct He as [_ ->].
Qed.

(** Then the cluster is provisioned. *)
Lemma remote_generation_provisioned agent d objects w w' :
  remote_generation_of (W:=W) agent objects → applied_generation held data d objects w w' →
  remote_provisioned held agent w'.
Proof. intros Hgen Hg. exists objects. split; [done|]. intros obj. apply (ag_made _ _ _ _ _ _ Hg). Qed.

(** [n + 1] reconciliations, and what the last of them answers. *)
Fixpoint remote_reconcileTimes (n : nat) : M (ctrlResult * option error) :=
  match n with
  | O => RemoteReconcile key
  | S n => _ ← RemoteReconcile key; remote_reconcileTimes n
  end.
Lemma remote_settled_status a status : remote_settled a → remote_settled (a <| remote_Status := status |>).
Proof. by intros [? ?]. Qed.
Lemma remote_reconcileTimes_settled n : ∀ a (s : St),
  remote_settled a → remote_Name a ≠ "" → C (Some a) (world s) →
  ∃ status s', remote_reconcileTimes n s = (Ret (noRequeue, None), s') ∧
    remote_provisioned held (DefaultRemote (a <| remote_Status := status |>)) (world s').
Proof.
  induction n as [|n IH]; intros a s Hset Hn Hs;
    destruct (RemoteReconcile_settled a s Hset Hn Hs) as (status & s1 & objects & E & Hc & Hgen & Hg & _);
    pose proof (remote_generation_provisioned _ _ _ _ _ Hgen Hg) as Hp; simpl.
  - exists (remote_Status a), s1. split; [exact E|]. by destruct a.
  - rewrite (bind_Ret _ _ _ _ _ E).
    destruct (IH _ s1 (remote_settled_status a status Hset) Hn Hc) as (status' & s2 & E2 & Hp2).
    by exists status', s2.
Qed.

(** A new resource gets the finalizer, and another reconciliation. *)
Definition remote_fresh (a : InstanaAgentRemote) : Prop :=
  finalizerV3 ∉ remoteFinalizers a ∧ om_DeletionTimestamp (remote_Meta a) = None.
Lemma RemoteReconcile_fresh a (s : St) : remote_fresh a → C (Some a) (world s) →
  ∃ fs status s', RemoteReconcile key s = (Ret (requeue, None), s') ∧ finalizerV3 ∈ fs ∧
    C (Some ((remote_withFinalizers fs a) <| remote_Status := status |>)) (world s') ∧
    same_objects held data (world s) (world s').
Proof.
  intros [Hv3 Hd] Hs.
  destruct (RemoteReconcile_from a requeue
    (fun s3 => ∃ fs, finalizerV3 ∈ fs ∧ C (Some (remote_withFinalizers fs a)) (world s3) ∧
       local s3 = remote_SetAgentOld a NewInstanaAgentRemoteStatusManager ∧
       same_objects held data (world s) (world s3))
    (fun e s4 => e = None ∧ ∃ fs status, finalizerV3 ∈ fs ∧
       C (Some ((remote_withFinalizers fs a) <| remote_Status := status |>)) (world s4) ∧
       same_objects held data (world s) (world s4)) s Hs)
    as (err & e & s' & E & He & -> & fs & status & ?).
  - intros s2 Hs2 Hl2 Hso. set (s2' := MkSt (world s2) (trace s2) (remote_SetAgentOld a NewInstanaAgentRemoteStatusManager)).
    destruct (remote_handleDeletion_alive a (NewRemoteOperatorUtils (DefaultRemote a)) s2' Hs2 Hd)
      as (s3 & E3 & Hs3 & [Hl3 Hso3]).
    pose proof (AddFinalizer_changed finalizerV3 (remoteFinalizers a)) as Hc.
    pose proof (AddFinalizer_elem finalizerV3 (remoteFinalizers a)) as He.
    destruct (AddFinalizer finalizerV3 (remoteFinalizers a)) as [fs added] eqn:Ea. simpl in Hc, He.
    rewrite (proj2 Hc Hv3) in Ea.
    pose proof (rco_finalizers _ _ _ _ _ HC a fs _ Hs3) as Hp.
    destruct (k8sWrite _ (world s3)) as [e w] eqn:Ew in Hp. destruct Hp as (-> & Hj & Hso4).
    apply doWrite_eq in Ew. revert Ew. set (s4 := MkSt w _ _). intros Ew. exists s4. split; [|exists fs; split_and!].
    + rewrite (reconcileRemote_eq a s2 s2' _ _ Hl2 eq_refl E3). cbn [suppliesReconcileResult reconcileContinue rr_res].
      rewrite (bind_Ret _ _ s3 (reconcileSuccess requeue) s4); [reflexivity|]. unfold remote_addOrUpdateFinalizers.
      change (remoteFinalizers (DefaultRemote a)) with (remoteFinalizers a). rewrite Ea. unfold remote_updateAgent.
      by rewrite (bind_Ret _ _ _ _ _ Ew).
    + apply He. by left.
    + revert Hj. unfold remote_stored.
      change (om_DeletionTimestamp (remote_Meta (remote_withFinalizers fs a))) with (om_DeletionTimestamp (remote_Meta a)).
      by rewrite Hd.
    + exact Hl3.
    + exact (same_objects_trans _ _ _ _ _ (same_objects_trans _ _ _ _ _ Hso Hso3) Hso4).
  - intros s3 (fs & Hin & Hs3 & Hl & Hso).
    destruct (remote_UpdateAgentStatus_cooperates (Some (remote_withFinalizers fs a)) a [] s3 Hs3
      (proj2 (rco_agent _ _ _ _ _ HC a _ Hs)))
      as (new & e & s4 & E & Hc & Hso4 & He); [by intros ? [= <-]|rewrite Hl; apply remote_tracks_new|by intros ? ?%elem_of_nil|].
    exists e, s4. split; [exact E|]. split; [by apply He|]. exists fs, (remote_Status new).
    split; [done|]. split; [exact Hc|]. exact (same_objects_trans _ _ _ _ _ Hso Hso4).
  - exists fs, status, s'. split; [|done]. rewrite E. by destruct He as [_ ->].
Qed.

(** A deletion: what is recorded is deleted, and the finalizer dropped; if it
    was the last the resource is gone, which the status update reports. *)
Definition remote_leaving (a : InstanaAgentRemote) : Prop :=
  finalizerV3 ∈ remoteFinalizers a ∧ om_DeletionTimestamp (remote_Meta a) ≠ None.
Lemma RemoteReconcile_leaving a (s : St) :
  remote_leaving a → C (Some a) (world s) → held (cm_id (remote_dependents_key a)) (world s) →
  ∃ left err s', RemoteReconcile key s = (Ret (requeue, err), s') ∧ C left (world s') ∧
    (∀ a', left = Some a' → finalizerV3 ∉ remoteFinalizers a') ∧ (err = None ↔ left ≠ None) ∧
    (left = None ↔ ∀ f, f ∈ remoteFinalizers a → f = finalizerV3) ∧
    cleaned held data (remoteManagerOf a) [] (world s) (world s').
Proof.
  intros [Hv3 Hd] Hs Hrec. pose proof (rco_obedient _ _ _ _ _ HC (Some a)) as HI.
  destruct (RemoteReconcile_from a requeue
    (fun s3 => ∃ fs, (∀ f, f ∈ fs ↔ f ≠ finalizerV3 ∧ f ∈ remoteFinalizers a) ∧
       C (remote_stored (remote_withFinalizers fs a)) (world s3) ∧
       local s3 = remote_SetAgentOld a NewInstanaAgentRemoteStatusManager ∧
       cleaned held data (remoteManagerOf a) [] (world s) (world s3))
    (fun e s4 => ∃ fs left, (∀ f, f ∈ fs ↔ f ≠ finalizerV3 ∧ f ∈ remoteFinalizers a) ∧ C left (world s4) ∧
       (∀ a', left = Some a' → remoteFinalizers a' = fs) ∧ (e = None ↔ left ≠ None) ∧ (left = None ↔ fs = []) ∧
       cleaned held data (remoteManagerOf a) [] (world s) (world s4)) s Hs)
    as (err & e & s' & E & He & fs & left & Hfs & Hl & Ha & Hn & Hnil & Hcl).
  - intros s2 Hs2 Hl2 Hso.
    set (s2' := MkSt (world s2) (trace s2) (remote_SetAgentOld a NewInstanaAgentRemoteStatusManager)).
    destruct (remote_command a s2' Hs2) as (s3 & E3 & Hs3 & [Hl3 Hso3]).
    pose proof (same_objects_trans _ _ _ _ _ Hso Hso3) as Hso'.
    destruct (obeys_same (C (Some a)) _ _ s3 _
      (RemoteCleanup_same (NewRemoteDependentLifecycleManager (DefaultRemote a)) [])
      (obeys_cleanupOnce (C (Some a)) held data delay HI (remoteManagerOf (DefaultRemote a)) [] s3 Hs3
        (proj2 (proj1 Hso' _) Hrec))) as (e & s4 & E4 & Hs4 & -> & Hl4 & Hcl4).
    pose proof (RemoveFinalizer_changed finalizerV3 (remoteFinalizers a)) as Hc.
    pose proof (RemoveFinalizer_elem finalizerV3 (remoteFinalizers a)) as He.
    destruct (RemoveFinalizer finalizerV3 (remoteFinalizers a)) as [fs removed] eqn:Ea. simpl in Hc, He.
    rewrite (proj2 Hc Hv3) in Ea.
    pose proof (rco_finalizers _ _ _ _ _ HC a fs _ Hs4) as Hp.
    destruct (k8sWrite _ (world s4)) as [e w] eqn:Ew in Hp. destruct Hp as (-> & Hj & Hso5).
    apply doWrite_eq in Ew. revert Ew. set (s5 := MkSt w _ _). intros Ew. exists s5.
    split; [|exists fs; split_and!; [exact He|exact Hj|by simpl; rewrite Hl4, Hl3|]].
    + rewrite (reconcileRemote_eq a s2 s2' (reconcileSuccess requeue) s5 Hl2 eq_refl); [done|].
      unfold remote_handleDeletion. rewrite (bind_Ret _ _ _ _ _ E3).
      change (om_DeletionTimestamp (remote_Meta (DefaultRemote a))) with (om_DeletionTimestamp (remote_Meta a)).
      destruct (om_DeletionTimestamp (remote_Meta a)) as [ts|]; [|done].
      rewrite (bind_Ret _ _ s3 (reconcileSuccess requeue) s5); [reflexivity|].
      unfold remote_cleanupDependents. change (remoteFinalizers (DefaultRemote a)) with (remoteFinalizers a).
      rewrite Ea. cbn [negb]. unfold remote_DeleteAll. cbn [NewRemoteOperatorUtils ou_manager remoteManager dlm_Cleanup].
      rewrite (bind_Ret _ _ _ _ _ E4). unfold remote_updateAgent. by rewrite (bind_Ret _ _ _ _ _ Ew).
    + eapply cleaned_same; [exact Hso'|exact Hcl4|exact Hso5].
  - intros s3 (fs & Hfs & Hs3 & Hl & Hcl). set (left := remote_stored (remote_withFinalizers fs a)) in *.
    assert (Hleft : ∀ a', left = Some a' → a' = remote_withFinalizers fs a).
    { unfold left, remote_stored. intros a'. repeat case_match; congruence. }
    destruct (remote_UpdateAgentStatus_cooperates left a [] s3 Hs3 (proj2 (rco_agent _ _ _ _ _ HC a _ Hs)))
      as (new & e & s4 & E & Hc & Hso & He);
      [by intros a' ->%Hleft|rewrite Hl; apply remote_tracks_new|by intros ? ?%elem_of_nil|].
    exists e, s4. split; [exact E|]. exists fs. eexists. split; [exact Hfs|]. split; [exact Hc|].
    split; [by intros a' (a2 & ->%Hleft & ->)%fmap_Some|].
    rewrite fmap_None. split; [|split].
    + rewrite He. by destruct left.
    + unfold left, remote_stored. change (remoteFinalizers (remote_withFinalizers fs a)) with fs.
      change (om_DeletionTimestamp (remote_Meta (remote_withFinalizers fs a))) with (om_DeletionTimestamp (remote_Meta a)).
      by destruct (om_DeletionTimestamp (remote_Meta a)), fs.
    + eapply cleaned_same; [by split|exact Hcl|exact Hso].
  - exists left, err, s'. split_and!; [exact E|done| |by rewrite He| |done].
    + intros a' Ea. rewrite (Ha a' Ea), Hfs. tauto.
    + rewrite Hnil. split.
      * intros -> f Hf. destruct (decide (f = finalizerV3)); [done|]. exfalso. by eapply not_elem_of_nil, Hfs.
      * intros Hall. apply elem_of_nil_inv. intros f [Hne Hf]%Hfs. by apply Hne, Hall.
Qed.
End RemoteConverge.

(** ** The executable cluster cooperates *)
Section Cooperates.
Context (key : ObjectKey) (C : option InstanaAgentRemote → store → Prop).
Context (HC : ∀ oa s, C oa s → sane s ∧ st_remotes s key = oa).
Context (HC' : ∀ oa oa' s s', C oa s → sane s' → remote_others_same key s s' → st_remotes s' key = oa' → C oa' s').

Lemma patched_remote f s a : C (Some a) s →
  (∀ a', f a = Some a' → remote_resource_key a' = remote_resource_key a) →
  let '(e, s') := patch_remote key f s in e = None ∧ C (f a) s' ∧ same_objects has contents s s'.
Proof.
  intros Hw Hf. destruct (HC _ _ Hw) as [Hs Ha]. pose proof (sane_remotes _ Hs _ _ Ha) as Hk. rewrite Hk in Hf.
  pose proof (patch_remote_of key f s a Hs Ha Hf) as Hq. destruct (patch_remote key f s) as [e s'].
  destruct Hq as (? & ? & ? & Ho & ?). split; [done|]. split; [|done]. by eapply HC'.
Qed.
Lemma store_remote_cooperative : remote_cooperative C has contents 0 key.
Proof.
  split.
  - intros oa. apply store_obedient; [by intros s [Hs _]%HC|]. intros s s' Hs Hs' Hr.
    destruct (same_remote_others key s s' Hr) as [Ho Hk]. eapply HC'; [done..|]. rewrite Hk. by apply HC.
  - intros a w [Hs Ha]%HC. simpl. rewrite Ha. split; [done|]. exact (sane_remotes _ Hs _ _ Ha).
  - intros a fs w Hw. destruct (HC _ _ Hw) as [Hs Ha]. pose proof (sane_remotes _ Hs _ _ Ha) as Hk. simpl.
    change (remote_resource_key (remote_withFinalizers fs (DefaultRemote a))) with (remote_resource_key a). rewrite Hk.
    change (remoteFinalizers (remote_withFinalizers fs (DefaultRemote a))) with fs.
    apply (patched_remote (fun a => remote_stored (remote_withFinalizers fs a))); [done|].
    intros a' E%remote_stored_key. exact E.
  - intros oa new old w Hw (_ & _ & Hm & _) Hk _. simpl.
    assert (Hk' : remote_resource_key new = key)
      by (rewrite <- Hk; unfold remote_resource_key, remote_Name, remote_Namespace; by rewrite Hm).
    rewrite Hk'. destruct oa as [a|].
    + pose proof (patched_remote (fun a => Some (a <| remote_Status := remote_Status new |>)) w a Hw) as Hp.
      destruct (patch_remote _ _ w) as [e w']. destruct Hp as (? & ? & ?); [by intros a' [= <-]|done].
    + unfold patch_remote. rewrite (proj2 (HC _ _ Hw)). split; [|done]. split; [by eexists|done].
Qed.
End Cooperates.

(** ** Properties *)

(** A store with one remote agent and these objects. *)
Definition remote_store (a : InstanaAgentRemote) (ids : list object_id) : store :=
  {| st_time := 0; st_held := ids; st_data := fun _ => ∅; st_agents := fun _ => None;
     st_remotes := fun k => if decide (k = remote_resource_key a) then Some a else None |}.
Definition remote_store_start a ids : St store instanaAgentRemoteStatusManager :=
  MkSt (remote_store a ids) [] NewInstanaAgentRemoteStatusManager.
Definition one_remote (oa : option InstanaAgentRemote) (s : store) : Prop :=
  sane s ∧ st_remotes s remote_key = oa.
Lemma one_remote_closed oa oa' s s' :
  one_remote oa s → sane s' → remote_others_same remote_key s s' → st_remotes s' remote_key = oa' → one_remote oa' s'.
Proof. by split. Qed.
Definition one_remote_cooperative : remote_cooperative one_remote has contents 0 remote_key :=
  store_remote_cooperative remote_key one_remote (fun _ _ Hs => Hs) one_remote_closed.
Lemma remote_store_one a ids :
  remote_resource_key a = remote_key → one_remote (Some a) (remote_store a ids).
Proof.
  intros Hk. split; [split; simpl|].
  - done.
  - intros k a'. case_decide; [by intros [= <-]|done].
  - done.
  - simpl. by rewrite decide_True.
Qed.
Lemma example_remote_fresh : remote_fresh example_remote.
Proof. split; [by intros ?%elem_of_nil|done]. Qed.

(** C16: on a cluster that does what it is asked a new remote agent gets there:
    the first reconciliation adds the finalizer and asks for another, every
    later one succeeds and leaves the cluster with all objects the builders
    make for the custom resource, whose spec is unchanged. *)
Theorem remote_reconciliations_converge {W} `{ClockLaws W} `{ApiErrors} `{Env} `{MapRangeLaws} `{Yaml}
    `{DependentsCodec} `{FinalizersLaws} `{Debug} `{Semver} `{StatusConditionsLaws}
    (C : option InstanaAgentRemote → W → Prop) held data delay key agent
    (s : St W instanaAgentRemoteStatusManager) :
  remote_cooperative C held data delay key →
  remote_fresh agent → remote_Name agent ≠ "" → C (Some agent) (world s) →
  ∃ s1, RemoteReconcile key s = (Ret (requeue, None), s1) ∧
    ∀ n, ∃ agent' s2, remote_reconcileTimes key n s1 = (Ret (noRequeue, None), s2) ∧
      remote_Spec agent' = remote_Spec agent ∧ remote_provisioned held (DefaultRemote agent') (world s2).
Proof.
  intros HC Hf Hn Hs.
  destruct (RemoteReconcile_fresh C held data delay key HC agent s Hf Hs) as (fs & status & s1 & E & Hv3 & Hc & _).
  exists s1. split; [exact E|]. intros n.
  destruct (remote_reconcileTimes_settled C held data delay key HC n _ s1
    (remote_settled_status (remote_withFinalizers fs agent) status (conj Hv3 (proj2 Hf))) Hn Hc)
    as (status' & s2 & E2 & Hp).
  eexists; exists s2. split; [exact E2|]. split; [|exact Hp]. reflexivity.
Qed.

Lemma remote_reconciliations_converge_witness :
  ∃ s1, RemoteReconcile remote_key (remote_store_start example_remote []) = (Ret (requeue, None), s1) ∧
    ∀ n, ∃ agent' s2, remote_reconcileTimes remote_key n s1 = (Ret (noRequeue, None), s2) ∧
      remote_Spec agent' = remote_Spec example_remote ∧ remote_provisioned has (DefaultRemote agent') (world s2).
Proof.
  apply (remote_reconciliations_converge one_remote has contents 0 remote_key example_remote
    (remote_store_start example_remote []) one_remote_cooperative example_remote_fresh);
    [done|by apply remote_store_one].
Defined.

(** C17: the deletion of a remote agent on such a cluster: one reconciliation
    deletes exactly what is recorded, keeps the record, and drops the
    finalizer.  With it gone as the last one the resource is gone, too, and
    only then the reconciliation ends in an error: that of the status, which is
    written after that. *)
Theorem remote_deletion {W} `{ClockLaws W} `{ApiErrors} `{Env} `{MapRangeLaws} `{Yaml}
    `{DependentsCodec} `{FinalizersLaws} `{Debug} `{Semver} `{StatusConditionsLaws}
    (C : option InstanaAgentRemote → W → Prop) held data delay key agent
    (s : St W instanaAgentRemoteStatusManager) :
  remote_cooperative C held data delay key →
  remote_leaving agent → C (Some agent) (world s) → held (cm_id (remote_dependents_key agent)) (world s) →
  ∃ left err s', RemoteReconcile key s = (Ret (requeue, err), s') ∧ C left (world s') ∧
    (∀ a, left = Some a → finalizerV3 ∉ remoteFinalizers a) ∧
    (left = None ↔ ∀ f, f ∈ remoteFinalizers agent → f = finalizerV3) ∧ (err = None ↔ left ≠ None) ∧
    ∀ id, held id (world s') ↔ id = cm_id (remote_dependents_key agent) ∨
      held id (world s) ∧ ¬ listed (data (remote_dependents_key agent) (world s)) id.
Proof.
  intros HC Hf Hs Hrec.
  destruct (RemoteReconcile_leaving C held data delay key HC agent s Hf Hs Hrec)
    as (left & err & s' & E & Hl & Ha & He & Hn & [Hh _ _]).
  exists left, err, s'. split_and!; [done..|]. intros id. rewrite Hh. change (identity <$> []) with (@nil object_id).
  pose proof (not_elem_of_nil id). unfold remote_dependents_key. tauto.
Qed.

Definition leaving_remote : InstanaAgentRemote :=
  managed_remote <| remote_Meta ::= fun m => m <| om_DeletionTimestamp := Some 1%Z |> |>.
Definition leaving_store : St store instanaAgentRemoteStatusManager :=
  remote_store_start leaving_remote [cm_id (remote_dependents_key leaving_remote)].
Lemma remote_deletion_witness :
  ∃ left err s', RemoteReconcile remote_key leaving_store = (Ret (requeue, err), s') ∧ one_remote left (world s') ∧
    (∀ a, left = Some a → finalizerV3 ∉ remoteFinalizers a) ∧
    (left = None ↔ ∀ f, f ∈ remoteFinalizers leaving_remote → f = finalizerV3) ∧ (err = None ↔ left ≠ None) ∧
    ∀ id, has id (world s') ↔ id = cm_id (remote_dependents_key leaving_remote) ∨
      has id (world leaving_store) ∧ ¬ listed (st_data (world leaving_store) (remote_dependents_key leaving_remote)) id.
Proof.
  apply (remote_deletion one_remote has contents 0 remote_key leaving_remote leaving_store one_remote_cooperative).
  - split; [by left|done].
  - by apply remote_store_one.
  - by left.
Defined.
