(* ===== verification/Coexistence.v ===== *)
(** * Several custom resources on one cluster

    What reconciliations of one custom resource do to the objects of another,
    on a cluster that does what it is asked.  Two InstanaAgents of different
    namespaces, whose roles and bindings have different names, do not notice
    each other; an InstanaAgent and a remote agent of the same name share the
    record of their dependents, and delete each other's objects. *)
From S2P Require Import Prelude GoStd Errors K8sTypes ApiTypes Effects Cluster Client.
From S2P Require Import Transformations Lifecycle RemoteLifecycle OperatorUtils StatusHelpers Status Helpers Reconcile Etcd.
From S2P Require Import VolumeBuilder Secrets AgentObjects SensorObjects DaemonSet K8sDeployment.
From S2P Require Import RemoteVolumeBuilder RemoteEnvBuilder RemoteStatus RemoteObjects RemoteDeployment.
From S2P Require Import Deferring Controllers ControllerProofs RemoteControllers RemoteControllerProofs Resources Watches.
From S2P Require Import Obedient Records Store Convergence Life RemoteConvergence.

(** ** What belongs to an InstanaAgent *)

(** The custom resources are in different namespaces, and the names of their
    roles and bindings, which are outside of them, differ. *)
Definition apart (a b : InstanaAgent) : Prop :=
  agent_Namespace a ≠ agent_Namespace b ∧ ∀ id, id ∈ rbac_identities a → id ∉ rbac_identities b.

Lemma rbac_identities_group a id : id ∈ rbac_identities a → gvk_Group id.1 = rbacApiGroup.
Proof. unfold rbac_identities. cbv zeta. rewrite !elem_of_cons, elem_of_nil. naive_solver. Qed.
Lemma belongs_apart a b id : apart a b → belongs a id → ¬ belongs b id.
Proof.
  intros [Hns Hr] [[Hg Hn]|Ha] [[Hg' Hn']|Hb].
  - congruence.
  - by apply Hg, (rbac_identities_group b).
  - by apply Hg', (rbac_identities_group a).
  - by apply (Hr id).
Qed.
Lemma apart_sym a b : apart a b → apart b a.
Proof. intros [Hns Hr]. split; [congruence|]. intros id Hb Ha. by apply (Hr id). Qed.
(** It is enough that the service accounts and the custom resources have
    different names, and no service account is named like the resources of the
    other's k8sensor. *)
Lemma apart_names a b :
  agent_Namespace a ≠ agent_Namespace b → agent_Name a ≠ agent_Name b →
  ServiceAccountName a ≠ ServiceAccountName b →
  ServiceAccountName a ≠ K8sSensorResourcesName b → ServiceAccountName b ≠ K8sSensorResourcesName a →
  apart a b.
Proof.
  intros Hns Hn H1 H2 H3. split; [done|]. intros id. unfold rbac_identities. cbv zeta.
  rewrite !elem_of_cons, elem_of_nil. unfold etcdReaderName, K8sSensorResourcesName in *.
  intros [->|[->|[->|[->|[->|[->|[]]]]]]]; intros [E|[E|[E|[E|[E|[E|[]]]]]]];
    first [discriminate E|injection E; clear E; intros E];
    first [congruence|by repeat apply string_app_inj_r in E].
Qed.
Lemma copies_belong a id : id ∈ etcd_copies a → belongs a id.
Proof. unfold etcd_copies. rewrite elem_of_cons, list_elem_of_singleton. intros [->| ->]; by left. Qed.

(** The objects of a generation belong to it. *)
Lemma generation_belongs {W} `{K8sApi W} `{ApiErrors} `{Env} `{MapRange} `{Yaml} `{DependentsCodec}
    a objects (s : St W agentStatusManager) :
  (∀ details, snd (yaml_Marshal (YNamespacesDetails details)) = None) → agent_Name a ≠ "" →
  generation_of (W:=W) (Default a) objects →
  ∃ ids, identity <$> objects `sublist_of` ids ∧ Forall (proper (Default a)) ids ∧
    ∃ ds openShift keysSecret context, Forall (fun d => dsb_agent d = Default a) ds ∧
      ids = (daemonSetIdentity <$> ds) ++ fixedIdentities (Default a) ++ (deploymentIdentity <$>
        getK8sSensorDeployments (Default a) openShift (getK8SensorBackends (Default a)) keysSecret context).
Proof.
  intros Hy Hn (ds & openShift & keysSecret & details & context & vs & Hds & _ & Hvs & ->).
  set (o := NewOperatorUtils (Default a) : operatorUtils W agentStatusManager).
  destruct (makes_all o _ _ (allBuilders_make a ds openShift keysSecret details context (Hy details) Hds))
    as (vs' & Hvs' & Hsub). rewrite (Builds_unique _ _ _ s Hvs' Hvs) in Hsub.
  eexists. split; [exact Hsub|]. split; [by apply allIdentities_proper|].
  by exists ds, openShift, keysSecret, context.
Qed.

(** ** One reconciliation *)

(** The custom resource is provisioned, whatever its status is by now. *)
Definition provided {W} `{K8sApi W} `{ApiErrors} `{Env} `{MapRange} `{Yaml} `{DependentsCodec}
    (held : object_id → W → Prop) (a : InstanaAgent) (w : W) : Prop :=
  ∃ status, provisioned held (Default (a <| agent_Status := status |>)) w.

Section Turn.
Context {W : Type} `{ClockLaws W} `{ApiErrors} `{Env} `{MapRangeLaws} `{Yaml} `{DependentsCodecLaws}.
Context `{FinalizersLaws} `{HelmErrors} `{Debug} `{Semver} `{StatusConditionsLaws}.
Context (held : object_id → W → Prop) (data : ObjectKey → W → smap) (delay : Z).
Context (Hyaml : ∀ details, snd (yaml_Marshal (YNamespacesDetails details)) = None).
Notation M := (M W agentStatusManager).
Notation St := (St W agentStatusManager).
Notation touches_only := (touches_only held data).
Notation owns := (owns data).

Lemma generation_touches a objects w w' :
  owns (belongs a) (dependents_key a) w → generation_applied held data a objects w w' →
  touches_only (belongs a) w w' ∧ owns (belongs a) (dependents_key a) w'.
Proof.
  intros Ho (w1 & (Ha & Hb & Hd) & Hg & Hp).
  assert (Hrec : belongs a (cm_id (dependents_key a))) by (by left).
  assert (Ht1 : touches_only (belongs a) w w1).
  { split.
    - intros id Hid. split; [intros [?|?%copies_belong]%Ha|intros [?|?%copies_belong]%Hb]; done.
    - intros k Hk. apply Hd. by intros ?%copies_belong. }
  destruct (applied_touches held data (belongs a) (NewDependentLifecycleManager a) objects w1 w') as [Ht2 Ho'].
  - by eapply proper_kinded.
  - exact Hrec.
  - eapply Forall_impl; [exact Hp|]. by intros o (_ & _ & _ & ?).
  - intros id. change (record_key (NewDependentLifecycleManager a)) with (dependents_key a).
    rewrite (Hd _ (record_no_copy a)). apply Ho.
  - exact Hg.
  - split; [by eapply touches_only_trans|exact Ho'].
Qed.

Lemma belongs_status b status id : belongs (Default (b <| agent_Status := status |>)) id → belongs (Default b) id.
Proof. by destruct b. Qed.
(** What others have provided stays. *)
Lemma provided_undisturbed a b (s : St) w' :
  apart (Default a) (Default b) → agent_Name b ≠ "" →
  touches_only (belongs (Default a)) (world s) w' → provided held b (world s) → provided held b w'.
Proof.
  intros Hap Hn [Hh _] (status & objects & Hgen & Hob). exists status, objects. split; [done|].
  intros obj Ho. apply Hh; [|by apply Hob]. intros Hbel.
  set (b' := b <| agent_Status := status |>) in *.
  destruct (generation_belongs b' objects s Hyaml (Hn : agent_Name b' ≠ "") Hgen) as (ids & Hsub & Hp & _).
  rewrite Forall_forall in Hp.
  destruct (Hp (identity obj)) as (_ & _ & _ & Hb).
  { eapply elem_of_sublist; [|exact Hsub]. by apply list_elem_of_fmap_2. }
  by apply (belongs_apart _ _ _ Hap Hbel), (belongs_status b status).
Qed.

Lemma Reconcile_turn (C : option InstanaAgent → W → Prop) key a (s : St) :
  cooperative C held data delay key →
  settled a → agent_Name a ≠ "" → sensor_enabled a = true → C (Some a) (world s) →
  owns (belongs (Default a)) (dependents_key a) (world s) →
  ∃ status s', Reconcile key s = (Ret (noRequeue, None), s') ∧
    C (Some (a <| agent_Status := status |>)) (world s') ∧ provided held a (world s') ∧
    touches_only (belongs (Default a)) (world s) (world s') ∧
    owns (belongs (Default a)) (dependents_key a) (world s').
Proof.
  intros HC Hset Hn He Hs Ho.
  destruct (Reconcile_settled C held data delay key HC Hyaml a s Hset Hn He Hs)
    as (status & s' & objects & E & Hc & Hgen & Hg).
  destruct (generation_touches (Default a) objects _ _ Ho Hg) as [Ht Ho'].
  exists status, s'. split_and!; [done|done| |done|done]. exists (agent_Status a).
  replace (a <| agent_Status := agent_Status a |>) with a by (by destruct a).
  by eapply generation_provisioned.
Qed.
End Turn.

(** ** Two InstanaAgents that take turns *)
Section Turns.
Context {W : Type} `{ClockLaws W} `{ApiErrors} `{Env} `{MapRangeLaws} `{Yaml} `{DependentsCodecLaws}.
Context `{FinalizersLaws} `{HelmErrors} `{Debug} `{Semver} `{StatusConditionsLaws}.
Notation M := (M W agentStatusManager).
Notation St := (St W agentStatusManager).

(** Reconciliations of two custom resources, in the order the work queue gives
    them, and their results. *)
Fixpoint takeTurns (ka kb : ObjectKey) (turns : list bool) : M (list (ctrlResult * option error)) :=
  match turns with
  | [] => mret []
  | first :: turns =>
      r ← Reconcile (if first : bool then ka else kb);
      rs ← takeTurns ka kb turns;
      mret (r :: rs)
  end.

Context (C : option InstanaAgent → option InstanaAgent → W → Prop).
Context (held : object_id → W → Prop) (data : ObjectKey → W → smap) (delay : Z) (ka kb : ObjectKey).
Context (HA : ∀ ob, cooperative (fun oa => C oa ob) held data delay ka).
Context (HB : ∀ oa, cooperative (C oa) held data delay kb).
Context (Hyaml : ∀ details, snd (yaml_Marshal (YNamespacesDetails details)) = None).

(** A custom resource that is reconciled without further ado. *)
Definition ready (a : InstanaAgent) : Prop := settled a ∧ agent_Name a ≠ "" ∧ sensor_enabled a = true.
(** Its record lists only what belongs to it. *)
Definition own_record (a : InstanaAgent) (w : W) : Prop :=
  owns data (belongs (Default a)) (dependents_key a) w.
Definition neighbours (a b : InstanaAgent) (s : St) : Prop :=
  C (Some a) (Some b) (world s) ∧ own_record a (world s) ∧ own_record b (world s).

Lemma own_record_status a status w : own_record a w → own_record (a <| agent_Status := status |>) w.
Proof. by destruct a. Qed.
Lemma ready_status a status : ready a → ready (a <| agent_Status := status |>).
Proof. by destruct a. Qed.
Lemma apart_status a b status status' :
  apart (Default a) (Default b) →
  apart (Default (a <| agent_Status := status |>)) (Default (b <| agent_Status := status' |>)).
Proof. by destruct a, b. Qed.
Lemma provided_status a status w : provided held (a <| agent_Status := status |>) w → provided held a w.
Proof. intros [status' Hp]. exists status'. by destruct a. Qed.

(** The other one's record is not touched. *)
Lemma own_record_undisturbed a b w w' :
  apart (Default a) (Default b) → touches_only held data (belongs (Default a)) w w' →
  own_record b w → own_record b w'.
Proof.
  intros Hap [_ Hd] Ho id. rewrite (Hd (dependents_key b)); [by apply Ho|].
  intros Hbel. apply (belongs_apart _ _ _ Hap Hbel). by left.
Qed.

Lemma turns_keep turns : ∀ a b (s : St),
  ready a → ready b → apart (Default a) (Default b) → neighbours a b s →
  ∃ s', takeTurns ka kb turns s = (Ret (replicate (length turns) (noRequeue, None)), s') ∧
    (true ∈ turns ∨ provided held a (world s) → provided held a (world s')) ∧
    (false ∈ turns ∨ provided held b (world s) → provided held b (world s')).
Proof.
  induction turns as [|turn turns IH]; intros a b s Ha Hb Hap (Hs & Hoa & Hob).
  { exists s. split; [done|]. split; by intros [?%elem_of_nil|?]. }
  simpl. destruct turn.
  - destruct Ha as (Hset & Hn & He).
    destruct (Reconcile_turn held data delay Hyaml (fun oa => C oa (Some b)) ka a s (HA (Some b)) Hset Hn He Hs Hoa)
      as (status & s1 & E & Hc & Hp & Ht & Hoa').
    destruct (IH (a <| agent_Status := status |>) b s1) as (s' & E' & Pa & Pb);
      [by apply ready_status|done|by destruct a|..].
    { split; [done|]. split; [by apply own_record_status|by apply (own_record_undisturbed a b (world s))]. }
    exists s'. rewrite (bind_Ret _ _ _ _ _ E), (bind_Ret _ _ _ _ _ E'). split; [done|]. split.
    + intros _. apply (provided_status a status), Pa. right. by destruct a.
    + rewrite elem_of_cons. intros [[?|?]|Hpb]; [done|by apply Pb; left|]. apply Pb. right.
      by apply (provided_undisturbed held data Hyaml a b s); [|apply Hb|..].
  - destruct Hb as (Hset & Hn & He). pose proof (apart_sym _ _ Hap) as Hap'.
    destruct (Reconcile_turn held data delay Hyaml (C (Some a)) kb b s (HB (Some a)) Hset Hn He Hs Hob)
      as (status & s1 & E & Hc & Hp & Ht & Hob').
    destruct (IH a (b <| agent_Status := status |>) s1) as (s' & E' & Pa & Pb);
      [done|by apply ready_status|by destruct b|..].
    { split; [done|]. split; [by apply (own_record_undisturbed b a (world s))|by apply own_record_status]. }
    exists s'. rewrite (bind_Ret _ _ _ _ _ E), (bind_Ret _ _ _ _ _ E'). split; [done|]. split.
    + rewrite elem_of_cons. intros [[?|?]|Hpa]; [done|by apply Pa; left|]. apply Pa. right.
      by apply (provided_undisturbed held data Hyaml b a s); [|apply Ha|..].
    + intros _. apply (provided_status b status), Pb. right. by destruct b.
Qed.
End Turns.

(** ** An InstanaAgent and a remote agent of the same name *)

(** An object every generation of the InstanaAgent has and the remote agent
    never, and one the other way around. *)
Definition headless_id (a : InstanaAgent) : object_id :=
  (GVK "" "v1" "Service", Key (agent_Namespace a) (agent_Name a +++ "-headless")).
Definition remote_config_id (r : InstanaAgentRemote) : object_id :=
  (GVK "" "v1" "Secret", Key (remote_Namespace r) ("instana-agent-r-" +++ remote_Name r +++ "-config")).

Section Namesakes.
Context {W : Type} `{K8sApi W} `{ApiErrors} `{Env} `{MapRange} `{Yaml} `{DependentsCodec}.

Lemma generation_headless a objects (s : St W agentStatusManager) :
  generation_of (W:=W) (Default a) objects → headless_id a ∈ identity <$> objects.
Proof.
  intros (ds & openShift & keysSecret & details & context & vs & _ & _ & Hvs & ->).
  assert (Hb : ∃ svc, buildHeadlessService (Default a) = Value svc ∧ identity (OService svc) = headless_id a).
  { unfold buildHeadlessService. destruct (GetServicePorts_returns a) as [ports ->]. by eexists. }
  destruct Hb as (svc & Hb & <-). set (b := NewHeadlessServiceBuilder (Default a) : ObjectBuilder W agentStatusManager).
  rewrite <- (identity_transform (NewTransformations (Default a)) (ComponentName b) (IsNamespaced b) (OService svc)).
  apply list_elem_of_fmap_2, (transformedAll_intro (NewOperatorUtils (Default a)) _ vs b _ s Hvs).
  - unfold allBuilders, fixedBuilders. rewrite !elem_of_app. right; left. by left.
  - intros [w t l]. exists l. subst b. cbn [Build NewHeadlessServiceBuilder]. by rewrite Hb.
Qed.
Lemma remote_generation_config r objects (s : St W instanaAgentRemoteStatusManager) :
  remote_generation_of (W:=W) (DefaultRemote r) objects → remote_config_id r ∈ identity <$> objects.
Proof.
  intros (keysSecret & vs & Hvs & ->). set (backends := getRemoteSensorBackends (DefaultRemote r)) in *.
  set (b := NewRemoteConfigBuilder (DefaultRemote r) (Some keysSecret) backends
    : ObjectBuilder W instanaAgentRemoteStatusManager).
  assert (Hb : ∃ cfg, remote_configData (DefaultRemote r) (Some keysSecret) backends = Value cfg).
  { unfold remote_configData, remote_backendConfig.
    destruct (remote_backendConfig_from_returns (DefaultRemote r) keysSecret 0 backends ∅) as [c ->]. by eexists. }
  destruct Hb as (cfg & Hb).
  set (obj := OSecret (newSecret (remote_configName (DefaultRemote r)) (remote_Namespace (DefaultRemote r))
                         SecretTypeOpaque cfg)).
  change (remote_config_id r) with (identity obj).
  rewrite <- (identity_transform (NewTransformationsRemote (DefaultRemote r)) (ComponentName b) (IsNamespaced b) obj).
  apply list_elem_of_fmap_2, (transformedAll_intro (NewRemoteOperatorUtils (DefaultRemote r)) _ vs b _ s Hvs).
  - unfold remote_allBuilders. rewrite elem_of_app. right. by left.
  - intros [w t l]. eexists. subst b obj. cbn [Build NewRemoteConfigBuilder]. by rewrite Hb.
Qed.

Lemma generation_no_remote_config a r objects (s : St W agentStatusManager) :
  (∀ details, snd (yaml_Marshal (YNamespacesDetails details)) = None) → agent_Name a ≠ "" →
  resource_key a = remote_resource_key r →
  generation_of (W:=W) (Default a) objects → remote_config_id r ∉ identity <$> objects.
Proof.
  intros Hy Hn [= Hns Hname] Hgen Hin.
  destruct (generation_belongs a objects s Hy Hn Hgen) as (ids & Hsub & _ & ds & openShift & ks & ctx & _ & ->).
  apply (elem_of_sublist _ _ _ Hin) in Hsub. revert Hsub. unfold fixedIdentities, remote_config_id.
  rewrite !elem_of_app. intros [(d & [=] & _)%list_elem_of_fmap|[Hf|(d & [=] & _)%list_elem_of_fmap]].
  change (agent_Name (Default a)) with (agent_Name a) in Hf. rewrite Hname in Hf. revert Hf.
  rewrite !elem_of_cons, elem_of_nil. generalize (remote_Name r). intros n Hf.
  repeat (destruct Hf as [E|Hf]; [first [discriminate E|
    injection E as _ E; apply (f_equal String.length) in E; rewrite ?string_length_app in E; simpl in E; lia]|]).
  done.
Qed.
Lemma remote_generation_no_headless a r objects (s : St W instanaAgentRemoteStatusManager) :
  remote_generation_of (W:=W) (DefaultRemote r) objects → headless_id a ∉ identity <$> objects.
Proof.
  intros (keysSecret & vs & Hvs & ->) Hin.
  destruct (makes_all (NewRemoteOperatorUtils (DefaultRemote r)) _ _
    (remote_allBuilders_make (DefaultRemote r) keysSecret (getRemoteSensorBackends (DefaultRemote r))))
    as (vs' & Hvs' & Hsub). rewrite (Builds_unique _ _ _ s Hvs' Hvs) in Hsub.
  apply (elem_of_sublist _ _ _ Hin) in Hsub. revert Hsub. unfold remote_fixedIdentities.
  rewrite elem_of_app, !elem_of_cons, elem_of_nil.
  intros [[? _]%elem_of_replicate|Hf]; [done|]. naive_solver.
Qed.
End Namesakes.

(** As [provided], for a remote agent. *)
Definition remote_provided {W} `{K8sApi W} `{ApiErrors} `{Env} `{MapRange} `{Yaml} `{DependentsCodec}
    (held : object_id → W → Prop) (r : InstanaAgentRemote) (w : W) : Prop :=
  ∃ status, remote_provisioned held (DefaultRemote (r <| remote_Status := status |>)) w.

Section Fight.
Context {W : Type} `{ClockLaws W} `{ApiErrors} `{Env} `{MapRangeLaws} `{Yaml} `{DependentsCodecLaws}.
Context `{FinalizersLaws} `{HelmErrors} `{Debug} `{Semver} `{StatusConditionsLaws}.
Context (held : object_id → W → Prop) (data : ObjectKey → W → smap) (delay : Z) (key : ObjectKey).
Context (Hyaml : ∀ details, snd (yaml_Marshal (YNamespacesDetails details)) = None).
Implicit Types (a : InstanaAgent) (r : InstanaAgentRemote).

(** One record for both. *)
Lemma namesakes_record a r :
  resource_key a = remote_resource_key r →
  dependents_key (Default a) = remote_dependents_key (DefaultRemote r).
Proof.
  intros [= Hns Hn]. unfold dependents_key, remote_dependents_key, record_key, getConfigMapName. simpl.
  unfold agent_Name, agent_Namespace, remote_Name, remote_Namespace in *. simpl in *. congruence.
Qed.

Definition lists (k : ObjectKey) (w : W) (id : object_id) : Prop := single (data k w) ∧ listed (data k w) id.

(** A reconciliation of the InstanaAgent leaves its headless service and the
    record of it, and takes what was recorded of the remote agent. *)
Lemma agent_takes (C : option InstanaAgent → W → Prop) a r (s : St W agentStatusManager) :
  cooperative C held data delay key → resource_key a = remote_resource_key r →
  ready a → C (Some a) (world s) →
  ∃ status s', Reconcile key s = (Ret (noRequeue, None), s') ∧ C (Some (a <| agent_Status := status |>)) (world s') ∧
    provided held a (world s') ∧ lists (dependents_key (Default a)) (world s') (headless_id a) ∧
    (lists (dependents_key (Default a)) (world s) (remote_config_id r) → ¬ held (remote_config_id r) (world s')).
Proof.
  intros HC Hkey (Hset & Hn & He) Hs.
  destruct (Reconcile_settled C held data delay key HC Hyaml a s Hset Hn He Hs)
    as (status & s' & objects & E & Hc & Hgen & Hg).
  destruct (generation_recorded held data (Default a) objects _ _ Hg) as [[Hsing Hl] Hold].
  exists status, s'. split; [exact E|]. split; [exact Hc|]. split; [|split].
  - exists (agent_Status a). replace (a <| agent_Status := agent_Status a |>) with a by (by destruct a).
    by eapply generation_provisioned.
  - split; [exact Hsing|]. apply Hl. by apply (generation_headless a objects s).
  - intros [Hs1 Hl1] Hh. destruct (Hold Hs1 _ Hl1 Hh) as [Hu|Hin].
    + revert Hu. unfold unrecorded, etcd_copies. rewrite !elem_of_cons, elem_of_nil. naive_solver.
    + by apply (generation_no_remote_config a r objects s Hyaml Hn Hkey Hgen).
Qed.
Lemma remote_takes (C : option InstanaAgentRemote → W → Prop) a r (s : St W instanaAgentRemoteStatusManager) :
  remote_cooperative C held data delay key → resource_key a = remote_resource_key r →
  remote_settled r → remote_Name r ≠ "" → C (Some r) (world s) →
  ∃ status s', RemoteReconcile key s = (Ret (noRequeue, None), s') ∧
    C (Some (r <| remote_Status := status |>)) (world s') ∧
    remote_provided held r (world s') ∧ lists (dependents_key (Default a)) (world s') (remote_config_id r) ∧
    (lists (dependents_key (Default a)) (world s) (headless_id a) → ¬ held (headless_id a) (world s')).
Proof.
  intros HC Hkey Hset Hn Hs. rewrite (namesakes_record a r Hkey).
  destruct (RemoteReconcile_settled C held data delay key HC r s Hset Hn Hs)
    as (status & s' & objects & E & Hc & Hgen & Hg & Hp).
  assert (Hk : kinded objects) by (eapply Forall_impl; [exact Hp|]; by intros o (_ & ? & _)).
  pose proof Hg as [_ Hcl _ Hr _ _]. destruct (record_lists _ _ _ _ Hk Hr) as [Hsing Hl].
  exists status, s'. split; [exact E|]. split; [exact Hc|]. split; [|split].
  - exists (remote_Status r). replace (r <| remote_Status := remote_Status r |>) with r by (by destruct r).
    by eapply remote_generation_provisioned.
  - split; [exact Hsing|]. apply Hl. by apply (remote_generation_config r objects s).
  - intros [Hs1 Hl1] [[=]|[_ Hin]]%Hcl.
    apply (remote_generation_no_headless a r objects s Hgen), Hin. by apply listed_registered.
Qed.
(** Without its object a custom resource is not provided. *)
Lemma provided_headless a w (s : St W agentStatusManager) : provided held a w → held (headless_id a) w.
Proof.
  intros (status & objects & Hgen & Hob). set (a' := a <| agent_Status := status |>) in *.
  pose proof (generation_headless a' objects s Hgen) as (obj & E & Ho)%list_elem_of_fmap.
  change (headless_id a) with (headless_id a'). rewrite E. by apply Hob.
Qed.
Lemma remote_provided_config r w (s : St W instanaAgentRemoteStatusManager) :
  remote_provided held r w → held (remote_config_id r) w.
Proof.
  intros (status & objects & Hgen & Hob). set (r' := r <| remote_Status := status |>) in *.
  pose proof (remote_generation_config r' objects s Hgen) as (obj & E & Ho)%list_elem_of_fmap.
  change (remote_config_id r) with (remote_config_id r'). rewrite E. by apply Hob.
Qed.
End Fight.

(** ** A store with two custom resources *)
Definition other_key : ObjectKey := Key "other" "second".
Definition other_agent : InstanaAgent :=
  managed_agent <| agent_Meta ::= fun m => m <| om_Name := "second" |> <| om_Namespace := "other" |> |>.
(** A remote agent that is named like the example agent. *)
Definition namesake : InstanaAgentRemote :=
  managed_remote <| remote_Meta ::= fun m => m <| om_Name := "agent" |> |>.
Definition store_of (agents : list InstanaAgent) (remotes : list InstanaAgentRemote) : store :=
  {| st_time := 0; st_held := []; st_data := fun _ => ∅;
     st_agents := fun k => List.find (fun a => bool_decide (resource_key a = k)) agents;
     st_remotes := fun k => List.find (fun a => bool_decide (remote_resource_key a = k)) remotes |}.
Lemma store_of_sane agents remotes : sane (store_of agents remotes).
Proof.
  split; simpl.
  - intros k a [_ E]%List.find_some. by apply bool_decide_eq_true in E.
  - intros k a [_ E]%List.find_some. by apply bool_decide_eq_true in E.
  - done.
Qed.
(** What is stored under the keys of both. *)
Definition both_agents (oa ob : option InstanaAgent) (s : store) : Prop :=
  sane s ∧ st_agents s agent_key = oa ∧ st_agents s other_key = ob.
Definition agent_and_remote (oa : option InstanaAgent) (or : option InstanaAgentRemote) (s : store) : Prop :=
  sane s ∧ st_agents s agent_key = oa ∧ st_remotes s agent_key = or.
Definition first_cooperative ob : cooperative (fun oa => both_agents oa ob) has contents 0 agent_key.
Proof.
  apply store_cooperative.
  - by intros oa s (? & ? & _).
  - intros oa oa' s s' (_ & _ & E) Hs' [Ho _] Ea. split; [done|]. split; [done|]. by rewrite Ho.
Defined.
Definition second_cooperative oa : cooperative (both_agents oa) has contents 0 other_key.
Proof.
  apply store_cooperative.
  - by intros ob s (? & _ & ?).
  - intros ob ob' s s' (_ & E & _) Hs' [Ho _] Eb. split; [done|]. split; [|done]. by rewrite Ho.
Defined.
Definition agent_cooperative or : cooperative (fun oa => agent_and_remote oa or) has contents 0 agent_key.
Proof.
  apply store_cooperative.
  - by intros oa s (? & ? & _).
  - intros oa oa' s s' (_ & _ & E) Hs' [_ Ho] Ea. split; [done|]. split; [done|]. by rewrite Ho.
Defined.
Definition namesake_cooperative oa : remote_cooperative (agent_and_remote oa) has contents 0 agent_key.
Proof.
  apply store_remote_cooperative.
  - by intros or s (? & _ & ?).
  - intros or or' s s' (_ & E & _) Hs' [_ Ho] Er. split; [done|]. split; [|done]. by rewrite Ho.
Defined.
Lemma examples_apart : apart (Default managed_agent) (Default other_agent).
Proof. by apply apart_names. Qed.
(** InstanaAgents of one name are not: in whatever namespaces they are, they
    apply the same cluster-wide binding, each for its own service account. *)
Example binding_shared :
  let namesake := managed_agent <| agent_Meta ::= fun m => m <| om_Namespace := "other" |> |> in
  identity (OClusterRoleBinding (buildClusterRoleBinding managed_agent)) =
    identity (OClusterRoleBinding (buildClusterRoleBinding namesake)) ∧
  sub_Namespace <$> rb_Subjects (buildClusterRoleBinding managed_agent) = ["ns"] ∧
  sub_Namespace <$> rb_Subjects (buildClusterRoleBinding namesake) = ["other"].
Proof. done. Qed.
Lemma other_settled : settled other_agent.
Proof. split_and!; [by left| |done]. by intros [?|?%elem_of_nil]%elem_of_cons. Qed.
(** A record without data lists nothing. *)
Lemma empty_owns (P : object_id → Prop) k (s : store) : st_data s k = ∅ → owns contents P k s.
Proof.
  intros E id (u & (name & line & Hl & _) & _). rewrite E in Hl. by rewrite lookup_empty in Hl.
Qed.

(** ** Properties *)

(** C4: InstanaAgents of different namespaces whose roles and bindings have
    different names do not notice each other.  Both have a name and the
    finalizer, but not the predecessor's, are not being deleted, have their
    k8sensor enabled, and their records list only objects of their own; the
    cluster does what it is asked.  However the work queue mixes their reconciliations,
    each of these succeeds, and what a custom resource was provided with once
    is still there after the reconciliations of the other. *)
Theorem agents_coexist {W} `{ClockLaws W} `{ApiErrors} `{Env} `{MapRangeLaws} `{Yaml} `{DependentsCodecLaws}
    `{FinalizersLaws} `{HelmErrors} `{Debug} `{Semver} `{StatusConditionsLaws}
    (C : option InstanaAgent → option InstanaAgent → W → Prop) held data delay ka kb turns a b
    (s : St W agentStatusManager) :
  (∀ ob, cooperative (fun oa => C oa ob) held data delay ka) →
  (∀ oa, cooperative (C oa) held data delay kb) →
  (∀ details, snd (yaml_Marshal (YNamespacesDetails details)) = None) →
  settled a → settled b → agent_Name a ≠ "" → agent_Name b ≠ "" →
  sensor_enabled a = true → sensor_enabled b = true →
  apart (Default a) (Default b) → C (Some a) (Some b) (world s) →
  owns data (belongs (Default a)) (dependents_key a) (world s) →
  owns data (belongs (Default b)) (dependents_key b) (world s) →
  ∃ s', takeTurns ka kb turns s = (Ret (replicate (length turns) (noRequeue, None)), s') ∧
    (true ∈ turns → provided held a (world s')) ∧ (false ∈ turns → provided held b (world s')).
Proof.
  intros HA HB Hy Ha Hb Hna Hnb Hea Heb Hap Hs Hoa Hob.
  destruct (turns_keep C held data delay ka kb HA HB Hy turns a b s) as (s' & E & Pa & Pb); [done..|].
  exists s'. split; [exact E|]. split; intros ?; [apply Pa|apply Pb]; by left.
Qed.

Definition neighbours_start : St store agentStatusManager :=
  MkSt (store_of [managed_agent; other_agent] []) [] NewAgentStatusManager.
Lemma agents_coexist_witness :
  ∃ s', takeTurns agent_key other_key [true; false; false; true] neighbours_start =
      (Ret (replicate 4 (noRequeue, None)), s') ∧
    (true ∈ [true; false; false; true] → provided has managed_agent (world s')) ∧
    (false ∈ [true; false; false; true] → provided has other_agent (world s')).
Proof.
  apply (agents_coexist both_agents has contents 0 agent_key other_key [true; false; false; true]
    managed_agent other_agent neighbours_start first_cooperative second_cooperative flow_yaml_details).
  - exact managed_settled.
  - exact other_settled.
  - done.
  - done.
  - done.
  - done.
  - exact examples_apart.
  - split; [apply store_of_sane|by split].
  - by apply empty_owns.
  - by apply empty_owns.
Defined.

(** C14: an InstanaAgent and a remote agent of the same namespace and name
    share the config map that lists their dependents, and destroy each other's
    objects.  Both have the finalizer, but not the predecessor's, and are not
    being deleted, the k8sensor is enabled, and the cluster does what it is
    asked: then each reconciliation succeeds and provides its own
    custom resource, and what the reconciliation of the other one provided
    before is no longer complete. *)
Theorem namesakes_destroy_each_other {W} `{ClockLaws W} `{ApiErrors} `{Env} `{MapRangeLaws} `{Yaml}
    `{DependentsCodecLaws} `{FinalizersLaws} `{HelmErrors} `{Debug} `{Semver} `{StatusConditionsLaws}
    (C : option InstanaAgent → option InstanaAgentRemote → W → Prop) held data delay key a r
    (s1 : St W instanaAgentRemoteStatusManager) (m : agentStatusManager) (n : instanaAgentRemoteStatusManager) :
  (∀ or, cooperative (fun oa => C oa or) held data delay key) →
  (∀ oa, remote_cooperative (C oa) held data delay key) →
  (∀ details, snd (yaml_Marshal (YNamespacesDetails details)) = None) →
  resource_key a = remote_resource_key r → agent_Name a ≠ "" → settled a → sensor_enabled a = true →
  remote_settled r → C (Some a) (Some r) (world s1) →
  ∃ s2 s3 s4, RemoteReconcile key s1 = (Ret (noRequeue, None), s2) ∧ remote_provided held r (world s2) ∧
    Reconcile key (MkSt (world s2) [] m) = (Ret (noRequeue, None), s3) ∧
    provided held a (world s3) ∧ ¬ remote_provided held r (world s3) ∧
    RemoteReconcile key (MkSt (world s3) [] n) = (Ret (noRequeue, None), s4) ∧
    remote_provided held r (world s4) ∧ ¬ provided held a (world s4).
Proof.
  intros HA HR Hy Hkey Hn Hsa He Hset Hs. pose proof (conj Hsa (conj Hn He) : ready a) as Ha.
  assert (Hnr : remote_Name r ≠ "") by (by injection Hkey as _ <-).
  destruct (remote_takes held data delay key (C (Some a)) a r s1 (HR _) Hkey Hset Hnr Hs)
    as (st & s2 & E2 & Hc2 & Hp2 & Hl2 & _). set (r2 := r <| remote_Status := st |>) in *.
  destruct (agent_takes held data delay key Hy (fun oa => C oa (Some r2)) a r (MkSt (world s2) [] m)
    (HA _) Hkey Ha Hc2) as (st' & s3 & E3 & Hc3 & Hp3 & Hl3 & Hno3).
  set (a3 := a <| agent_Status := st' |>) in *.
  destruct (remote_takes held data delay key (C (Some a3)) a r2 (MkSt (world s3) [] n) (HR _) Hkey Hset Hnr Hc3)
    as (st'' & s4 & E4 & _ & Hp4 & _ & Hno4).
  exists s2, s3, s4. split; [exact E2|]. split; [exact Hp2|]. split; [exact E3|]. split; [exact Hp3|].
  split; [|split; [exact E4|split]].
  - intros Hp. apply (Hno3 Hl2). by apply (remote_provided_config held r _ s2).
  - destruct Hp4 as [status Hp4]. exists status. exact Hp4.
  - intros Hp. apply (Hno4 Hl3). by apply (provided_headless held a _ s3).
Qed.

Definition namesakes_start : St store instanaAgentRemoteStatusManager :=
  MkSt (store_of [managed_agent] [namesake]) [] NewInstanaAgentRemoteStatusManager.
Lemma namesakes_destroy_each_other_witness :
  ∃ s2 s3 s4, RemoteReconcile agent_key namesakes_start = (Ret (noRequeue, None), s2) ∧
    remote_provided has namesake (world s2) ∧
    Reconcile agent_key (MkSt (world s2) [] NewAgentStatusManager) = (Ret (noRequeue, None), s3) ∧
    provided has managed_agent (world s3) ∧ ¬ remote_provided has namesake (world s3) ∧
    RemoteReconcile agent_key (MkSt (world s3) [] NewInstanaAgentRemoteStatusManager) =
      (Ret (noRequeue, None), s4) ∧
    remote_provided has namesake (world s4) ∧ ¬ provided has managed_agent (world s4).
Proof.
  apply (namesakes_destroy_each_other agent_and_remote has contents 0 agent_key managed_agent namesake
    namesakes_start NewAgentStatusManager NewInstanaAgentRemoteStatusManager
    agent_cooperative namesake_cooperative flow_yaml_details).
  - reflexivity.
  - done.
  - exact managed_settled.
  - done.
  - split; [by left|done].
  - split; [apply store_of_sane|by split].
Defined.
